(* ===== verification/_CoqProject ===== *)
-Q . S2P
Prelude.v
Services.v
GoStrings.v
GoHttp.v
Errors.v
JsonString.v
Json.v
Float64.v
Backend.v
Any.v
JsonRound.v
FloatRound.v
DecodeSound.v
JsonIndent.v
RouterSpec.v
RouterMeaning.v
RouterText.v
WsCodec.v
World.v
RestErrors.v
RestStream.v
ProfileData.v
Profile.v
BodyDecoders.v
RestHandler.v
RestAnswer.v
RestGate.v
WsRegistry.v
Options.v
ServeMux.v
MuxMatch.v
Server.v
Generator.v
GeneratorOrder.v
SpecData.v
GeneratorEvidence.v
GeneratorText.v
GeneratorInput.v
GeneratorMain.v
WsHandler.v
WsSession.v
WsLive.v
OpenAI.v
Base64.v
Multipart.v
Fixtures.v
SpecCache.v
FakeSession.v
FakeBackend.v
Process.v
Examples.v
FakeRest.v
