(* ===== verification/Prelude.v ===== *)
(** * Verification of ai-server-shell

    ai-server-shell is a Go library that puts the OpenAI HTTP and WebSocket
    protocols in front of an application's backends.  This library models its
    packages as executable definitions and proves what they promise.

    ** The program and its parts

    An application builds a registry of backends ([backend.NewServices]), an
    OpenAI handler over it ([openai.NewHandler]), and mounts the handler, alone
    or with others, on an aggregate server ([aiservershell.New]).  A request
    enters at the server ([Server.ServeMounted]), which asks Go's mux for the
    mounted handler; the OpenAI handler ([OpenAI.ServeOpenAI]) sends upgrades of
    its two session paths to the WebSocket handler and everything else to the
    REST handler.  Both authenticate the caller, find the operation in the
    frozen profile, look the backend up in the registry, call it, and write its
    answer, its stream or its errors.

    ** Files and what they model

    - [Prelude]: results, Go interface values with reflect's kinds, tactics.
    - [GoStrings], [GoHttp], [JsonString], [Json], [Float64], [Any]: the parts of
      Go's strings, strconv, net/url, net/textproto, mime, encoding/json and
      float64 that the program uses, as the program meets them.
    - [Services] (backend/services.go, backend/capability.go): the options,
      [NewServices], [HandlerFor], [SessionFor].
    - [Errors] (backend/errors.go): backend errors and Go error chains.
    - [Backend] (backend/request.go, response.go, metadata.go, handler.go,
      realtime.go): requests, responses, events, sessions.
    - [World]: the effect monad of the handlers.  A computation threads the
      response writer and the trace of calls to collaborators, and returns,
      panics, or waits for ever.  The writer is net/http's: the header map is
      frozen with the final status, interim statuses are passed by, a declared
      [Content-Length] refuses what exceeds it, and the connection may fail after
      any number of bytes; [takes_all] says that neither of the two cuts a body.
    - [BodyDecoders] (openai/internal/rest/body_decoders.go): the decoders the
      package registers with the OpenAPI library.
    - [RestErrors] (openai/internal/rest/errors.go), [RestStream]
      (openai/internal/rest/stream.go), [RestHandler]
      (openai/internal/rest/handler.go and contract.go): the REST handler.
      [RestAnswer] and [RestGate] hold its properties.
    - [ProfileData], [Profile] (openai/internal/profile/profile.gen.go,
      profile.go): the 288 operations and 121 events, and their lookups.
    - [RouterSpec] (profile.go): the router copy of the frozen document.
      [RouterMeaning] gives schemas a meaning and shows that the copy keeps it;
      [RouterText] adds the decoding and encoding around it.
    - [JsonRound], [FloatRound], [DecodeSound], [JsonIndent]: what [json.Marshal]
      and [json.MarshalIndent] write [json.Unmarshal] reads back, numbers
      included, and every decoded document is one of those.
    - [Base64], [Multipart]: encoding/base64, and mime/multipart with the headers
      and media type parameters it reads.
    - [SpecCache] (profile.go): [SpecJSON], its [sync.Once] and the arrays its
      callers are given.
    - [WsCodec], [WsRegistry], [WsHandler]
      (openai/internal/websocket/handler.go): the event codec, the registry of
      active sessions with [Shutdown], and the connection handler with its two
      loops.  [WsSession] runs an accepted session: the handler's goroutine and
      those of the loops, with [errorsChannel], the context, the connection and
      the timer between them; [WsLive] has its properties.
    - [Options] (openai/options.go, auth.go), [OpenAI] (openai/handler.go).
    - [Process]: the OpenAI handler at run time.  Every request is a goroutine
      that performs the actions of [OpenAI.ServeOpenAI] one by one; the registry
      of [WsRegistry] admits the sessions, and [Shutdown] waits for them;
      [Process.drain] is the part of these steps it can count on.
    - [ServeMux], [MuxMatch], [Server] (server.go): Go's mux as the server uses
      it, the correctness of its search, and the aggregate server.
    - [Generator], [GeneratorText], [GeneratorMain]
      (internal/cmd/openai-gen/main.go): the tool that makes the tables of the
      profile and the compatibility matrix: its tables, its texts, and [main]
      with the flags, the files and the manifest.  [GeneratorInput] decodes its two
      inputs; [SpecData] is what it decodes of the frozen ones, [GeneratorOrder]
      shows that the order of Go's maps does not matter, [GeneratorEvidence] what
      its checks accept and that the checked-in tables are its output.
    - [Examples] (examples/minimal/main.go, examples/aggregate/main.go): the two
      example programs, up to the listener.
    - [FakeSession] (internal/testutil/fake_session.go, scripted_stream.go): the
      session the SDK suites run against, as a system of goroutines.
    - [Fixtures], [FakeBackend] (internal/testutil/fixtures.go,
      fake_backend.go): the cases of the SDK suites and the backend that answers
      and records them; [FakeRest] puts it behind the OpenAI handler, as the
      suites do.

    ** Correspondence

    A definition carries the name of the Go function or type it models, and its
    branches follow the code's, in the code's order.  A Go map is a [gmap], or,
    where the code ranges over it, the list of its entries in the order they are
    visited, the theorems holding for every order.  A [(value, error)] pair is a
    [result]; a panic is an outcome of the monad or [None].  int64 values are
    [Z] with the wrap-around written out ([add64]); identifiers of sessions are
    [N] modulo 2^64 ([incr64]).  Go strings are byte strings.  Two goroutines
    are two step sequences whose interleavings are quantified over
    ([WsRegistry.step], [WsSession.live_step], [FakeSession.fs_step],
    [FakeBackend.fb_step], [SpecCache.spec_step]), and [Process.pstep] composes
    the registry with the goroutines of the requests.  Where the aliasing of
    slices matters ([SpecCache]), a slice is an address in a store.

    ** What the theorems show

    - Safety of the gates: a backend is called, or a session opened, exactly for
      the requests that pass authentication, size limit, routing, profile,
      validation and registry, once, with the input they determine, end to end
      from the configured options; every other request gets the error of its
      first failing gate.
    - Answers: every request gets one final status under its identifier (the
      exceptions, a backend that asks for an interim status or returns a nil
      error object, are part of the statement); bodies, streams, sessions and
      connections are closed exactly once; of the request [Authorization],
      [Cookie] and [Sec-WebSocket-Protocol], and of the backend's metadata ten
      named headers, are held back; causes of errors stay inside.
    - Streams: what a client reads by the event-stream rules is what the backend
      streamed, for data without carriage returns.
    - Sessions: in every interleaving the session sees exactly the allowed client
      frames and the client exactly the encodings of the backend's events, and
      the goroutines of a session do just that, close everything once and in
      order, and come to an end;
      when [Shutdown] returns nil, the registry is empty and every session request
      has run to its end and closed what it opened; [Shutdown] needs nobody but
      the goroutines it has cancelled to return, within a bound; and no channel
      is closed twice.
    - Registry, options and server: construction refines an abstract
      specification, does not depend on the order of options, and reports the
      first refusal; requests go to the most specific pattern, and redirects and
      allowed methods are the ones the mounted patterns call for.
    - Profile: route resolution over the whole table is exact; the router copy of
      the document accepts the same values at every schema it recognises, and is
      nullable, for the older library, where the document has the null type.
    - Codec: what is encoded decodes to what was sent.
    - Generator: it is reproducible, its texts read back, run on the frozen
      inputs, as files, it writes the checked-in tables, entry by entry, if the formatter accepts the source, and it writes
      nothing before all of its checks but one have passed.
    - Programs: the minimal example answers the list of models, from its options
      to the bytes; the aggregate example serves exactly what is below [/v1/].
    - SDK suites: a case passes exactly when the request is the one its fixture
      describes, multipart forms included, the client then gets the fixture's
      bytes, and the backend's records are complete in every interleaving.
    - Caches: callers of [SpecJSON] cannot change what others read.
    - A few theorems state where the code falls short of its own documents: they
      are the findings of the manifest.

    ** Fuel and bounds

    [Json.parse] recurses with fuel [2 * length + 2], two calls for every byte,
    and refuses nesting beyond [max_depth] (10000, as encoding/json does);
    [JsonRound.parse_marshal] shows it enough for whatever the encoder writes.
    [Float64.shortest_from] tries up to 800 digits, and [FloatRound.shortest_reads]
    shows that it finds digits that read back, for every canonical float64.
    [RouterSpec.normalize] has the nesting of the document as
    fuel, and [normalize_fuel] shows that more changes nothing.  The parts of a
    multipart body are read with its length as fuel, which
    [Fixtures.read_parts_fuel] shows enough, each part being shorter than what was
    left.  Other loops over a string have its length as fuel and consume a byte
    each time round; all other recursion is structural.

    ** Not modelled

    Third-party and generated code: kin-openapi (the router, the validators and
    the document loader are parameters of the handlers), coder/websocket (its
    reads, writes, close statuses, and what [Accept] answers when it refuses a
    handshake, are parameters), and the text of the
    compressed document, which [SpecCache] takes as an argument.  Of Go itself: deadlines (the time-out of a session's [Close]; the
    other timer of the handler is a step of [WsSession] that may come at any time),
    logging, goroutine scheduling beyond the interleavings above, memory
    limits, the limits mime/multipart puts on part headers, and what a client
    makes of a response that is shorter than its declared length.  Unicode tables beyond ASCII are parameters where a standard function
    consults them, and so are the quoted-printable transfer encoding and the
    texts of [fmt.Errorf] in the fake backend.  Of the generator: sha256, gzip
    and go/format, and the text of the pinned OpenAPI document, of which [SpecData]
    states what it decodes to.  The tests are not part of the program. *)
From stdpp Require Export base tactics option list gmap strings sets.
From Stdlib Require Export ZArith Lia.
From Stdlib Require Export Ascii.

(** * Fallible computations: Go's [(value, error)] pairs *)

Inductive result (E A : Type) : Type :=
| Ok (a : A)
| Err (e : E).
Arguments Ok {E A} a.
Arguments Err {E A} e.

#[export] Instance result_ret {E} : MRet (result E) := λ A a, Ok a.
#[export] Instance result_bind {E} : MBind (result E) :=
  λ A B f r, match r with Ok a => f a | Err e => Err e end.
#[export] Instance result_fmap {E} : FMap (result E) :=
  λ A B f r, match r with Ok a => Ok (f a) | Err e => Err e end.

#[export] Instance result_eq_dec {E A} `{EqDecision E, EqDecision A} :
  EqDecision (result E A).
Proof. solve_decision. Defined.

Definition is_ok {E A} (r : result E A) : bool :=
  match r with Ok _ => true | Err _ => false end.

Lemma result_bind_Ok {E A B} (r : result E A) (f : A → result E B) b :
  r ≫= f = Ok b ↔ ∃ a, r = Ok a ∧ f a = Ok b.
Proof. destruct r; simpl; naive_solver. Qed.

(** * Values of Go interface types

    [reflect.Kind], and an interface value: [None] is the nil interface, and
    [Some d] a dynamic value with its kind and, for the nillable kinds,
    whether it is nil (a "typed nil"). *)

Inductive Kind :=
| KInvalid | KBool | KInt | KUint | KFloat | KComplex | KArray | KChan | KFunc
| KInterface | KMap | KPointer | KSlice | KString | KStruct | KUnsafePointer.

#[export] Instance Kind_eq_dec : EqDecision Kind.
Proof. solve_decision. Defined.

Record dynamic (A : Type) := Dyn { dyn_kind : Kind; dyn_isnil : bool; dyn_val : A }.
Arguments Dyn {A} _ _ _.
Arguments dyn_kind {A} _.
Arguments dyn_isnil {A} _.
Arguments dyn_val {A} _.

Abbreviation interface A := (option (dynamic A)).

(** The kinds of the [switch] that every nil check of the repository has:
    [Chan, Func, Interface, Map, Pointer, Slice]. *)
Definition nillable (k : Kind) : bool :=
  match k with
  | KChan | KFunc | KInterface | KMap | KPointer | KSlice => true
  | _ => false
  end.

(** A non-nil pointer to an application object, the common case. *)
Definition ptr {A} (a : A) : interface A := Some (Dyn KPointer false a).
Definition typed_nil {A} (a : A) : interface A := Some (Dyn KPointer true a).

(** * Lists *)

Lemma NoDup_fmap_snoc {A B} (f : A → B) (l : list A) (x : A) :
  NoDup (f <$> l ++ [x]) ↔ NoDup (f <$> l) ∧ f x ∉ f <$> l.
Proof.
  rewrite fmap_app, NoDup_app. simpl. split.
  - intros (Hl & Hd & _). split; [done|]. intros Hin. apply (Hd _ Hin). set_solver.
  - intros [Hl Hx]. split; [done|]. split; [|apply NoDup_singleton]. set_solver.
Qed.

(** * Hints and tactics of the development *)

Create HintDb go.
#[export] Hint Resolve NoDup_nil_2 : go.
#[export] Hint Extern 1 (_ ≠ _) => congruence : go.
#[export] Hint Extern 2 (_ = _) => congruence : go.

(** Case analysis on every [match]/[if] scrutinee of the goal or a
    hypothesis, closing the branches that compute. *)
Ltac split_matches :=
  repeat (case_match; simplify_eq/=; try done).
