(* ===== verification/Services.v ===== *)
(** The backend registry: [backend/capability.go] and [backend/services.go].

    [NewServices] folds the options over an empty configuration and freezes
    it; [HandlerFor] and [SessionFor] read it.  The abstract specification of
    the registry is a set of {e slots} (the default handler, one per
    capability, one per session surface), each filled by at most one option. *)
From S2P Require Import Prelude.

(** ** Capabilities and session surfaces (Go string types) *)

Abbreviation Capability := string (only parsing).
Abbreviation SessionSurface := string (only parsing).

Definition CapabilityResponses : Capability := "responses".
Definition CapabilityChat : Capability := "chat".
Definition CapabilityCompletions : Capability := "completions".
Definition CapabilityEmbeddings : Capability := "embeddings".
Definition CapabilityAudio : Capability := "audio".
Definition CapabilityImages : Capability := "images".
Definition CapabilityVideos : Capability := "videos".
Definition CapabilityModerations : Capability := "moderations".
Definition CapabilityModels : Capability := "models".
Definition CapabilityFiles : Capability := "files".
Definition CapabilityUploads : Capability := "uploads".
Definition CapabilityBatches : Capability := "batches".
Definition CapabilityAssistants : Capability := "assistants".
Definition CapabilityVectorStores : Capability := "vector_stores".
Definition CapabilityFineTuning : Capability := "fine_tuning".
Definition CapabilityEvals : Capability := "evals".
Definition CapabilityContainers : Capability := "containers".
Definition CapabilitySkills : Capability := "skills".
Definition CapabilityChatKit : Capability := "chatkit".
Definition CapabilityOrganization : Capability := "organization".
Definition CapabilityConversations : Capability := "conversations".
Definition CapabilityRealtime : Capability := "realtime".

Definition Capabilities : list Capability :=
  [ CapabilityResponses; CapabilityChat; CapabilityCompletions;
    CapabilityEmbeddings; CapabilityAudio; CapabilityImages; CapabilityVideos;
    CapabilityModerations; CapabilityModels; CapabilityFiles;
    CapabilityUploads; CapabilityBatches; CapabilityAssistants;
    CapabilityVectorStores; CapabilityFineTuning; CapabilityEvals;
    CapabilityContainers; CapabilitySkills; CapabilityChatKit;
    CapabilityOrganization; CapabilityConversations; CapabilityRealtime ].

Definition SessionRealtime : SessionSurface := "realtime".
Definition SessionResponsesSocket : SessionSurface := "responses_websocket".

(** [validCapability]: the linear search over [Capabilities]. *)
Fixpoint capability_in (candidate : Capability) (cs : list Capability) : bool :=
  match cs with
  | [] => false
  | capability :: cs =>
      if bool_decide (candidate = capability) then true
      else capability_in candidate cs
  end.

Definition validCapability (candidate : Capability) : bool :=
  capability_in candidate Capabilities.

Definition isNilInterface {A} (value : interface A) : bool :=
  match value with
  | None => true
  | Some rv => if nillable (dyn_kind rv) then dyn_isnil rv else false
  end.

(** One constructor per [fmt.Errorf] of [services.go]. *)
Inductive services_error :=
| ErrNilOption
| ErrNilDefaultHandler
| ErrDefaultAlreadyRegistered
| ErrUnknownCapability (capability : Capability)
| ErrNilHandler (capability : Capability)
| ErrCapabilityAlreadyRegistered (capability : Capability)
| ErrUnknownSurface (surface : SessionSurface)
| ErrNilSessionBackend (surface : SessionSurface)
| ErrSurfaceAlreadyRegistered (surface : SessionSurface).

#[export] Instance services_error_eq_dec : EqDecision services_error.
Proof. solve_decision. Defined.

Section Services.
(** [H] and [B]: the application's objects behind the Go interfaces
    [backend.Handler] and [backend.SessionBackend]. *)
Context {H B : Type}.

Record serviceConfig := mkConfig {
  cfg_defaultHandler : interface H;
  cfg_handlers : gmap Capability (interface H);
  cfg_sessions : gmap SessionSurface (interface B) }.

Record Services := mkServices {
  defaultHandler : interface H;
  handlers : gmap Capability (interface H);
  sessions : gmap SessionSurface (interface B) }.

(** [type Option], a function from a config pointer to [error]; [None] is a
    nil option.  An option that fails leaves the configuration unused:
    [NewServices] returns at once. *)
Definition ServiceOption := option (serviceConfig → result services_error serviceConfig).

Definition emptyConfig : serviceConfig := mkConfig None ∅ ∅.

Fixpoint applyOptions (options : list ServiceOption) (cfg : serviceConfig)
    : result services_error serviceConfig :=
  match options with
  | [] => Ok cfg
  | None :: _ => Err ErrNilOption
  | Some opt :: options => cfg' ← opt cfg; applyOptions options cfg'
  end.

Definition NewServices (options : list ServiceOption) : result services_error Services :=
  match applyOptions options emptyConfig with
  | Err e => Err e
  | Ok cfg => Ok (mkServices (cfg_defaultHandler cfg) (cfg_handlers cfg) (cfg_sessions cfg))
  end.

Definition WithHandler (handler : interface H) : ServiceOption := Some (λ cfg,
  if isNilInterface handler then Err ErrNilDefaultHandler
  else match cfg_defaultHandler cfg with
       | Some _ => Err ErrDefaultAlreadyRegistered
       | None => Ok (mkConfig handler (cfg_handlers cfg) (cfg_sessions cfg))
       end).

Definition WithCapability (capability : Capability) (handler : interface H) : ServiceOption :=
  Some (λ cfg,
  if negb (validCapability capability) then Err (ErrUnknownCapability capability)
  else if isNilInterface handler then Err (ErrNilHandler capability)
  else match cfg_handlers cfg !! capability with
       | Some _ => Err (ErrCapabilityAlreadyRegistered capability)
       | None => Ok (mkConfig (cfg_defaultHandler cfg)
                       (<[capability := handler]> (cfg_handlers cfg)) (cfg_sessions cfg))
       end).

Definition WithSession (surface : SessionSurface) (service : interface B) : ServiceOption :=
  Some (λ cfg,
  if negb (bool_decide (surface = SessionRealtime)) &&
     negb (bool_decide (surface = SessionResponsesSocket))
  then Err (ErrUnknownSurface surface)
  else if isNilInterface service then Err (ErrNilSessionBackend surface)
  else match cfg_sessions cfg !! surface with
       | Some _ => Err (ErrSurfaceAlreadyRegistered surface)
       | None => Ok (mkConfig (cfg_defaultHandler cfg) (cfg_handlers cfg)
                       (<[surface := service]> (cfg_sessions cfg)))
       end).

Definition WithResponses (h : interface H) := WithCapability CapabilityResponses h.
Definition WithChat (h : interface H) := WithCapability CapabilityChat h.
Definition WithCompletions (h : interface H) := WithCapability CapabilityCompletions h.
Definition WithEmbeddings (h : interface H) := WithCapability CapabilityEmbeddings h.
Definition WithAudio (h : interface H) := WithCapability CapabilityAudio h.
Definition WithImages (h : interface H) := WithCapability CapabilityImages h.
Definition WithVideos (h : interface H) := WithCapability CapabilityVideos h.
Definition WithModerations (h : interface H) := WithCapability CapabilityModerations h.
Definition WithModels (h : interface H) := WithCapability CapabilityModels h.
Definition WithFiles (h : interface H) := WithCapability CapabilityFiles h.
Definition WithUploads (h : interface H) := WithCapability CapabilityUploads h.
Definition WithBatches (h : interface H) := WithCapability CapabilityBatches h.
Definition WithAssistants (h : interface H) := WithCapability CapabilityAssistants h.
Definition WithVectorStores (h : interface H) := WithCapability CapabilityVectorStores h.
Definition WithFineTuning (h : interface H) := WithCapability CapabilityFineTuning h.
Definition WithEvals (h : interface H) := WithCapability CapabilityEvals h.
Definition WithContainers (h : interface H) := WithCapability CapabilityContainers h.
Definition WithSkills (h : interface H) := WithCapability CapabilitySkills h.
Definition WithChatKit (h : interface H) := WithCapability CapabilityChatKit h.
Definition WithOrganization (h : interface H) := WithCapability CapabilityOrganization h.
Definition WithConversations (h : interface H) := WithCapability CapabilityConversations h.
Definition WithRealtime (service : interface B) := WithSession SessionRealtime service.
Definition WithResponsesWebSocket (service : interface B) :=
  WithSession SessionResponsesSocket service.

(** The two results [(Handler, bool)]: the boolean of the default branch is
    [s.defaultHandler != nil], a comparison with the nil interface only. *)
Definition HandlerFor (s : Services) (capability : Capability) : interface H * bool :=
  match handlers s !! capability with
  | Some handler => (handler, true)
  | None => (defaultHandler s, bool_decide (is_Some (defaultHandler s)))
  end.

Definition SessionFor (s : Services) (surface : SessionSurface) : interface B * bool :=
  match sessions s !! surface with
  | Some service => (service, true)
  | None => (None, false)
  end.

(** ** Abstract specification: options as slot assignments *)

Inductive slot := SlotDefault | SlotCapability (c : Capability) | SlotSession (s : SessionSurface).

Inductive registration :=
| RegNil
| RegHandler (h : interface H)
| RegCapability (c : Capability) (h : interface H)
| RegSession (s : SessionSurface) (b : interface B).

Definition denote (r : registration) : ServiceOption :=
  match r with
  | RegNil => None
  | RegHandler h => WithHandler h
  | RegCapability c h => WithCapability c h
  | RegSession s b => WithSession s b
  end.

Definition slot_of (r : registration) : option slot :=
  match r with
  | RegNil => None
  | RegHandler _ => Some SlotDefault
  | RegCapability c _ => Some (SlotCapability c)
  | RegSession s _ => Some (SlotSession s)
  end.

(** A registration that is acceptable on its own: not a nil option, a known
    slot, and an object that is neither nil nor a typed nil. *)
Definition well_formed (r : registration) : Prop :=
  match r with
  | RegNil => False
  | RegHandler h => isNilInterface h = false
  | RegCapability c h => c ∈ Capabilities ∧ isNilInterface h = false
  | RegSession s b =>
      s ∈ [SessionRealtime; SessionResponsesSocket] ∧ isNilInterface b = false
  end.

(** A list of registrations the registry accepts. *)
Definition acceptable (rs : list registration) : Prop :=
  Forall well_formed rs ∧ NoDup (slot_of <$> rs).

(** Why a registration is refused when its slot is already [taken]: the
    checks in the order of the code. *)
Definition refusal (taken : bool) (r : registration) : option services_error :=
  match r with
  | RegNil => Some ErrNilOption
  | RegHandler h =>
      if isNilInterface h then Some ErrNilDefaultHandler
      else if taken then Some ErrDefaultAlreadyRegistered else None
  | RegCapability c h =>
      if negb (bool_decide (c ∈ Capabilities)) then Some (ErrUnknownCapability c)
      else if isNilInterface h then Some (ErrNilHandler c)
      else if taken then Some (ErrCapabilityAlreadyRegistered c) else None
  | RegSession s b =>
      if negb (bool_decide (s ∈ [SessionRealtime; SessionResponsesSocket]))
      then Some (ErrUnknownSurface s)
      else if isNilInterface b then Some (ErrNilSessionBackend s)
      else if taken then Some (ErrSurfaceAlreadyRegistered s) else None
  end.

(** The object registered for a slot. *)
Definition spec_capability (rs : list registration) (c : Capability) : option (interface H) :=
  head (omap (λ r, match r with
                   | RegCapability c' h => if decide (c' = c) then Some h else None
                   | _ => None end) rs).
Definition spec_default (rs : list registration) : option (interface H) :=
  head (omap (λ r, match r with RegHandler h => Some h | _ => None end) rs).
Definition spec_session (rs : list registration) (s : SessionSurface) : option (interface B) :=
  head (omap (λ r, match r with
                   | RegSession s' b => if decide (s' = s) then Some b else None
                   | _ => None end) rs).
End Services.

Arguments Services : clear implicits.
Arguments serviceConfig : clear implicits.
Arguments ServiceOption : clear implicits.
Arguments registration : clear implicits.

#[export] Instance slot_eq_dec : EqDecision slot.
Proof. solve_decision. Defined.

(** ** Lemmas *)

Lemma capability_in_spec c cs : capability_in c cs = true ↔ c ∈ cs.
Proof.
  induction cs as [|d cs IH]; simpl; [set_solver|].
  case_bool_decide; set_solver.
Qed.

Lemma validCapability_spec c : validCapability c = true ↔ c ∈ Capabilities.
Proof. apply capability_in_spec. Qed.

Lemma bool_decide_capability c : bool_decide (c ∈ Capabilities) = validCapability c.
Proof.
  pose proof (validCapability_spec c) as Hc.
  case_bool_decide; destruct (validCapability c); naive_solver.
Qed.

Lemma isNilInterface_Some {A} (v : interface A) :
  isNilInterface v = false → is_Some v.
Proof. destruct v; naive_solver. Qed.

Section Lemmas.
Context {H B : Type}.
Implicit Types (r : registration H B) (rs : list (registration H B)).
Implicit Types (cfg : serviceConfig H B).

(** [cfg] is what the registrations [rs] leave behind. *)
Record represents rs cfg : Prop := {
  rep_default : cfg_defaultHandler cfg = mjoin (spec_default rs);
  rep_default_some : ∀ h, spec_default rs = Some h → is_Some h;
  rep_handlers : ∀ c, cfg_handlers cfg !! c = spec_capability rs c;
  rep_sessions : ∀ s, cfg_sessions cfg !! s = spec_session rs s }.

Lemma represents_empty : represents [] emptyConfig.
Proof. split; try done; intros ?; apply lookup_empty. Qed.

Lemma head_app_None {A} (l k : list A) : head l = None → head (l ++ k) = head k.
Proof. by destruct l. Qed.

Lemma head_omap_Some {A C} (f : A → option C) (l : list A) :
  is_Some (head (omap f l)) ↔ ∃ x, x ∈ l ∧ is_Some (f x).
Proof.
  induction l as [|x l IH]; csimpl.
  { split; [by intros []|]. intros (? & ? & ?). set_solver. }
  destruct (f x) eqn:E; csimpl; [|rewrite IH]; split; [set_solver|done|set_solver|].
  intros (y & [->|?]%elem_of_cons & Hy); [|by eauto]. rewrite E in Hy. by destruct Hy.
Qed.

Lemma slot_default_spec rs : Some SlotDefault ∈ slot_of <$> rs ↔ is_Some (spec_default rs).
Proof.
  unfold spec_default. rewrite head_omap_Some, list_elem_of_fmap.
  split; intros (r & H1 & H2); exists r; destruct r; simplify_eq/=; eauto; by destruct H2.
Qed.

Lemma slot_capability_spec rs c :
  Some (SlotCapability c) ∈ slot_of <$> rs ↔ is_Some (spec_capability rs c).
Proof.
  unfold spec_capability. rewrite head_omap_Some, list_elem_of_fmap.
  split; intros (r & H1 & H2); exists r; destruct r; simplify_eq/=; try by destruct H2.
  - rewrite decide_True by done. eauto.
  - case_decide; [subst; auto|by destruct H2].
Qed.

Lemma slot_session_spec rs s :
  Some (SlotSession s) ∈ slot_of <$> rs ↔ is_Some (spec_session rs s).
Proof.
  unfold spec_session. rewrite head_omap_Some, list_elem_of_fmap.
  split; intros (r & H1 & H2); exists r; destruct r; simplify_eq/=; try by destruct H2.
  - rewrite decide_True by done. eauto.
  - case_decide; [subst; auto|by destruct H2].
Qed.

(** One registration: refused exactly with the reason [refusal] gives for
    the slots filled so far. *)
Lemma denote_refusal rs cfg r opt :
  represents rs cfg → denote r = Some opt →
  match refusal (bool_decide (slot_of r ∈ slot_of <$> rs)) r with
  | Some e => opt cfg = Err e
  | None => is_ok (opt cfg) = true
  end.
Proof.
  intros [Hd Hds Hh Hs] Hopt.
  destruct r as [|h|c h|s b]; unfold denote, WithHandler, WithCapability, WithSession in Hopt;
    simplify_eq/=.
  - rewrite (bool_decide_ext _ _ (slot_default_spec rs)), Hd.
    destruct (isNilInterface h); [done|].
    destruct (spec_default rs) as [h0|] eqn:E; simpl; [|done].
    by destruct (Hds _ eq_refl) as [? ->].
  - rewrite (bool_decide_ext _ _ (slot_capability_spec rs c)), Hh.
    rewrite bool_decide_capability.
    by destruct (validCapability c), (isNilInterface h), (spec_capability rs c).
  - rewrite (bool_decide_ext _ _ (slot_session_spec rs s)), Hs.
    destruct (isNilInterface b), (spec_session rs s); repeat case_bool_decide; try done; set_solver.
Qed.

Lemma refusal_None r (taken : bool) :
  refusal taken r = None ↔ well_formed r ∧ taken = false.
Proof.
  destruct r, taken; simpl; repeat case_bool_decide; simpl; split_matches; naive_solver.
Qed.

Lemma spec_default_snoc rs r :
  slot_of r ∉ slot_of <$> rs →
  spec_default (rs ++ [r]) =
    match r with RegHandler h => Some h | _ => spec_default rs end.
Proof.
  intros Hn. unfold spec_default. rewrite omap_app.
  destruct r; csimpl; try by rewrite app_nil_r.
  rewrite head_app_None; [done|]. apply eq_None_not_Some.
  intros Hs. by apply Hn, slot_default_spec.
Qed.

Lemma spec_capability_snoc rs r c :
  slot_of r ∉ slot_of <$> rs →
  spec_capability (rs ++ [r]) c =
    match r with
    | RegCapability c' h => if decide (c' = c) then Some h else spec_capability rs c
    | _ => spec_capability rs c end.
Proof.
  intros Hn. unfold spec_capability. rewrite omap_app.
  destruct r; csimpl; try by rewrite app_nil_r.
  case_decide; csimpl; [|by rewrite app_nil_r]. subst.
  rewrite head_app_None; [done|]. apply eq_None_not_Some.
  intros Hs. by apply Hn, slot_capability_spec.
Qed.

Lemma spec_session_snoc rs r s :
  slot_of r ∉ slot_of <$> rs →
  spec_session (rs ++ [r]) s =
    match r with
    | RegSession s' b => if decide (s' = s) then Some b else spec_session rs s
    | _ => spec_session rs s end.
Proof.
  intros Hn. unfold spec_session. rewrite omap_app.
  destruct r; csimpl; try by rewrite app_nil_r.
  case_decide; csimpl; [|by rewrite app_nil_r]. subst.
  rewrite head_app_None; [done|]. apply eq_None_not_Some.
  intros Hs. by apply Hn, slot_session_spec.
Qed.

Lemma denote_represents rs cfg cfg' r opt :
  represents rs cfg → denote r = Some opt → opt cfg = Ok cfg' →
  slot_of r ∉ slot_of <$> rs → represents (rs ++ [r]) cfg'.
Proof.
  intros [Hd Hds Hh Hs] Hopt Hok Hfree.
  split; intros; rewrite ?spec_default_snoc, ?spec_capability_snoc, ?spec_session_snoc in * by done;
    destruct r; unfold denote, WithHandler, WithCapability, WithSession in Hopt;
    simplify_eq/=; split_matches; eauto using isNilInterface_Some.
  all: rewrite ?lookup_insert; repeat case_decide; simplify_eq; eauto.
Qed.

Lemma slot_snoc rs r r' :
  slot_of r' ∉ slot_of <$> rs ++ [r] ↔
  slot_of r' ∉ slot_of <$> rs ∧ slot_of r' ≠ slot_of r.
Proof. rewrite fmap_app, not_elem_of_app. simpl. by rewrite list_elem_of_singleton. Qed.

(** Every option of [rs] applies on top of what [rs0] left behind. *)
Definition extends rs0 rs : Prop :=
  Forall well_formed rs ∧ NoDup (slot_of <$> rs) ∧
  ∀ r, r ∈ rs → slot_of r ∉ slot_of <$> rs0.

Lemma extends_cons rs0 r rs :
  extends rs0 (r :: rs) ↔
  well_formed r ∧ slot_of r ∉ slot_of <$> rs0 ∧ extends (rs0 ++ [r]) rs.
Proof.
  unfold extends. csimpl. rewrite Forall_cons, NoDup_cons, list_elem_of_fmap.
  setoid_rewrite slot_snoc. setoid_rewrite elem_of_cons. naive_solver.
Qed.

Lemma applyOptions_spec rs0 rs cfg :
  represents rs0 cfg →
  match applyOptions (denote <$> rs) cfg with
  | Ok cfg' => represents (rs0 ++ rs) cfg' ∧ extends rs0 rs
  | Err e => ∃ pre r post, rs = pre ++ r :: post ∧ extends rs0 pre ∧
      refusal (bool_decide (slot_of r ∈ slot_of <$> rs0 ++ pre)) r = Some e
  end.
Proof.
  revert rs0 cfg. induction rs as [|r rs IH]; intros rs0 cfg Hrep; simpl.
  { rewrite app_nil_r. split; [done|]. split; [done|]. split; [apply NoDup_nil_2|].
    by intros r ?%elem_of_nil. }
  assert (extends rs0 []) as Hnil.
  { split; [done|]. split; [apply NoDup_nil_2|]. by intros ? ?%elem_of_nil. }
  destruct (denote r) as [opt|] eqn:Hopt.
  2:{ destruct r; [|done..]. by exists [], RegNil, rs. }
  pose proof (denote_refusal rs0 cfg r opt Hrep Hopt) as Href.
  destruct (refusal _ r) as [e|] eqn:He.
  { rewrite Href. simpl. exists [], r, rs. by rewrite app_nil_r. }
  apply refusal_None in He as [Hwf Hfree%bool_decide_eq_false].
  destruct (opt cfg) as [cfg'|e] eqn:Hr; [|done]. simpl.
  specialize (IH (rs0 ++ [r]) cfg' (denote_represents _ _ _ _ _ Hrep Hopt Hr Hfree)).
  rewrite <- (assoc_L (++)) in IH. simpl in IH.
  destruct (applyOptions _ cfg') as [cfg''|e].
  - rewrite extends_cons. naive_solver.
  - destruct IH as (pre & r' & post & -> & Hext & Hr').
    exists (r :: pre), r', post. rewrite <- (assoc_L (++)) in Hr'.
    rewrite extends_cons. naive_solver.
Qed.

Lemma extends_nil rs : extends [] rs ↔ acceptable rs.
Proof.
  unfold extends, acceptable. csimpl. setoid_rewrite elem_of_nil. naive_solver.
Qed.

Lemma refused_not_acceptable pre r post e :
  refusal (bool_decide (slot_of r ∈ slot_of <$> pre)) r = Some e →
  ¬ acceptable (pre ++ r :: post).
Proof.
  intros Href [Hwf Hnd]. rewrite fmap_app, fmap_cons in Hnd.
  apply Forall_app in Hwf as [_ [Hwf _]%Forall_cons].
  apply NoDup_app in Hnd as (_ & Hd & _).
  assert (refusal (bool_decide (slot_of r ∈ slot_of <$> pre)) r = None) as Hn; [|congruence].
  apply refusal_None. split; [done|]. apply bool_decide_eq_false.
  intros Hin. apply (Hd _ Hin). by left.
Qed.

Lemma NewServices_spec rs :
  match NewServices (denote <$> rs) with
  | Ok s => acceptable rs ∧
      defaultHandler s = mjoin (spec_default rs) ∧
      (∀ h, spec_default rs = Some h → is_Some h) ∧
      (∀ c, handlers s !! c = spec_capability rs c) ∧
      (∀ x, sessions s !! x = spec_session rs x)
  | Err e => ∃ pre r post, rs = pre ++ r :: post ∧ acceptable pre ∧
      refusal (bool_decide (slot_of r ∈ slot_of <$> pre)) r = Some e
  end.
Proof.
  pose proof (applyOptions_spec [] rs _ represents_empty) as Hs.
  unfold NewServices. destruct (applyOptions _ _) as [cfg|e].
  - by destruct Hs as ([] & ?%extends_nil).
  - by setoid_rewrite extends_nil in Hs.
Qed.

Lemma spec_capability_In rs c h :
  NoDup (slot_of <$> rs) → spec_capability rs c = Some h ↔ RegCapability c h ∈ rs.
Proof.
  induction rs as [|r rs IH]; csimpl.
  { split; [done|]. by intros ?%elem_of_nil. }
  intros [Hr Hnd]%NoDup_cons. specialize (IH Hnd).
  assert (∀ r', r' ∈ rs → slot_of r' ≠ slot_of r) as Hne.
  { intros r' Hx Heq. apply Hr. rewrite <- Heq. by apply list_elem_of_fmap_2. }
  setoid_rewrite elem_of_cons. unfold spec_capability in *.
  destruct r as [| |c' h'|]; csimpl; try (rewrite IH; naive_solver).
  case_decide; subst; csimpl; [|rewrite IH; naive_solver].
  split; [naive_solver|]. intros [?|Hin]; [naive_solver|]. by destruct (Hne _ Hin).
Qed.

Lemma spec_default_In rs h :
  NoDup (slot_of <$> rs) → spec_default rs = Some h ↔ RegHandler h ∈ rs.
Proof.
  induction rs as [|r rs IH]; csimpl.
  { split; [done|]. by intros ?%elem_of_nil. }
  intros [Hr Hnd]%NoDup_cons. specialize (IH Hnd).
  assert (∀ r', r' ∈ rs → slot_of r' ≠ slot_of r) as Hne.
  { intros r' Hx Heq. apply Hr. rewrite <- Heq. by apply list_elem_of_fmap_2. }
  setoid_rewrite elem_of_cons. unfold spec_default in *.
  destruct r as [|h'| |]; csimpl; try (rewrite IH; naive_solver).
  split; [naive_solver|]. intros [?|Hin]; [naive_solver|]. by destruct (Hne _ Hin).
Qed.

Lemma spec_session_In rs x b :
  NoDup (slot_of <$> rs) → spec_session rs x = Some b ↔ RegSession x b ∈ rs.
Proof.
  induction rs as [|r rs IH]; csimpl.
  { split; [done|]. by intros ?%elem_of_nil. }
  intros [Hr Hnd]%NoDup_cons. specialize (IH Hnd).
  assert (∀ r', r' ∈ rs → slot_of r' ≠ slot_of r) as Hne.
  { intros r' Hx Heq. apply Hr. rewrite <- Heq. by apply list_elem_of_fmap_2. }
  setoid_rewrite elem_of_cons. unfold spec_session in *.
  destruct r as [| | |x' b']; csimpl; try (rewrite IH; naive_solver).
  case_decide; subst; csimpl; [|rewrite IH; naive_solver].
  split; [naive_solver|]. intros [?|Hin]; [naive_solver|]. by destruct (Hne _ Hin).
Qed.

Lemma acceptable_default rs h :
  acceptable rs → spec_default rs = Some h → isNilInterface h = false.
Proof.
  intros [Hwf Hnd] Hh. apply spec_default_In in Hh; [|done].
  rewrite Forall_forall in Hwf. exact (Hwf _ Hh).
Qed.

Lemma acceptable_capability rs c h :
  acceptable rs → spec_capability rs c = Some h →
  c ∈ Capabilities ∧ isNilInterface h = false.
Proof.
  intros [Hwf Hnd] Hh. apply spec_capability_In in Hh; [|done].
  rewrite Forall_forall in Hwf. exact (Hwf _ Hh).
Qed.

Lemma acceptable_session rs x b :
  acceptable rs → spec_session rs x = Some b →
  x ∈ [SessionRealtime; SessionResponsesSocket] ∧ isNilInterface b = false.
Proof.
  intros [Hwf Hnd] Hh. apply spec_session_In in Hh; [|done].
  rewrite Forall_forall in Hwf. exact (Hwf _ Hh).
Qed.

(** What the registry promises to the handlers that look objects up in it: a
    successful lookup hands out an object that is neither nil nor typed nil. *)
Class LookupsUsable (s : Services H B) : Prop := {
  handler_usable c h : HandlerFor s c = (h, true) → isNilInterface h = false;
  session_usable x b : SessionFor s x = (b, true) → isNilInterface b = false }.

Lemma NewServices_usable rs s : NewServices (denote <$> rs) = Ok s → LookupsUsable s.
Proof.
  intros Hs. pose proof (NewServices_spec rs) as Hspec. rewrite Hs in Hspec.
  destruct Hspec as (Hacc & Hd & _ & Hh & Hx). constructor.
  - intros c h. unfold HandlerFor. rewrite Hh, Hd. destruct (spec_capability rs c) as [h'|] eqn:E.
    + intros [= ->]. by eapply acceptable_capability.
    + intros [= <- Hb%bool_decide_eq_true]. destruct (spec_default rs) as [h'|] eqn:E'.
      * by apply (acceptable_default rs).
      * by destruct Hb.
  - intros x b. unfold SessionFor. rewrite Hx. destruct (spec_session rs x) eqn:E; [|done].
    intros [= ->]. by eapply acceptable_session.
Qed.

(** A usable lookup is an object behind a non-nil interface. *)
Lemma HandlerFor_object (s : Services H B) `{!LookupsUsable s} c h :
  HandlerFor s c = (h, true) → is_Some h.
Proof. intros Hh%handler_usable. by destruct h. Qed.

Lemma SessionFor_object (s : Services H B) `{!LookupsUsable s} x b :
  SessionFor s x = (b, true) → is_Some b.
Proof. intros Hb%session_usable. by destruct b. Qed.

Lemma option_ext_Some {A} (o o' : option A) :
  (∀ x, o = Some x ↔ o' = Some x) → o = o'.
Proof. destruct o, o'; intros Ho; try done; naive_solver. Qed.

(** ** Properties *)

(** C6. The registry refines its slot specification.  Construction succeeds
    exactly on the acceptable lists of options (no nil option, known slots, no
    nil or typed-nil object, no slot filled twice); then every lookup answers
    the object registered for the capability, else the default handler, else
    nothing, and every session lookup the registered session backend. *)
Theorem NewServices_refines rs :
  match NewServices (denote <$> rs) with
  | Err _ => ¬ acceptable rs
  | Ok s => acceptable rs ∧
      (∀ c, HandlerFor s c =
         match spec_capability rs c with
         | Some h => (h, true)
         | None => match spec_default rs with
                   | Some h => (h, true)
                   | None => (None, false)
                   end
         end) ∧
      (∀ x, SessionFor s x =
         match spec_session rs x with Some b => (b, true) | None => (None, false) end)
  end.
Proof.
  pose proof (NewServices_spec rs) as Hs. destruct (NewServices _) as [s|e].
  2:{ destruct Hs as (pre & r & post & -> & _ & Href). by eapply refused_not_acceptable. }
  destruct Hs as (? & Hd & Hds & Hh & Hx). split; [done|]. split.
  - intros c. unfold HandlerFor. rewrite Hh, Hd. destruct (spec_capability rs c); [done|].
    destruct (spec_default rs) as [h|]; [|done]. simpl. f_equal.
    apply bool_decide_eq_true. by apply Hds.
  - intros x. unfold SessionFor. by rewrite Hx.
Qed.

(** A refused construction reports the first offending option: the
    options before it are acceptable, and the error is the one the checks of
    that option give, in the order of the code, for the slots filled by then. *)
Theorem NewServices_first_error rs e :
  NewServices (denote <$> rs) = Err e →
  ∃ pre r post, rs = pre ++ r :: post ∧ acceptable pre ∧
    refusal (bool_decide (slot_of r ∈ slot_of <$> pre)) r = Some e.
Proof. intros Hs. pose proof (NewServices_spec rs) as Hspec. by rewrite Hs in Hspec. Qed.

(** C28. A lookup that reports success never hands out a nil or typed-nil
    object, and only frozen capabilities and the two surfaces carry explicit
    registrations. *)
Theorem NewServices_lookups_usable rs s :
  NewServices (denote <$> rs) = Ok s →
  (∀ c h, HandlerFor s c = (h, true) → isNilInterface h = false) ∧
  (∀ x b, SessionFor s x = (b, true) →
     isNilInterface b = false ∧ x ∈ [SessionRealtime; SessionResponsesSocket]) ∧
  (∀ c, is_Some (handlers s !! c) → c ∈ Capabilities).
Proof.
  intros Hs. pose proof (NewServices_spec rs) as Hspec. rewrite Hs in Hspec.
  destruct Hspec as (Hacc & _ & _ & Hh & Hx). pose proof (NewServices_usable rs s Hs).
  split; [intros c h; apply handler_usable|]. split.
  - intros x b Hb. split; [by eapply session_usable|]. revert Hb. unfold SessionFor. rewrite Hx.
    destruct (spec_session rs x) eqn:E; [|done]. intros [= ->]. by eapply acceptable_session.
  - intros c. rewrite Hh. intros [h E]. by eapply acceptable_capability in E as [? _].
Qed.

(** The order of the options does not matter: any permutation of an
    accepted list builds the very same registry. *)
Theorem NewServices_order_irrelevant rs rs' s :
  rs ≡ₚ rs' → NewServices (denote <$> rs) = Ok s →
  NewServices (denote <$> rs') = Ok s.
Proof.
  intros Hp Hs. pose proof (NewServices_spec rs) as H1.
  pose proof (NewServices_spec rs') as H2. rewrite Hs in H1.
  destruct H1 as (Hacc & Hd & _ & Hh & Hx).
  assert (acceptable rs') as Hacc' by (unfold acceptable in *; by rewrite <- Hp).
  destruct (NewServices (denote <$> rs')) as [s'|].
  2:{ destruct H2 as (pre & r & post & -> & _ & Href). by eapply refused_not_acceptable in Href. }
  destruct H2 as (_ & Hd' & _ & Hh' & Hx'), s, s', Hacc as [_ Hn], Hacc' as [_ Hn'].
  simpl in *. do 2 f_equal.
  - rewrite Hd, Hd'. f_equal. apply option_ext_Some. intros h.
    rewrite !spec_default_In, Hp by done. done.
  - apply map_eq. intros c. rewrite Hh, Hh'. apply option_ext_Some. intros h.
    rewrite !spec_capability_In, Hp by done. done.
  - apply map_eq. intros c. rewrite Hx, Hx'. apply option_ext_Some. intros h.
    rewrite !spec_session_In, Hp by done. done.
Qed.
End Lemmas.

(** ** Witnesses *)

Definition example_registrations : list (registration nat nat) :=
  [ RegHandler (ptr 1); RegCapability CapabilityModels (ptr 2);
    RegSession SessionRealtime (ptr 3) ].

Lemma NewServices_first_error_witness :
  ∃ pre (r : registration nat nat) post,
    [RegHandler (ptr 1); RegCapability CapabilityChat (typed_nil 2)] = pre ++ r :: post ∧
    acceptable pre ∧
    refusal (bool_decide (slot_of r ∈ slot_of <$> pre)) r = Some (ErrNilHandler CapabilityChat).
Proof.
  apply (NewServices_first_error (H:=nat) (B:=nat)
    [RegHandler (ptr 1); RegCapability CapabilityChat (typed_nil 2)]).
  vm_compute. reflexivity.
Defined.

Lemma NewServices_lookups_usable_witness :
  ∃ s, NewServices (denote <$> example_registrations) = Ok s ∧
    (∀ c h, HandlerFor s c = (h, true) → isNilInterface h = false) ∧
    (∀ x b, SessionFor s x = (b, true) →
       isNilInterface b = false ∧ x ∈ [SessionRealtime; SessionResponsesSocket]) ∧
    (∀ c, is_Some (handlers s !! c) → c ∈ Capabilities).
Proof.
  eexists. split; [reflexivity|].
  apply (NewServices_lookups_usable example_registrations). reflexivity.
Defined.

Lemma NewServices_order_irrelevant_witness :
  ∃ s, NewServices (denote <$> example_registrations) = Ok s ∧
    NewServices (denote <$> reverse example_registrations) = Ok s.
Proof.
  eexists. split; [reflexivity|].
  apply (NewServices_order_irrelevant example_registrations); [|reflexivity].
  symmetry. apply reverse_Permutation.
Defined.
