(* ===== verification/GoStrings.v ===== *)
(** The part of Go's [strings], [strconv] and [encoding/hex] packages the
    program uses, on byte strings.

    A Go string is a sequence of bytes, here a [string] of [ascii].
    [ToLower] is Go's as far as ASCII output is concerned, which is all that
    the program tests: the ASCII letters, and the two other runes with an
    ASCII lower case, U+0130 (to [i]) and U+212A (to [k]); the remaining
    non-ASCII bytes are left alone.  [ToUpper] is only applied to ASCII texts.
    [EqualFold] is Go's for an ASCII second
    argument, which every call of the program has: besides the ASCII case
    pairs, U+212A folds to [k] and U+017F to [s].  [TrimSpace] removes the
    UTF-8 encodings of all of [unicode.IsSpace]. *)
From S2P Require Import Prelude.
From stdpp Require Export pretty.
From Stdlib Require Import NArith.

Declare Scope go_scope.
Delimit Scope go_scope with go.

(** ** Bytes *)

Definition code (c : ascii) : N := Ascii.N_of_ascii c.
Definition byte_of (n : N) : ascii := Ascii.ascii_of_N n.
Definition str1 (c : ascii) : string := String c "".

Definition LF : ascii := byte_of 10.
Definition CR : ascii := byte_of 13.
Definition QUOTE : ascii := byte_of 34.

Definition in_range (lo hi : N) (c : ascii) : bool := (lo <=? code c)%N && (code c <=? hi)%N.
Definition is_upper (c : ascii) : bool := in_range 65 90 c.
Definition is_lower (c : ascii) : bool := in_range 97 122 c.
Definition is_digit (c : ascii) : bool := in_range 48 57 c.
Definition lower (c : ascii) : ascii := if is_upper c then byte_of (code c + 32) else c.
Definition upper (c : ascii) : ascii := if is_lower c then byte_of (code c - 32) else c.

Fixpoint string_map (f : ascii → ascii) (s : string) : string :=
  match s with "" => "" | String c s => String (f c) (string_map f s) end.

Fixpoint string_filter (f : ascii → bool) (s : string) : string :=
  match s with
  | "" => ""
  | String c s => if f c then String c (string_filter f s) else string_filter f s
  end.

Fixpoint string_forallb (f : ascii → bool) (s : string) : bool :=
  match s with "" => true | String c s => f c && string_forallb f s end.

Definition string_empty (s : string) : bool := match s with "" => true | _ => false end.

(** [len(s)] *)
Definition len (s : string) : Z := Z.of_nat (String.length s).

(** [s[:n]] and [s[n:]] for [n <= len(s)] *)
Fixpoint string_take (n : nat) (s : string) : string :=
  match n, s with
  | S n, String c s => String c (string_take n s)
  | _, _ => ""
  end.
Fixpoint string_drop (n : nat) (s : string) : string :=
  match n, s with
  | S n, String _ s => string_drop n s
  | _, _ => s
  end.

(** ** Package strings *)

Fixpoint CutPrefix (s prefix : string) {struct prefix} : option string :=
  match prefix, s with
  | "", _ => Some s
  | String p prefix, String c s => if bool_decide (c = p) then CutPrefix s prefix else None
  | _, "" => None
  end.

Definition HasPrefix (s prefix : string) : bool := bool_decide (is_Some (CutPrefix s prefix)).

Fixpoint Contains (s sub : string) : bool :=
  HasPrefix s sub || match s with "" => false | String _ s => Contains s sub end.

(** [strings.Cut] for a one-byte separator. *)
Fixpoint Cut (sep : ascii) (s : string) : string * string * bool :=
  match s with
  | "" => ("", "", false)
  | String c s' =>
      if bool_decide (c = sep) then ("", s', true)
      else let '(before, after, found) := Cut sep s' in (String c before, after, found)
  end.

(** [strings.Split] (and [SplitSeq]) for a one-byte separator. *)
Fixpoint Split (sep : ascii) (s : string) : list string :=
  match s with
  | "" => [""]
  | String c s' =>
      if bool_decide (c = sep) then "" :: Split sep s'
      else match Split sep s' with
           | [] => [str1 c]
           | part :: parts => String c part :: parts
           end
  end.

Fixpoint Join (parts : list string) (sep : string) : string :=
  match parts with
  | [] => ""
  | [part] => part
  | part :: parts => part +:+ sep +:+ Join parts sep
  end.

Fixpoint ToLower (s : string) : string :=
  match s with
  | "" => ""
  | String a r1 =>
      match r1 with
      | "" => str1 (lower a)
      | String b r2 =>
          if (code a =? 196)%N && (code b =? 176)%N then String (byte_of 105) (ToLower r2)
          else match r2 with
          | "" => String (lower a) (ToLower r1)
          | String c r3 =>
              if (code a =? 226)%N && (code b =? 132)%N && (code c =? 170)%N
              then String (byte_of 107) (ToLower r3)
              else String (lower a) (ToLower r1)
          end
      end
  end.
Definition ToUpper (s : string) : string := string_map upper s.

Fixpoint EqualFold (s t : string) : bool :=
  match t with
  | "" => string_empty s
  | String tc t' =>
      match s with
      | "" => false
      | String sc s1 =>
          if bool_decide (lower sc = lower tc) then EqualFold s1 t'
          else match s1 with
          | "" => false
          | String sc2 s2 =>
              if bool_decide (lower tc = byte_of 115) &&
                 (code sc =? 197)%N && (code sc2 =? 191)%N then EqualFold s2 t'
              else match s2 with
              | "" => false
              | String sc3 s3 =>
                  if bool_decide (lower tc = byte_of 107) &&
                     (code sc =? 226)%N && (code sc2 =? 132)%N && (code sc3 =? 170)%N
                  then EqualFold s3 t' else false
              end
          end
      end
  end.

(** [unicode.IsSpace] on UTF-8 bytes: one-, two- and three-byte runes. *)
Definition space1 (a : ascii) : bool := in_range 9 13 a || (code a =? 32)%N.
Definition space2 (a b : ascii) : bool :=
  (code a =? 194)%N && ((code b =? 133)%N || (code b =? 160)%N).
Definition space3 (a b c : ascii) : bool :=
  ((code a =? 225)%N && (code b =? 154)%N && (code c =? 128)%N) ||
  ((code a =? 226)%N && (code b =? 128)%N &&
     (in_range 128 138 c || in_range 168 169 c || (code c =? 175)%N)) ||
  ((code a =? 226)%N && (code b =? 129)%N && (code c =? 159)%N) ||
  ((code a =? 227)%N && (code b =? 128)%N && (code c =? 128)%N).

(** Drops leading white space; [s2] and [s3] are given for the two reading
    directions (a reversed string has its multi-byte runes reversed). *)
Fixpoint trim_start (s2 : ascii → ascii → bool) (s3 : ascii → ascii → ascii → bool)
    (s : string) : string :=
  match s with
  | "" => ""
  | String a r1 =>
      if space1 a then trim_start s2 s3 r1
      else match r1 with
      | "" => s
      | String b r2 =>
          if s2 a b then trim_start s2 s3 r2
          else match r2 with
          | "" => s
          | String c r3 => if s3 a b c then trim_start s2 s3 r3 else s
          end
      end
  end.

Definition trim_left (s : string) : string := trim_start space2 space3 s.
Definition trim_right (s : string) : string :=
  String.rev (trim_start (λ a b, space2 b a) (λ a b c, space3 c b a) (String.rev s)).
Definition TrimSpace (s : string) : string := trim_right (trim_left s).

Definition TrimSuffix (s suffix : string) : string :=
  match CutPrefix (String.rev s) (String.rev suffix) with
  | Some rest => String.rev rest
  | None => s
  end.

(** ** Packages strconv and encoding/hex *)

Definition Itoa (n : Z) : string := pretty n.

Definition hex_digit (n : N) : ascii :=
  if (n <? 10)%N then byte_of (48 + n) else byte_of (87 + n).
Definition hex2 (c : ascii) : string :=
  String (hex_digit (code c / 16)) (str1 (hex_digit (code c mod 16))).
Fixpoint hex_EncodeToString (s : string) : string :=
  match s with "" => "" | String c s => hex2 c +:+ hex_EncodeToString s end.

(** [strconv.Atoi]; [None] is an error. *)
Fixpoint decimal (acc : Z) (s : string) : option Z :=
  match s with
  | "" => Some acc
  | String c s => if is_digit c then decimal (acc * 10 + (Z.of_N (code c) - 48)) s else None
  end.
Definition Atoi (s : string) : option Z :=
  let '(negative, digits) :=
    match s with
    | String c rest =>
        if (code c =? 45)%N then (true, rest) else if (code c =? 43)%N then (false, rest) else (false, s)
    | "" => (false, "")
    end in
  if string_empty digits then None
  else n ← decimal 0 digits;
       let n := if negative then (- n)%Z else n in
       if bool_decide (- 2 ^ 63 ≤ n < 2 ^ 63)%Z then Some n else None.

(** ** Lemmas: concatenation *)

Lemma app_nil_l_str (s : string) : "" +:+ s = s.
Proof. done. Qed.
Lemma app_cons_str c (s t : string) : String c s +:+ t = String c (s +:+ t).
Proof. done. Qed.
Lemma app_nil_r_str (s : string) : s +:+ "" = s.
Proof. induction s as [|c s IH]; [done|]. by rewrite app_cons_str, IH. Qed.
Lemma app_assoc_str (s t u : string) : (s +:+ t) +:+ u = s +:+ (t +:+ u).
Proof. induction s as [|c s IH]; [done|]. by rewrite !app_cons_str, IH. Qed.
#[export] Hint Rewrite app_nil_l_str app_cons_str app_nil_r_str app_assoc_str : str.

Lemma length_app_str (s t : string) :
  String.length (s +:+ t) = String.length s + String.length t.
Proof. induction s as [|c s IH]; [done|]. rewrite app_cons_str. simpl. by rewrite IH. Qed.

Lemma length_take_str n s : String.length (string_take n s) = Nat.min n (String.length s).
Proof. revert s. induction n as [|n IH]; intros [|c s]; simpl; [done..|]. by rewrite IH. Qed.

Lemma string_take_app_drop n s : string_take n s +:+ string_drop n s = s.
Proof.
  revert s. induction n as [|n IH]; intros [|c s]; try done. simpl.
  by rewrite app_cons_str, IH.
Qed.

Lemma string_take_ge n s : String.length s ≤ n → string_take n s = s.
Proof. revert s. induction n; intros [|c s] Hn; simpl in *; try done; [lia|]. f_equal. apply IHn. lia. Qed.

Lemma string_forallb_app f (s t : string) :
  string_forallb f (s +:+ t) = string_forallb f s && string_forallb f t.
Proof.
  induction s as [|c s IH]; [done|]. rewrite app_cons_str. simpl. by rewrite IH, andb_assoc.
Qed.

Lemma string_forallb_impl (f g : ascii → bool) s :
  (∀ c, f c = true → g c = true) → string_forallb f s = true → string_forallb g s = true.
Proof. intros Hfg. induction s; simpl; [done|]. rewrite !andb_true_iff. naive_solver. Qed.

Lemma string_forallb_filter (f : ascii → bool) s : string_forallb f (string_filter f s) = true.
Proof.
  induction s as [|c s IH]; simpl; [done|]. destruct (f c) eqn:E; simpl; [|done]. by rewrite E.
Qed.

(** A predicate on bytes that survives a filter. *)
Lemma string_forallb_filter_mono (f g : ascii → bool) s :
  string_forallb g s = true → string_forallb g (string_filter f s) = true.
Proof.
  induction s as [|c s IH]; simpl; [done|]. rewrite andb_true_iff. intros [??].
  destruct (f c); simpl; rewrite ?andb_true_iff; auto.
Qed.

Lemma length_filter_str f s : String.length (string_filter f s) ≤ String.length s.
Proof. induction s as [|c s IH]; simpl; [lia|]. destruct (f c); simpl; lia. Qed.

(** ** Lemmas: prefixes and suffixes *)

Lemma CutPrefix_app p r : CutPrefix (p +:+ r) p = Some r.
Proof.
  induction p as [|c p IH]; [done|]. rewrite app_cons_str. simpl.
  by rewrite bool_decide_true.
Qed.

Lemma CutPrefix_Some s p r : CutPrefix s p = Some r ↔ s = p +:+ r.
Proof.
  split; [|intros ->; apply CutPrefix_app].
  revert s. induction p as [|c p IH]; intros [|d s]; simpl; try naive_solver.
  case_bool_decide as E; [|done]. intros ->%IH. by rewrite E.
Qed.

Lemma HasPrefix_spec s p : HasPrefix s p = true ↔ ∃ r, s = p +:+ r.
Proof.
  unfold HasPrefix. rewrite bool_decide_eq_true. unfold is_Some.
  by setoid_rewrite CutPrefix_Some.
Qed.

Lemma rev_app_spec (s t u : string) :
  String.rev_app (s +:+ t) u = String.rev_app t (String.rev_app s u).
Proof. revert u. induction s as [|c s IH]; intros u; [done|]. rewrite app_cons_str. apply IH. Qed.

Lemma rev_app_rev (s t : string) : String.rev_app s t = String.rev s +:+ t.
Proof.
  unfold String.rev. revert t. induction s as [|c s IH]; intros t; [done|].
  simpl. rewrite (IH (String c t)), (IH (String c "")), app_assoc_str. done.
Qed.

Lemma rev_app_distr_str (s t : string) : String.rev (s +:+ t) = String.rev t +:+ String.rev s.
Proof. unfold String.rev at 1. rewrite rev_app_spec. apply rev_app_rev. Qed.

Lemma rev_involutive_str (s : string) : String.rev (String.rev s) = s.
Proof.
  induction s as [|c s IH]; [done|]. unfold String.rev at 2. simpl.
  rewrite rev_app_rev, rev_app_distr_str, IH. done.
Qed.

Lemma TrimSuffix_app s suffix : TrimSuffix (s +:+ suffix) suffix = s.
Proof.
  unfold TrimSuffix. by rewrite rev_app_distr_str, CutPrefix_app, rev_involutive_str.
Qed.

(** ** Lemmas: splitting and joining *)

Definition free_of (b : ascii) (s : string) : bool :=
  string_forallb (λ c, negb (bool_decide (c = b))) s.

Lemma Split_not_nil sep s : Split sep s ≠ [].
Proof. destruct s as [|c s]; simpl; [done|]. by repeat case_match. Qed.

Lemma Join_cons part parts sep :
  parts ≠ [] → Join (part :: parts) sep = part +:+ sep +:+ Join parts sep.
Proof. by destruct parts. Qed.

Lemma Join_Split sep s : Join (Split sep s) (str1 sep) = s.
Proof.
  induction s as [|c s IH]; [done|]. simpl. case_bool_decide as E.
  - rewrite Join_cons by apply Split_not_nil. rewrite IH. subst. done.
  - destruct (Split sep s) as [|p ps] eqn:Hs; [by apply Split_not_nil in Hs|].
    destruct ps as [|p' ps]; simpl in *; by rewrite <- IH.
Qed.

Lemma Split_free sep s : Forall (λ p, free_of sep p = true) (Split sep s).
Proof.
  induction s as [|c s IH]; simpl; [by repeat constructor|]. case_bool_decide as E.
  - by constructor.
  - destruct (Split sep s) as [|p ps]; inversion IH; subst; constructor; try done;
      unfold free_of in *; simpl; by rewrite bool_decide_false.
Qed.

Lemma Split_forallb f sep s :
  string_forallb f s = true → Forall (λ p, string_forallb f p = true) (Split sep s).
Proof.
  induction s as [|c s IH]; simpl; [by repeat constructor|].
  rewrite andb_true_iff. intros [Hc Hs]. specialize (IH Hs). case_bool_decide as E.
  - by constructor.
  - destruct (Split sep s) as [|p ps]; inversion IH; subst; constructor; try done; simpl;
      by rewrite Hc.
Qed.

Lemma Split_single sep s : free_of sep s = true → Split sep s = [s].
Proof.
  unfold free_of. induction s as [|c s IH]; [done|]. simpl. rewrite andb_true_iff, negb_true_iff.
  intros [Hc Hs]. by rewrite Hc, IH.
Qed.

Lemma Split_app_sep sep s rest :
  free_of sep s = true → Split sep (s +:+ String sep rest) = s :: Split sep rest.
Proof.
  unfold free_of. induction s as [|c s IH]; intros Hs.
  - rewrite app_nil_l_str. simpl. by rewrite bool_decide_true.
  - simpl in Hs. apply andb_true_iff in Hs as [Hc Hs]. rewrite app_cons_str. simpl.
    apply negb_true_iff in Hc. by rewrite Hc, IH.
Qed.

Lemma Cut_free sep s rest :
  free_of sep s = true → Cut sep (s +:+ String sep rest) = (s, rest, true).
Proof.
  induction s as [|c s IH]; intros Hs.
  - rewrite app_nil_l_str. simpl. by rewrite bool_decide_true.
  - unfold free_of in *. simpl in Hs. apply andb_true_iff in Hs as [Hc Hs].
    rewrite app_cons_str. simpl. apply negb_true_iff in Hc. by rewrite Hc, IH.
Qed.

(** Induction on the length of a string. *)
Lemma string_len_ind (P : string → Prop) :
  (∀ s, (∀ t, String.length t < String.length s → P t) → P s) → ∀ s, P s.
Proof.
  intros Hstep s. remember (String.length s) as n eqn:Hn. revert s Hn.
  induction (lt_wf n) as [n _ IH]. intros s ->. apply Hstep. intros t Ht. by eapply IH.
Qed.

(** A boolean property of bytes checked on all of them. *)
Definition all_bytes : list ascii := (λ n, Ascii.ascii_of_nat n) <$> seq 0 256.

Lemma all_bytes_spec (f : ascii → bool) : forallb f all_bytes = true → ∀ c, f c = true.
Proof.
  rewrite forallb_forall. intros Hf c. apply Hf. apply list_elem_of_In, list_elem_of_fmap.
  exists (Ascii.nat_of_ascii c). split; [by rewrite Ascii.ascii_nat_embedding|].
  apply elem_of_seq. pose proof (Ascii.nat_ascii_bounded c). lia.
Qed.

(** Folding against a string without [k] and [s] is comparison of the
    lower-case forms, byte by byte. *)
Definition plain_fold (c : ascii) : bool :=
  negb (bool_decide (lower c = byte_of 107)) && negb (bool_decide (lower c = byte_of 115)).

Lemma EqualFold_plain s t :
  string_forallb plain_fold t = true →
  EqualFold s t = bool_decide (string_map lower s = string_map lower t).
Proof.
  revert s. induction t as [|tc t IH]; intros [|c s] Ht; [done..|]. simpl in Ht |- *.
  apply andb_true_iff in Ht as [Hp Ht]. unfold plain_fold in Hp.
  apply andb_true_iff in Hp as [Hk%negb_true_iff Hs%negb_true_iff].
  destruct (bool_decide_reflect (lower c = lower tc)) as [Heq|Hne].
  - rewrite IH by done. apply bool_decide_ext. rewrite Heq. split; [by intros ->|congruence].
  - rewrite (bool_decide_false (String _ _ = _)) by congruence.
    destruct s as [|c2 [|c3 s]]; simpl; simpl in Hk, Hs; rewrite ?Hs, ?Hk; done.
Qed.

(** ** The order of strings *)

Definition string_ltb (s t : string) : bool :=
  match String.compare s t with Lt => true | _ => false end.

Lemma ascii_compare_spec a b : CompareSpec (a = b) (code a < code b)%N (code b < code a)%N
  (Ascii.compare a b).
Proof.
  unfold Ascii.compare, code. destruct (N.compare_spec (Ascii.N_of_ascii a) (Ascii.N_of_ascii b));
    constructor; [|done..].
  by rewrite <- (Ascii.ascii_N_embedding a), <- (Ascii.ascii_N_embedding b), H.
Qed.

Lemma string_ltb_irrefl s : string_ltb s s = false.
Proof.
  unfold string_ltb. induction s as [|c s IH]; [done|]. simpl.
  destruct (ascii_compare_spec c c); [exact IH|lia..].
Qed.

Lemma string_ltb_trans s t u : string_ltb s t = true → string_ltb t u = true → string_ltb s u = true.
Proof.
  unfold string_ltb. revert t u. induction s as [|a s IH]; intros [|b t] [|c u]; simpl; try done.
  destruct (ascii_compare_spec a b), (ascii_compare_spec b c), (ascii_compare_spec a c);
    subst; try done; try lia. apply IH.
Qed.

Lemma string_ltb_total s t : string_ltb s t = false → s = t ∨ string_ltb t s = true.
Proof.
  unfold string_ltb. rewrite (String.compare_antisym s t).
  destruct (String.compare t s) eqn:E; simpl; [|auto|done].
  intros _. left. symmetry. by apply String.compare_eq_iff.
Qed.

Lemma string_ltb_asymm s t : string_ltb s t = true → string_ltb t s = false.
Proof.
  intros Hst. apply not_true_is_false. intros Hts.
  pose proof (string_ltb_trans _ _ _ Hst Hts). by rewrite string_ltb_irrefl in *.
Qed.

Lemma string_ltb_ne s t : string_ltb s t = true → s ≠ t.
Proof. intros H ->. by rewrite string_ltb_irrefl in H. Qed.
