(* ===== verification/GoHttp.v ===== *)
(** The part of Go's [net/url], [net/textproto], [net/http] and [mime]
    packages the program uses: query parsing, header maps and media types. *)
From S2P Require Import Prelude GoStrings.
From Stdlib Require Import NArith.

(** ** net/url: [Values] and [ParseQuery] *)

Abbreviation Values := (gmap string (list string)) (only parsing).

Definition unhex (c : ascii) : option N :=
  if is_digit c then Some (code c - 48)%N
  else if in_range 97 102 c then Some (code c - 87)%N
  else if in_range 65 70 c then Some (code c - 55)%N
  else None.

(** [url.QueryUnescape]; [None] is the [EscapeError]. *)
Fixpoint QueryUnescape (s : string) : option string :=
  match s with
  | "" => Some ""
  | String c s1 =>
      if (code c =? 37)%N then
        match s1 with
        | String h (String l s3) =>
            h ← unhex h; l ← unhex l; rest ← QueryUnescape s3;
            Some (String (byte_of (16 * h + l)) rest)
        | _ => None
        end
      else rest ← QueryUnescape s1;
           Some (String (if (code c =? 43)%N then byte_of 32 else c) rest)
  end.

Definition values_append (key value : string) (m : Values) : Values :=
  <[key := default [] (m !! key) ++ [value]]> m.

(** One [&]-separated piece; the boolean is "no error so far". *)
Definition parse_piece (acc : Values * bool) (piece : string) : Values * bool :=
  let '(m, ok) := acc in
  if Contains piece ";" then (m, false)
  else if string_empty piece then (m, ok)
  else let '(key, value, _) := Cut "="%char piece in
       match QueryUnescape key, QueryUnescape value with
       | Some key, Some value => (values_append key value m, ok)
       | _, _ => (m, false)
       end.

(** [url.ParseQuery]: the values of the well-formed pieces, and whether every
    piece was well formed. *)
Definition ParseQuery (query : string) : Values * bool :=
  foldl parse_piece (∅, true) (Split "&"%char query).

(** [(Values).Get] *)
Definition values_get (m : Values) (key : string) : string :=
  match m !! key with Some (v :: _) => v | _ => "" end.

(** ** net/textproto and net/http: header maps *)

Abbreviation Header := (gmap string (list string)) (only parsing).

Definition token_byte (c : ascii) : bool :=
  is_digit c || is_upper c || is_lower c ||
  existsb (N.eqb (code c)) [33; 35; 36; 37; 38; 39; 42; 43; 45; 46; 94; 95; 96; 124; 126]%N.

Fixpoint canonical_from (up : bool) (s : string) : string :=
  match s with
  | "" => ""
  | String c s =>
      String (if up then upper c else lower c) (canonical_from (code c =? 45)%N s)
  end.

(** [http.CanonicalHeaderKey]: a key with a byte outside the token characters
    is returned unchanged. *)
Definition CanonicalHeaderKey (s : string) : string :=
  if string_forallb token_byte s then canonical_from true s else s.

Definition header_get (h : Header) (key : string) : string :=
  match h !! CanonicalHeaderKey key with Some (v :: _) => v | _ => "" end.
Definition header_values (h : Header) (key : string) : list string :=
  default [] (h !! CanonicalHeaderKey key).
Definition header_set (key value : string) (h : Header) : Header :=
  <[CanonicalHeaderKey key := [value]]> h.
Definition header_add (key value : string) (h : Header) : Header :=
  <[CanonicalHeaderKey key := default [] (h !! CanonicalHeaderKey key) ++ [value]]> h.

(** ** mime: [ParseMediaType] *)

Definition tspecial (c : ascii) : bool :=
  existsb (N.eqb (code c)) [40; 41; 60; 62; 64; 44; 59; 58; 92; 34; 47; 91; 93; 63; 61]%N.
Definition mime_token_char (c : ascii) : bool := in_range 33 126 c && negb (tspecial c).

Fixpoint consumeToken (v : string) : string * string :=
  match v with
  | "" => ("", "")
  | String c v' =>
      if mime_token_char c
      then let '(token, rest) := consumeToken v' in (String c token, rest)
      else ("", v)
  end.

(** The quoted-string loop of [consumeValue], after the opening quote. *)
Fixpoint consumeQuoted (v : string) : option (string * string) :=
  match v with
  | "" => None
  | String r v1 =>
      if bool_decide (r = QUOTE) then Some ("", v1)
      else
        let plain :=
          if bool_decide (r = CR) || bool_decide (r = LF) then None
          else '(value, rest) ← consumeQuoted v1; Some (String r value, rest) in
        match v1 with
        | String e v2 =>
            if (code r =? 92)%N && tspecial e
            then '(value, rest) ← consumeQuoted v2; Some (String e value, rest)
            else plain
        | "" => plain
        end
  end.

Definition consumeValue (v : string) : string * string :=
  match v with
  | String c v' =>
      if bool_decide (c = QUOTE) then default ("", v) (consumeQuoted v') else consumeToken v
  | "" => ("", "")
  end.

(** [consumeMediaParam]; [None] where Go returns an empty parameter name. *)
Definition consumeMediaParam (v : string) : option (string * string * string) :=
  rest ← CutPrefix (trim_left v) ";";
  let '(param, rest) := consumeToken (trim_left rest) in
  if string_empty param then None else
  rest ← CutPrefix (trim_left rest) "=";
  let rest := trim_left rest in
  let '(value, rest2) := consumeValue rest in
  if string_empty value && bool_decide (rest2 = rest) then None
  else Some (ToLower param, value, rest2).

Definition checkMediaTypeDisposition (s : string) : bool :=
  let '(typ, rest) := consumeToken s in
  if string_empty typ then false
  else if string_empty rest then true
  else match CutPrefix rest "/" with
       | None => false
       | Some rest =>
           let '(subtype, rest) := consumeToken rest in
           negb (string_empty subtype) && string_empty rest
       end.

(** The parameter loop: the parameters under the names they are written with;
    [None] is an error.  Every round consumes at least one byte, so
    [fuel = len(v)] is enough. *)
Fixpoint media_params (fuel : nat) (seen : gmap string string) (v : string)
    : option (gmap string string) :=
  match fuel with
  | O => Some seen
  | S fuel =>
      let v := trim_left v in
      if string_empty v then Some seen
      else match consumeMediaParam v with
           | None => if bool_decide (TrimSpace v = ";") then Some seen else None
           | Some (key, value, rest) =>
               match seen !! key with
               | Some value' =>
                   if bool_decide (value' = value) then media_params fuel seen rest else None
               | None => media_params fuel (<[key := value]> seen) rest
               end
           end
  end.

(** The media type with the parameters as they are written. *)
Definition media_type_params (v : string) : option (string * gmap string string) :=
  let '(base, _, _) := Cut ";"%char v in
  let mediatype := TrimSpace (ToLower base) in
  if checkMediaTypeDisposition mediatype then
    params ← media_params (S (String.length v)) ∅ (string_drop (String.length base) v);
    Some (mediatype, params)
  else None.

(** [mime.ParseMediaType]: the media type when there is no error.  The
    parameters of RFC 2231 are put together in [Multipart]. *)
Definition ParseMediaType (v : string) : option string := fst <$> media_type_params v.

(** ** Lemmas: canonical header keys *)

(** A property of all bytes, by computation. *)
Ltac by_bytes := apply all_bytes_spec; vm_compute; reflexivity.

Lemma upper_upper : ∀ c, bool_decide (upper (upper c) = upper c) = true.
Proof. by_bytes. Qed.
Lemma lower_lower : ∀ c, bool_decide (lower (lower c) = lower c) = true.
Proof. by_bytes. Qed.
Lemma lower_upper : ∀ c, bool_decide (lower (upper c) = lower c) = true.
Proof. by_bytes. Qed.
Lemma upper_lower : ∀ c, bool_decide (upper (lower c) = upper c) = true.
Proof. by_bytes. Qed.
Lemma dash_case : ∀ c, bool_decide ((code (upper c) =? 45)%N = (code c =? 45)%N ∧
  (code (lower c) =? 45)%N = (code c =? 45)%N) = true.
Proof. by_bytes. Qed.
Lemma token_case : ∀ c, bool_decide (token_byte (upper c) = token_byte c ∧
  token_byte (lower c) = token_byte c) = true.
Proof. by_bytes. Qed.
Lemma token_ascii : ∀ c, implb (token_byte c)
  (negb ((code c =? 197)%N || (code c =? 226)%N)) = true.
Proof. by_bytes. Qed.

Lemma canonical_from_token up s :
  string_forallb token_byte (canonical_from up s) = string_forallb token_byte s.
Proof.
  revert up. induction s as [|c s IH]; intros up; [done|]. simpl. rewrite IH. f_equal.
  pose proof (token_case c) as [??]%bool_decide_eq_true. by destruct up.
Qed.

Lemma canonical_from_idem up s : canonical_from up (canonical_from up s) = canonical_from up s.
Proof.
  revert up. induction s as [|c s IH]; intros up; [done|]. simpl.
  pose proof (dash_case c) as [Hu Hl]%bool_decide_eq_true.
  pose proof (upper_upper c) as Huu%bool_decide_eq_true.
  pose proof (lower_lower c) as Hll%bool_decide_eq_true.
  destruct up; rewrite ?Huu, ?Hll, ?Hu, ?Hl, IH; done.
Qed.

Lemma canonical_from_lower up s :
  string_map lower (canonical_from up s) = string_map lower s.
Proof.
  revert up. induction s as [|c s IH]; intros up; [done|]. simpl. rewrite IH. f_equal.
  pose proof (lower_upper c) as Hlu%bool_decide_eq_true.
  pose proof (lower_lower c) as Hll%bool_decide_eq_true. by destruct up.
Qed.

Lemma CanonicalHeaderKey_idem s :
  CanonicalHeaderKey (CanonicalHeaderKey s) = CanonicalHeaderKey s.
Proof.
  unfold CanonicalHeaderKey. destruct (string_forallb token_byte s) eqn:E; [|by rewrite E].
  by rewrite canonical_from_token, E, canonical_from_idem.
Qed.

(** On token bytes [EqualFold] is comparison of the lower-case forms. *)
Lemma EqualFold_token s t :
  string_forallb token_byte s = true →
  EqualFold s t = bool_decide (string_map lower s = string_map lower t).
Proof.
  revert s. induction t as [|tc t IH]; intros [|c s] Hs; [done..|]. simpl in Hs |- *.
  apply andb_true_iff in Hs as [Hc Hs].
  pose proof (token_ascii c) as Ha. rewrite Hc in Ha. simpl in Ha.
  apply negb_true_iff, orb_false_iff in Ha as [H1 H2].
  destruct (bool_decide_reflect (lower c = lower tc)) as [Heq|Hne].
  - rewrite IH by done. apply bool_decide_ext. rewrite Heq. split; [by intros ->|congruence].
  - rewrite H1, H2. rewrite (bool_decide_false (String _ _ = _)) by congruence.
    destruct s as [|c2 [|c3 s]]; simpl; rewrite ?andb_false_r, ?andb_false_l; simpl; done.
Qed.

Lemma EqualFold_canonical s t : EqualFold (CanonicalHeaderKey s) t = EqualFold s t.
Proof.
  unfold CanonicalHeaderKey. destruct (string_forallb token_byte s) eqn:E; [|done].
  rewrite !EqualFold_token by (by rewrite ?canonical_from_token).
  by rewrite canonical_from_lower.
Qed.

(** The canonical form depends on the lower-case form only. *)
Lemma canonical_from_fold up s : canonical_from up (string_map lower s) = canonical_from up s.
Proof.
  revert up. induction s as [|c s IH]; intros up; [done|]. simpl.
  pose proof (dash_case c) as [_ Hl]%bool_decide_eq_true.
  pose proof (upper_lower c) as Hul%bool_decide_eq_true.
  pose proof (lower_lower c) as Hll%bool_decide_eq_true.
  rewrite Hl, IH. by destruct up; rewrite ?Hul, ?Hll.
Qed.

Lemma CanonicalHeaderKey_fold s t :
  string_forallb token_byte s = true → string_forallb token_byte t = true →
  string_map lower s = string_map lower t → CanonicalHeaderKey s = CanonicalHeaderKey t.
Proof.
  intros Hs Ht Heq. unfold CanonicalHeaderKey. rewrite Hs, Ht.
  by rewrite <- canonical_from_fold, Heq, canonical_from_fold.
Qed.

Lemma header_get_set key value h : header_get (header_set key value h) key = value.
Proof. unfold header_get, header_set. by rewrite lookup_insert_eq. Qed.

Lemma header_get_set_ne key key' value h :
  CanonicalHeaderKey key ≠ CanonicalHeaderKey key' →
  header_get (header_set key value h) key' = header_get h key'.
Proof. intros. unfold header_get, header_set. by rewrite lookup_insert_ne. Qed.

(** Adding values never changes the first one. *)
Lemma header_get_add key key' value h :
  header_values h key' ≠ [] →
  header_get (header_add key value h) key' = header_get h key' ∧
  header_values (header_add key value h) key' ≠ [].
Proof.
  unfold header_get, header_values, header_add. rewrite lookup_insert.
  case_decide as Hk; [|done]. rewrite <- Hk.
  destruct (h !! CanonicalHeaderKey key) as [[|v vs]|]; done.
Qed.

Lemma header_get_values h k : header_get h k = default "" (head (header_values h k)).
Proof. unfold header_get, header_values. by destruct (h !! _) as [[]|]. Qed.

Lemma header_values_set_ne key key' value h :
  CanonicalHeaderKey key ≠ CanonicalHeaderKey key' →
  header_values (header_set key value h) key' = header_values h key'.
Proof. intros. unfold header_values, header_set. by rewrite lookup_insert_ne. Qed.
