(* ===== verification/Errors.v ===== *)
(** Go error values and [backend/errors.go].

    An [error] value is the tree [errors.As] and [errors.Is] walk: the dynamic
    type at the node, and what [Unwrap] yields.  The program distinguishes
    [*backend.Error], the [websocket] package's [*protocolFailure], and
    sentinel variables compared by identity; every other type is [Opaque]. *)
From S2P Require Import Prelude GoStrings.

Abbreviation ErrorKind := string (only parsing).

Definition ErrorInvalid : ErrorKind := "invalid_request_error".
Definition ErrorUnauthorized : ErrorKind := "authentication_error".
Definition ErrorForbidden : ErrorKind := "permission_error".
Definition ErrorNotFound : ErrorKind := "not_found_error".
Definition ErrorConflict : ErrorKind := "conflict_error".
Definition ErrorRateLimit : ErrorKind := "rate_limit_error".
Definition ErrorUnsupported : ErrorKind := "unsupported_error".
Definition ErrorTimeout : ErrorKind := "timeout_error".
Definition ErrorCanceled : ErrorKind := "canceled_error".
Definition ErrorUnavailable : ErrorKind := "service_unavailable_error".
Definition ErrorInternal : ErrorKind := "server_error".

(** The constants of type [ErrorKind]. *)
Definition error_kinds : list ErrorKind :=
  [ErrorInvalid; ErrorUnauthorized; ErrorForbidden; ErrorNotFound; ErrorConflict;
   ErrorRateLimit; ErrorUnsupported; ErrorTimeout; ErrorCanceled; ErrorUnavailable;
   ErrorInternal].

(** [type Error struct], over the type of its [Cause]. *)
Record Error (E : Type) := mkError {
  err_Kind : ErrorKind;
  err_Code : string;
  err_Param : string;
  err_Message : string;
  err_RetryAfter : Z;
  err_Cause : option E }.
Arguments mkError {E} _ _ _ _ _ _.
Arguments err_Kind {E} _.
Arguments err_Code {E} _.
Arguments err_Param {E} _.
Arguments err_Message {E} _.
Arguments err_RetryAfter {E} _.
Arguments err_Cause {E} _.

(** [BackendErr None] is a nil [*backend.Error] stored in an [error]. *)
Inductive goerror :=
| Opaque (text : string) (wrapped : list goerror)
| Sentinel (name : string)
| ProtocolFailure (message : string)
| BackendErr (p : option (Error goerror)).

Abbreviation backend_error := (Error goerror) (only parsing).

(** [&backend.Error{Kind: kind, Message: message}] *)
Definition simple_error (kind : ErrorKind) (message : string) : backend_error :=
  mkError kind "" "" message 0 None.

(** [(e *Error) Error()] *)
Definition Error_text (p : option backend_error) : string :=
  match p with
  | None => "<nil>"
  | Some e =>
      if negb (string_empty (err_Message e)) then err_Message e
      else "backend " +:+ err_Kind e
  end.

(** [(e *Error) Unwrap()] dereferences its receiver: [None] is the panic on a
    nil one. *)
Definition Error_Unwrap (p : option backend_error) : option (option goerror) :=
  err_Cause <$> p.

(** [errors.As(err, &backendError)]: the first [*backend.Error] in pre-order. *)
Fixpoint as_backend (err : goerror) : option (option backend_error) :=
  match err with
  | BackendErr p => Some p
  | Opaque _ wrapped =>
      (fix go (ws : list goerror) : option (option backend_error) :=
         match ws with
         | [] => None
         | w :: ws => match as_backend w with Some p => Some p | None => go ws end
         end) wrapped
  | Sentinel _ | ProtocolFailure _ => None
  end.

(** An error with no [*backend.Error] in its tree. *)
Definition foreign_error (err : goerror) : Prop := as_backend err = None.

Lemma as_backend_opaque text wrapped :
  as_backend (Opaque text wrapped) = head (omap as_backend wrapped).
Proof.
  induction wrapped as [|w ws IH]; csimpl; [done|].
  destruct (as_backend w); csimpl; [done|]. exact IH.
Qed.
