(* ===== verification/JsonString.v ===== *)
(** [encoding/json]'s encoding of strings (with HTML escaping on, its
    default), and of the small documents built from strings the program
    writes.

    UTF-8 well-formedness is Go's [utf8.DecodeRune]; every byte that does not
    start a well-formed sequence is written as [\ufffd]. *)
From S2P Require Import Prelude GoStrings.
From Stdlib Require Import NArith.

(** ** Well-formed multi-byte sequences *)

Definition cont (c : ascii) : bool := in_range 128 191 c.

Definition utf8_two (a b : ascii) : bool := in_range 194 223 a && cont b.

Definition utf8_three (a b c : ascii) : bool :=
  ((code a =? 224)%N && in_range 160 191 b ||
   (in_range 225 236 a || in_range 238 239 a) && cont b ||
   (code a =? 237)%N && in_range 128 159 b) && cont c.

Definition utf8_four (a b c d : ascii) : bool :=
  ((code a =? 240)%N && in_range 144 191 b ||
   in_range 241 243 a && cont b ||
   (code a =? 244)%N && in_range 128 143 b) && cont c && cont d.

(** ** The string encoder *)

Definition BACKSLASH : ascii := byte_of 92.
Definition esc1 (c : ascii) : string := String BACKSLASH (str1 c).
(** A [\u00XX] escape. *)
Definition esc_u00 (c : ascii) : string := String BACKSLASH ("u00" +:+ hex2 c).
Definition esc_fffd : string := String BACKSLASH "ufffd".

(** One ASCII byte. *)
Definition escape_ascii (c : ascii) : string :=
  let n := code c in
  if (n =? 34)%N || (n =? 92)%N then esc1 c
  else if (n =? 8)%N then esc1 "b"%char
  else if (n =? 12)%N then esc1 "f"%char
  else if (n =? 10)%N then esc1 "n"%char
  else if (n =? 13)%N then esc1 "r"%char
  else if (n =? 9)%N then esc1 "t"%char
  else if (n <? 32)%N || (n =? 60)%N || (n =? 62)%N || (n =? 38)%N then esc_u00 c
  else str1 c.

(** A three-byte rune: U+2028 and U+2029 are escaped. *)
Definition escape_three (a b c : ascii) : string :=
  if (code a =? 226)%N && (code b =? 128)%N && ((code c =? 168)%N || (code c =? 169)%N)
  then String BACKSLASH ("u202" +:+ str1 (hex_digit (code c mod 16)))
  else String a (String b (str1 c)).

Fixpoint escape_string (s : string) : string :=
  match s with
  | "" => ""
  | String a r1 =>
      if (code a <? 128)%N then escape_ascii a +:+ escape_string r1
      else match r1 with
      | "" => esc_fffd
      | String b r2 =>
          if utf8_two a b then String a (String b (escape_string r2))
          else match r2 with
          | "" => esc_fffd +:+ escape_string r1
          | String c r3 =>
              if utf8_three a b c then escape_three a b c +:+ escape_string r3
              else match r3 with
              | "" => esc_fffd +:+ escape_string r1
              | String d r4 =>
                  if utf8_four a b c d
                  then String a (String b (String c (String d (escape_string r4))))
                  else esc_fffd +:+ escape_string r1
              end
          end
      end
  end.

(** [json.Marshal] of a string, of a string slice, and of [nil]. *)
Definition marshal_string (s : string) : string :=
  String QUOTE (escape_string s +:+ str1 QUOTE).
Definition marshal_strings (l : list string) : string :=
  "[" +:+ Join (marshal_string <$> l) "," +:+ "]".
Definition marshal_nil : string := "null".

(** An object from its members, already encoded, in output order. *)
Definition marshal_object (members : list (string * string)) : string :=
  "{" +:+ Join ((λ kv, marshal_string kv.1 +:+ ":" +:+ kv.2) <$> members) "," +:+ "}".

(** ** The encoder's output has no control bytes *)

Definition printable (c : ascii) : bool := (32 <=? code c)%N.

Lemma escape_ascii_printable c : string_forallb printable (escape_ascii c) = true.
Proof. apply (all_bytes_spec (λ c, string_forallb printable (escape_ascii c))). by vm_compute. Qed.

Lemma in_range_printable lo hi c : (32 <= lo)%N → in_range lo hi c = true → printable c = true.
Proof. unfold in_range, printable. rewrite andb_true_iff, !N.leb_le. lia. Qed.

Lemma utf8_two_printable a b : utf8_two a b = true → printable a = true ∧ printable b = true.
Proof.
  unfold utf8_two, cont. rewrite andb_true_iff. intros [Ha Hb].
  split; by (eapply in_range_printable; [|eassumption]).
Qed.

Lemma utf8_three_printable a b c :
  utf8_three a b c = true → printable a = true ∧ printable b = true ∧ printable c = true.
Proof.
  unfold utf8_three, cont, in_range, printable.
  rewrite !andb_true_iff, !orb_true_iff, !andb_true_iff, !orb_true_iff,
    !andb_true_iff, !N.leb_le, !N.eqb_eq. lia.
Qed.

Lemma utf8_four_printable a b c d :
  utf8_four a b c d = true →
  printable a = true ∧ printable b = true ∧ printable c = true ∧ printable d = true.
Proof.
  unfold utf8_four, cont, in_range, printable.
  rewrite !andb_true_iff, !orb_true_iff, !andb_true_iff, !N.leb_le, !N.eqb_eq. lia.
Qed.

Lemma escape_three_printable a b c :
  utf8_three a b c = true → string_forallb printable (escape_three a b c) = true.
Proof.
  intros (Ha & Hb & Hc)%utf8_three_printable. unfold escape_three.
  case_match; simpl; [|by rewrite Ha, Hb, Hc].
  rewrite andb_true_r.
  by apply (all_bytes_spec (λ c, printable (hex_digit (code c mod 16)))).
Qed.

Lemma escape_string_printable s : string_forallb printable (escape_string s) = true.
Proof.
  induction s as [s IH] using string_len_ind. destruct s as [|a r1]; [done|]. simpl.
  assert (∀ t, String.length t < S (String.length r1) →
            string_forallb printable (escape_string t) = true) as IH' by exact IH.
  clear IH. case_match.
  { by rewrite string_forallb_app, escape_ascii_printable, IH' by lia. }
  destruct r1 as [|b r2]; [done|]. destruct (utf8_two a b) eqn:E2.
  { apply utf8_two_printable in E2 as [Ha Hb]. simpl. by rewrite Ha, Hb, IH' by (simpl; lia). }
  destruct r2 as [|c r3]; [by rewrite string_forallb_app, IH' by (simpl; lia)|].
  destruct (utf8_three a b c) eqn:E3.
  { by rewrite string_forallb_app, escape_three_printable, IH' by (simpl; lia || done). }
  destruct r3 as [|d r4]; [by rewrite string_forallb_app, IH' by (simpl; lia)|].
  destruct (utf8_four a b c d) eqn:E4; [|by rewrite string_forallb_app, IH' by (simpl; lia)].
  apply utf8_four_printable in E4 as (Ha & Hb & Hc & Hd). simpl.
  by rewrite Ha, Hb, Hc, Hd, IH' by (simpl; lia).
Qed.

Lemma marshal_string_printable s : string_forallb printable (marshal_string s) = true.
Proof.
  unfold marshal_string. simpl. by rewrite string_forallb_app, escape_string_printable.
Qed.

Lemma printable_free_of b s :
  printable b = false → string_forallb printable s = true → free_of b s = true.
Proof.
  intros Hb. apply string_forallb_impl. intros c Hc.
  apply negb_true_iff, bool_decide_eq_false. by intros ->; congruence.
Qed.

Lemma Join_forallb f parts sep :
  string_forallb f sep = true → Forall (λ p, string_forallb f p = true) parts →
  string_forallb f (Join parts sep) = true.
Proof.
  intros Hsep. induction 1 as [|p ps Hp Hps IH]; [done|].
  destruct ps as [|p' ps]; [done|]. rewrite Join_cons by done.
  by rewrite !string_forallb_app, Hp, Hsep, IH.
Qed.

Lemma marshal_object_printable members :
  Forall (λ kv, string_forallb printable kv.2 = true) members →
  string_forallb printable (marshal_object members) = true.
Proof.
  intros Hm. unfold marshal_object. rewrite !string_forallb_app, Join_forallb; [done|done|].
  apply Forall_fmap. eapply Forall_impl; [exact Hm|]. intros [k v] Hv.
  change (string_forallb printable (marshal_string k +:+ ":" +:+ v) = true).
  rewrite !string_forallb_app, marshal_string_printable. exact Hv.
Qed.
