(* ===== verification/Json.v ===== *)
(** [encoding/json]'s reading side: the grammar its scanner accepts, strings
    as [unquote] decodes them, and the document as a tree that keeps the order
    of members, duplicates, and the text of numbers.

    What a document decodes to depends on the Go type it is decoded into; that
    is done on the tree, where the program does it. *)
From S2P Require Import Prelude GoStrings JsonString.
From Stdlib Require Import NArith.

Inductive json :=
| JNull
| JBool (b : bool)
| JNumber (literal : string)
| JString (s : string)
| JArray (elements : list json)
| JObject (members : list (string * json)).

(** ** Runes *)

(** [utf8.EncodeRune], for the code points the decoder produces. *)
Definition encode_rune (r : N) : string :=
  if (r <? 128)%N then str1 (byte_of r)
  else if (r <? 2048)%N then
    String (byte_of (192 + r / 64)) (str1 (byte_of (128 + r mod 64)))
  else if (r <? 65536)%N then
    String (byte_of (224 + r / 4096))
      (String (byte_of (128 + r / 64 mod 64)) (str1 (byte_of (128 + r mod 64))))
  else
    String (byte_of (240 + r / 262144))
      (String (byte_of (128 + r / 4096 mod 64))
        (String (byte_of (128 + r / 64 mod 64)) (str1 (byte_of (128 + r mod 64))))).

Definition replacement : string := encode_rune 65533.

Definition hex_value (c : ascii) : option N :=
  if is_digit c then Some (code c - 48)%N
  else if in_range 97 102 c then Some (code c - 87)%N
  else if in_range 65 70 c then Some (code c - 55)%N
  else None.

Definition hex4 (a b c d : ascii) : option N :=
  a ← hex_value a; b ← hex_value b; c ← hex_value c; d ← hex_value d;
  Some (((a * 16 + b) * 16 + c) * 16 + d)%N.

Definition high_surrogate (r : N) : bool := (55296 <=? r)%N && (r <=? 56319)%N.
Definition low_surrogate (r : N) : bool := (56320 <=? r)%N && (r <=? 57343)%N.

(** The byte a one-letter escape stands for. *)
Definition simple_escape (c : ascii) : option ascii :=
  if existsb (N.eqb (code c)) [34; 92; 47]%N then Some c
  else if (code c =? 98)%N then Some (byte_of 8)
  else if (code c =? 102)%N then Some (byte_of 12)
  else if (code c =? 110)%N then Some (byte_of 10)
  else if (code c =? 114)%N then Some (byte_of 13)
  else if (code c =? 116)%N then Some (byte_of 9)
  else None.

(** ** Strings *)

Definition prepend (p : string) (r : option (string * string)) : option (string * string) :=
  '(s, rest) ← r; Some (p +:+ s, rest).

(** What follows an opening quote: the decoded string and the text behind the
    closing quote.  A [\u] escape of a surrogate is the pair's rune when its
    other half follows, and U+FFFD otherwise; a byte that starts no
    well-formed UTF-8 sequence is U+FFFD. *)
Fixpoint parse_string (s : string) : option (string * string) :=
  match s with
  | "" => None
  | String a r1 =>
      if bool_decide (a = QUOTE) then Some ("", r1)
      else if bool_decide (a = BACKSLASH) then
        match r1 with
        | "" => None
        | String b r2 =>
            if (code b =? 117)%N then
              match r2 with
              | String h1 (String h2 (String h3 (String h4 r6))) =>
                  rune ← hex4 h1 h2 h3 h4;
                  let lone := prepend replacement (parse_string r6) in
                  if low_surrogate rune then lone
                  else if high_surrogate rune then
                    match r6 with
                    | String b1 (String b2 (String g1 (String g2 (String g3 (String g4 r12))))) =>
                        if bool_decide (b1 = BACKSLASH) && (code b2 =? 117)%N then
                          match hex4 g1 g2 g3 g4 with
                          | Some rune2 =>
                              if low_surrogate rune2
                              then prepend (encode_rune
                                     (65536 + (rune - 55296) * 1024 + (rune2 - 56320)))
                                     (parse_string r12)
                              else lone
                          | None => lone
                          end
                        else lone
                    | _ => lone
                    end
                  else prepend (encode_rune rune) (parse_string r6)
              | _ => None
              end
            else e ← simple_escape b; prepend (str1 e) (parse_string r2)
        end
      else if (code a <? 32)%N then None
      else if (code a <? 128)%N then prepend (str1 a) (parse_string r1)
      else match r1 with
      | "" => None
      | String b r2 =>
          if utf8_two a b then prepend (String a (str1 b)) (parse_string r2)
          else match r2 with
          | "" => prepend replacement (parse_string r1)
          | String c r3 =>
              if utf8_three a b c then prepend (String a (String b (str1 c))) (parse_string r3)
              else match r3 with
              | "" => prepend replacement (parse_string r1)
              | String d r4 =>
                  if utf8_four a b c d
                  then prepend (String a (String b (String c (str1 d)))) (parse_string r4)
                  else prepend replacement (parse_string r1)
              end
          end
      end
  end.

(** ** Numbers *)

Fixpoint take_digits (s : string) : string * string :=
  match s with
  | String c s' =>
      if is_digit c then let '(ds, rest) := take_digits s' in (String c ds, rest) else ("", s)
  | "" => ("", "")
  end.

(** The integer part: a zero alone, or digits that do not start with one. *)
Definition parse_int (s : string) : option (string * string) :=
  match s with
  | String c s' =>
      if (code c =? 48)%N then Some ("0", s')
      else if is_digit c then Some (take_digits s) else None
  | "" => None
  end.

(** A fraction and an exponent, when they are there. *)
Definition parse_frac (s : string) : option (string * string) :=
  match s with
  | String c s' =>
      if (code c =? 46)%N then
        let '(ds, rest) := take_digits s' in
        if string_empty ds then None else Some (String c ds, rest)
      else Some ("", s)
  | "" => Some ("", "")
  end.

Definition parse_exp (s : string) : option (string * string) :=
  match s with
  | String c s' =>
      if (code c =? 101)%N || (code c =? 69)%N then
        let '(sign, s'') := match s' with
          | String d s'' => if (code d =? 43)%N || (code d =? 45)%N then (str1 d, s'') else ("", s')
          | "" => ("", "")
          end in
        let '(ds, rest) := take_digits s'' in
        if string_empty ds then None else Some (String c (sign +:+ ds), rest)
      else Some ("", s)
  | "" => Some ("", "")
  end.

Definition parse_number (s : string) : option (string * string) :=
  let '(sign, s1) := match s with
    | String c s' => if (code c =? 45)%N then (str1 c, s') else ("", s)
    | "" => ("", "")
    end in
  '(int, s2) ← parse_int s1;
  '(frac, s3) ← parse_frac s2;
  '(exp, s4) ← parse_exp s3;
  Some (sign +:+ int +:+ frac +:+ exp, s4).

(** ** Documents *)

Definition json_space (c : ascii) : bool :=
  existsb (N.eqb (code c)) [32; 9; 13; 10]%N.

Fixpoint skip_space (s : string) : string :=
  match s with
  | String c s' => if json_space c then skip_space s' else s
  | "" => ""
  end.

(** [maxNestingDepth] *)
Definition max_depth : nat := Z.to_nat 10000.

Definition char_is (n : N) (c : ascii) : bool := (code c =? n)%N.

(** A value, and the two loops inside the brackets.  [depth] is how many more
    brackets may be opened; every call that recurs has consumed a byte, or is
    the one call a loop makes per round. *)
Fixpoint parse_value (fuel depth : nat) (s : string) {struct fuel} : option (json * string) :=
  match fuel with
  | O => None
  | S fuel =>
      match skip_space s with
      | "" => None
      | String c rest =>
          if char_is 123 c then
            match depth with
            | O => None
            | S depth =>
                match skip_space rest with
                | String c' rest' =>
                    if char_is 125 c' then Some (JObject [], rest')
                    else '(ms, rest) ← parse_members fuel depth rest; Some (JObject ms, rest)
                | "" => None
                end
            end
          else if char_is 91 c then
            match depth with
            | O => None
            | S depth =>
                match skip_space rest with
                | String c' rest' =>
                    if char_is 93 c' then Some (JArray [], rest')
                    else '(es, rest) ← parse_elements fuel depth rest; Some (JArray es, rest)
                | "" => None
                end
            end
          else if bool_decide (c = QUOTE) then
            '(str, rest) ← parse_string rest; Some (JString str, rest)
          else match CutPrefix (String c rest) "true" with
          | Some rest => Some (JBool true, rest)
          | None =>
          match CutPrefix (String c rest) "false" with
          | Some rest => Some (JBool false, rest)
          | None =>
          match CutPrefix (String c rest) "null" with
          | Some rest => Some (JNull, rest)
          | None => '(n, rest) ← parse_number (String c rest); Some (JNumber n, rest)
          end end end
      end
  end
with parse_elements (fuel depth : nat) (s : string) {struct fuel} : option (list json * string) :=
  match fuel with
  | O => None
  | S fuel =>
      '(v, rest) ← parse_value fuel depth s;
      match skip_space rest with
      | "" => None
      | String c rest =>
          if char_is 44 c then '(vs, rest) ← parse_elements fuel depth rest; Some (v :: vs, rest)
          else if char_is 93 c then Some ([v], rest)
          else None
      end
  end
with parse_members (fuel depth : nat) (s : string) {struct fuel}
    : option (list (string * json) * string) :=
  match fuel with
  | O => None
  | S fuel =>
      match skip_space s with
      | "" => None
      | String q rest =>
          if bool_decide (q = QUOTE) then
            '(key, rest) ← parse_string rest;
            match skip_space rest with
            | "" => None
            | String colon rest =>
                if char_is 58 colon then
                  '(v, rest) ← parse_value fuel depth rest;
                  match skip_space rest with
                  | "" => None
                  | String c rest =>
                      if char_is 44 c then
                        '(ms, rest) ← parse_members fuel depth rest;
                        Some ((key, v) :: ms, rest)
                      else if char_is 125 c then Some ([(key, v)], rest)
                      else None
                  end
                else None
            end
          else None
      end
  end.

(** A whole document. *)
Definition parse_fuel (s : string) : nat := 2 * String.length s + 2.
Definition parse (s : string) : option json :=
  '(v, rest) ← parse_value (parse_fuel s) max_depth s;
  if string_empty (skip_space rest) then Some v else None.

(** JSON text with its quotes written as apostrophes. *)
Definition quoted (s : string) : string :=
  string_map (λ c, if bool_decide (c = "'"%char) then QUOTE else c) s.
