(* ===== verification/Float64.v ===== *)
(** [float64] as [encoding/json] uses it: [strconv.ParseFloat] on a JSON number
    literal, and the shortest decimal [json.Marshal] writes.

    A finite value is a sign and [mant * 2^exp] in the canonical form of IEEE
    754 binary64; rounding is to nearest, ties to even, on exact ratios of
    integers. *)
From S2P Require Import Prelude GoStrings Json.
Local Open Scope Z_scope.

Record float64 := mkFloat { f_neg : bool; f_mant : Z; f_exp : Z }.

#[export] Instance float64_eq_dec : EqDecision float64.
Proof. solve_decision. Defined.

(** ** Rounding a ratio *)

(** [floor(log2(num / den))] for positive arguments. *)
Definition log2_ratio (num den : Z) : Z :=
  let e := Z.log2 num - Z.log2 den in
  if (if 0 <=? e then num <? den * 2 ^ e else num * 2 ^ (- e) <? den) then e - 1 else e.

(** [num / den * base^(-k)] as a ratio, for any sign of [k]. *)
Definition scale (base k num den : Z) : Z * Z :=
  if 0 <=? k then (num, den * base ^ k) else (num * base ^ (- k), den).

(** The nearest integer to a ratio, ties to even. *)
Definition round_even (num den : Z) : Z :=
  let q := num / den in
  match 2 * (num mod den) ?= den with
  | Lt => q
  | Gt => q + 1
  | Eq => if Z.even q then q else q + 1
  end.

(** The mantissa and exponent nearest to [num / den]; [None] on overflow. *)
Definition round_ratio (num den : Z) : option (Z * Z) :=
  if num =? 0 then Some (0, -1074) else
  let e := Z.max (log2_ratio num den - 52) (-1074) in
  let '(n, d) := scale 2 e num den in
  let m := round_even n d in
  let '(m, e) := if m =? 2 ^ 53 then (2 ^ 52, e + 1) else (m, e) in
  if 971 <? e then None else Some (m, e).

(** ** Reading a literal *)

Definition digit_value (c : ascii) : Z := Z.of_N (code c) - 48.

Fixpoint digits_value (acc : Z) (s : string) : Z :=
  match s with
  | "" => acc
  | String c s => digits_value (10 * acc + digit_value c) s
  end.

(** The parts of a JSON number literal: its sign, its digits, how many of them
    are behind the point, and its exponent. *)
Definition literal_parts (literal : string) : bool * string * nat * Z :=
  let '(neg, s) := match literal with
    | String c s => if char_is 45 c then (true, s) else (false, literal)
    | "" => (false, "")
    end in
  let '(int, s) := take_digits s in
  let '(frac, s) := match s with
    | String c s' => if char_is 46 c then take_digits s' else ("", s)
    | "" => ("", "")
    end in
  let exp := match s with
    | String _ (String c s') =>
        if char_is 45 c then - digits_value 0 s'
        else if char_is 43 c then digits_value 0 s'
        else digits_value 0 (String c s')
    | _ => 0
    end in
  (neg, (int +:+ frac), String.length frac, exp).

(** The rounding of [digits * 10^exp], cut short where the power of ten alone
    decides. *)
Definition round_decimal (digits exp : Z) (width : nat) : option (Z * Z) :=
  if digits =? 0 then Some (0, -1074)
  else if 400 <? exp then None
  else if exp + Z.of_nat width <? -400 then Some (0, -1074)
  else let '(n, d) := scale 10 (- exp) digits 1 in round_ratio n d.

(** [strconv.ParseFloat(literal, 64)]; [None] is the range error. *)
Definition ParseFloat (literal : string) : option float64 :=
  let '(neg, ds, behind, exp) := literal_parts literal in
  '(m, e) ← round_decimal (digits_value 0 ds) (exp - Z.of_nat behind) (String.length ds);
  Some (mkFloat neg m e).

(** ** Writing the shortest decimal *)

(** The absolute value as a ratio. *)
Definition ratio (m e : Z) : Z * Z := scale 2 (- e) m 1.

(** [floor(log10(num / den))], by search from an estimate below. *)
Fixpoint log10_from (fuel : nat) (k num den : Z) : Z :=
  match fuel with
  | O => k
  | S fuel =>
      let '(n, d) := scale 10 (k + 1) num den in
      if n <? d then k else log10_from fuel (k + 1) num den
  end.
Definition log10_ratio (num den : Z) : Z :=
  let e := log2_ratio num den in
  log10_from 4 (e * 30103 / 100000 - 2) num den.

(** A decimal of [n] digits that reads back as the value: the nearest one,
    when the two around the value both do. *)
Definition candidate (m e num den k : Z) (n : nat) : option Z :=
  let s := k + 1 - Z.of_nat n in
  let '(x, y) := scale 10 s num den in
  let lo := x / y in
  let reads c := let '(p, q) := scale 10 (- s) c 1 in
    bool_decide (round_ratio p q = Some (m, e)) in
  if x mod y =? 0 then (if reads lo then Some lo else None)
  else
    match reads lo, reads (lo + 1) with
    | true, true => Some (round_even x y)
    | true, false => Some lo
    | false, true => Some (lo + 1)
    | false, false => None
    end.

Fixpoint shortest_from (fuel n : nat) (m e num den k : Z) : option (Z * nat) :=
  match fuel with
  | O => None
  | S fuel =>
      match candidate m e num den k n with
      | Some c => Some (c, n)
      | None => shortest_from fuel (S n) m e num den k
      end
  end.

Definition trim_zeros (ds : string) : string :=
  (fix go (s : string) : string :=
     match s with
     | "" => ""
     | String c s' => let r := go s' in
         if string_empty r && char_is 48 c then "" else String c r
     end) ds.

(** The digits and the position of the point: [0.ds * 10^point]. *)
Definition shortest (m e : Z) : string * Z :=
  if m =? 0 then ("0", 1) else
  let '(num, den) := ratio m e in
  let k := log10_ratio num den in
  match shortest_from 800 1 m e num den k with
  | Some (c, n) =>
      let ds := Itoa c in
      (trim_zeros ds, k + 1 + (Z.of_nat (String.length ds) - Z.of_nat n))
  | None => ("0", 1)
  end.

Fixpoint zeros (n : nat) : string :=
  match n with O => "" | S n => String "0" (zeros n) end.

(** [strconv.FormatFloat(abs, 'f', -1, 64)] *)
Definition format_f (ds : string) (point : Z) : string :=
  (if point <=? 0 then "0." +:+ zeros (Z.to_nat (- point)) +:+ ds
   else if Z.of_nat (String.length ds) <=? point
   then ds +:+ zeros (Z.to_nat point - String.length ds)
   else string_take (Z.to_nat point) ds +:+ "." +:+ string_drop (Z.to_nat point) ds).

(** [strconv.FormatFloat(abs, 'e', -1, 64)], with the [e-09] of the JSON
    encoder written [e-9]. *)
Definition format_e (ds : string) (point : Z) : string :=
  let exp := point - 1 in
  let digits := Itoa (Z.abs exp) in
  (string_take 1 ds +:+
   (if string_empty (string_drop 1 ds) then "" else "." +:+ string_drop 1 ds) +:+
   "e" +:+ (if exp <? 0 then "-" else "+") +:+
   (if (String.length digits =? 1)%nat && negb (exp <? 0) then "0" +:+ digits else digits)).

(** Comparison of nonnegative values. *)
Definition float_ltb (m e m' e' : Z) : bool :=
  let '(n, d) := ratio m e in let '(n', d') := ratio m' e' in n * d' <? n' * d.

Definition json_float (f : float64) : string :=
  let '(ds, point) := shortest (f_mant f) (f_exp f) in
  let small := match round_ratio 1 (10 ^ 6) with
    | Some (m, e) => float_ltb (f_mant f) (f_exp f) m e
    | None => false
    end in
  let large := negb (float_ltb (f_mant f) (f_exp f) (10 ^ 21) 0) in
  ((if f_neg f then "-" else "") +:+
   (if negb (f_mant f =? 0) && (small || large) then format_e ds point
    else format_f ds point)).
