(* ===== verification/Backend.v ===== *)
(** The protocol-neutral data types of package backend: [request.go],
    [response.go], [metadata.go], [handler.go] and [realtime.go].

    [json.RawMessage] and [[]byte] are byte strings; a nil slice and an empty
    one are the same value here, which is how the program uses them (it only
    takes their length).  The Go interfaces are [interface]s over what the
    program observes of the object behind them: the bytes a [Body] delivers,
    and what the [select] over a [Stream]'s channel and the request context
    yields, in order. *)
From S2P Require Import Prelude GoStrings GoHttp Errors Services.

Record Metadata := mkMetadata {
  RequestID : string;
  CallerID : string;
  Protocol : string;
  Extensions : gmap string (list string) }.

Record Input := mkInput {
  in_MediaType : string;
  in_JSON : string;
  in_Bytes : string }.

Record Request := mkRequest {
  req_Capability : Capability;
  req_Operation : string;
  req_Metadata : Metadata;
  req_Parameters : gmap string string;
  req_Input : Input }.

Record Event := mkEvent {
  ev_Type : string;
  ev_ID : string;
  ev_Data : string }.

(** One outcome of [select { case <-ctx.Done(): case event, open := <-stream.Events(): }]. *)
Inductive selection :=
| SelDone
| SelEvent (event : Event)
| SelClosed.

Record Response := mkResponse {
  StatusCode : Z;
  resp_Metadata : gmap string (list string);
  resp_MediaType : string;
  resp_JSON : string;
  resp_Body : interface string;
  resp_Stream : interface (list selection) }.

(** [Handler.Handle(ctx, request) (Response, error)] *)
Definition HandleFunc := Request → result goerror Response.

Record SessionRequest := mkSessionRequest {
  sr_Surface : SessionSurface;
  sr_Metadata : Metadata;
  sr_Parameters : gmap string string }.

(** A [Session] by its [Handle] method, which may depend on the events it was
    given before; what its event channel yields is an input of the loop that
    reads it.  [OpenSession] returns both of its results. *)
Record Session := mkSession { ses_Handle : list Event → Event → option goerror }.
Definition SessionBackend := SessionRequest → interface Session * option goerror.

#[export] Instance Metadata_eq_dec : EqDecision Metadata.
Proof. solve_decision. Defined.
#[export] Instance Input_eq_dec : EqDecision Input.
Proof. solve_decision. Defined.
#[export] Instance Request_eq_dec : EqDecision Request.
Proof. solve_decision. Defined.
#[export] Instance Event_eq_dec : EqDecision Event.
Proof. solve_decision. Defined.
