(* ===== verification/Any.v ===== *)
(** Values of type [any] as [encoding/json] stores them, and maps as sorted
    association lists: the data the event codec and the router normalization
    work on. *)
From stdpp Require Import sorting.
From S2P Require Import Prelude GoStrings JsonString Json Float64.

(** ** Decoding into [any] and encoding it *)

(** The dynamic types [json.Unmarshal] stores into an [any].  A
    [map[string]any] is its entries sorted by key. *)
Inductive any :=
| ANil
| ABool (b : bool)
| AFloat (f : float64)
| AString (s : string)
| ASlice (elements : list any)
| AMap (entries : list (string * any)).

(** [m[key] = value] *)
Fixpoint map_set {A} (key : string) (value : A) (m : list (string * A)) : list (string * A) :=
  match m with
  | [] => [(key, value)]
  | (k, v) :: m' =>
      if bool_decide (k = key) then (key, value) :: m'
      else if string_ltb key k then (key, value) :: m
      else (k, v) :: map_set key value m'
  end.

Fixpoint map_get {A} (key : string) (m : list (string * A)) : option A :=
  match m with
  | [] => None
  | (k, v) :: m => if bool_decide (k = key) then Some v else map_get key m
  end.

(** Decoding a document into an [any]; [None] when a number is out of range. *)
Fixpoint any_of (v : json) : option any :=
  match v with
  | JNull => Some ANil
  | JBool b => Some (ABool b)
  | JNumber literal => AFloat <$> ParseFloat literal
  | JString s => Some (AString s)
  | JArray elements =>
      ASlice <$> (fix go (es : list json) : option (list any) :=
        match es with
        | [] => Some []
        | e :: es => a ← any_of e; l ← go es; Some (a :: l)
        end) elements
  | JObject members =>
      AMap <$> (fix go (ms : list (string * json)) (m : list (string * any))
          : option (list (string * any)) :=
        match ms with
        | [] => Some m
        | (k, e) :: ms => a ← any_of e; go ms (map_set k a m)
        end) members []
  end.

(** [delete(m, key)] *)
Definition map_delete {A} (key : string) (m : list (string * A)) : list (string * A) :=
  List.filter (λ kv, negb (bool_decide (kv.1 = key))) m.

(** [json.Marshal] of an [any]. *)
Fixpoint marshal_any (a : any) : string :=
  match a with
  | ANil => marshal_nil
  | ABool b => if b then "true" else "false"
  | AFloat f => json_float f
  | AString s => marshal_string s
  | ASlice elements => "[" +:+ Join (List.map marshal_any elements) "," +:+ "]"
  | AMap entries =>
      "{" +:+ Join (List.map (λ kv, marshal_string kv.1 +:+ ":" +:+ marshal_any kv.2) entries) ","
      +:+ "}"
  end.

(** How deep the brackets of a value go. *)
Fixpoint nesting (v : any) : nat :=
  match v with
  | ASlice l => S (list_max (List.map nesting l))
  | AMap m => S (list_max (List.map (λ kv, nesting kv.2) m))
  | _ => 0
  end.

(** ** Induction *)

Section any_ind.
Variable P : any → Prop.
Hypothesis P_nil : P ANil.
Hypothesis P_bool : ∀ b, P (ABool b).
Hypothesis P_float : ∀ f, P (AFloat f).
Hypothesis P_string : ∀ s, P (AString s).
Hypothesis P_slice : ∀ l, Forall P l → P (ASlice l).
Hypothesis P_map : ∀ m, Forall (λ kv, P kv.2) m → P (AMap m).

Fixpoint any_nested_ind (v : any) : P v :=
  match v with
  | ANil => P_nil
  | ABool b => P_bool b
  | AFloat f => P_float f
  | AString s => P_string s
  | ASlice l => P_slice l
      ((fix go l := match l return Forall P l with
        | [] => Forall_nil_2 _
        | v :: l => Forall_cons_2 _ _ _ (any_nested_ind v) (go l)
        end) l)
  | AMap m => P_map m
      ((fix go m := match m return Forall (λ kv, P kv.2) m with
        | [] => Forall_nil_2 _
        | kv :: m => Forall_cons_2 _ _ _ (any_nested_ind kv.2) (go m)
        end) m)
  end.
End any_ind.

(** ** Maps *)

Lemma map_get_set {A} k k' (v : A) m :
  map_get k (map_set k' v m) = if bool_decide (k = k') then Some v else map_get k m.
Proof.
  induction m as [|[k0 v0] m IH]; simpl.
  { case_bool_decide; [subst; by rewrite bool_decide_true|by rewrite bool_decide_false]. }
  repeat case_bool_decide; subst; simpl; repeat (case_match; simpl); repeat case_bool_decide;
    subst; simplify_eq/=; try done; try congruence.
  all: rewrite ?IH; repeat case_bool_decide; done.
Qed.


(** The entries of a map, whatever their order. *)
Lemma map_get_None {A} k (m : list (string * A)) : map_get k m = None ↔ k ∉ m.*1.
Proof.
  induction m as [|[k' v] m IH]; simpl; [split; [intros _; apply not_elem_of_nil|done]|].
  rewrite not_elem_of_cons, <- IH. case_bool_decide; [|naive_solver].
  split; [done|]. intros [? _]. congruence.
Qed.

Lemma map_get_In {A} k v (m : list (string * A)) : map_get k m = Some v → (k, v) ∈ m.
Proof.
  induction m as [|[k' v'] m IH]; simpl; [done|]. case_bool_decide; [intros [= ->]; subst|].
  - by left.
  - right. auto.
Qed.

Lemma map_get_NoDup {A} k v (m : list (string * A)) :
  NoDup m.*1 → map_get k m = Some v ↔ (k, v) ∈ m.
Proof.
  intros Hm. split; [apply map_get_In|]. induction m as [|[k' v'] m IH]; [by intros ?%elem_of_nil|].
  apply NoDup_cons in Hm as [Hk Hm]. simpl. intros [[= <- <-]|Hin]%elem_of_cons.
  - by rewrite bool_decide_true.
  - rewrite bool_decide_false; [auto|]. intros ->. apply Hk. apply list_elem_of_fmap. by exists (k, v).
Qed.

Lemma map_delete_id {A} k (m : list (string * A)) : k ∉ m.*1 → map_delete k m = m.
Proof.
  induction m as [|[k' v] m IH]; [done|]. simpl. intros [Hk Hm]%not_elem_of_cons.
  unfold map_delete. simpl. rewrite bool_decide_false by done. simpl. f_equal. by apply IH.
Qed.

Lemma map_delete_In {A} k (m : list (string * A)) kv : kv ∈ map_delete k m ↔ kv ∈ m ∧ kv.1 ≠ k.
Proof.
  unfold map_delete. rewrite list_elem_of_In, filter_In, <- list_elem_of_In, negb_true_iff,
    bool_decide_eq_false. done.
Qed.

Lemma map_get_delete {A} k k' (m : list (string * A)) :
  map_get k (map_delete k' m) = if bool_decide (k = k') then None else map_get k m.
Proof.
  induction m as [|[k0 v0] m IH]; [by case_bool_decide|]. unfold map_delete in *. simpl.
  destruct (bool_decide_reflect (k0 = k')) as [->|Hne]; simpl.
  - rewrite IH. destruct (bool_decide_reflect (k = k')) as [->|Hk]; [done|].
    by rewrite (bool_decide_false (k' = k)).
  - destruct (bool_decide_reflect (k0 = k)) as [->|Hk]; [|exact IH].
    by rewrite bool_decide_false.
Qed.

Lemma map_delete_NoDup {A} k (m : list (string * A)) : NoDup m.*1 → NoDup (map_delete k m).*1.
Proof.
  induction m as [|[k' v] m IH]; [done|]. cbn [fmap list_fmap fst]. intros [Hk Hm]%NoDup_cons.
  unfold map_delete in *. simpl. case_bool_decide; simpl; [auto|]. apply NoDup_cons. split; [|auto].
  intros ([k2 v2] & [= ->] & [Hin _]%map_delete_In)%list_elem_of_fmap. apply Hk, list_elem_of_fmap.
  by exists (k2, v2).
Qed.

Lemma map_get_Permutation {A} k v (m : list (string * A)) :
  NoDup m.*1 → map_get k m = Some v → m ≡ₚ (k, v) :: map_delete k m.
Proof.
  induction m as [|[k' v'] m IH]; [done|]. cbn [fmap list_fmap fst]. intros [Hk Hm]%NoDup_cons.
  unfold map_delete in *. simpl. case_bool_decide; simpl.
  - intros [= ->]. subst. fold (map_delete k m). by rewrite map_delete_id.
  - intros Hg. rewrite (IH Hm Hg) at 1. apply perm_swap.
Qed.

(** Maps are sorted by key. *)
Definition key_lt {A} (x y : string * A) : Prop := string_ltb x.1 y.1 = true.
Abbreviation sorted_map := (StronglySorted key_lt).

Lemma sorted_NoDup {A} (m : list (string * A)) : sorted_map m → NoDup m.*1.
Proof.
  induction 1 as [|[k v] m _ IH Hk]; [constructor|]. apply NoDup_cons. split; [|done].
  intros (kv & Heq & Hin)%list_elem_of_fmap. rewrite Forall_forall in Hk.
  by apply (string_ltb_ne _ _ (Hk _ Hin)).
Qed.

Lemma map_set_In {A} k (v : A) m kv : kv ∈ map_set k v m → kv = (k, v) ∨ kv ∈ m.
Proof.
  induction m as [|[k' v'] m IH]; simpl; [by intros ?%list_elem_of_singleton; left|].
  repeat case_match; rewrite !elem_of_cons; intuition.
Qed.

Lemma map_set_In_ne {A} k (v : A) m kv : kv.1 ≠ k → kv ∈ map_set k v m ↔ kv ∈ m.
Proof.
  intros Hk. assert (kv ≠ (k, v)) as Hne by (by intros ->).
  induction m as [|[k' v'] m IH]; simpl.
  { split; [by intros ?%list_elem_of_singleton|by intros ?%elem_of_nil]. }
  assert (k' = k → kv ≠ (k', v')) by (by intros -> ->).
  repeat case_match; rewrite ?elem_of_cons; try case_bool_decide; naive_solver.
Qed.

Lemma map_set_sorted {A} k (v : A) m : sorted_map m → sorted_map (map_set k v m).
Proof.
  induction 1 as [|[k' v'] m Hm IH Hk]; simpl; [by repeat constructor|].
  case_bool_decide; [by subst; constructor|]. destruct (string_ltb k k') eqn:E.
  - constructor; [by constructor|]. constructor; [done|]. eapply Forall_impl; [exact Hk|].
    intros [k2 v2]. by apply string_ltb_trans.
  - constructor; [done|]. apply Forall_forall. intros kv [->|Hin]%map_set_In.
    + unfold key_lt. simpl. destruct (string_ltb_total _ _ E); [congruence|done].
    + rewrite Forall_forall in Hk. auto.
Qed.

Lemma map_delete_sorted {A} k (m : list (string * A)) : sorted_map m → sorted_map (map_delete k m).
Proof.
  induction 1 as [|[k' v'] m Hm IH Hk]; [constructor|]. unfold map_delete in *. simpl.
  case_bool_decide; simpl; [done|]. constructor; [done|]. apply Forall_forall.
  intros kv [Hin _]%map_delete_In. rewrite Forall_forall in Hk. auto.
Qed.

Lemma map_set_Permutation {A} k (v : A) m :
  sorted_map m → map_set k v m ≡ₚ (k, v) :: map_delete k m.
Proof.
  intros Hm. pose proof (sorted_NoDup _ Hm) as Hnd.
  induction Hm as [|[k' v'] m Hm IH Hk]; [done|].
  cbn [fmap list_fmap fst] in Hnd. apply NoDup_cons in Hnd as [Hk' Hnd].
  unfold map_delete in *. simpl. case_bool_decide; simpl.
  - subst. fold (map_delete k m). by rewrite map_delete_id.
  - destruct (string_ltb k k') eqn:E; simpl.
    + fold (map_delete k m). rewrite map_delete_id; [done|].
      intros ([k2 v2] & Heq & Hin)%list_elem_of_fmap. simpl in Heq. subst k2.
      rewrite Forall_forall in Hk. specialize (Hk _ Hin). apply (string_ltb_asymm _ _) in E. unfold key_lt in Hk. simpl in *.
      congruence.
    + rewrite IH by done. apply perm_swap.
Qed.

(** ** Well-formed values: every map is sorted. *)

Fixpoint sorted_keys {A} (m : list (string * A)) : bool :=
  match m with
  | (k, _) :: (((k', _) :: _) as m) => string_ltb k k' && sorted_keys m
  | _ => true
  end.

Fixpoint well_keyed (v : any) : bool :=
  match v with
  | ASlice l => forallb well_keyed l
  | AMap m => sorted_keys m && forallb (λ kv, well_keyed kv.2) m
  | _ => true
  end.

Lemma sorted_keys_spec {A} (m : list (string * A)) : sorted_keys m = true ↔ sorted_map m.
Proof.
  split.
  - intros Hm. assert (Sorted key_lt m) as Hs.
    { induction m as [|[k v] m IH]; [constructor|]. destruct m as [|[k' v'] m]; [by repeat constructor|].
      simpl in Hm. apply andb_true_iff in Hm as [Hk Hm]. constructor; [by apply IH|by constructor]. }
    apply Sorted_StronglySorted; [|done]. intros x y z. apply string_ltb_trans.
  - induction 1 as [|[k v] m Hm IH Hk]; [done|]. destruct m as [|[k' v'] m]; [done|]. simpl.
    apply Forall_cons in Hk as [Hk _]. rewrite andb_true_iff. by split.
Qed.

Lemma well_keyed_map m :
  well_keyed (AMap m) = true ↔ sorted_map m ∧ Forall (λ kv, well_keyed kv.2 = true) m.
Proof. simpl. rewrite andb_true_iff, sorted_keys_spec, forallb_forall, Forall_forall.
  by setoid_rewrite list_elem_of_In.
Qed.

Lemma well_keyed_slice l : well_keyed (ASlice l) = true ↔ Forall (λ v, well_keyed v = true) l.
Proof. simpl. rewrite forallb_forall, Forall_forall. by setoid_rewrite list_elem_of_In. Qed.

Lemma well_keyed_set k v m :
  well_keyed v = true → well_keyed (AMap m) = true → well_keyed (AMap (map_set k v m)) = true.
Proof.
  rewrite !well_keyed_map, !Forall_forall. intros Hv [Hm Hf]. split; [by apply map_set_sorted|].
  by intros kv [->|?]%map_set_In; [|auto].
Qed.

Lemma well_keyed_delete k m :
  well_keyed (AMap m) = true → well_keyed (AMap (map_delete k m)) = true.
Proof.
  rewrite !well_keyed_map, !Forall_forall. intros [Hm Hf]. split; [by apply map_delete_sorted|].
  intros kv [? _]%map_delete_In. auto.
Qed.

(** A test of all entries, where one key is set, deleted or looked up. *)
Lemma forallb_Permutation {A} (f : A → bool) l k : l ≡ₚ k → forallb f l = forallb f k.
Proof.
  induction 1 as [|x l k _ IH|x y l|l k j _ IH1 _ IH2]; simpl; [done|by rewrite IH| |congruence].
  by rewrite !andb_assoc, (andb_comm (f y)).
Qed.

Lemma forallb_set {A} (f : string * A → bool) k v m :
  sorted_map m → forallb f (map_set k v m) = f (k, v) && forallb f (map_delete k m).
Proof. intros Hm. by rewrite (forallb_Permutation f _ _ (map_set_Permutation k v m Hm)). Qed.

Lemma forallb_get {A} (f : string * A → bool) k m :
  sorted_map m →
  forallb f m =
    match map_get k m with Some v => f (k, v) | None => true end && forallb f (map_delete k m).
Proof.
  intros Hm%sorted_NoDup. destruct (map_get k m) as [v|] eqn:Hg.
  - by rewrite (forallb_Permutation f _ _ (map_get_Permutation k v m Hm Hg)).
  - apply map_get_None in Hg. by rewrite map_delete_id.
Qed.

Lemma map_get_map {A B} (f : A → B) k m :
  map_get k (List.map (λ kv, (kv.1, f kv.2)) m) = f <$> map_get k m.
Proof. induction m as [|[k' v] m IH]; [done|]. simpl. by case_bool_decide. Qed.

Lemma sorted_map_map {A B} (f : A → B) m :
  sorted_map m → sorted_map (List.map (λ kv, (kv.1, f kv.2)) m).
Proof.
  induction 1 as [|kv m Hm IH Hk]; [constructor|]. simpl. constructor; [done|].
  rewrite Forall_forall in Hk. apply Forall_forall. intros x. rewrite list_elem_of_In, in_map_iff.
  intros (y & <- & Hy%list_elem_of_In). by apply (Hk y).
Qed.
