(* ===== verification/JsonRound.v ===== *)
(** Reading back what the encoder writes: [parse] after [marshal_any]. *)
From stdpp Require Import sorting.
From S2P Require Import Prelude GoStrings JsonString Json Float64 Any.

(** ** Strings *)

(** Well-formed UTF-8. *)
Fixpoint valid_utf8 (s : string) : bool :=
  match s with
  | "" => true
  | String a r1 =>
      if (code a <? 128)%N then valid_utf8 r1
      else match r1 with
      | "" => false
      | String b r2 =>
          if utf8_two a b then valid_utf8 r2
          else match r2 with
          | "" => false
          | String c r3 =>
              if utf8_three a b c then valid_utf8 r3
              else match r3 with
              | "" => false
              | String d r4 => if utf8_four a b c d then valid_utf8 r4 else false
              end
          end
      end
  end.

Lemma parse_escape_ascii a r :
  (code a <? 128)%N = true → parse_string (escape_ascii a +:+ r) = prepend (str1 a) (parse_string r).
Proof.
  destruct a as [[] [] [] [] [] [] [] []]; intros H; try discriminate H; reflexivity.
Qed.

Lemma parse_high a r :
  (code a <? 128)%N = false →
  parse_string (String a r) =
    match r with
    | "" => None
    | String b r2 =>
        if utf8_two a b then prepend (String a (str1 b)) (parse_string r2)
        else match r2 with
        | "" => prepend replacement (parse_string r)
        | String c r3 =>
            if utf8_three a b c then prepend (String a (String b (str1 c))) (parse_string r3)
            else match r3 with
            | "" => prepend replacement (parse_string r)
            | String d r4 =>
                if utf8_four a b c d
                then prepend (String a (String b (String c (str1 d)))) (parse_string r4)
                else prepend replacement (parse_string r)
            end
        end
    end.
Proof.
  intros H. apply N.ltb_ge in H.
  assert (a ≠ QUOTE) as H1 by (intros ->; by apply H).
  assert (a ≠ BACKSLASH) as H2 by (intros ->; by apply H).
  cbn [parse_string]. rewrite !bool_decide_false by done.
  rewrite (proj2 (N.ltb_ge _ 32)), (proj2 (N.ltb_ge _ 128)) by lia. done.
Qed.

Lemma parse_escape_three a b c r :
  utf8_two a b = false → utf8_three a b c = true →
  parse_string (escape_three a b c +:+ r) = prepend (String a (String b (str1 c))) (parse_string r).
Proof.
  intros H2 H3. unfold escape_three. case_match eqn:Hsep.
  - apply andb_true_iff in Hsep as [[Ha Hb]%andb_true_iff Hc].
    apply N.eqb_eq in Ha, Hb.
    assert (a = byte_of 226) as -> by by rewrite <- (Ascii.ascii_N_embedding a); unfold code in Ha; rewrite Ha.
    assert (b = byte_of 128) as -> by by rewrite <- (Ascii.ascii_N_embedding b); unfold code in Hb; rewrite Hb.
    assert (c = byte_of 168 ∨ c = byte_of 169) as Hcc.
    { apply orb_true_iff in Hc as [Hc|Hc]; apply N.eqb_eq in Hc; [left|right];
        rewrite <- (Ascii.ascii_N_embedding c); unfold code in Hc; by rewrite Hc. }
    by destruct Hcc as [-> | ->].
  - change (String a (String b (str1 c)) +:+ r) with (String a (String b (String c r))).
    rewrite parse_high; [by rewrite H2, H3|]. apply N.ltb_ge.
    unfold utf8_three, cont, in_range in H3.
    rewrite !andb_true_iff, !orb_true_iff, !andb_true_iff, !orb_true_iff, !andb_true_iff, !N.leb_le,
      !N.eqb_eq in H3. lia.
Qed.

Lemma prepend_Some p s rest : prepend p (Some (s, rest)) = Some (p +:+ s, rest).
Proof. done. Qed.

Lemma parse_escape_string s rest :
  valid_utf8 s = true → parse_string (escape_string s +:+ String QUOTE rest) = Some (s, rest).
Proof.
  induction s as [s IH] using string_len_ind. destruct s as [|a r1]; [done|].
  assert (∀ t, String.length t < S (String.length r1) → valid_utf8 t = true →
    parse_string (escape_string t +:+ String QUOTE rest) = Some (t, rest)) as IH' by exact IH.
  clear IH. cbn [valid_utf8 escape_string]. destruct (code a <? 128)%N eqn:Ha; intros Hv.
  { by rewrite app_assoc_str, parse_escape_ascii, IH' by (done || lia). }
  destruct r1 as [|b r2]; [done|]. destruct (utf8_two a b) eqn:H2.
  { rewrite !app_cons_str, parse_high, H2, IH' by (done || simpl; lia). done. }
  destruct r2 as [|c r3]; [done|]. destruct (utf8_three a b c) eqn:H3.
  { by rewrite app_assoc_str, parse_escape_three, IH' by (done || simpl; lia). }
  destruct r3 as [|d r4]; [done|]. destruct (utf8_four a b c d) eqn:H4; [|done].
  rewrite !app_cons_str, parse_high, H2, H3, H4, IH' by (done || simpl; lia). done.
Qed.

(** ** Numbers *)

(** What may follow a value in a document the encoder writes, indented or not. *)
Definition delimits (rest : string) : bool :=
  match rest with
  | "" => true
  | String c _ => char_is 44 c || char_is 93 c || char_is 125 c || char_is 10 c
  end.

Lemma delimits_spec c rest :
  delimits (String c rest) = true →
  code c = 44%N ∨ code c = 93%N ∨ code c = 125%N ∨ code c = 10%N.
Proof. unfold delimits, char_is. rewrite !orb_true_iff, !N.eqb_eq. tauto. Qed.

Lemma take_digits_rest s rest ds r :
  delimits rest = true → take_digits s = (ds, r) → take_digits (s +:+ rest) = (ds, r +:+ rest).
Proof.
  intros Hr. revert ds r. induction s as [|c s IH]; intros ds r.
  - intros [= <- <-]. destruct rest as [|c rest]; [done|]. apply delimits_spec in Hr.
    simpl. unfold is_digit, in_range. rewrite (proj2 (andb_false_iff _ _)); [done|].
    rewrite !N.leb_gt. lia.
  - rewrite app_cons_str. simpl. destruct (is_digit c); [|by intros [= <- <-]].
    destruct (take_digits s) as [ds' r']. intros [= <- <-]. by rewrite (IH ds' r').
Qed.

Lemma parse_int_rest s rest x r :
  delimits rest = true → parse_int s = Some (x, r) → parse_int (s +:+ rest) = Some (x, r +:+ rest).
Proof.
  intros Hr. destruct s as [|c s]; [done|]. rewrite app_cons_str. unfold parse_int.
  destruct (code c =? 48)%N; [by intros [= <- <-]|]. destruct (is_digit c); [|done].
  intros [= Ht]. f_equal. rewrite <- app_cons_str. by apply take_digits_rest.
Qed.

Lemma parse_frac_rest s rest x r :
  delimits rest = true → parse_frac s = Some (x, r) → parse_frac (s +:+ rest) = Some (x, r +:+ rest).
Proof.
  intros Hr. destruct s as [|c s].
  - intros [= <- <-]. destruct rest as [|c rest]; [done|]. apply delimits_spec in Hr.
    simpl. by rewrite (proj2 (N.eqb_neq _ _)) by lia.
  - rewrite app_cons_str. unfold parse_frac. destruct (code c =? 46)%N; [|by intros [= <- <-]].
    destruct (take_digits s) as [ds r'] eqn:Ht. rewrite (take_digits_rest s rest ds r') by done.
    destruct (string_empty ds); [done|]. by intros [= <- <-].
Qed.

Lemma parse_exp_rest s rest x r :
  delimits rest = true → parse_exp s = Some (x, r) → parse_exp (s +:+ rest) = Some (x, r +:+ rest).
Proof.
  intros Hr. destruct s as [|c s].
  - intros [= <- <-]. destruct rest as [|c rest]; [done|]. apply delimits_spec in Hr.
    simpl. by rewrite !(proj2 (N.eqb_neq _ _)) by lia.
  - rewrite app_cons_str. unfold parse_exp.
    destruct ((code c =? 101)%N || (code c =? 69)%N); [|by intros [= <- <-]].
    destruct s as [|d s]; [done|]. rewrite app_cons_str.
    destruct ((code d =? 43)%N || (code d =? 45)%N).
    + destruct (take_digits s) as [ds r'] eqn:Ht. rewrite (take_digits_rest s rest ds r') by done.
      destruct (string_empty ds); [done|]. by intros [= <- <-].
    + rewrite <- app_cons_str. destruct (take_digits (String d s)) as [ds r'] eqn:Ht.
      rewrite (take_digits_rest (String d s) rest ds r') by done.
      destruct (string_empty ds); [done|]. by intros [= <- <-].
Qed.

Lemma parse_number_rest s rest x r :
  delimits rest = true → parse_number s = Some (x, r) →
  parse_number (s +:+ rest) = Some (x, r +:+ rest).
Proof.
  intros Hr. destruct s as [|c s]; [done|]. rewrite app_cons_str. unfold parse_number.
  assert (∀ s' sign, ('(int, s2) ← parse_int s'; '(frac, s3) ← parse_frac s2;
      '(exp, s4) ← parse_exp s3; Some (sign +:+ int +:+ frac +:+ exp, s4)) = Some (x, r) →
    ('(int, s2) ← parse_int (s' +:+ rest); '(frac, s3) ← parse_frac s2;
      '(exp, s4) ← parse_exp s3; Some (sign +:+ int +:+ frac +:+ exp, s4)) = Some (x, r +:+ rest)) as H.
  { intros s' sign. destruct (parse_int s') as [[int s2]|] eqn:H2; [|done]. simpl.
    rewrite (parse_int_rest _ _ _ _ Hr H2). simpl.
    destruct (parse_frac s2) as [[frac s3]|] eqn:H3; [|done]. simpl.
    rewrite (parse_frac_rest _ _ _ _ Hr H3). simpl.
    destruct (parse_exp s3) as [[exp s4]|] eqn:H4; [|done]. simpl.
    rewrite (parse_exp_rest _ _ _ _ Hr H4). simpl. by intros [= <- <-]. }
  destruct (code c =? 45)%N; [apply H|]. rewrite <- app_cons_str. apply H.
Qed.

(** ** Values *)

(** What the encoder writes for a number reads back as that number. *)
Definition float_reads (f : float64) : bool :=
  bool_decide (parse_number (json_float f) = Some (json_float f, "")) &&
  bool_decide (ParseFloat (json_float f) = Some f).

(** Values the encoder loses nothing of. *)
Fixpoint encodable (v : any) : bool :=
  match v with
  | ANil | ABool _ => true
  | AFloat f => float_reads f
  | AString s => valid_utf8 s
  | ASlice l => forallb encodable l
  | AMap m => sorted_keys m && forallb (λ kv, valid_utf8 kv.1 && encodable kv.2) m
  end.

(** The document the encoder writes. *)
Fixpoint json_of (v : any) : json :=
  match v with
  | ANil => JNull
  | ABool b => JBool b
  | AFloat f => JNumber (json_float f)
  | AString s => JString s
  | ASlice l => JArray (List.map json_of l)
  | AMap m => JObject (List.map (λ kv, (kv.1, json_of kv.2)) m)
  end.

Lemma parse_number_first s x r :
  parse_number s = Some (x, r) →
  ∃ c s', s = String c s' ∧ (is_digit c = true ∨ code c = 45%N).
Proof.
  destruct s as [|c s]; [done|]. intros H. exists c, s. split; [done|]. unfold parse_number in H.
  destruct (code c =? 45)%N eqn:Hc; [right; by apply N.eqb_eq|left]. unfold parse_int in H.
  destruct (code c =? 48)%N eqn:H0.
  - apply N.eqb_eq in H0. unfold is_digit, in_range. rewrite andb_true_iff, !N.leb_le. lia.
  - by destruct (is_digit c).
Qed.

Lemma skip_space_id c s : json_space c = false → skip_space (String c s) = String c s.
Proof. intros H. simpl. by rewrite H. Qed.

Lemma CutPrefix_ne c s p ps : c ≠ p → CutPrefix (String c s) (String p ps) = None.
Proof. intros H. simpl. by rewrite bool_decide_false. Qed.

(** The cases of [parse_value]. *)
Lemma parse_value_number fuel depth s rest :
  delimits rest = true → parse_number s = Some (s, "") →
  parse_value (S fuel) depth (s +:+ rest) = Some (JNumber s, rest).
Proof.
  intros Hr Hn. destruct (parse_number_first _ _ _ Hn) as (c & s' & -> & Hc).
  pose proof (parse_number_rest _ _ _ _ Hr Hn) as Hp. rewrite app_cons_str in *.
  assert (48 ≤ code c ≤ 57 ∨ code c = 45)%N as Hr'.
  { destruct Hc as [Hc|Hc]; [|by right]. unfold is_digit, in_range in Hc.
    rewrite andb_true_iff, !N.leb_le in Hc. by left. }
  assert (∀ p, (57 < code p)%N → c ≠ p) as Hne by (intros p Hp' ->; lia).
  assert (c ≠ QUOTE) as Hq by (intros ->; change (code QUOTE) with 34%N in Hr'; lia).
  cbn [parse_value]. rewrite skip_space_id.
  2:{ unfold json_space. simpl. rewrite !(proj2 (N.eqb_neq _ _)) by lia. done. }
  unfold char_is. rewrite !(proj2 (N.eqb_neq (code c) _)) by lia.
  rewrite bool_decide_false by done. rewrite !CutPrefix_ne by (apply Hne; reflexivity).
  by rewrite Hp.
Qed.

Lemma parse_value_string fuel depth s rest :
  valid_utf8 s = true →
  parse_value (S fuel) depth (marshal_string s +:+ rest) = Some (JString s, rest).
Proof.
  intros Hs. unfold marshal_string. rewrite app_cons_str, app_assoc_str.
  change (str1 QUOTE +:+ rest) with (String QUOTE rest). simpl.
  by rewrite parse_escape_string.
Qed.

(** The loops, one round. *)
Lemma parse_elements_step fuel depth text v rest :
  parse_value fuel depth text = Some (v, rest) →
  parse_elements (S fuel) depth text =
    match skip_space rest with
    | "" => None
    | String c rest =>
        if char_is 44 c then '(vs, rest) ← parse_elements fuel depth rest; Some (v :: vs, rest)
        else if char_is 93 c then Some ([v], rest)
        else None
    end.
Proof. intros H. cbn [parse_elements]. by rewrite H. Qed.

Lemma parse_members_step fuel depth key text v rest :
  valid_utf8 key = true → parse_value fuel depth text = Some (v, rest) →
  parse_members (S fuel) depth (marshal_string key +:+ ":" +:+ text) =
    match skip_space rest with
    | "" => None
    | String c rest =>
        if char_is 44 c then
          '(ms, rest) ← parse_members fuel depth rest; Some ((key, v) :: ms, rest)
        else if char_is 125 c then Some ([(key, v)], rest)
        else None
    end.
Proof.
  intros Hk H. unfold marshal_string. rewrite app_cons_str, app_assoc_str.
  change (str1 QUOTE +:+ ?x) with (String QUOTE x). cbn [parse_members skip_space]. simpl.
  rewrite parse_escape_string by done. cbn -[parse_value parse_members skip_space char_is].
  change (skip_space (":" +:+ text)) with (String ":" text). cbv beta iota.
  change (char_is 58 ":") with true. cbv beta iota. by rewrite H.
Qed.

(** ** Documents *)

(** Every value starts with a byte that is no space and closes nothing. *)
Lemma marshal_first v :
  encodable v = true →
  ∃ c s, marshal_any v = String c s ∧ json_space c = false ∧ char_is 93 c = false ∧ char_is 125 c = false.
Proof.
  destruct v as [|[]|f|s|l|m]; intros H; try (by eexists _, _).
  simpl in H. apply andb_true_iff in H as [Hn%bool_decide_eq_true _].
  destruct (parse_number_first _ _ _ Hn) as (c & s' & Heq & Hc). simpl. rewrite Heq. exists c, s'.
  split; [done|]. assert (44 < code c < 58)%N as Hr.
  { destruct Hc as [Hc|Hc]; [|lia]. unfold is_digit, in_range in Hc.
    rewrite andb_true_iff, !N.leb_le in Hc. lia. }
  unfold json_space, char_is. simpl. by rewrite !(proj2 (N.eqb_neq _ _)) by lia.
Qed.

(** What the induction shows of one value. *)
Definition reads_back (v : any) : Prop :=
  ∀ fuel depth rest, encodable v = true → nesting v ≤ depth →
    2 * String.length (marshal_any v) ≤ fuel → delimits rest = true →
    parse_value fuel depth (marshal_any v +:+ rest) = Some (json_of v, rest).

Lemma parse_elements_back l fuel depth rest :
  l ≠ [] → Forall reads_back l → forallb encodable l = true →
  Forall (λ v, nesting v ≤ depth) l →
  2 * String.length (Join (List.map marshal_any l) ",") < fuel →
  parse_elements fuel depth (Join (List.map marshal_any l) "," +:+ String "]" rest) =
    Some (List.map json_of l, rest).
Proof.
  intros Hne Hl. revert fuel Hne. induction Hl as [|v l Hv Hl IH]; [done|].
  intros fuel _ He Hd Hf. simpl in He. apply andb_true_iff in He as [Hev Hel].
  apply Forall_cons in Hd as [Hdv Hdl]. destruct fuel as [|fuel]; [lia|].
  destruct l as [|w l].
  - cbn [List.map Join] in *. erewrite parse_elements_step; [|apply Hv; [done|done|lia|done]].
    reflexivity.
  - cbn [List.map] in *. rewrite Join_cons, !app_assoc_str in * by done.
    rewrite !length_app_str in Hf. cbn [String.length] in Hf.
    change ("," +:+ ?x) with (String "," x).
    erewrite parse_elements_step; [|apply Hv; [done|done|lia|done]].
    change (skip_space (String "," ?x)) with (String "," x). cbv beta iota.
    change (char_is 44 ",") with true. cbv beta iota.
    rewrite IH by (done || lia). reflexivity.
Qed.

Lemma parse_members_back m fuel depth rest :
  m ≠ [] → Forall (λ kv, reads_back kv.2) m →
  forallb (λ kv, valid_utf8 kv.1 && encodable kv.2) m = true →
  Forall (λ kv, nesting kv.2 ≤ depth) m →
  let texts := List.map (λ kv, marshal_string kv.1 +:+ ":" +:+ marshal_any kv.2) m in
  2 * String.length (Join texts ",") < fuel →
  parse_members fuel depth (Join texts "," +:+ String "}" rest) =
    Some (List.map (λ kv, (kv.1, json_of kv.2)) m, rest).
Proof.
  intros Hne Hl. revert fuel Hne. induction Hl as [|[k v] m Hv Hl IH]; [done|].
  intros fuel _ He Hd texts Hf. simpl in He. rewrite !andb_true_iff in He.
  destruct He as [[Hk Hev] Hel]. apply Forall_cons in Hd as [Hdv Hdl].
  destruct fuel as [|fuel]; [lia|]. unfold texts in *. clear texts. destruct m as [|w m].
  - cbn [List.map Join fst snd] in *. rewrite !length_app_str in Hf. rewrite !app_assoc_str.
    erewrite parse_members_step; [|done|apply Hv; [done|done|simpl in *; lia|done]].
    reflexivity.
  - cbn [List.map fst snd] in *. rewrite Join_cons, !app_assoc_str in * by done.
    rewrite !length_app_str in Hf. cbn [String.length] in Hf.
    change ("," +:+ Join ?x ?y +:+ ?z) with (String "," (Join x y +:+ z)).
    erewrite parse_members_step; [|done|apply Hv; [done|done|simpl in *; lia|done]].
    change (skip_space (String "," ?x)) with (String "," x). cbv beta iota.
    change (char_is 44 ",") with true. cbv beta iota.
    rewrite IH by (done || simpl in *; lia). reflexivity.
Qed.

Lemma nesting_slice l depth :
  nesting (ASlice l) ≤ S depth → Forall (λ v, nesting v ≤ depth) l.
Proof.
  simpl. intros H. apply le_S_n, list_max_le in H. rewrite Forall_forall in H.
  apply Forall_forall. intros v Hv.   apply H, list_elem_of_In, in_map, list_elem_of_In, Hv.
Qed.

Lemma nesting_map m depth :
  nesting (AMap m) ≤ S depth → Forall (λ kv, nesting kv.2 ≤ depth) m.
Proof.
  simpl. intros H. apply le_S_n, list_max_le in H. rewrite Forall_forall in H.
  apply Forall_forall. intros kv Hkv.   apply H, list_elem_of_In. apply (in_map (λ kv, nesting kv.2)), list_elem_of_In, Hkv.
Qed.

Lemma parse_marshal v : reads_back v.
Proof.
  induction v as [|b|f|s|l IH|m IH] using any_nested_ind; intros fuel depth rest He Hd Hf Hr.
  - destruct fuel; [simpl in Hf; lia|]. reflexivity.
  - destruct fuel; [destruct b; simpl in Hf; lia|]. by destruct b.
  - destruct (marshal_first _ He) as (c & s & Hc & _). rewrite Hc in Hf. simpl in Hf.
    destruct fuel; [lia|]. simpl in He. apply andb_true_iff in He as [Hn%bool_decide_eq_true _].
    by apply parse_value_number.
  - destruct fuel; [simpl in Hf; lia|]. by apply parse_value_string.
  - destruct depth as [|depth]; [simpl in Hd; lia|]. apply nesting_slice in Hd.
    destruct fuel as [|fuel]; [simpl in Hf; lia|]. destruct l as [|v l]; [reflexivity|].
    cbn [marshal_any] in Hf |- *. set (texts := List.map marshal_any (v :: l)) in *.
    change ("[" +:+ ?x) with (String "[" x) in *. rewrite app_cons_str, app_assoc_str.
    change ("]" +:+ rest) with (String "]" rest).
    assert (encodable v = true) as Hev by by (simpl in He; apply andb_true_iff in He as [? _]).
    destruct (marshal_first v Hev) as (c & s & Hc & Hsp & H93 & _).
    assert (∃ t, Join texts "," +:+ String "]" rest = String c t) as [t Ht].
    { unfold texts. cbn [List.map]. destruct l as [|w l]; [|rewrite Join_cons by done];
        rewrite Hc; by eexists. }
    cbn [parse_value skip_space]. change (json_space "[") with false. cbv beta iota.
    change (char_is 123 "[") with false. change (char_is 91 "[") with true. cbv beta iota.
    rewrite Ht, skip_space_id by done. rewrite H93. rewrite <- Ht.
    unfold texts in *. rewrite (parse_elements_back (v :: l)); [reflexivity|done..|].
    cbn [String.length] in Hf. rewrite length_app_str in Hf. change (String.length "]") with 1 in Hf. lia.
  - destruct depth as [|depth]; [simpl in Hd; lia|]. apply nesting_map in Hd.
    destruct fuel as [|fuel]; [simpl in Hf; lia|]. destruct m as [|[k v] m]; [reflexivity|].
    cbn [marshal_any] in Hf |- *.
    set (texts := List.map (λ kv, marshal_string kv.1 +:+ ":" +:+ marshal_any kv.2) ((k, v) :: m)) in *.
    change ("{" +:+ ?x) with (String "{" x) in *. rewrite app_cons_str, app_assoc_str.
    change ("}" +:+ rest) with (String "}" rest).
    assert (∃ t, Join texts "," +:+ String "}" rest = String QUOTE t) as [t Ht].
    { unfold texts. cbn [List.map fst]. unfold marshal_string at 1.
      destruct m as [|w m]; [|rewrite Join_cons by done]; by eexists. }
    cbn [parse_value skip_space]. change (json_space "{") with false. cbv beta iota.
    change (char_is 123 "{") with true. cbv beta iota.
    rewrite Ht, skip_space_id by done. change (char_is 125 QUOTE) with false. cbv beta iota.
    rewrite <- Ht. unfold texts in *. simpl in He. apply andb_true_iff in He as [_ He].
    rewrite (parse_members_back ((k, v) :: m)); [reflexivity|done..|].
    cbn [String.length] in Hf. rewrite length_app_str in Hf. change (String.length "}") with 1 in Hf. lia.
Qed.

(** ** Decoding into [any] *)

Fixpoint any_members (ms : list (string * json)) (m : list (string * any))
    : option (list (string * any)) :=
  match ms with
  | [] => Some m
  | (k, e) :: ms => a ← any_of e; any_members ms (map_set k a m)
  end.

Lemma any_of_array l : any_of (JArray l) = ASlice <$> mapM any_of l.
Proof. reflexivity. Qed.

Lemma any_of_object ms : any_of (JObject ms) = AMap <$> any_members ms [].
Proof. reflexivity. Qed.

Lemma map_set_last {A} k (v : A) m :
  Forall (λ kv, string_ltb kv.1 k = true) m → map_set k v m = m ++ [(k, v)].
Proof.
  induction 1 as [|[k' v'] m Hk _ IH]; [done|]. simpl in *.
  rewrite bool_decide_false by (by apply string_ltb_ne).
  by rewrite (string_ltb_asymm _ _ Hk), IH.
Qed.

Lemma any_members_sorted ms done :
  Forall (λ kv, any_of (json_of kv.2) = Some kv.2) ms → sorted_map (done ++ ms) →
  any_members (List.map (λ kv, (kv.1, json_of kv.2)) ms) done = Some (done ++ ms).
Proof.
  intros Hms. revert done. induction Hms as [|[k v] ms Hv Hms IH]; intros done Hs.
  - simpl. by rewrite app_nil_r.
  - simpl in *. rewrite Hv. simpl. rewrite map_set_last.
    { rewrite IH; by rewrite <- (assoc_L (++)). }
    apply Forall_forall. intros kv Hkv.
    by apply (StronglySorted_app_1_elem_of _ _ _ kv (k, v) Hs); [|left].
Qed.

Lemma any_of_json_of v : encodable v = true → any_of (json_of v) = Some v.
Proof.
  induction v as [|b|f|s|l IH|m IH] using any_nested_ind; intros He; try done.
  - simpl in *. apply andb_true_iff in He as [_ Hf%bool_decide_eq_true]. by rewrite Hf.
  - change (json_of (ASlice l)) with (JArray (List.map json_of l)). rewrite any_of_array.
    simpl in He. rewrite forallb_forall in He.
    assert (mapM any_of (List.map json_of l) = Some l) as ->; [|done].
    apply mapM_Some_2. apply Forall2_fmap_l. apply Forall_Forall2_diag.
    rewrite Forall_forall in IH |- *. intros v Hv. by apply IH, He, list_elem_of_In.
  - change (json_of (AMap m)) with (JObject (List.map (λ kv, (kv.1, json_of kv.2)) m)).
    rewrite any_of_object. cbn [encodable] in He. rewrite andb_true_iff, sorted_keys_spec in He.
    destruct He as [Hs He]. rewrite forallb_forall in He. rewrite (any_members_sorted m []); [done| |done].
    rewrite Forall_forall in IH |- *. intros kv Hkv. apply IH; [done|].
    by apply list_elem_of_In, He, andb_true_iff in Hkv as [_ ?].
Qed.

Lemma parse_marshal_any v :
  encodable v = true → nesting v ≤ max_depth → parse (marshal_any v) = Some (json_of v).
Proof.
  intros He Hn. unfold parse, parse_fuel. pose proof (parse_marshal v
    (2 * String.length (marshal_any v) + 2) max_depth "" He Hn) as H.
  rewrite app_nil_r_str in H. rewrite H by (lia || done). done.
Qed.

Lemma decode_marshal v :
  encodable v = true → nesting v ≤ max_depth → parse (marshal_any v) ≫= any_of = Some v.
Proof. intros He Hn. rewrite parse_marshal_any by done. by apply any_of_json_of. Qed.
