(* ===== verification/FloatRound.v ===== *)
(** The shortest decimal reads back: [ParseFloat] after [json_float] is the
    identity on 64-bit floating point values, and rounding a decimal depends on
    its value only. *)
From S2P Require Import Prelude GoStrings Json Float64 JsonRound.
Local Open Scope Z_scope.

(** ** Canonical values *)

Definition canonical (m e : Z) : Prop :=
  0 ≤ m < 2 ^ 53 ∧ -1074 ≤ e ≤ 971 ∧ (m < 2 ^ 52 → e = -1074).

(** ** Binary logarithms of ratios *)

(** [2^e <= num/den < 2^(e+1)], free of negative powers. *)
Definition log2_bounds (num den e : Z) : Prop :=
  ∀ k, 0 ≤ k → 0 ≤ k + e → den * 2 ^ (k + e) ≤ num * 2 ^ k < den * 2 ^ (k + e + 1).

Lemma pow2_pos k : 0 ≤ k → 0 < 2 ^ k.
Proof. intros. by apply Z.pow_pos_nonneg. Qed.

(** One sufficient instance. *)
Lemma log2_bounds_at num den e k0 :
  0 < num → 0 < den → 0 ≤ k0 → 0 ≤ k0 + e →
  den * 2 ^ (k0 + e) ≤ num * 2 ^ k0 < den * 2 ^ (k0 + e + 1) → log2_bounds num den e.
Proof.
  intros Hn Hd Hk0 Hke H k Hk Hke'.
  pose proof (pow2_pos k Hk) as Pk. pose proof (pow2_pos k0 Hk0) as Pk0.
  assert (2 ^ (k0 + e) * 2 ^ k = 2 ^ (k + e) * 2 ^ k0) as H1.
  { rewrite <- !Z.pow_add_r by lia. f_equal. lia. }
  assert (2 ^ (k0 + e + 1) * 2 ^ k = 2 ^ (k + e + 1) * 2 ^ k0) as H2.
  { rewrite <- !Z.pow_add_r by lia. f_equal. lia. }
  split.
  - apply (Z.mul_le_mono_pos_r _ _ (2 ^ k0)); [done|].
    rewrite <- (Z.mul_assoc den), <- H1, Z.mul_assoc, <- (Z.mul_assoc num), (Z.mul_comm (2 ^ k)),
      Z.mul_assoc. apply Z.mul_le_mono_nonneg_r; [lia|apply H].
  - apply (Z.mul_lt_mono_pos_r (2 ^ k0)); [done|].
    rewrite <- (Z.mul_assoc den), <- H2, Z.mul_assoc, <- (Z.mul_assoc num), (Z.mul_comm (2 ^ k)),
      Z.mul_assoc. apply Z.mul_lt_mono_pos_r; [done|apply H].
Qed.

Lemma log2_bounds_unique num den e e' :
  0 < num → 0 < den → log2_bounds num den e → log2_bounds num den e' → e = e'.
Proof.
  intros Hn Hd H H'. set (k := Z.abs e + Z.abs e').
  destruct (H k ltac:(lia) ltac:(lia)) as [H1 H2]. destruct (H' k ltac:(lia) ltac:(lia)) as [H3 H4].
  assert (2 ^ (k + e) < 2 ^ (k + e' + 1)) as A by nia.
  assert (2 ^ (k + e') < 2 ^ (k + e + 1)) as B by nia.
  apply Z.pow_lt_mono_r_iff in A, B; lia.
Qed.

Lemma log2_ratio_bounds num den :
  0 < num → 0 < den → log2_bounds num den (log2_ratio num den).
Proof.
  intros Hn Hd. pose proof (Z.log2_spec num Hn) as Ln. pose proof (Z.log2_spec den Hd) as Ld.
  pose proof (Z.log2_nonneg num). pose proof (Z.log2_nonneg den).
  set (a := Z.log2 num) in *. set (b := Z.log2 den) in *.
  rewrite Z.pow_succ_r in Ln, Ld by lia.
  unfold log2_ratio. fold a b. set (e := a - b).
  (* compare at k = b *)
  assert (2 ^ b * 2 ^ a = 2 ^ (b + e) * 2 ^ b) as Hab.
  { rewrite <- !Z.pow_add_r by lia. f_equal. lia. }
  assert ((if (if 0 <=? e then num <? den * 2 ^ e else num * 2 ^ (- e) <? den) then e - 1 else e) =
          if num * 2 ^ b <? den * 2 ^ (b + e) then e - 1 else e) as ->.
  { destruct (Z.leb_spec 0 e).
    - replace (2 ^ (b + e)) with (2 ^ b * 2 ^ e) by (rewrite <- Z.pow_add_r; lia).
      pose proof (pow2_pos b). destruct (Z.ltb_spec num (den * 2 ^ e)), (Z.ltb_spec (num * 2 ^ b) (den * (2 ^ b * 2 ^ e)));
        try done; nia.
    - replace (2 ^ b) with (2 ^ (- e) * 2 ^ (b + e)) by (rewrite <- Z.pow_add_r; f_equal; lia).
      pose proof (pow2_pos (b + e)).
      destruct (Z.ltb_spec (num * 2 ^ (- e)) den), (Z.ltb_spec (num * (2 ^ (- e) * 2 ^ (b + e))) (den * 2 ^ (b + e)));
        try done; nia. }
  pose proof (pow2_pos a). pose proof (pow2_pos b).
  assert (b + e = a) as Ha by lia. rewrite Ha.
  assert (2 ^ (a + 1) = 2 * 2 ^ a) as Ha1 by (rewrite Z.pow_add_r by lia; lia).
  destruct (Z.ltb_spec (num * 2 ^ b) (den * 2 ^ a)).
  - apply (log2_bounds_at _ _ _ (b + 1)); [lia..|].
    replace (b + 1 + (e - 1)) with a by lia. replace (a + 1) with (a + 1) by lia.
    rewrite Ha1. rewrite (Z.pow_add_r 2 b 1) by lia. nia.
  - apply (log2_bounds_at _ _ _ b); [lia..|]. rewrite Ha, Ha1. nia.
Qed.

Lemma log2_ratio_unique num den e :
  0 < num → 0 < den → log2_bounds num den e → log2_ratio num den = e.
Proof.
  intros Hn Hd H. apply (log2_bounds_unique num den); [done..| |done]. by apply log2_ratio_bounds.
Qed.

Lemma log2_ratio_scale c num den :
  0 < c → 0 < num → 0 < den → log2_ratio (c * num) (c * den) = log2_ratio num den.
Proof.
  intros Hc Hn Hd. apply log2_ratio_unique; [nia..|]. intros k Hk Hke.
  destruct (log2_ratio_bounds num den Hn Hd k Hk Hke). nia.
Qed.

(** ** Rounding *)

Lemma round_even_scale c num den :
  0 < c → 0 < den → round_even (c * num) (c * den) = round_even num den.
Proof.
  intros Hc Hd. unfold round_even. rewrite Z.div_mul_cancel_l by lia.
  rewrite Z.mul_mod_distr_l by lia.
  replace (2 * (c * (num mod den))) with (c * (2 * (num mod den))) by ring.
  destruct (Z.compare_spec (c * (2 * (num mod den))) (c * den)),
    (Z.compare_spec (2 * (num mod den)) den); done || nia.
Qed.

Lemma round_even_exact m den : 0 < den → round_even (m * den) den = m.
Proof.
  intros Hd. unfold round_even. rewrite Z.div_mul, Z.mod_mul by lia.
  change (2 * 0) with 0. by destruct (Z.compare_spec 0 den); try lia.
Qed.

Lemma round_even_near num den :
  round_even num den = num / den ∨ round_even num den = num / den + 1.
Proof. unfold round_even. repeat case_match; auto. Qed.

Lemma scale_scale base k c num den :
  scale base k (c * num) (c * den) = (c * (scale base k num den).1, c * (scale base k num den).2).
Proof. unfold scale. case_match; simpl; f_equal; ring. Qed.

Lemma scale_pos base k num den :
  0 < base → 0 < num → 0 < den → 0 < (scale base k num den).1 ∧ 0 < (scale base k num den).2.
Proof.
  intros Hb Hn Hd. unfold scale. destruct (Z.leb_spec 0 k); simpl;
    split; try done; apply Z.mul_pos_pos; try done; apply Z.pow_pos_nonneg; lia.
Qed.

Lemma round_ratio_scale c num den :
  0 < c → 0 ≤ num → 0 < den → round_ratio (c * num) (c * den) = round_ratio num den.
Proof.
  intros Hc Hn Hd. unfold round_ratio.
  destruct (Z.eqb_spec num 0) as [->|Hne]; [by rewrite Z.mul_0_r|].
  destruct (Z.eqb_spec (c * num) 0); [nia|].
  rewrite log2_ratio_scale by lia. set (e := Z.max _ _). rewrite scale_scale.
  pose proof (scale_pos 2 e num den). destruct (scale 2 e num den) as [x y]. simpl in *.
  by rewrite round_even_scale by lia.
Qed.

(** Rounding depends on the value of the ratio. *)
Lemma round_ratio_eq num den num' den' :
  0 ≤ num → 0 < den → 0 ≤ num' → 0 < den' → num * den' = num' * den →
  round_ratio num den = round_ratio num' den'.
Proof.
  intros Hn Hd Hn' Hd' Heq. rewrite <- (round_ratio_scale den' num den), <- (round_ratio_scale den num' den')
    by done. f_equal; lia.
Qed.

(** The value of a canonical pair rounds to the pair. *)
Lemma ratio_pos m e : 0 < m → 0 < (ratio m e).1 ∧ 0 < (ratio m e).2.
Proof. intros. unfold ratio. apply scale_pos; lia. Qed.

Lemma ratio_log2 m e : 0 < m → log2_ratio (ratio m e).1 (ratio m e).2 = Z.log2 m + e.
Proof.
  intros Hm. destruct (ratio_pos m e Hm) as [Pn Pd]. apply log2_ratio_unique; [done..|].
  pose proof (Z.log2_nonneg m). pose proof (Z.log2_spec m Hm) as Hl.
  rewrite Z.pow_succ_r in Hl by lia.
  assert (2 ^ (Z.log2 m + 1) = 2 * 2 ^ Z.log2 m) as Hs by (rewrite Z.pow_add_r; lia).
  unfold ratio, scale in *. destruct (Z.leb_spec 0 (- e)); simpl in *.
  - apply (log2_bounds_at _ _ _ (- e)); [lia..|].
    replace (- e + (Z.log2 m + e)) with (Z.log2 m) by lia. rewrite Hs.
    pose proof (pow2_pos (- e)). nia.
  - replace (- - e) with e in * by lia. apply (log2_bounds_at _ _ _ 0); [lia..|]. rewrite !Z.add_0_l.
    replace (2 ^ (Z.log2 m + e + 1)) with (2 * 2 ^ Z.log2 m * 2 ^ e)
      by (rewrite !Z.pow_add_r by lia; ring).
    rewrite Z.pow_0_r, (Z.pow_add_r 2 (Z.log2 m) e) by lia.
    pose proof (pow2_pos e). nia.
Qed.

Lemma round_ratio_canonical m e :
  canonical m e → 0 < m → round_ratio (ratio m e).1 (ratio m e).2 = Some (m, e).
Proof.
  intros (Hm & He & Hsub) Hpos. destruct (ratio_pos m e Hpos) as [Pn Pd]. unfold round_ratio.
  rewrite (proj2 (Z.eqb_neq _ _)) by lia. rewrite ratio_log2 by done.
  assert (Z.max (Z.log2 m + e - 52) (-1074) = e) as ->.
  { destruct (Z.lt_ge_cases m (2 ^ 52)) as [Hlt|Hge].
    - rewrite (Hsub Hlt). apply Z.log2_lt_pow2 in Hlt; lia.
    - assert (Z.log2 m = 52) by (apply Z.log2_unique; lia). lia. }
  assert (∃ d, scale 2 e (ratio m e).1 (ratio m e).2 = (m * d, d) ∧ 0 < d) as (d & -> & Hd).
  { unfold ratio, scale. destruct (Z.leb_spec 0 (- e)); simpl.
    - destruct (Z.leb_spec 0 e); simpl.
      + assert (e = 0) as -> by lia. exists 1. split; [f_equal; lia|done].
      + exists (2 ^ (- e)). split; [f_equal; lia|apply pow2_pos; lia].
    - rewrite (proj2 (Z.leb_le 0 e)) by lia. exists (2 ^ e). rewrite Z.opp_involutive.
      split; [f_equal; lia|apply pow2_pos; lia]. }
  rewrite round_even_exact by done. rewrite (proj2 (Z.eqb_neq _ _)) by lia.
  destruct (Z.ltb_spec 971 e); [lia|done].
Qed.

(** *** What rounding yields *)

(** Scaling by a power of two moves the logarithm. *)
Lemma scale_log2 num den e :
  0 < num → 0 < den → e ≤ log2_ratio num den →
  let '(n, d) := scale 2 e num den in
  d * 2 ^ (log2_ratio num den - e) ≤ n < d * 2 ^ (log2_ratio num den - e + 1).
Proof.
  intros Hn Hd He. pose proof (log2_ratio_bounds num den Hn Hd) as Hl.
  set (l := log2_ratio num den) in *. unfold scale. destruct (Z.leb_spec 0 e).
  - destruct (Hl 0 ltac:(lia) ltac:(lia)) as [H1 H2]. rewrite Z.pow_0_r, Z.add_0_l in *.
    rewrite <- !Z.mul_assoc, <- !Z.pow_add_r by lia.
    replace (e + (l - e)) with l by lia. replace (e + (l - e + 1)) with (l + 1) by lia. lia.
  - destruct (Hl (- e) ltac:(lia) ltac:(lia)) as [H1 H2].
    replace (l - e) with (- e + l) by lia. done.
Qed.

Lemma scale_small num den e :
  0 < num → 0 < den → e < 0 → log2_ratio num den < e →
  let '(n, d) := scale 2 e num den in n < d.
Proof.
  intros Hn Hd He Hl. unfold scale. rewrite (proj2 (Z.leb_gt 0 e)) by lia.
  pose proof (log2_ratio_bounds num den Hn Hd) as Hb. set (l := log2_ratio num den) in *.
  destruct (Hb (- l) ltac:(lia) ltac:(lia)) as [_ H].
  replace (- l + l + 1) with 1 in H by lia.
  replace (2 ^ (- l)) with (2 ^ (- e) * 2 ^ (e - l)) in H by (rewrite <- Z.pow_add_r; f_equal; lia).
  assert (2 ^ 1 ≤ 2 ^ (e - l)) by (apply Z.pow_le_mono_r; lia). change (2 ^ 1) with 2 in *.
  pose proof (pow2_pos (- e)). nia.
Qed.

Lemma round_even_le num den b :
  0 ≤ num → 0 < den → num < den * b → 0 ≤ round_even num den ≤ b.
Proof.
  intros Hn Hd Hb. assert (0 ≤ num / den < b).
  { split; [by apply Z.div_pos|]. apply Z.div_lt_upper_bound; lia. }
  destruct (round_even_near num den) as [->| ->]; lia.
Qed.

Lemma round_even_ge num den b : 0 < den → den * b ≤ num → b ≤ round_even num den.
Proof.
  intros Hd Hb. assert (b ≤ num / den) by (apply Z.div_le_lower_bound; lia).
  destruct (round_even_near num den) as [->| ->]; lia.
Qed.

Lemma round_ratio_is_canonical num den m e :
  0 ≤ num → 0 < den → round_ratio num den = Some (m, e) → canonical m e.
Proof.
  intros Hn Hd. unfold round_ratio. destruct (Z.eqb_spec num 0) as [->|Hne].
  { intros [= <- <-]. by repeat split. }
  assert (0 < num) as Hpos by lia. set (l := log2_ratio num den). set (x := Z.max (l - 52) (-1074)).
  pose proof (scale_pos 2 x num den ltac:(lia) Hpos Hd) as [Pn Pd].
  pose proof (scale_log2 num den x Hpos Hd) as Hlog.
  pose proof (scale_small num den x Hpos Hd) as Hsmall. fold l in Hlog, Hsmall.
  destruct (scale 2 x num den) as [n d]. simpl in Pn, Pd.
  assert (n < d * 2 ^ 53) as Hup.
  { destruct (Z.lt_ge_cases l x); [specialize (Hsmall ltac:(lia) ltac:(lia)); lia|].
    destruct (Hlog ltac:(lia)) as [_ H']. eapply Z.lt_le_trans; [exact H'|].
    apply Z.mul_le_mono_nonneg_l; [lia|]. apply Z.pow_le_mono_r; lia. }
  assert (x ≠ -1074 → d * 2 ^ 52 ≤ n) as Hlow.
  { intros Hx. destruct (Hlog ltac:(lia)) as [H' _]. by replace (l - x) with 52 in H' by lia. }
  pose proof (round_even_le n d (2 ^ 53) ltac:(lia) Pd Hup) as Hr.
  assert (x ≠ -1074 → 2 ^ 52 ≤ round_even n d) as Hr' by (intros Hx; apply round_even_ge; auto).
  destruct (Z.eqb_spec (round_even n d) (2 ^ 53)) as [Heq|Hneq].
  - destruct (Z.ltb_spec 971 (x + 1)); [done|]. intros [= <- <-]. split_and!; lia.
  - destruct (Z.ltb_spec 971 x); [done|]. intros [= <- <-]. unfold canonical. split_and!; try lia.
Qed.

(** A ratio that rounds to a nonzero value is not too small nor too large. *)
Lemma round_ratio_range num den m e :
  0 < num → 0 < den → round_ratio num den = Some (m, e) → 0 < m →
  den ≤ num * 2 ^ 1075 ∧ num < den * 2 ^ 1025.
Proof.
  intros Hn Hd. unfold round_ratio. rewrite (proj2 (Z.eqb_neq _ _)) by lia.
  pose proof (log2_ratio_bounds num den Hn Hd) as Hb. set (l := log2_ratio num den) in *.
  set (x := Z.max (l - 52) (-1074)). intros Hr Hm.
  assert (-1076 < l) as Hlow.
  { apply Z.nle_gt. intros Hl. assert (x = -1074) as Hx by lia.
    destruct (Hb (- l) ltac:(lia) ltac:(lia)) as [_ H].
    replace (- l + l + 1) with 1 in H by lia. change (2 ^ 1) with 2 in H.
    rewrite Hx in Hr. unfold scale in Hr. change (0 <=? -1074) with false in Hr.
    change (- -1074) with 1074 in Hr. cbv beta iota zeta in Hr.
    assert (2 * (num * 2 ^ 1074) < den) as Hsmall.
    { replace (2 ^ (- l)) with (2 ^ 1076 * 2 ^ (- l - 1076)) in H
        by (rewrite <- Z.pow_add_r by lia; f_equal; lia).
      pose proof (pow2_pos (- l - 1076) ltac:(lia)).
      change (2 ^ 1076) with (4 * 2 ^ 1074) in H. pose proof (pow2_pos 1074 ltac:(lia)).
      set (a := 2 ^ 1074) in *. clearbody a. nia. }
    pose proof (pow2_pos 1074 ltac:(lia)). set (a := 2 ^ 1074) in *. clearbody a.
    assert (round_even (num * a) den = 0) as Hre.
    { unfold round_even. rewrite Z.div_small, Z.mod_small by nia.
      destruct (Z.compare_spec (2 * (num * a)) den); done || lia. }
    rewrite Hre in Hr. simpl in Hr. injection Hr as <- <-. lia. }
  assert (l < 1025) as Hup.
  { apply Z.nle_gt. intros Hl. destruct (scale 2 x num den) as [n d].
    destruct (Z.eqb _ _).
    - destruct (Z.ltb_spec 971 (x + 1)); [done|lia].
    - destruct (Z.ltb_spec 971 x); [done|lia]. }
  split.
  - destruct (Hb 1075 ltac:(lia) ltac:(lia)) as [H _].
    assert (2 ^ 0 ≤ 2 ^ (1075 + l)) by (apply Z.pow_le_mono_r; lia).
    change (2 ^ 0) with 1 in *. set (a := 2 ^ 1075) in *. clearbody a. nia.
  - destruct (Hb 1075 ltac:(lia) ltac:(lia)) as [_ H].
    assert (2 ^ (1075 + l + 1) ≤ 2 ^ (1075 + 1025)) as Hp by (apply Z.pow_le_mono_r; lia).
    rewrite (Z.pow_add_r 2 1075 1025) in Hp by lia. pose proof (pow2_pos 1075 ltac:(lia)).
    set (a := 2 ^ 1075) in *. set (b := 2 ^ 1025) in *. clearbody a b. nia.
Qed.

(** ** The shortest digits *)

Definition reads (m e c s : Z) : Prop :=
  let '(p, q) := scale 10 (- s) c 1 in round_ratio p q = Some (m, e).

Lemma candidate_reads m e num den k n c :
  0 < num → 0 < den → candidate m e num den k n = Some c →
  0 ≤ c ∧ reads m e c (k + 1 - Z.of_nat n).
Proof.
  intros Hn Hd. unfold candidate, reads. set (s := k + 1 - Z.of_nat n).
  pose proof (scale_pos 10 s num den ltac:(lia) Hn Hd) as [Px Py].
  destruct (scale 10 s num den) as [x y]. simpl in *. set (lo := x / y).
  assert (0 ≤ lo) as Hlo by (apply Z.div_pos; lia).
  destruct (scale 10 (- s) lo 1) as [p q] eqn:E0.
  destruct (scale 10 (- s) (lo + 1) 1) as [p1 q1] eqn:E1.
  destruct (x mod y =? 0).
  - case_bool_decide; [|done]. intros [= <-]. by rewrite E0.
  - repeat case_bool_decide; try done; intros [= <-]; rewrite ?E0, ?E1; try (by split; [lia|]).
    destruct (round_even_near x y) as [->| ->]; fold lo; rewrite ?E0, ?E1; by split; [lia|].
Qed.

Lemma candidate_exact m e k n :
  canonical m e → 0 < m → let t := Z.of_nat n - (k + 1) in 0 ≤ t → - e ≤ t →
  is_Some (candidate m e (ratio m e).1 (ratio m e).2 k n).
Proof.
  intros Hcan Hm t Ht He. destruct (ratio_pos m e Hm) as [Pn Pd]. unfold candidate.
  replace (k + 1 - Z.of_nat n) with (- t) by lia. rewrite Z.opp_involutive.
  assert (∃ lo x y, scale 10 (- t) (ratio m e).1 (ratio m e).2 = (x, y) ∧ 0 < y ∧ 0 ≤ lo ∧ x = lo * y ∧
    (ratio m e).1 * 10 ^ t = lo * (ratio m e).2) as (lo & x & y & -> & Hy & Hlo & -> & Heq).
  { unfold ratio, scale in *. pose proof (Z.pow_pos_nonneg 10 t ltac:(lia) Ht) as Pt.
    assert (∀ (num den : Z), 0 ≤ num → 0 < den →
      (if 0 <=? - t then (num, den * 10 ^ (- t)) else (num * 10 ^ (- - t), den)) = (num * 10 ^ t, den)) as Hs.
    { intros num den _ _. rewrite Z.opp_involutive. destruct (Z.leb_spec 0 (- t)); [|done].
      assert (t = 0) as -> by lia. f_equal; lia. }
    destruct (Z.leb_spec 0 (- e)); simpl in *; rewrite Hs by lia.
    - exists (m * 10 ^ t / 2 ^ (- e)), (m * 10 ^ t), (1 * 2 ^ (- e)).
      assert (10 ^ t = 2 ^ (- e) * (2 ^ (t + e) * 5 ^ t)) as Hsplit.
      { rewrite Z.mul_assoc, <- Z.pow_add_r by lia. replace (- e + (t + e)) with t by lia.
        by rewrite <- Z.pow_mul_l. }
      pose proof (pow2_pos (- e) ltac:(lia)).
      assert (m * 10 ^ t = m * 10 ^ t / 2 ^ (- e) * 2 ^ (- e)) as Hdiv.
      { rewrite Hsplit. replace (m * (2 ^ (- e) * (2 ^ (t + e) * 5 ^ t)))
          with (m * (2 ^ (t + e) * 5 ^ t) * 2 ^ (- e)) by ring. by rewrite Z.div_mul by lia. }
      split_and!; [done|lia|apply Z.div_pos; nia|lia|lia].
    - pose proof (pow2_pos (- - e) ltac:(lia)).
      exists (m * 2 ^ (- - e) * 10 ^ t), (m * 2 ^ (- - e) * 10 ^ t), 1.
      split_and!; [done|lia|nia|lia|lia]. }
  rewrite Z.div_mul, Z.mod_mul by lia. simpl.
  assert (∃ p q, scale 10 t lo 1 = (p, q) ∧ round_ratio p q = Some (m, e)) as (p & q & -> & ->).
  { eexists _, _. split; [by unfold scale; rewrite (proj2 (Z.leb_le 0 t)) by done|].
    rewrite <- (round_ratio_canonical m e Hcan Hm).
    pose proof (Z.pow_pos_nonneg 10 t ltac:(lia) Ht). apply round_ratio_eq; lia. }
  rewrite bool_decide_true by done. by eexists.
Qed.

Lemma shortest_from_spec fuel n m e num den k c n' :
  shortest_from fuel n m e num den k = Some (c, n') → candidate m e num den k n' = Some c.
Proof.
  revert n. induction fuel as [|fuel IH]; intros n; [done|]. simpl.
  destruct (candidate m e num den k n) eqn:E; [by intros [= -> ->]|apply IH].
Qed.

Lemma shortest_from_total fuel n m e num den k n' :
  (n ≤ n' < n + fuel)%nat → is_Some (candidate m e num den k n') →
  is_Some (shortest_from fuel n m e num den k).
Proof.
  revert n. induction fuel as [|fuel IH]; intros n Hn Hc; [lia|]. simpl.
  destruct (candidate m e num den k n) eqn:E; [by eexists|]. apply IH; [|done].
  assert (n ≠ n') by (intros ->; rewrite E in Hc; by destruct Hc). lia.
Qed.

Lemma log10_from_bounds fuel k num den :
  k ≤ log10_from fuel k num den ≤ k + Z.of_nat fuel.
Proof.
  revert k. induction fuel as [|fuel IH]; intros k; [simpl; lia|]. cbn [log10_from].
  destruct (scale 10 (k + 1) num den) as [n d]. destruct (n <? d); [lia|]. specialize (IH (k + 1)). lia.
Qed.

(** The search always ends, within its 800 rounds. *)
Lemma shortest_found m e :
  canonical m e → 0 < m →
  let '(num, den) := ratio m e in let k := log10_ratio num den in
  ∃ c n, shortest_from 800 1 m e num den k = Some (c, n) ∧ 0 < c ∧
    reads m e c (k + 1 - Z.of_nat n).
Proof.
  intros Hcan Hm. pose proof (ratio_log2 m e Hm) as Hl. destruct (ratio_pos m e Hm) as [Pn Pd].
  pose proof (candidate_exact m e (log10_ratio (ratio m e).1 (ratio m e).2)) as Hex.
  destruct (ratio m e) as [num den]. cbn [fst snd] in *. cbv zeta. set (k := log10_ratio num den) in *.
  pose proof Hcan as (Hm53 & He & _).
  assert (0 ≤ Z.log2 m ≤ 52) as Hlm.
  { split; [apply Z.log2_nonneg|]. assert (Z.log2 m < 53); [|lia]. apply Z.log2_lt_pow2; lia. }
  assert ((Z.log2 m + e) * 30103 / 100000 - 2 ≤ k ≤ (Z.log2 m + e) * 30103 / 100000 + 2) as Hk.
  { unfold k, log10_ratio. rewrite Hl.
    pose proof (log10_from_bounds 4 ((Z.log2 m + e) * 30103 / 100000 - 2) num den). lia. }
  set (t := Z.max 0 (Z.max (- e) (- k))).
  assert (1 ≤ k + 1 + t < 801) as Hrange.
  { pose proof (Z.div_mod ((Z.log2 m + e) * 30103) 100000 ltac:(lia)).
    pose proof (Z.mod_pos_bound ((Z.log2 m + e) * 30103) 100000 ltac:(lia)). lia. }
  destruct (shortest_from_total 800 1 m e num den k (Z.to_nat (k + 1 + t))) as [[c n] Hs]; [lia|..].
  { apply Hex; [done|done|lia|lia]. }
  exists c, n. split; [done|]. apply shortest_from_spec, candidate_reads in Hs as [Hc Hr]; [|done..].
  split; [|done]. assert (c ≠ 0); [|lia]. intros ->. unfold reads, scale in Hr.
  destruct (0 <=? _); rewrite ?Z.mul_0_l in Hr;
    change (round_ratio 0 _) with (Some (0, -1074)) in Hr; injection Hr as <- <-; lia.
Qed.

(** ** Decimal text *)

Definition digits (s : string) : bool := string_forallb is_digit s.

Lemma digits_value_acc acc s :
  digits_value acc s = acc * 10 ^ Z.of_nat (String.length s) + digits_value 0 s.
Proof.
  revert acc. induction s as [|c s IH]; intros acc; [simpl; lia|].
  cbn [digits_value String.length]. rewrite IH, (IH (10 * 0 + digit_value c)).
  rewrite Nat2Z.inj_succ, Z.pow_succ_r by lia. ring.
Qed.

Lemma digits_value_app s t :
  digits_value 0 (s +:+ t) = digits_value 0 s * 10 ^ Z.of_nat (String.length t) + digits_value 0 t.
Proof.
  assert (∀ acc, digits_value acc (s +:+ t) = digits_value (digits_value acc s) t) as H.
  { induction s as [|c s IH]; intros acc; [done|]. rewrite app_cons_str. simpl. by rewrite IH. }
  by rewrite H, digits_value_acc.
Qed.

Lemma digit_value_range c : is_digit c = true → 0 ≤ digit_value c ≤ 9.
Proof. unfold is_digit, in_range, digit_value. rewrite andb_true_iff, !N.leb_le. lia. Qed.

Lemma digits_value_bound s : digits s = true → 0 ≤ digits_value 0 s < 10 ^ Z.of_nat (String.length s).
Proof.
  induction s as [|c s IH]; [done|]. unfold digits. simpl string_forallb.
  rewrite andb_true_iff. intros [Hc%digit_value_range Hs%IH].
  cbn [digits_value String.length]. rewrite digits_value_acc, Nat2Z.inj_succ, Z.pow_succ_r by lia. nia.
Qed.

(** A leading digit that is not zero bounds the value from below. *)
Lemma digits_value_lower c s :
  is_digit c = true → code c ≠ 48%N → digits s = true →
  10 ^ Z.of_nat (String.length s) ≤ digits_value 0 (String c s).
Proof.
  intros Hc H0 Hs%digits_value_bound. cbn [digits_value]. rewrite digits_value_acc.
  assert (1 ≤ digit_value c).
  { unfold is_digit, in_range, digit_value in *. rewrite andb_true_iff, !N.leb_le in Hc. lia. }
  nia.
Qed.

Lemma digits_app s t : digits (s +:+ t) = digits s && digits t.
Proof. apply string_forallb_app. Qed.

Lemma zeros_digits n : digits (zeros n) = true.
Proof. induction n; done. Qed.

Lemma zeros_length n : String.length (zeros n) = n.
Proof. induction n; simpl; congruence. Qed.

Lemma zeros_value n : digits_value 0 (zeros n) = 0.
Proof. induction n; done. Qed.

(** The digits of a positive number. *)
Lemma pretty_digit x : (x < 10)%N → is_digit (pretty_N_char x) = true ∧
  digit_value (pretty_N_char x) = Z.of_N x ∧ (x ≠ 0%N → code (pretty_N_char x) ≠ 48%N).
Proof.
  intros H. assert (x ∈ [0; 1; 2; 3; 4; 5; 6; 7; 8; 9]%N) as Hin.
  { rewrite !elem_of_cons. lia. }
  repeat (apply elem_of_cons in Hin as [->|Hin]; [by split_and!|]). by apply elem_of_nil in Hin.
Qed.

Lemma pretty_go_digits x s :
  (0 < x)%N → ∃ d r, pretty_N_go x s = String d r +:+ s ∧ is_digit d = true ∧ code d ≠ 48%N ∧
    digits r = true ∧ digits_value 0 (String d r) = Z.of_N x.
Proof.
  revert s. induction (N.lt_wf_0 x) as [x _ IH]; intros s Hx. rewrite pretty_N_go_step by done.
  pose proof (N.mod_lt x 10 ltac:(lia)) as Hmod. destruct (pretty_digit _ Hmod) as (D1 & D2 & D3).
  pose proof (N.div_mod x 10 ltac:(lia)) as Hdiv.
  destruct (N.eq_dec (x / 10)%N 0%N) as [H0|H0].
  - rewrite H0, pretty_N_go_0. exists (pretty_N_char (x mod 10)%N), "".
    split_and!; [done|done|apply D3; lia|done|]. cbn [digits_value]. rewrite D2. lia.
  - destruct (IH (x / 10)%N ltac:(apply N.div_lt; lia) (String (pretty_N_char (x mod 10)%N) s) ltac:(lia))
      as (d & r & -> & E1 & E2 & E3 & E4).
    exists d, (r +:+ str1 (pretty_N_char (x mod 10)%N)). split_and!; [|done|done| |].
    + rewrite !app_cons_str. f_equal. by rewrite app_assoc_str.
    + rewrite digits_app, E3. unfold digits. simpl. by rewrite D1.
    + rewrite <- app_cons_str, digits_value_app, E4. simpl String.length. cbn [digits_value str1].
      rewrite D2. lia.
Qed.

Lemma Itoa_digits c :
  0 < c → ∃ d r, Itoa c = String d r ∧ is_digit d = true ∧ code d ≠ 48%N ∧ digits r = true ∧
    digits_value 0 (Itoa c) = c.
Proof.
  destruct c as [|p|p]; [lia| |lia]. intros _. destruct (pretty_go_digits (N.pos p) "" ltac:(lia))
    as (d & r & H & D1 & D2 & D3 & D4).
  rewrite app_nil_r_str in H. unfold Itoa, pretty, pretty_Z, pretty, pretty_positive, pretty, pretty_N.
  rewrite decide_False by done. rewrite H. exists d, r. split_and!; [done..|]. rewrite D4. done.
Qed.

(** Trimming leaves the zeros behind. *)
Lemma trim_zeros_spec s : ∃ z, s = trim_zeros s +:+ zeros z.
Proof.
  induction s as [|c s [z IH]]; [by exists 0%nat|]. unfold trim_zeros in *.
  set (go := fix go (s : string) : string := _) in *. change (go (String c s)) with
    (let r := go s in if string_empty r && char_is 48 c then "" else String c r).
  cbv zeta. destruct (string_empty (go s) && char_is 48 c) eqn:E.
  - apply andb_true_iff in E as [E Hc]. exists (S z). destruct (go s); [|done].
    change (String c s = String "0" (zeros z)). f_equal; [|exact IH]. unfold char_is in Hc. apply N.eqb_eq in Hc.
    rewrite <- (Ascii.ascii_N_embedding c). unfold code in Hc. by rewrite Hc.
  - exists z. rewrite app_cons_str. by f_equal.
Qed.

Lemma trim_zeros_first d r :
  code d ≠ 48%N → digits r = true →
  ∃ r', trim_zeros (String d r) = String d r' ∧ digits r' = true.
Proof.
  intros Hd Hr. destruct (trim_zeros_spec (String d r)) as [z Hz].
  destruct (trim_zeros (String d r)) as [|d' r'].
  - simpl in Hz. destruct z as [|z]; [done|]. simpl in Hz. injection Hz as -> _. by elim Hd.
  - rewrite app_cons_str in Hz. injection Hz as -> Hz. exists r'. split; [done|].
    rewrite Hz, digits_app in Hr. by apply andb_true_iff in Hr as [? _].
Qed.

(** ** Literals *)

Definition no_digit_first (s : string) : bool :=
  match s with "" => true | String c _ => negb (is_digit c) end.

Lemma take_digits_app ds rest :
  digits ds = true → no_digit_first rest = true → take_digits (ds +:+ rest) = (ds, rest).
Proof.
  intros Hd Hr. induction ds as [|c ds IH].
  - change ("" +:+ rest) with rest. destruct rest as [|c rest]; [done|]. simpl in *.
    by destruct (is_digit c).
  - unfold digits in Hd. simpl in Hd. apply andb_true_iff in Hd as [Hc Hd].
    rewrite app_cons_str. simpl. by rewrite Hc, IH.
Qed.

(** An integer part, and an exponent with its value. *)
Definition int_part (i : string) : Prop :=
  i = "0" ∨ ∃ d r, i = String d r ∧ is_digit d = true ∧ code d ≠ 48%N ∧ digits r = true.

Inductive exp_part : string → Z → Prop :=
| exp_none : exp_part "" 0
| exp_some neg ds :
    digits ds = true → ds ≠ "" →
    exp_part ("e" +:+ (if neg : bool then "-" else "+") +:+ ds)
      (if neg then - digits_value 0 ds else digits_value 0 ds).

Definition number_text (i f x : string) : string :=
  i +:+ (if string_empty f then "" else "." +:+ f) +:+ x.

Lemma int_part_digits i :
  int_part i → digits i = true ∧ ∃ d r, i = String d r ∧ is_digit d = true.
Proof.
  intros [->|(d & r & -> & Hd & H0 & Hr)]; [split; [done|by eexists _, _]|].
  split; [|by eexists _, _]. unfold digits. simpl. by rewrite Hd.
Qed.

Lemma exp_part_first x v : exp_part x v → no_digit_first x = true ∧ no_digit_first ("." +:+ x) = true.
Proof. by destruct 1. Qed.

Lemma digit_not_minus d : is_digit d = true → (code d =? 45)%N = false.
Proof. unfold is_digit, in_range. rewrite andb_true_iff, !N.leb_le, N.eqb_neq. lia. Qed.

Lemma parse_exp_part x v : exp_part x v → parse_exp x = Some (x, "").
Proof.
  destruct 1 as [|neg ds Hd Hne]; [done|].
  assert (take_digits ds = (ds, "")) as Ht.
  { rewrite <- (app_nil_r_str ds) at 1. by apply take_digits_app. }
  destruct neg; (destruct ds; [done|]);
    [change ("e" +:+ "-" +:+ ?x) with (String "e" (String "-" x))
    |change ("e" +:+ "+" +:+ ?x) with (String "e" (String "+" x))];
    unfold parse_exp; [change ((code "-" =? 43)%N || (code "-" =? 45)%N) with true
    |change ((code "+" =? 43)%N || (code "+" =? 45)%N) with true]; cbv iota; by rewrite Ht.
Qed.

Lemma number_text_parts i f x v :
  int_part i → digits f = true → exp_part x v →
  parse_number (number_text i f x) = Some (number_text i f x, "") ∧
  literal_parts (number_text i f x) = (false, i +:+ f, String.length f, v).
Proof.
  intros Hi Hf Hx. destruct (int_part_digits i Hi) as (Hid & d & r & Hi' & Hd).
  destruct (exp_part_first x v Hx) as [Hx1 _]. pose proof (parse_exp_part x v Hx) as Hpx.
  set (fx := (if string_empty f then "" else "." +:+ f) +:+ x).
  assert (number_text i f x = i +:+ fx) as Htext by done.
  assert (no_digit_first fx = true) as Hfx by (unfold fx; by destruct f).
  assert (parse_int (i +:+ fx) = Some (i, fx)) as Hpi.
  { destruct Hi as [->|(d' & r' & -> & Hd' & H0 & Hr')]; [done|]. rewrite app_cons_str.
    unfold parse_int. rewrite (proj2 (N.eqb_neq _ _)) by done. rewrite Hd'. f_equal.
    rewrite <- app_cons_str. by apply take_digits_app. }
  assert (parse_frac fx = Some (if string_empty f then "" else "." +:+ f, x)) as Hpf.
  { unfold fx. destruct f as [|c f].
    - change ("" +:+ x) with x. inversion Hx; done.
    - cbn [string_empty]. rewrite app_assoc_str. change ("." +:+ ?y) with (String "." y).
      unfold parse_frac. change (code "." =? 46)%N with true. cbv iota.
      by rewrite take_digits_app. }
  split.
  - unfold parse_number. rewrite Htext.
    assert ((match i +:+ fx with
      String c s' => if (code c =? 45)%N then (str1 c, s') else ("", i +:+ fx) | "" => ("", "") end)
      = ("", i +:+ fx)) as -> by (rewrite Hi', app_cons_str; by rewrite (digit_not_minus d Hd)).
    rewrite Hpi. simpl. rewrite Hpf. simpl. rewrite Hpx. simpl. by rewrite app_nil_l_str.
  - unfold literal_parts. rewrite Htext.
    assert ((match i +:+ fx with
      String c s => if char_is 45 c then (true, s) else (false, i +:+ fx) | "" => (false, "") end)
      = (false, i +:+ fx)) as ->.
    { rewrite Hi', app_cons_str. unfold char_is. by rewrite (digit_not_minus d Hd). }
    rewrite take_digits_app by done.
    assert ((match fx with String c s' => if char_is 46 c then take_digits s' else ("", fx)
      | "" => ("", "") end) = (f, x)) as ->.
    { unfold fx. destruct f as [|c f].
      - change ("" +:+ x) with x. by inversion Hx.
      - cbn [string_empty]. rewrite app_assoc_str. change ("." +:+ ?y) with (String "." y).
        change (char_is 46 ".") with true. cbv iota. by apply take_digits_app. }
    f_equal. inversion Hx as [|neg ds Hds Hne]; [done|]. by destruct neg.
Qed.

Lemma minus_parts t c s :
  t = String c s → is_digit c = true → parse_number t = Some (t, "") →
  parse_number ("-" +:+ t) = Some ("-" +:+ t, "") ∧
  ∀ ds b e, literal_parts t = (false, ds, b, e) → literal_parts ("-" +:+ t) = (true, ds, b, e).
Proof.
  intros -> Hc Hp. change ("-" +:+ ?x) with (String "-" x). split.
  - unfold parse_number in *. rewrite (digit_not_minus c Hc) in Hp.
    change (code "-" =? 45)%N with true. cbv iota.
    destruct (parse_int (String c s)) as [[int s2]|]; [|done]. simpl in *.
    destruct (parse_frac s2) as [[frac s3]|]; [|done]. simpl in *.
    destruct (parse_exp s3) as [[exp s4]|]; [|done]. simpl in *.
    rewrite app_nil_l_str in Hp. injection Hp as Hp ->. by rewrite <- Hp.
  - intros ds b e. unfold literal_parts. unfold char_is at 1. rewrite (digit_not_minus c Hc).
    change (char_is 45 "-") with true. cbv iota.
    destruct (take_digits (String c s)) as [int s1].
    destruct (match s1 with "" => ("", "") | String c0 s' => _ end) as [frac s2].
    by intros [= <- <- <-].
Qed.

(** ** Rounding a decimal *)

Lemma scale_opp b s v :
  scale b (- s) v 1 = (v * b ^ Z.max s 0, b ^ Z.max (- s) 0).
Proof.
  unfold scale. destruct (Z.leb_spec 0 (- s)).
  - rewrite (Z.max_r s 0), (Z.max_l (- s) 0) by lia. f_equal; lia.
  - rewrite Z.opp_involutive, (Z.max_l s 0), (Z.max_r (- s) 0) by lia. f_equal; lia.
Qed.

(** The same decimal, with zeros moved between digits and exponent. *)
Lemma reads_shift m e v j s : 0 ≤ v → 0 ≤ j → reads m e (v * 10 ^ j) s ↔ reads m e v (s + j).
Proof.
  intros Hv Hj. unfold reads. rewrite !scale_opp.
  pose proof (Z.pow_pos_nonneg 10 (Z.max (- s) 0)). pose proof (Z.pow_pos_nonneg 10 (Z.max (- (s + j)) 0)).
  pose proof (Z.pow_pos_nonneg 10 (Z.max s 0)). pose proof (Z.pow_pos_nonneg 10 (Z.max (s + j) 0)).
  pose proof (Z.pow_pos_nonneg 10 j).
  rewrite (round_ratio_eq (v * 10 ^ j * 10 ^ Z.max s 0) _ (v * 10 ^ Z.max (s + j) 0) (10 ^ Z.max (- (s + j)) 0));
    [done|nia|lia|nia|lia|].
  rewrite <- !Z.mul_assoc, <- !Z.pow_add_r by lia. do 2 f_equal. lia.
Qed.

(** Where the digits of a value can stand. *)
Lemma reads_range m e d r s :
  0 < m → is_digit d = true → code d ≠ 48%N → digits r = true →
  reads m e (digits_value 0 (String d r)) s →
  -400 < s + Z.of_nat (S (String.length r)) < 400.
Proof.
  intros Hm Hd H0 Hr Hreads. unfold reads in Hreads. rewrite scale_opp in Hreads.
  pose proof (digits_value_lower d r Hd H0 Hr) as Hlow.
  assert (digits (String d r) = true) as Hdr by (unfold digits; simpl; by rewrite Hd).
  pose proof (digits_value_bound _ Hdr) as Hup. cbn [String.length] in Hup.
  set (v := digits_value 0 (String d r)) in *. set (l := String.length r) in *.
  assert (0 < v) as Hv.
  { pose proof (Z.pow_pos_nonneg 10 (Z.of_nat l)). lia. }
  set (a := Z.max s 0) in *. set (b := Z.max (- s) 0) in *.
  pose proof (Z.pow_pos_nonneg 10 a ltac:(lia) ltac:(lia)) as Pa.
  pose proof (Z.pow_pos_nonneg 10 b ltac:(lia) ltac:(lia)) as Pb.
  destruct (round_ratio_range (v * 10 ^ a) (10 ^ b) m e) as [H1 H2]; [nia|done|done|done|].
  split.
  - apply Z.nle_gt. intros Hs. assert (b = - s ∧ a = 0) as [-> ->] by lia. rewrite Z.pow_0_r, Z.mul_1_r in H1.
    assert (10 ^ (- s) < 10 ^ (Z.of_nat (S l) + 324)) as Hlt.
    { eapply Z.le_lt_trans; [exact H1|]. rewrite Z.pow_add_r by lia.
      apply Z.mul_lt_mono_nonneg; [lia|lia|by apply Z.pow_nonneg|]. by vm_compute. }
    apply Z.pow_lt_mono_r_iff in Hlt; lia.
  - apply Z.nle_gt. intros Hs.
    assert (10 ^ (Z.of_nat l + a) < 10 ^ (b + 309)) as Hlt.
    { rewrite !Z.pow_add_r by lia. eapply Z.le_lt_trans; [|eapply Z.lt_le_trans; [exact H2|]].
      - apply Z.mul_le_mono_nonneg_r; lia.
      - apply Z.mul_le_mono_nonneg_l; [lia|]. by vm_compute. }
    apply Z.pow_lt_mono_r_iff in Hlt; lia.
Qed.

Lemma round_decimal_reads m e v j s x width :
  0 < v → 0 ≤ j → x + j = s → x ≤ 400 → -400 ≤ x + Z.of_nat width →
  reads m e v s → round_decimal (v * 10 ^ j) x width = Some (m, e).
Proof.
  intros Hv Hj Hs Hx Hw Hr. unfold round_decimal.
  pose proof (Z.pow_pos_nonneg 10 j ltac:(lia) Hj).
  rewrite (proj2 (Z.eqb_neq _ _)) by nia. rewrite (proj2 (Z.ltb_ge _ _)) by lia.
  rewrite (proj2 (Z.ltb_ge _ _)) by lia. rewrite <- Hs in Hr.
  apply reads_shift in Hr; [|lia..]. unfold reads in Hr. by destruct (scale 10 (- x) (v * 10 ^ j) 1).
Qed.

(** ** The text of a value *)

Lemma Itoa_exponent n :
  0 ≤ n → digits (Itoa n) = true ∧ Itoa n ≠ "" ∧ digits_value 0 (Itoa n) = n.
Proof.
  intros Hn. destruct (Z.eq_dec n 0) as [->|]; [done|].
  destruct (Itoa_digits n ltac:(lia)) as (d & r & H & Hd & _ & Hr & Hv). split_and!; [|by rewrite H|done].
  rewrite H. unfold digits. simpl. by rewrite Hd.
Qed.

(** Either format writes a literal of the decimal [0.ds * 10^point]. *)
Definition literal_of (text ds : string) (point : Z) : Prop :=
  ∃ i f x v j, text = number_text i f x ∧ int_part i ∧ digits f = true ∧ exp_part x v ∧
    digits_value 0 (i +:+ f) = digits_value 0 ds * 10 ^ j ∧ 0 ≤ j ∧
    v - Z.of_nat (String.length f) + j = point - Z.of_nat (String.length ds) ∧
    v - Z.of_nat (String.length f) ≤ Z.max 0 point ∧
    Z.min 0 point ≤ v - Z.of_nat (String.length f) + Z.of_nat (String.length (i +:+ f)).

Section formats.
Context (d : ascii) (r : string).
Hypothesis Hd : is_digit d = true.
Hypothesis H0 : code d ≠ 48%N.
Hypothesis Hr : digits r = true.

Lemma ds_digits : digits (String d r) = true.
Proof. unfold digits. simpl. by rewrite Hd. Qed.

Lemma format_f_literal point : literal_of (format_f (String d r) point) (String d r) point.
Proof.
  unfold format_f. set (ds := String d r). pose proof ds_digits as Hds. fold ds in Hds.
  assert (0 < Z.of_nat (String.length ds)) as Hl by (simpl; lia).
  destruct (Z.leb_spec point 0); [|destruct (Z.leb_spec (Z.of_nat (String.length ds)) point)].
  - exists "0", (zeros (Z.to_nat (- point)) +:+ ds), "", 0, 0.
    assert (digits (zeros (Z.to_nat (- point)) +:+ ds) = true) as Hf by (by rewrite digits_app, zeros_digits).
    rewrite !length_app_str, zeros_length. split_and!; [|by left|done|constructor| |lia..|].
    + unfold number_text. rewrite app_nil_r_str. by destruct (Z.to_nat (- point)).
    + change ("0" +:+ ?x) with (String "0" x). cbn [digits_value].
      change (10 * 0 + digit_value "0") with 0. rewrite digits_value_app, zeros_value. lia.
    + change (String.length "0") with 1%nat. lia.
  - exists (ds +:+ zeros (Z.to_nat point - String.length ds)), "", "", 0, (point - Z.of_nat (String.length ds)).
    rewrite !app_nil_r_str, length_app_str, zeros_length. split_and!; [|right|done|constructor| |simpl in *; lia..].
    + unfold number_text. simpl string_empty. cbv iota. by rewrite app_nil_r_str.
    + eexists d, _. split_and!; [reflexivity|done|done|]. by rewrite digits_app, Hr, zeros_digits.
    + rewrite digits_value_app, zeros_length, zeros_value.
      replace (Z.of_nat (Z.to_nat point - String.length ds)) with (point - Z.of_nat (String.length ds)) by lia.
      lia.
  - exists (string_take (Z.to_nat point) ds), (string_drop (Z.to_nat point) ds), "", 0, 0.
    pose proof (string_take_app_drop (Z.to_nat point) ds) as Htd.
    assert (digits (string_take (Z.to_nat point) ds) = true ∧ digits (string_drop (Z.to_nat point) ds) = true)
      as [Hta Hdr].
    { rewrite <- Htd, digits_app in Hds. by apply andb_true_iff. }
    assert (String.length (string_take (Z.to_nat point) ds) = Z.to_nat point) as Hlt
      by (rewrite length_take_str; lia).
    assert (String.length (string_drop (Z.to_nat point) ds) = (String.length ds - Z.to_nat point)%nat) as Hld.
    { rewrite <- Htd at 2. rewrite length_app_str. lia. }
    rewrite Htd, Hld. split_and!; [| |done|constructor|lia..].
    + unfold number_text. destruct (string_drop (Z.to_nat point) ds) eqn:E; [change (String.length "") with 0%nat in Hld; lia|].
      by rewrite app_nil_r_str.
    + right. unfold ds in *. destruct (Z.to_nat point) as [|n] eqn:E; [lia|]. simpl in Hta |- *.
      exists d, (string_take n r). split_and!; [done..|]. unfold digits in Hta. simpl in Hta.
      by rewrite Hd in Hta.
Qed.

Lemma format_e_literal point : literal_of (format_e (String d r) point) (String d r) point.
Proof.
  unfold format_e. set (ds := String d r).
  destruct (Itoa_exponent (Z.abs (point - 1)) ltac:(lia)) as (He & Hne & Hv).
  set (digs := if (String.length (Itoa (Z.abs (point - 1))) =? 1)%nat && negb (point - 1 <? 0)
    then "0" +:+ Itoa (Z.abs (point - 1)) else Itoa (Z.abs (point - 1))).
  assert (digits digs = true ∧ digs ≠ "" ∧ digits_value 0 digs = Z.abs (point - 1)) as (D1 & D2 & D3).
  { unfold digs. destruct (_ && _); [|done]. split_and!; [|done|].
    - by rewrite digits_app.
    - rewrite digits_value_app, Hv. change (digits_value 0 "0") with 0. lia. }
  exists (str1 d), r, ("e" +:+ (if point - 1 <? 0 then "-" else "+") +:+ digs), (point - 1), 0.
  assert (str1 d +:+ r = ds) as -> by done.
  assert (Z.of_nat (String.length ds) = Z.of_nat (String.length r) + 1) as Hlen.
  { unfold ds. cbn [String.length]. lia. }
  clearbody digs. split_and!; [|right; by exists d, ""|done| |lia..].
  - unfold number_text, ds. cbn [string_take string_drop]. by destruct r.
  - replace (point - 1) with (if point - 1 <? 0 then - digits_value 0 digs else digits_value 0 digs) at 2.
    + by constructor.
    + rewrite D3. destruct (Z.ltb_spec (point - 1) 0); lia.
Qed.

End formats.

(** The shortest digits, trimmed: they still read back, at the point given. *)
Lemma shortest_reads m e :
  canonical m e → 0 < m →
  ∃ d r s, shortest m e = (String d r, s + Z.of_nat (S (String.length r))) ∧
    is_digit d = true ∧ code d ≠ 48%N ∧ digits r = true ∧
    reads m e (digits_value 0 (String d r)) s.
Proof.
  intros Hcan Hm. pose proof (shortest_found m e Hcan Hm) as Hf. unfold shortest.
  rewrite (proj2 (Z.eqb_neq m 0)) by lia. destruct (ratio m e) as [num den].
  cbv zeta in Hf |- *. set (k := log10_ratio num den) in *. destruct Hf as (c & n & -> & Hc & Hr).
  destruct (Itoa_digits c Hc) as (d & r & Hi & Hd & H0 & Hrd & Hv).
  destruct (trim_zeros_spec (Itoa c)) as [z Hz].
  destruct (trim_zeros_first d r H0 Hrd) as (r' & Ht & Hr').
  rewrite Hi in Hz at 2. rewrite Ht in Hz. exists d, r', (k + 1 - Z.of_nat n + Z.of_nat z).
  rewrite Hi at 1. rewrite Ht. split_and!; [|done..|].
  - f_equal. rewrite Hz, length_app_str, zeros_length. cbn [String.length]. lia.
  - rewrite <- Hv, Hz, digits_value_app, zeros_length, zeros_value, Z.add_0_r in Hr.
    apply reads_shift; [|lia|done].
    assert (digits (String d r') = true) as Hb by (unfold digits; simpl; by rewrite Hd).
    apply digits_value_bound in Hb. lia.
Qed.

Lemma literal_reads m e text d r s (neg : bool) :
  0 < m → is_digit d = true → code d ≠ 48%N → digits r = true →
  reads m e (digits_value 0 (String d r)) s →
  literal_of text (String d r) (s + Z.of_nat (S (String.length r))) →
  let t := (if neg then "-" else "") +:+ text in
  parse_number t = Some (t, "") ∧ ParseFloat t = Some (mkFloat neg m e).
Proof.
  intros Hm Hd H0 Hr Hreads (i & f & x & v & j & -> & Hi & Hf & Hx & Hdig & Hj & Hsum & Hup & Hlow).
  destruct (number_text_parts i f x v Hi Hf Hx) as [Hp Hl].
  pose proof (reads_range m e d r s Hm Hd H0 Hr Hreads) as Hrange.
  destruct (int_part_digits i Hi) as (_ & d' & r' & Hi' & Hd').
  set (text := number_text i f x) in *.
  assert (text = String d' (r' +:+ (if string_empty f then "" else "." +:+ f) +:+ x)) as Htext.
  { unfold text, number_text. by rewrite Hi', app_cons_str. }
  assert (round_decimal (digits_value 0 (i +:+ f)) (v - Z.of_nat (String.length f))
    (String.length (i +:+ f)) = Some (m, e)) as Hround.
  { rewrite Hdig. cbn [String.length] in *.
    pose proof (digits_value_lower d r Hd H0 Hr). pose proof (Z.pow_pos_nonneg 10 (Z.of_nat (String.length r))).
    apply (round_decimal_reads _ _ _ _ s); [lia|done|lia|lia|lia|done]. }
  destruct neg; cbv iota zeta.
  - destruct (minus_parts text _ _ Htext Hd' Hp) as [Hp' Hl']. split; [done|].
    unfold ParseFloat. rewrite (Hl' _ _ _ Hl), Hround. done.
  - rewrite app_nil_l_str. split; [done|]. unfold ParseFloat. by rewrite Hl, Hround.
Qed.

(** Every value the decoder yields is written so that it reads back. *)
Lemma json_float_reads f : canonical (f_mant f) (f_exp f) → float_reads f = true.
Proof.
  destruct f as [neg m e]. cbn [f_mant f_exp]. intros Hcan.
  destruct (Z.eq_dec m 0) as [->|Hne].
  { destruct Hcan as (_ & _ & He). rewrite He by lia. destruct neg; by vm_compute. }
  assert (0 < m) as Hm by (destruct Hcan; lia).
  destruct (shortest_reads m e Hcan Hm) as (d & r & s & Hs & Hd & H0 & Hr & Hreads).
  pose proof (format_f_literal d r Hd H0 Hr (s + Z.of_nat (S (String.length r)))) as Lf.
  pose proof (format_e_literal d r Hd H0 Hr (s + Z.of_nat (S (String.length r)))) as Le.
  assert (∃ text, json_float (mkFloat neg m e) = (if neg then "-" else "") +:+ text ∧
    literal_of text (String d r) (s + Z.of_nat (S (String.length r)))) as (text & Htext & Hlit).
  { unfold json_float. cbn [f_mant f_exp f_neg]. rewrite Hs. cbv zeta.
    destruct (negb (m =? 0) && _); eexists; (split; [reflexivity|]); assumption. }
  destruct (literal_reads m e text d r s neg Hm Hd H0 Hr Hreads Hlit) as [Hp Hpf].
  unfold float_reads. rewrite Htext. by rewrite !bool_decide_true.
Qed.

Lemma take_digits_digits s : digits (take_digits s).1 = true.
Proof.
  induction s as [|c s IH]; [done|]. simpl. destruct (is_digit c) eqn:Hc; [|done].
  destruct (take_digits s). unfold digits in *. simpl in *. by rewrite Hc.
Qed.

Lemma literal_parts_digits t : digits (literal_parts t).1.1.2 = true.
Proof.
  unfold literal_parts. destruct (match t with "" => _ | String c s => _ end) as [neg s].
  pose proof (take_digits_digits s) as H1. destruct (take_digits s) as [int s1].
  assert (digits (match s1 with String c s' => if char_is 46 c then take_digits s' else ("", s1)
    | "" => ("", "") end).1 = true) as H2.
  { destruct s1 as [|c s1]; [done|]. destruct (char_is 46 c); [apply take_digits_digits|done]. }
  destruct (match s1 with "" => _ | String c s' => _ end) as [frac s2]. simpl in *.
  by rewrite digits_app, H1, H2.
Qed.

Lemma ParseFloat_canonical literal f :
  ParseFloat literal = Some f → canonical (f_mant f) (f_exp f).
Proof.
  unfold ParseFloat. pose proof (literal_parts_digits literal) as Hds.
  destruct (literal_parts literal) as [[[neg ds] behind] exp]. simpl in Hds.
  apply digits_value_bound in Hds. unfold round_decimal.
  destruct (Z.eqb_spec (digits_value 0 ds) 0); [by intros [= <-]; repeat split|].
  destruct (Z.ltb_spec 400 (exp - Z.of_nat behind)); [done|].
  destruct (Z.ltb_spec (exp - Z.of_nat behind + Z.of_nat (String.length ds)) (-400));
    [by intros [= <-]; repeat split|].
  rewrite scale_opp. intros H'. destruct (round_ratio _ _) as [[m e]|] eqn:Hr; [|done].
  injection H' as <-. eapply round_ratio_is_canonical; [| |exact Hr].
  - apply Z.mul_nonneg_nonneg; [lia|]. apply Z.pow_nonneg. lia.
  - apply Z.pow_pos_nonneg; lia.
Qed.
