(* ===== verification/DecodeSound.v ===== *)
(** What decoding yields can be encoded without loss: strings are well-formed
    UTF-8, numbers canonical, maps sorted, and nothing is nested deeper than the
    reader allows. *)
From stdpp Require Import sorting.
From S2P Require Import Prelude GoStrings JsonString Json Float64 Any JsonRound FloatRound.
From Stdlib Require Import ZArith Lia.

#[local] Ltac Zify.zify_post_hook ::= Z.to_euclidean_division_equations.

(** ** Strings *)

Lemma valid_utf8_app s t : valid_utf8 s = true → valid_utf8 t = true → valid_utf8 (s +:+ t) = true.
Proof.
  intros Hs Ht. revert Hs. induction s as [s IH] using string_len_ind.
  destruct s as [|a r1]; [done|].
  assert (∀ u, String.length u < S (String.length r1) → valid_utf8 u = true →
    valid_utf8 (u +:+ t) = true) as IH' by exact IH. clear IH.
  rewrite app_cons_str. cbn [valid_utf8]. destruct (code a <? 128)%N; [apply IH'; lia|].
  destruct r1 as [|b r2]; [done|]. rewrite app_cons_str.
  destruct (utf8_two a b); [apply IH'; simpl; lia|].
  destruct r2 as [|c r3]; [done|]. rewrite app_cons_str.
  destruct (utf8_three a b c); [apply IH'; simpl; lia|].
  destruct r3 as [|d r4]; [done|]. rewrite app_cons_str.
  destruct (utf8_four a b c d); [apply IH'; simpl; lia|done].
Qed.

Lemma code_byte_of n : (n < 256)%N → code (byte_of n) = n.
Proof. apply Ascii.N_ascii_embedding. Qed.

(** Every scalar value has a well-formed encoding. *)
Lemma encode_rune_valid r :
  (r < 55296 ∨ 57343 < r < 1114112)%N → valid_utf8 (encode_rune r) = true.
Proof.
  intros Hr.
  unfold encode_rune. destruct (N.ltb_spec r 128); [|destruct (N.ltb_spec r 2048);
    [|destruct (N.ltb_spec r 65536)]]; unfold str1; cbn [valid_utf8];
    rewrite code_byte_of by lia.
  - by rewrite (proj2 (N.ltb_lt r 128)) by lia.
  - rewrite (proj2 (N.ltb_ge (192 + r / 64) 128)) by lia.
    assert (utf8_two (byte_of (192 + r / 64)) (byte_of (128 + r mod 64)) = true) as ->; [|done].
    unfold utf8_two, cont, in_range. rewrite !code_byte_of, !andb_true_iff, !N.leb_le by lia. lia.
  - rewrite (proj2 (N.ltb_ge (224 + r / 4096) 128)) by lia.
    assert (utf8_two (byte_of (224 + r / 4096)) (byte_of (128 + r / 64 mod 64)) = false) as ->.
    { unfold utf8_two, cont, in_range. rewrite !code_byte_of by lia.
      by rewrite (proj2 (N.leb_gt (224 + r / 4096) 223)), andb_false_r by lia. }
    assert (utf8_three (byte_of (224 + r / 4096)) (byte_of (128 + r / 64 mod 64))
      (byte_of (128 + r mod 64)) = true) as ->; [|done].
    unfold utf8_three, cont, in_range. rewrite !code_byte_of by lia.
    rewrite !andb_true_iff, !orb_true_iff, !andb_true_iff, !orb_true_iff, !andb_true_iff, !N.leb_le,
      !N.eqb_eq. lia.
  - rewrite (proj2 (N.ltb_ge (240 + r / 262144) 128)) by lia.
    assert (utf8_two (byte_of (240 + r / 262144)) (byte_of (128 + r / 4096 mod 64)) = false) as ->.
    { unfold utf8_two, cont, in_range. rewrite !code_byte_of by lia.
      by rewrite (proj2 (N.leb_gt (240 + r / 262144) 223)), andb_false_r by lia. }
    assert (utf8_three (byte_of (240 + r / 262144)) (byte_of (128 + r / 4096 mod 64))
      (byte_of (128 + r / 64 mod 64)) = false) as ->.
    { apply not_true_is_false. unfold utf8_three, cont, in_range. rewrite !code_byte_of by lia.
      rewrite !andb_true_iff, !orb_true_iff, !andb_true_iff, !orb_true_iff, !andb_true_iff, !N.leb_le,
        !N.eqb_eq. lia. }
    assert (utf8_four (byte_of (240 + r / 262144)) (byte_of (128 + r / 4096 mod 64))
      (byte_of (128 + r / 64 mod 64)) (byte_of (128 + r mod 64)) = true) as ->; [|done].
    unfold utf8_four, cont, in_range. rewrite !code_byte_of by lia.
    rewrite !andb_true_iff, !orb_true_iff, !andb_true_iff, !N.leb_le, !N.eqb_eq. lia.
Qed.

Lemma hex_value_range c n : hex_value c = Some n → (n < 16)%N.
Proof.
  unfold hex_value, is_digit, in_range. intros H.
  destruct ((48 <=? code c)%N && _) eqn:E1; [injection H as <-|destruct ((97 <=? code c)%N && _) eqn:E2;
    [injection H as <-|destruct ((65 <=? code c)%N && _) eqn:E3; [injection H as <-|done]]];
    rewrite andb_true_iff, !N.leb_le in *; lia.
Qed.

Lemma hex4_range a b c d n : hex4 a b c d = Some n → (n < 65536)%N.
Proof.
  unfold hex4. intros H.
  destruct (hex_value a) as [x|] eqn:Ha; [|done]. destruct (hex_value b) as [y|] eqn:Hb; [|done].
  destruct (hex_value c) as [z|] eqn:Hc; [|done]. destruct (hex_value d) as [w|] eqn:Hd; [|done].
  apply hex_value_range in Ha, Hb, Hc, Hd. simpl in H. injection H as <-. lia.
Qed.

Lemma simple_escape_ascii b e : simple_escape b = Some e → (code e <? 128)%N = true.
Proof.
  unfold simple_escape. repeat case_match; intros [= <-]; try done.
  simpl in *. rewrite !orb_true_iff, !N.eqb_eq in *. apply N.ltb_lt. intuition lia.
Qed.

Section strings.
(** The induction hypothesis, for what is left to read. *)
Context (n : nat).
Hypothesis IH : ∀ r t rest, String.length r < n → parse_string r = Some (t, rest) → valid_utf8 t = true.

Lemma prepend_valid p r t rest :
  valid_utf8 p = true → String.length r < n → prepend p (parse_string r) = Some (t, rest) →
  valid_utf8 t = true.
Proof.
  intros Hp Hr. unfold prepend. destruct (parse_string r) as [[t' rest']|] eqn:E; [|done].
  simpl. intros [= <- _]. apply valid_utf8_app; [done|]. by eapply IH.
Qed.

Lemma parse_high_valid a r t rest :
  (code a <? 128)%N = false → String.length r < n →
  parse_string (String a r) = Some (t, rest) → valid_utf8 t = true.
Proof.
  intros Ha Hr. rewrite parse_high by done. destruct r as [|b r2]; [done|]. simpl in Hr.
  destruct (utf8_two a b) eqn:H2.
  { apply prepend_valid; [|lia]. cbn [valid_utf8 str1]. by rewrite Ha, H2. }
  destruct r2 as [|c r3]; [by apply prepend_valid|]. simpl in Hr.
  destruct (utf8_three a b c) eqn:H3.
  { apply prepend_valid; [|lia]. unfold str1. cbn [valid_utf8]. by rewrite Ha, H2, H3. }
  destruct r3 as [|d r4]; [by apply prepend_valid|]. simpl in Hr.
  destruct (utf8_four a b c d) eqn:H4; [|by apply prepend_valid].
  apply prepend_valid; [|lia]. unfold str1. cbn [valid_utf8]. by rewrite Ha, H2, H3, H4.
Qed.

Lemma parse_unicode_valid (h1 h2 h3 h4 : ascii) r6 t rest :
  String.length r6 < n →
  (rune ← hex4 h1 h2 h3 h4;
   let lone := prepend replacement (parse_string r6) in
   if low_surrogate rune then lone
   else if high_surrogate rune then
     match r6 with
     | String b1 (String b2 (String g1 (String g2 (String g3 (String g4 r12))))) =>
         if bool_decide (b1 = BACKSLASH) && (code b2 =? 117)%N then
           match hex4 g1 g2 g3 g4 with
           | Some rune2 =>
               if low_surrogate rune2
               then prepend (encode_rune (65536 + (rune - 55296) * 1024 + (rune2 - 56320)))
                      (parse_string r12)
               else lone
           | None => lone
           end
         else lone
     | _ => lone
     end
   else prepend (encode_rune rune) (parse_string r6)) = Some (t, rest) →
  valid_utf8 t = true.
Proof.
  intros Hr. destruct (hex4 h1 h2 h3 h4) as [rune|] eqn:Hx; [|done]. cbv zeta. cbn [mbind option_bind].
  apply hex4_range in Hx. assert (∀ t, prepend replacement (parse_string r6) = Some (t, rest) →
    valid_utf8 t = true) as Hlone by (intros t'; by apply prepend_valid).
  unfold low_surrogate, high_surrogate.
  destruct ((56320 <=? rune)%N && _) eqn:Hl; [apply Hlone|].
  destruct ((55296 <=? rune)%N && _) eqn:Hh.
  - destruct r6 as [|b1 [|b2 [|g1 [|g2 [|g3 [|g4 r12]]]]]]; try apply Hlone.
    destruct (bool_decide _ && _); [|apply Hlone].
    destruct (hex4 g1 g2 g3 g4) as [rune2|]; [|apply Hlone].
    destruct ((56320 <=? rune2)%N && _) eqn:Hl2; [|apply Hlone].
    apply prepend_valid; [|simpl in Hr; lia]. apply encode_rune_valid.
    rewrite andb_true_iff, !N.leb_le in Hh, Hl2. lia.
  - apply prepend_valid; [|done]. apply encode_rune_valid.
    rewrite andb_false_iff, !N.leb_gt in Hl, Hh. lia.
Qed.
End strings.

Lemma parse_string_valid s t rest : parse_string s = Some (t, rest) → valid_utf8 t = true.
Proof.
  revert t rest. induction s as [s IH] using string_len_ind. intros t rest.
  destruct s as [|a r1]; [done|].
  assert (∀ r t rest, String.length r < S (String.length r1) → parse_string r = Some (t, rest) →
    valid_utf8 t = true) as IH' by (intros r t' rest' Hr; by apply IH). clear IH.
  destruct (code a <? 128)%N eqn:Ha.
  2:{ apply (parse_high_valid _ IH' a r1); [done|lia]. }
  cbn [parse_string]. destruct (bool_decide (a = QUOTE)); [by intros [= <- _]|].
  destruct (bool_decide (a = BACKSLASH)).
  - destruct r1 as [|b r2]; [done|]. destruct (code b =? 117)%N.
    + destruct r2 as [|h1 [|h2 [|h3 [|h4 r6]]]]; try done.
      apply (parse_unicode_valid _ IH'). simpl. lia.
    + destruct (simple_escape b) as [e|] eqn:He; [|done]. cbn [mbind option_bind].
      apply (prepend_valid _ IH'); [|simpl; lia]. simpl. by rewrite (simple_escape_ascii _ _ He).
  - destruct (code a <? 32)%N; [done|]. rewrite Ha.
    apply (prepend_valid _ IH'); [|lia]. simpl. by rewrite Ha.
Qed.

(** ** Documents *)

Fixpoint json_nesting (v : json) : nat :=
  match v with
  | JArray l => S (list_max (List.map json_nesting l))
  | JObject ms => S (list_max (List.map (λ kv, json_nesting kv.2) ms))
  | _ => 0
  end.

Fixpoint json_valid (v : json) : bool :=
  match v with
  | JString s => valid_utf8 s
  | JArray l => forallb json_valid l
  | JObject ms => forallb (λ kv, valid_utf8 kv.1 && json_valid kv.2) ms
  | _ => true
  end.

Definition sound_value (depth : nat) (v : json) : Prop :=
  json_valid v = true ∧ json_nesting v ≤ depth.

Definition sound_member (depth : nat) (kv : string * json) : Prop :=
  valid_utf8 kv.1 = true ∧ sound_value depth kv.2.

Lemma sound_array depth l : Forall (sound_value depth) l → sound_value (S depth) (JArray l).
Proof.
  intros H. rewrite Forall_forall in H. split; simpl.
  - apply forallb_forall. intros v Hv%list_elem_of_In. by apply H.
  - apply le_n_S, list_max_le, Forall_forall. intros n. rewrite list_elem_of_In, in_map_iff.
    intros (v & <- & Hv%list_elem_of_In). by apply H.
Qed.

Lemma sound_object depth ms : Forall (sound_member depth) ms → sound_value (S depth) (JObject ms).
Proof.
  intros H. rewrite Forall_forall in H. split; simpl.
  - apply forallb_forall. intros kv Hkv%list_elem_of_In. apply andb_true_iff.
    by destruct (H kv Hkv) as [? [? _]].
  - apply le_n_S, list_max_le, Forall_forall. intros n. rewrite list_elem_of_In, in_map_iff.
    intros (kv & <- & Hkv%list_elem_of_In). by apply H.
Qed.

(** Splitting [mbind] on a pair. *)
Ltac bind_case H :=
  match type of H with
  | mbind _ ?o = Some _ =>
      let E := fresh "E" in destruct o as [[? ?]|] eqn:E; [|done]; cbn [mbind option_bind] in H
  end.

Lemma parse_sound fuel :
  (∀ depth s v rest, parse_value fuel depth s = Some (v, rest) → sound_value depth v) ∧
  (∀ depth s l rest, parse_elements fuel depth s = Some (l, rest) → Forall (sound_value depth) l) ∧
  (∀ depth s ms rest, parse_members fuel depth s = Some (ms, rest) → Forall (sound_member depth) ms).
Proof.
  induction fuel as [|fuel (IHv & IHe & IHm)]; [by split_and!|]. split_and!.
  - intros depth s v rest. cbn [parse_value]. destruct (skip_space s) as [|c s']; [done|].
    destruct (char_is 123 c).
    { destruct depth as [|depth]; [done|]. destruct (skip_space s') as [|c' s'']; [done|].
      destruct (char_is 125 c'); [by intros [= <- _]; apply sound_object|]. intros H. bind_case H.
      injection H as <- _. apply sound_object. by eapply IHm. }
    destruct (char_is 91 c).
    { destruct depth as [|depth]; [done|]. destruct (skip_space s') as [|c' s'']; [done|].
      destruct (char_is 93 c'); [by intros [= <- _]; apply sound_array|]. intros H. bind_case H.
      injection H as <- _. apply sound_array. by eapply IHe. }
    destruct (bool_decide (c = QUOTE)).
    { intros H. bind_case H. injection H as <- _. split; [by eapply parse_string_valid|simpl; lia]. }
    repeat (destruct (CutPrefix _ _); [by intros [= <- _]; split; [|simpl; lia]|]).
    intros H. bind_case H. injection H as <- _. split; [done|simpl; lia].
  - intros depth s l rest. cbn [parse_elements]. intros H. bind_case H. apply IHv in E.
    destruct (skip_space _) as [|c s']; [done|]. destruct (char_is 44 c).
    + bind_case H. injection H as <- _. constructor; [done|]. by eapply IHe.
    + destruct (char_is 93 c); [|done]. injection H as <- _. by apply Forall_singleton.
  - intros depth s ms rest. cbn [parse_members]. destruct (skip_space s) as [|q s']; [done|].
    destruct (bool_decide (q = QUOTE)); [|done]. intros H. bind_case H.
    apply parse_string_valid in E. destruct (skip_space _) as [|colon text]; [done|].
    destruct (char_is 58 colon); [|done]. bind_case H. apply IHv in E0.
    destruct (skip_space _) as [|c text']; [done|]. destruct (char_is 44 c).
    + bind_case H. injection H as <- _. constructor; [done|]. by eapply IHm.
    + destruct (char_is 125 c); [|done]. injection H as <- _. by apply Forall_singleton.
Qed.

(** ** Values *)

Section json_ind.
Variable P : json → Prop.
Hypothesis P_null : P JNull.
Hypothesis P_bool : ∀ b, P (JBool b).
Hypothesis P_number : ∀ n, P (JNumber n).
Hypothesis P_string : ∀ s, P (JString s).
Hypothesis P_array : ∀ l, Forall P l → P (JArray l).
Hypothesis P_object : ∀ ms, Forall (λ kv, P kv.2) ms → P (JObject ms).

Fixpoint json_nested_ind (v : json) : P v :=
  match v with
  | JNull => P_null
  | JBool b => P_bool b
  | JNumber n => P_number n
  | JString s => P_string s
  | JArray l => P_array l
      ((fix go l := match l return Forall P l with
        | [] => Forall_nil_2 _
        | v :: l => Forall_cons_2 _ _ _ (json_nested_ind v) (go l)
        end) l)
  | JObject m => P_object m
      ((fix go m := match m return Forall (λ kv, P kv.2) m with
        | [] => Forall_nil_2 _
        | kv :: m => Forall_cons_2 _ _ _ (json_nested_ind kv.2) (go m)
        end) m)
  end.
End json_ind.

(** A value without loss, at most [depth] deep. *)
Definition lossless (depth : nat) (a : any) : Prop := encodable a = true ∧ nesting a ≤ depth.
Definition lossless_entry (depth : nat) (kv : string * any) : Prop :=
  valid_utf8 kv.1 = true ∧ lossless depth kv.2.

Lemma lossless_slice depth l : lossless (S depth) (ASlice l) ↔ Forall (lossless depth) l.
Proof.
  unfold lossless. simpl. rewrite forallb_forall, Forall_forall. split.
  - intros [He Hn] v Hv. apply le_S_n, list_max_le in Hn. rewrite Forall_forall in Hn.
    split; [by apply He, list_elem_of_In|]. by apply Hn, list_elem_of_In, in_map, list_elem_of_In.
  - intros H. split; [intros v Hv%list_elem_of_In; by apply H|].
    apply le_n_S, list_max_le, Forall_forall. intros n. rewrite list_elem_of_In, in_map_iff.
    intros (v & <- & Hv%list_elem_of_In). by apply H.
Qed.

Lemma lossless_map depth m :
  lossless (S depth) (AMap m) ↔ sorted_map m ∧ Forall (lossless_entry depth) m.
Proof.
  unfold lossless, lossless_entry. simpl.
  rewrite andb_true_iff, sorted_keys_spec, forallb_forall, Forall_forall. split.
  - intros [[Hs He] Hn]. split; [done|]. intros kv Hkv. apply le_S_n, list_max_le in Hn.
    rewrite Forall_forall in Hn. pose proof (He kv (proj1 (list_elem_of_In _ _) Hkv)) as H.
    apply andb_true_iff in H as [? ?]. split; [done|]. split; [done|].
    apply Hn, list_elem_of_In, (in_map (λ kv, nesting kv.2)), list_elem_of_In, Hkv.
  - intros [Hs H]. split_and!; [done| |].
    + intros kv Hkv%list_elem_of_In. apply andb_true_iff. by destruct (H kv Hkv) as [? [? _]].
    + apply le_n_S, list_max_le, Forall_forall. intros n. rewrite list_elem_of_In, in_map_iff.
      intros (kv & <- & Hkv%list_elem_of_In). by apply H.
Qed.

Lemma lossless_mono d d' a : d ≤ d' → lossless d a → lossless d' a.
Proof. intros Hd [He Hn]. split; [done|lia]. Qed.

Lemma lossless_set depth k v m :
  valid_utf8 k = true → lossless depth v → lossless (S depth) (AMap m) →
  lossless (S depth) (AMap (map_set k v m)).
Proof.
  rewrite !lossless_map, !Forall_forall. intros Hk Hv [Hs Hm]. split; [by apply map_set_sorted|].
  intros kv [->|?]%map_set_In; [by split|auto].
Qed.

Lemma any_of_lossless depth v a : sound_value depth v → any_of v = Some a → lossless depth a.
Proof.
  revert depth a. induction v as [|b|n|s|l IH|ms IH] using json_nested_ind; intros depth a [Hv Hn].
  - intros [= <-]. by split.
  - intros [= <-]. by split.
  - simpl. intros Ha. destruct (ParseFloat n) as [f|] eqn:Hf; [|done]. injection Ha as <-.
    split; [|simpl; lia]. by eapply json_float_reads, ParseFloat_canonical.
  - intros [= <-]. by split.
  - rewrite any_of_array. destruct (mapM any_of l) as [k|] eqn:Hk; [|done]. intros [= <-].
    destruct depth as [|depth]; [simpl in Hn; lia|]. apply lossless_slice.
    simpl in Hv, Hn. apply le_S_n, list_max_le in Hn. rewrite forallb_forall in Hv.
    apply mapM_Some_1 in Hk. rewrite Forall_forall in IH. rewrite Forall_forall in Hn. apply Forall_forall.
    intros a Ha. apply list_elem_of_lookup in Ha as [i Ha].
    destruct (Forall2_lookup_r _ _ _ _ _ Hk Ha) as (v & Hvi%list_elem_of_lookup_2 & Hav).
    apply (IH v Hvi); [|done]. split; [by apply Hv, list_elem_of_In|].
    by apply Hn, list_elem_of_In, in_map, list_elem_of_In.
  - rewrite any_of_object. destruct depth as [|depth]; [simpl in Hn; lia|].
    assert (lossless (S depth) (AMap [])) as H0 by (split; [done|simpl; lia]).
    simpl in Hv, Hn. apply le_S_n, list_max_le in Hn. rewrite forallb_forall in Hv.
    rewrite Forall_forall in Hn.
    assert (∀ kv, kv ∈ ms → valid_utf8 kv.1 = true ∧ sound_value depth kv.2) as Hms.
    { intros kv Hkv. pose proof (Hv kv (proj1 (list_elem_of_In _ _) Hkv)) as H.
      apply andb_true_iff in H as [? ?]. split; [done|]. split; [done|].
      apply Hn, list_elem_of_In, (in_map (λ kv, json_nesting kv.2)), list_elem_of_In, Hkv. }
    clear Hv Hn. revert H0. generalize (@nil (string * any)). induction IH as [|[k e] ms He _ IHms]; intros m Hm.
    + by intros [= <-].
    + cbn [any_members]. destruct (any_of e) as [x|] eqn:Hx; [|done]. cbn [mbind option_bind].
      destruct (Hms (k, e) ltac:(by left)) as [Hk Hse]. apply IHms.
      * intros kv Hkv. apply Hms. by right.
      * apply lossless_set; [done|by eapply He|done].
Qed.

(** A decoded document is written without loss, and read back as itself. *)
Lemma decoded_lossless data a : parse data ≫= any_of = Some a → lossless max_depth a.
Proof.
  unfold parse. destruct (parse_value _ max_depth data) as [[v rest]|] eqn:Hp; [|done].
  cbn [mbind option_bind]. destruct (string_empty (skip_space rest)); [|done]. simpl.
  apply any_of_lossless. by eapply (parse_sound (parse_fuel data)).
Qed.

Lemma lossless_decode a : lossless max_depth a → parse (marshal_any a) ≫= any_of = Some a.
Proof. intros [He Hn]. by apply decode_marshal. Qed.

Lemma lossless_well_keyed depth a : lossless depth a → well_keyed a = true.
Proof.
  revert depth. induction a as [| | | |l IH|m IH] using any_nested_ind; intros depth Ha; try done.
  - apply well_keyed_slice. destruct depth as [|depth]; [destruct Ha as [_ Hn]; simpl in Hn; lia|].
    apply lossless_slice in Ha. rewrite Forall_forall in IH. rewrite Forall_forall in Ha. apply Forall_forall. intros v Hv. eauto.
  - apply well_keyed_map. destruct depth as [|depth]; [destruct Ha as [_ Hn]; simpl in Hn; lia|].
    apply lossless_map in Ha as [Hs Ha]. split; [done|]. rewrite Forall_forall in IH. rewrite Forall_forall in Ha.
    apply Forall_forall. intros kv Hkv. eapply IH; [done|]. by destruct (Ha kv Hkv).
Qed.
