(* ===== verification/JsonIndent.v ===== *)
(** [json.MarshalIndent] with two blanks, and reading back what it writes. *)
From S2P Require Import Prelude GoStrings JsonString Json Any JsonRound DecodeSound.

Fixpoint indentation (level : nat) : string :=
  match level with O => "" | S level => "  " +:+ indentation level end.
Definition newline (level : nat) : string := String LF (indentation level).

(** Values as they are written, members in the order of the struct's fields. *)
Fixpoint indent (level : nat) (v : json) : string :=
  match v with
  | JNull => "null"
  | JBool true => "true"
  | JBool false => "false"
  | JNumber n => n
  | JString s => marshal_string s
  | JArray [] => "[]"
  | JArray es =>
      "[" +:+ newline (S level) +:+
      Join (List.map (indent (S level)) es) ("," +:+ newline (S level)) +:+
      newline level +:+ "]"
  | JObject [] => "{}"
  | JObject ms =>
      "{" +:+ newline (S level) +:+
      Join (List.map (λ kv, marshal_string kv.1 +:+ ": " +:+ indent (S level) kv.2) ms)
        ("," +:+ newline (S level)) +:+
      newline level +:+ "}"
  end.

(** Values with the numbers and strings an encoder can hold. *)
Fixpoint indentable (v : json) : bool :=
  match v with
  | JNull | JBool _ => true
  | JNumber n => bool_decide (parse_number n = Some (n, ""))
  | JString s => valid_utf8 s
  | JArray es => forallb indentable es
  | JObject ms => forallb (λ kv, valid_utf8 kv.1 && indentable kv.2) ms
  end.

(** ** White space *)

Definition blank_text (s : string) : bool := string_forallb json_space s.

Lemma blank_newline level : blank_text (newline level) = true.
Proof. unfold newline. simpl. by induction level. Qed.

Lemma skip_space_app w s : blank_text w = true → skip_space (w +:+ s) = skip_space s.
Proof.
  induction w as [|c w IH]; [done|]. unfold blank_text. rewrite app_cons_str. simpl.
  intros [-> ?]%andb_true_iff. by apply IH.
Qed.

Lemma parse_value_blank fuel depth w s :
  blank_text w = true → parse_value fuel depth (w +:+ s) = parse_value fuel depth s.
Proof. intros Hw. destruct fuel; [done|]. cbn [parse_value]. by rewrite skip_space_app. Qed.

Lemma delimits_newline level rest : delimits (newline level +:+ rest) = true.
Proof. done. Qed.

(** ** Reading back *)

Definition indent_reads (v : json) : Prop :=
  ∀ fuel depth level rest, indentable v = true → json_nesting v ≤ depth →
    2 * String.length (indent level v) ≤ fuel → delimits rest = true →
    parse_value fuel depth (indent level v +:+ rest) = Some (v, rest).

(** The text between the brackets, from a first element on. *)
Definition elements_text (level outer : nat) (es : list json) : string :=
  newline level +:+ Join (List.map (indent level) es) ("," +:+ newline level) +:+ newline outer.
Definition members_text (level outer : nat) (ms : list (string * json)) : string :=
  newline level +:+
  Join (List.map (λ kv, marshal_string kv.1 +:+ ": " +:+ indent level kv.2) ms)
    ("," +:+ newline level) +:+ newline outer.

Lemma elements_text_cons level outer e e' es :
  elements_text level outer (e :: e' :: es) =
    newline level +:+ indent level e +:+ "," +:+ elements_text level outer (e' :: es).
Proof.
  unfold elements_text. cbn [List.map]. rewrite Join_cons by done. by rewrite !app_assoc_str.
Qed.

Lemma members_text_cons level outer k v kv ms :
  members_text level outer ((k, v) :: kv :: ms) =
    newline level +:+ marshal_string k +:+ ": " +:+ indent level v +:+ "," +:+
    members_text level outer (kv :: ms).
Proof.
  unfold members_text. cbn [List.map fst snd]. rewrite Join_cons by done. by rewrite !app_assoc_str.
Qed.

Lemma indent_elements es fuel depth level outer rest :
  es ≠ [] → Forall indent_reads es → forallb indentable es = true →
  Forall (λ v, json_nesting v ≤ depth) es →
  2 * String.length (elements_text level outer es) ≤ fuel →
  parse_elements fuel depth (elements_text level outer es +:+ String "]" rest) = Some (es, rest).
Proof.
  intros Hne Hes. revert fuel Hne. induction Hes as [|e es He Hes IH]; [done|].
  intros fuel _ Hi Hd Hf. simpl in Hi. apply andb_true_iff in Hi as [Hie Hies].
  apply Forall_cons in Hd as [Hde Hdes]. destruct es as [|e' es].
  - unfold elements_text in *. cbn [List.map Join] in *. rewrite !length_app_str in Hf.
    cbn [newline String.length] in Hf. destruct fuel as [|fuel]; [lia|]. rewrite !app_assoc_str.
    erewrite parse_elements_step.
    2:{ rewrite parse_value_blank by apply blank_newline.
        apply He; [done|done|unfold newline in *; simpl in *; lia|apply delimits_newline]. }
    rewrite skip_space_app by apply blank_newline. reflexivity.
  - rewrite elements_text_cons in *. rewrite !length_app_str in Hf.
    unfold newline at 1 in Hf. cbn [String.length] in Hf. destruct fuel as [|fuel]; [lia|].
    rewrite !app_assoc_str. erewrite parse_elements_step.
    2:{ rewrite parse_value_blank by apply blank_newline. apply He; [done|done|simpl in *; lia|done]. }
    change ("," +:+ ?x) with (String "," x).
    change (skip_space (String "," ?x)) with (String "," x). cbv beta iota.
    change (char_is 44 ",") with true. cbv beta iota.
    rewrite IH by (done || simpl in *; lia). reflexivity.
Qed.

Lemma parse_members_blank fuel depth w s :
  blank_text w = true → parse_members fuel depth (w +:+ s) = parse_members fuel depth s.
Proof. intros Hw. destruct fuel; [done|]. cbn [parse_members]. by rewrite skip_space_app. Qed.

Lemma indent_members ms fuel depth level outer rest :
  ms ≠ [] → Forall (λ kv, indent_reads kv.2) ms →
  forallb (λ kv, valid_utf8 kv.1 && indentable kv.2) ms = true →
  Forall (λ kv, json_nesting kv.2 ≤ depth) ms →
  2 * String.length (members_text level outer ms) ≤ fuel →
  parse_members fuel depth (members_text level outer ms +:+ String "}" rest) = Some (ms, rest).
Proof.
  intros Hne Hms. revert fuel Hne. induction Hms as [|[k v] ms Hv Hms IH]; [done|].
  intros fuel _ Hi Hd Hf. simpl in Hi. rewrite !andb_true_iff in Hi. destruct Hi as [[Hk Hiv] Hims].
  apply Forall_cons in Hd as [Hdv Hdms]. simpl in Hv, Hdv.
  assert (∀ x, ": " +:+ x = ":" +:+ (" " +:+ x)) as Hcolon by done.
  destruct ms as [|kv ms].
  - unfold members_text in *. cbn [List.map Join fst snd] in *. rewrite !length_app_str in Hf.
    cbn [newline String.length] in Hf. destruct fuel as [|fuel]; [lia|]. rewrite !app_assoc_str.
    rewrite parse_members_blank, Hcolon by apply blank_newline.
    erewrite parse_members_step; [|done|].
    2:{ rewrite parse_value_blank by done.
        apply Hv; [done|done|unfold newline in *; simpl in *; lia|apply delimits_newline]. }
    rewrite skip_space_app by apply blank_newline. reflexivity.
  - rewrite members_text_cons in *. rewrite !length_app_str in Hf.
    unfold newline at 1 in Hf. cbn [String.length] in Hf. destruct fuel as [|fuel]; [lia|].
    rewrite !app_assoc_str. rewrite parse_members_blank, Hcolon by apply blank_newline.
    erewrite parse_members_step; [|done|].
    2:{ rewrite parse_value_blank by done. apply Hv; [done|done|simpl in *; lia|done]. }
    change ("," +:+ ?x) with (String "," x).
    change (skip_space (String "," ?x)) with (String "," x). cbv beta iota.
    change (char_is 44 ",") with true. cbv beta iota.
    rewrite IH by (done || simpl in *; lia). reflexivity.
Qed.

Lemma json_nesting_array l depth :
  json_nesting (JArray l) ≤ S depth → Forall (λ v, json_nesting v ≤ depth) l.
Proof.
  simpl. intros H. apply le_S_n, list_max_le in H. rewrite Forall_forall in H.
  apply Forall_forall. intros v Hv. by apply H, list_elem_of_In, in_map, list_elem_of_In.
Qed.

Lemma json_nesting_object ms depth :
  json_nesting (JObject ms) ≤ S depth → Forall (λ kv, json_nesting kv.2 ≤ depth) ms.
Proof.
  simpl. intros H. apply le_S_n, list_max_le in H. rewrite Forall_forall in H.
  apply Forall_forall. intros kv Hkv. apply H, list_elem_of_In.
  by apply (in_map (λ kv, json_nesting kv.2)), list_elem_of_In.
Qed.

(** A value starts with a byte that is no blank and closes nothing. *)
Lemma indent_first level v :
  indentable v = true →
  ∃ c s, indent level v = String c s ∧ json_space c = false ∧ char_is 93 c = false.
Proof.
  destruct v as [|[]|n|s|[|e l]|[|kv ms]]; intros H; try (by eexists _, _).
  simpl in H. apply bool_decide_eq_true in H.
  destruct (parse_number_first _ _ _ H) as (c & s' & -> & Hc). exists c, s'. split; [done|].
  assert (44 < code c < 58)%N as Hr.
  { destruct Hc as [Hc|Hc]; [|lia]. unfold is_digit, in_range in Hc.
    rewrite andb_true_iff, !N.leb_le in Hc. lia. }
  unfold json_space, char_is. simpl. by rewrite !(proj2 (N.eqb_neq _ _)) by lia.
Qed.

Lemma elements_text_first level outer e es rest :
  indentable e = true →
  ∃ c s, skip_space (elements_text level outer (e :: es) +:+ rest) = String c s ∧ char_is 93 c = false.
Proof.
  intros He. destruct (indent_first level e He) as (c & s & Hc & Hsp & Hb).
  unfold elements_text. rewrite !app_assoc_str, skip_space_app by apply blank_newline. cbn [List.map].
  destruct es as [|e' es]; [|cbn [List.map]; rewrite Join_cons, !app_assoc_str by done];
    cbn [List.map Join]; rewrite Hc; eexists c, _; (split; [by apply skip_space_id|done]).
Qed.

Lemma parse_indent v : indent_reads v.
Proof.
  induction v as [|b|n|s|l IH|ms IH] using json_nested_ind; intros fuel depth level rest Hi Hd Hf Hr.
  - destruct fuel; [simpl in Hf; lia|]. reflexivity.
  - destruct fuel; [destruct b; simpl in Hf; lia|]. by destruct b.
  - destruct (indent_first level _ Hi) as (c & s & Hc & _). rewrite Hc in Hf. simpl in Hf.
    destruct fuel; [lia|]. apply bool_decide_eq_true in Hi. by apply parse_value_number.
  - destruct fuel; [simpl in Hf; lia|]. by apply parse_value_string.
  - destruct depth as [|depth]; [simpl in Hd; lia|]. apply json_nesting_array in Hd.
    destruct fuel as [|fuel]; [destruct l; simpl in Hf; lia|]. destruct l as [|e l]; [reflexivity|].
    assert (indent level (JArray (e :: l)) = String "[" (elements_text (S level) level (e :: l) +:+ "]")) as Ht.
    { unfold elements_text. by rewrite !app_assoc_str. }
    rewrite Ht in *. rewrite app_cons_str, app_assoc_str. change ("]" +:+ rest) with (String "]" rest).
    cbn [parse_value]. rewrite skip_space_id by done.
    change (char_is 123 "[") with false. change (char_is 91 "[") with true. cbv beta iota.
    assert (indentable e = true) as He by by (simpl in Hi; apply andb_true_iff in Hi as [? _]).
    destruct (elements_text_first (S level) level e l (String "]" rest) He) as (c & s & -> & Hc).
    rewrite Hc. rewrite indent_elements; [reflexivity|done..|].
    cbn [String.length] in Hf. rewrite length_app_str in Hf. change (String.length "]") with 1 in Hf. lia.
  - destruct depth as [|depth]; [simpl in Hd; lia|]. apply json_nesting_object in Hd.
    destruct fuel as [|fuel]; [destruct ms; simpl in Hf; lia|]. destruct ms as [|[k v] ms]; [reflexivity|].
    assert (indent level (JObject ((k, v) :: ms)) =
      String "{" (members_text (S level) level ((k, v) :: ms) +:+ "}")) as Ht.
    { unfold members_text. by rewrite !app_assoc_str. }
    rewrite Ht in *. rewrite app_cons_str, app_assoc_str. change ("}" +:+ rest) with (String "}" rest).
    cbn [parse_value]. rewrite skip_space_id by done.
    change (char_is 123 "{") with true. cbv beta iota.
    assert (∃ t, skip_space (members_text (S level) level ((k, v) :: ms) +:+ String "}" rest) = String QUOTE t)
      as [t ->].
    { unfold members_text. rewrite !app_assoc_str, skip_space_app by apply blank_newline.
      cbn [List.map fst snd]. unfold marshal_string at 1.
      destruct ms as [|kv ms]; [|cbn [List.map]; rewrite Join_cons by done]; by eexists. }
    change (char_is 125 QUOTE) with false. cbv beta iota.
    rewrite indent_members; [reflexivity|done..|].
    cbn [String.length] in Hf. rewrite length_app_str in Hf. change (String.length "}") with 1 in Hf. lia.
Qed.

(** A whole document, with white space after it. *)
Lemma parse_indented v w :
  indentable v = true → json_nesting v ≤ max_depth → blank_text w = true → delimits w = true →
  parse (indent 0 v +:+ w) = Some v.
Proof.
  intros Hi Hn Hw Hd. unfold parse, parse_fuel. rewrite parse_indent; [|done|done| |done].
  - simpl. rewrite <- (app_nil_r_str w), skip_space_app by done. done.
  - rewrite length_app_str. lia.
Qed.
