(* ===== verification/RouterSpec.v ===== *)
(** The document the OpenAPI router is built from: [RouterSpecJSON],
    [normalizeRouterSchemas] and [commonAnyOfType] of
    [openai/internal/profile/profile.go].

    The normalization rewrites the decoded document in place; a decoded document
    is a tree, so that it is a function here.  [SpecJSON] (decompressing the
    embedded document) and the probe of the OpenAPI library are arguments. *)
From S2P Require Import Prelude GoStrings JsonString Json Float64 Any Errors.

(** ** The normalization *)

(** The loop over [required]; [seen] is the set of names kept so far. *)
Fixpoint unique_required (seen : gset string) (required : list any) : list any :=
  match required with
  | [] => []
  | AString name :: required =>
      if bool_decide (name ∈ seen) then unique_required seen required
      else AString name :: unique_required ({[name]} ∪ seen) required
  | item :: required => item :: unique_required seen required
  end.

Definition normalize_required (typed : list (string * any)) : list (string * any) :=
  match map_get "required" typed with
  | Some (ASlice required) => map_set "required" (ASlice (unique_required ∅ required)) typed
  | _ => typed
  end.

(** One round of the loop over the two bounds. *)
Definition normalize_bound (bound exclusive : string) (typed : list (string * any))
    : list (string * any) :=
  match map_get exclusive typed with
  | Some (ABool false) => map_delete exclusive typed
  | Some (ABool true) =>
      match map_get bound typed with
      | Some (AFloat value) => map_delete bound (map_set exclusive (AFloat value) typed)
      | _ => typed
      end
  | _ => typed
  end.

Definition normalize_null (typed : list (string * any)) : list (string * any) :=
  match map_get "type" typed with
  | Some (AString schemaType) =>
      if bool_decide (schemaType = "null") then
        let typed := map_set "nullable" (ABool true) (map_delete "type" typed) in
        match map_get "enum" typed with
        | Some _ => typed
        | None => map_set "enum" (ASlice [ANil]) typed
        end
      else typed
  | _ => typed
  end.

(** The loop of [commonAnyOfType]. *)
Fixpoint common_type (common : string) (branches : list any) : option string :=
  match branches with
  | [] => Some common
  | AMap object :: branches =>
      match map_get "type" object with
      | Some (AString branchType) =>
          if bool_decide (branchType = "null") then None
          else if string_empty common then common_type branchType branches
          else if bool_decide (common = branchType) then common_type common branches
          else None
      | _ => None
      end
  | _ => None
  end.

Definition commonAnyOfType (value : option any) : option string :=
  match value with
  | Some (ASlice ((_ :: _) as branches)) => common_type "" branches
  | _ => None
  end.

Definition normalize_common (typed : list (string * any)) : list (string * any) :=
  match map_get "type" typed with
  | Some _ => typed
  | None =>
      match commonAnyOfType (map_get "anyOf" typed) with
      | Some commonType => map_set "type" (AString commonType) typed
      | None => typed
      end
  end.

(** The body of the map case, but for the recursion. *)
Definition normalize_node (native : bool) (typed : list (string * any)) : list (string * any) :=
  let typed := normalize_required typed in
  let typed := if native
    then normalize_bound "maximum" "exclusiveMaximum"
           (normalize_bound "minimum" "exclusiveMinimum" typed)
    else typed in
  let typed := if native then typed else normalize_null typed in
  normalize_common typed.

Fixpoint normalize (fuel : nat) (native : bool) (v : any) : any :=
  match fuel with
  | O => v
  | S fuel =>
      match v with
      | AMap typed =>
          AMap (List.map (λ kv, (kv.1, normalize fuel native kv.2)) (normalize_node native typed))
      | ASlice typed => ASlice (List.map (normalize fuel native) typed)
      | _ => v
      end
  end.

(** As deep as the document; [normalize_fuel] shows that more changes nothing. *)
Definition normalizeRouterSchemas (native : bool) (value : any) : any :=
  normalize (nesting value) native value.

Definition RouterSpecJSON (SpecJSON : result goerror string) (nativeOpenAPI31Supported : bool)
    : result goerror string :=
  raw ← SpecJSON;
  match parse raw ≫= any_of with
  | None => Err (Opaque "decode frozen OpenAPI document" [])
  | Some value => Ok (marshal_any (normalizeRouterSchemas nativeOpenAPI31Supported value))
  end.

(** ** The recursion is complete *)

Lemma nesting_child_slice v l : v ∈ l → nesting v < nesting (ASlice l).
Proof.
  intros Hin. simpl. apply le_n_S. revert Hin. induction l as [|w l IH]; [by intros ?%elem_of_nil|].
  simpl. intros [->|Hin]%elem_of_cons; [lia|]. specialize (IH Hin). lia.
Qed.

Lemma nesting_child_map kv m : kv ∈ m → nesting kv.2 < nesting (AMap m).
Proof.
  intros Hin. simpl. apply le_n_S. revert Hin. induction m as [|w m IH]; [by intros ?%elem_of_nil|].
  simpl. intros [->|Hin]%elem_of_cons; [lia|]. specialize (IH Hin). lia.
Qed.

Lemma unique_required_In seen required v : v ∈ unique_required seen required → v ∈ required.
Proof.
  revert seen. induction required as [|w required IH]; intros seen; [done|].
  simpl. rewrite elem_of_cons. repeat case_match; rewrite ?elem_of_cons; naive_solver.
Qed.

(** What a rewritten node may hold: the values it had, some of the required
    names, and constants. *)
Definition from_node (typed : list (string * any)) (v : any) : Prop :=
  v = ASlice [ANil] ∨ nesting v = 0 ∨ v ∈ typed.*2 ∨
  ∃ required, ASlice required ∈ typed.*2 ∧ v = ASlice (unique_required ∅ required).

Definition rewrites (f : list (string * any) → list (string * any)) : Prop :=
  ∀ m kv, kv ∈ f m → kv ∈ m ∨ kv.2 = ASlice [ANil] ∨ nesting kv.2 = 0.

Lemma normalize_bound_rewrites bound exclusive : rewrites (normalize_bound bound exclusive).
Proof.
  intros m kv. unfold normalize_bound. repeat case_match; try (by left).
  - by intros [[->|?]%map_set_In _]%map_delete_In; [right; right|left].
  - intros [? _]%map_delete_In. by left.
Qed.

Lemma normalize_null_rewrites : rewrites normalize_null.
Proof.
  intros m kv. unfold normalize_null. repeat case_match; try (by left).
  - intros [->|[? _]%map_delete_In]%map_set_In; [by right; right|by left].
  - intros [->|[->|[? _]%map_delete_In]%map_set_In]%map_set_In;
      [by right; left|by right; right|by left].
Qed.

Lemma normalize_common_rewrites : rewrites normalize_common.
Proof.
  intros m kv. unfold normalize_common. repeat case_match; try (by left).
  intros [->|?]%map_set_In; [by right; right|by left].
Qed.

Lemma normalize_node_children native m kv : kv ∈ normalize_node native m → from_node m kv.2.
Proof.
  assert (∀ kv, kv ∈ normalize_required m → from_node m kv.2) as Hreq.
  { clear. intros kv. unfold normalize_required, from_node.
    assert (kv ∈ m → kv.2 ∈ m.*2) as Hin by (intros ?; apply list_elem_of_fmap; eauto).
    destruct (map_get "required" m) as [[| | | |required|]|] eqn:Hg; auto.
    intros [->|?]%map_set_In; [|auto]. do 3 right. exists required. split; [|done].
    apply list_elem_of_fmap. exists ("required", ASlice required). split; [done|].
    by apply map_get_In. }
  unfold normalize_node. intros H.
  assert (∀ f m', rewrites f → (∀ kv, kv ∈ m' → from_node m kv.2) →
    ∀ kv, kv ∈ f m' → from_node m kv.2) as Hstep.
  { intros f m' Hf Hm' kv' Hin. destruct (Hf _ _ Hin) as [?|[?|?]]; [auto|by left|by right; left]. }
  revert kv H. apply Hstep; [apply normalize_common_rewrites|]. destruct native.
  - apply Hstep; [apply normalize_bound_rewrites|]. by apply Hstep; [apply normalize_bound_rewrites|].
  - by apply Hstep; [apply normalize_null_rewrites|].
Qed.

Lemma from_node_nesting m v :
  from_node m v → v = ASlice [ANil] ∨ S (nesting v) ≤ nesting (AMap m).
Proof.
  intros [->|[H|[Hin|(required & Hin & ->)]]]; [by left|right..].
  - simpl. lia.
  - apply list_elem_of_fmap in Hin as (kv & -> & Hin). by apply nesting_child_map in Hin.
  - apply list_elem_of_fmap in Hin as (kv & Heq & Hin). apply nesting_child_map in Hin.
    rewrite <- Heq in Hin. eapply Nat.le_trans; [|exact Hin]. apply le_n_S. simpl. apply le_n_S.
    apply list_max_le, Forall_forall. intros x. rewrite list_elem_of_In, in_map_iff.
    intros (v & <- & Hv%list_elem_of_In%unique_required_In).
    apply nesting_child_slice in Hv. simpl in Hv. lia.
Qed.

(** Past the nesting of the document, fuel changes nothing. *)
Lemma normalize_fuel native fuel v :
  nesting v ≤ fuel → normalize fuel native v = normalizeRouterSchemas native v.
Proof.
  unfold normalizeRouterSchemas. remember (nesting v) as n eqn:Hn. revert fuel v Hn.
  induction n as [n IH] using lt_wf_ind. intros fuel v -> Hf.
  destruct v as [| | | |l|m]; [by destruct fuel..| |].
  - destruct fuel as [|fuel]; [simpl in Hf; lia|]. cbn [nesting normalize]. f_equal.
    apply map_ext_in. intros v Hv%list_elem_of_In%nesting_child_slice.
    simpl in Hf, Hv. rewrite (IH (nesting v)) by (simpl; lia || done).
    symmetry. apply (IH (nesting v)); [simpl; lia|done|lia].
  - destruct fuel as [|fuel]; [simpl in Hf; lia|]. cbn [nesting normalize]. f_equal.
    apply map_ext_in. intros kv Hkv%list_elem_of_In%normalize_node_children%from_node_nesting.
    f_equal. destruct Hkv as [->|Hkv].
    + destruct fuel as [|[|fuel]], (list_max _) as [|[|k]]; reflexivity.
    + simpl in Hf, Hkv. rewrite (IH (nesting kv.2)) by (simpl; lia || done).
      symmetry. apply (IH (nesting kv.2)); [simpl; lia|done|lia].
Qed.

(** The recursion of the source. *)
Lemma normalize_map native m :
  normalizeRouterSchemas native (AMap m) =
    AMap (List.map (λ kv, (kv.1, normalizeRouterSchemas native kv.2)) (normalize_node native m)).
Proof.
  unfold normalizeRouterSchemas at 1. cbn [nesting normalize]. f_equal. apply map_ext_in.
  intros kv Hkv%list_elem_of_In%normalize_node_children%from_node_nesting. f_equal.
  destruct Hkv as [->|Hkv].
  - by destruct (list_max _) as [|[|k]].
  - apply normalize_fuel. simpl in Hkv. lia.
Qed.

Lemma normalize_slice native l :
  normalizeRouterSchemas native (ASlice l) = ASlice (List.map (normalizeRouterSchemas native) l).
Proof.
  unfold normalizeRouterSchemas at 1. cbn [nesting normalize]. f_equal. apply map_ext_in.
  intros v Hv%list_elem_of_In%nesting_child_slice. apply normalize_fuel. simpl in Hv. lia.
Qed.
