(* ===== verification/RouterMeaning.v ===== *)
(** What the router normalization preserves.  JSON Schema validation of the
    keywords the document uses is written from their specification; the schemas
    it covers are recognised by [router_schema], and on them the normalized
    schema accepts the same values ("a semantically equivalent document", as
    [RouterSpecJSON] promises). *)
From stdpp Require Import sorting.
From S2P Require Import Prelude GoStrings JsonString Json Float64 Any Errors RouterSpec.

(** ** Values *)

Definition signed (f : float64) : Z * Z :=
  let '(n, d) := ratio (f_mant f) (f_exp f) in (if f_neg f then (- n)%Z else n, d).
Definition float_le (f g : float64) : bool :=
  ((signed f).1 * (signed g).2 <=? (signed g).1 * (signed f).2)%Z.
Definition float_lt (f g : float64) : bool :=
  ((signed f).1 * (signed g).2 <? (signed g).1 * (signed f).2)%Z.
Definition is_integer (f : float64) : bool := ((signed f).1 mod (signed f).2 =? 0)%Z.

(** Equality of JSON values. *)
Fixpoint same_value (v w : any) : bool :=
  match v, w with
  | ANil, ANil => true
  | ABool b, ABool c => Bool.eqb b c
  | AFloat f, AFloat g => float_le f g && float_le g f
  | AString s, AString t => bool_decide (s = t)
  | ASlice l, ASlice k =>
      (fix go l k := match l, k with
        | [], [] => true
        | v :: l, w :: k => same_value v w && go l k
        | _, _ => false
        end) l k
  | AMap l, AMap k =>
      (fix go l k := match l, k with
        | [], [] => true
        | (a, v) :: l, (b, w) :: k => bool_decide (a = b) && same_value v w && go l k
        | _, _ => false
        end) l k
  | _, _ => false
  end.

Definition has_type (t : string) (x : any) : bool :=
  match x with
  | ANil => bool_decide (t = "null")
  | ABool _ => bool_decide (t = "boolean")
  | AFloat f => bool_decide (t = "number") || bool_decide (t = "integer") && is_integer f
  | AString _ => bool_decide (t = "string")
  | ASlice _ => bool_decide (t = "array")
  | AMap _ => bool_decide (t = "object")
  end.

(** ** Validation *)

Definition type_ok (v x : any) : bool :=
  match v with
  | AString t => has_type t x
  | ASlice ts => existsb (λ t, match t with AString t => has_type t x | _ => false end) ts
  | _ => false
  end.

Definition enum_ok (v x : any) : bool :=
  match v with ASlice vs => existsb (same_value x) vs | _ => false end.

Definition required_ok (v x : any) : bool :=
  match v, x with
  | ASlice names, AMap object =>
      forallb (λ n, match n with AString n => bool_decide (is_Some (map_get n object)) | _ => true end)
        names
  | _, _ => true
  end.

(** A bound with its exclusive variant, a flag (OpenAPI 3.0) or a number
    (OpenAPI 3.1); [below b x] and [strictly b x] say that [b] bounds [x]. *)
Definition bound_ok (below strictly : float64 → float64 → bool) (bound exclusive : option any)
    (x : any) : bool :=
  match x with
  | AFloat f =>
      match bound with
      | Some (AFloat b) =>
          match exclusive with Some (ABool true) => strictly b f | _ => below b f end
      | _ => true
      end &&
      match exclusive with Some (AFloat e) => strictly e f | _ => true end
  | _ => true
  end.

Definition bounds_ok (m : list (string * any)) (x : any) : bool :=
  bound_ok float_le float_lt (map_get "minimum" m) (map_get "exclusiveMinimum" m) x &&
  bound_ok (λ b f, float_le f b) (λ b f, float_lt f b)
    (map_get "maximum" m) (map_get "exclusiveMaximum" m) x.

Definition bound_keys : list string :=
  ["minimum"; "exclusiveMinimum"; "maximum"; "exclusiveMaximum"].

(** Keywords that say nothing about validity in OpenAPI 3.1; what [nullable]
    means to a reader of OpenAPI 3.0 is stated apart, by [nullable_at]. *)
Definition annotations : list string :=
  ["title"; "description"; "default"; "example"; "examples"; "deprecated"; "readOnly";
   "writeOnly"; "nullable"; "externalDocs"; "xml"; "discriminator"].
Definition annotation (k : string) : bool :=
  existsb (λ a, bool_decide (a = k)) annotations || HasPrefix k "x-".

Inductive keyword :=
| KBound | KAnnotation | KType | KEnum | KRequired
| KAny | KAll | KOne | KNot | KItems | KAdditional | KProperties
| KOther.

Definition keyword_of (k : string) : keyword :=
  if existsb (λ b, bool_decide (b = k)) bound_keys then KBound
  else if annotation k then KAnnotation
  else if bool_decide (k = "type") then KType
  else if bool_decide (k = "enum") then KEnum
  else if bool_decide (k = "required") then KRequired
  else if bool_decide (k = "anyOf") then KAny
  else if bool_decide (k = "allOf") then KAll
  else if bool_decide (k = "oneOf") then KOne
  else if bool_decide (k = "not") then KNot
  else if bool_decide (k = "items") then KItems
  else if bool_decide (k = "additionalProperties") then KAdditional
  else if bool_decide (k = "properties") then KProperties
  else KOther.

(** The names [additionalProperties] does not apply to. *)
Definition property_names (m : list (string * any)) : list string :=
  match map_get "properties" m with Some (AMap ps) => ps.*1 | _ => [] end.

Section validation.
(** The keywords the normalization has no business with, whatever they mean:
    [$ref], [format], [pattern], lengths and so on. *)
Variable other : string → any → any → bool.

Fixpoint valid (schema x : any) {struct schema} : bool :=
  match schema with
  | ABool b => b
  | AMap m =>
      let names := property_names m in
      bounds_ok m x &&
      forallb (λ kv, let '(k, v) := kv in
        match keyword_of k with
        | KBound | KAnnotation => true
        | KType => type_ok v x
        | KEnum => enum_ok v x
        | KRequired => required_ok v x
        | KAny => match v with ASlice l => existsb (λ s, valid s x) l | _ => false end
        | KAll => match v with ASlice l => forallb (λ s, valid s x) l | _ => false end
        | KOne =>
            match v with
            | ASlice l => Nat.eqb 1 (list_sum (List.map (λ s, if valid s x then 1 else 0) l))
            | _ => false
            end
        | KNot => negb (valid v x)
        | KItems => match x with ASlice xs => forallb (valid v) xs | _ => true end
        | KAdditional =>
            match x with
            | AMap object =>
                forallb (λ nx, bool_decide (nx.1 ∈ names) || valid v nx.2) object
            | _ => true
            end
        | KProperties =>
            match x, v with
            | AMap object, AMap ps =>
                forallb (λ ns, let '(n, s) := ns in
                  match map_get n object with Some y => valid s y | None => true end) ps
            | _, _ => true
            end
        | KOther => other k v x
        end) m
  | _ => false
  end.
End validation.

(** ** The schemas covered *)

(** A value without maps is left alone. *)
Fixpoint flat (v : any) : bool :=
  match v with
  | ASlice l => forallb flat l
  | AMap _ => false
  | _ => true
  end.

Definition is_map (v : any) : bool := match v with AMap _ => true | _ => false end.
Definition is_nil (v : any) : bool := match v with ANil => true | _ => false end.

(** Where the older dialect is the target, an enumeration next to the null type
    has to be of nulls. *)
Definition null_enum (m : list (string * any)) : bool :=
  match map_get "type" m, map_get "enum" m with
  | Some (AString t), Some (ASlice vs) => negb (bool_decide (t = "null")) || forallb is_nil vs
  | Some (AString t), Some _ => negb (bool_decide (t = "null"))
  | _, _ => true
  end.

(** Schemas stand where schemas belong, and data holds no maps. *)
Fixpoint router_schema (native : bool) (s : any) : bool :=
  match s with
  | AMap m =>
      (native || null_enum m) &&
      forallb (λ kv, let '(k, v) := kv in
        match keyword_of k with
        | KAnnotation => true
        | KAny | KAll | KOne =>
            match v with ASlice l => forallb (router_schema native) l | _ => flat v end
        | KNot | KItems | KAdditional => router_schema native v
        | KProperties =>
            match v with
            | AMap ps => forallb (λ ns, let '(_, p) := ns in is_map p && router_schema native p) ps
            | _ => flat v
            end
        | _ => flat v
        end) m
  | _ => flat s
  end.

(** ** Lemmas *)

(** One entry of a schema. *)
Definition check (other : string → any → any → bool) (names : list string) (x : any)
    (kv : string * any) : bool :=
  let '(k, v) := kv in
  match keyword_of k with
  | KBound | KAnnotation => true
  | KType => type_ok v x
  | KEnum => enum_ok v x
  | KRequired => required_ok v x
  | KAny => match v with ASlice l => existsb (λ s, valid other s x) l | _ => false end
  | KAll => match v with ASlice l => forallb (λ s, valid other s x) l | _ => false end
  | KOne =>
      match v with
      | ASlice l => Nat.eqb 1 (list_sum (List.map (λ s, if valid other s x then 1 else 0) l))
      | _ => false
      end
  | KNot => negb (valid other v x)
  | KItems => match x with ASlice xs => forallb (valid other v) xs | _ => true end
  | KAdditional =>
      match x with
      | AMap object => forallb (λ nx, bool_decide (nx.1 ∈ names) || valid other v nx.2) object
      | _ => true
      end
  | KProperties =>
      match x, v with
      | AMap object, AMap ps =>
          forallb (λ ns, let '(n, s) := ns in
            match map_get n object with Some y => valid other s y | None => true end) ps
      | _, _ => true
      end
  | KOther => other k v x
  end.

Lemma valid_map other m x :
  valid other (AMap m) x = bounds_ok m x && forallb (check other (property_names m) x) m.
Proof. reflexivity. Qed.

Definition entry_schema (native : bool) (kv : string * any) : bool :=
  let '(k, v) := kv in
  match keyword_of k with
  | KAnnotation => true
  | KAny | KAll | KOne =>
      match v with ASlice l => forallb (router_schema native) l | _ => flat v end
  | KNot | KItems | KAdditional => router_schema native v
  | KProperties =>
      match v with
      | AMap ps => forallb (λ ns, let '(_, p) := ns in is_map p && router_schema native p) ps
      | _ => flat v
      end
  | _ => flat v
  end.

Lemma router_schema_map native m :
  router_schema native (AMap m) = (native || null_enum m) && forallb (entry_schema native) m.
Proof. reflexivity. Qed.

Lemma normalize_flat native v : flat v = true → normalizeRouterSchemas native v = v.
Proof.
  induction v as [| | | |l IH|m _] using any_nested_ind; try done. intros Hf.
  rewrite normalize_slice. f_equal. rewrite <- (List.map_id l) at 2. apply map_ext_in.
  intros v Hv. simpl in Hf. rewrite forallb_forall in Hf. rewrite Forall_forall in IH.
  apply IH; [by apply list_elem_of_In|by apply Hf].
Qed.

(** *** The steps on one node *)

Lemma unique_required_ok (q : string → bool) (p : any → bool) seen required :
  (∀ n, p (AString n) = q n) → (∀ n, n ∈ seen → q n = true) →
  forallb p (unique_required seen required) = forallb p required.
Proof.
  intros Hp. revert seen. induction required as [|v required IH]; intros seen Hseen; [done|].
  destruct v as [| | |n| |]; simpl; try by rewrite IH.
  case_bool_decide as Hn; simpl; rewrite Hp.
  - by rewrite (Hseen n Hn), IH.
  - destruct (q n) eqn:Hq; [|done]. apply IH. intros n'. set_solver.
Qed.

Lemma required_ok_unique required x :
  required_ok (ASlice (unique_required ∅ required)) x = required_ok (ASlice required) x.
Proof.
  destruct x as [| | | | |object]; try done. simpl.
  by apply (unique_required_ok (λ n, bool_decide (is_Some (map_get n object)))).
Qed.

(** A rewriting that leaves validity alone. *)
Definition preserves (f : list (string * any) → list (string * any)) (m : list (string * any)) : Prop :=
  sorted_map (f m) ∧ ∀ other x, valid other (AMap (f m)) x = valid other (AMap m) x.

Lemma property_names_ext m m' :
  map_get "properties" m' = map_get "properties" m → property_names m' = property_names m.
Proof. intros H. unfold property_names. by rewrite H. Qed.

Lemma bounds_ok_ext m m' x :
  (∀ k, k ∈ bound_keys → map_get k m' = map_get k m) → bounds_ok m' x = bounds_ok m x.
Proof.
  intros H. unfold bounds_ok. rewrite !H; [done|..]; unfold bound_keys; set_solver.
Qed.

(** Setting a key that is no bound and not [properties]. *)
Lemma valid_set other k v m x :
  sorted_map m → k ∉ "properties" :: bound_keys →
  valid other (AMap (map_set k v m)) x =
    check other (property_names m) x (k, v) &&
    (bounds_ok m x && forallb (check other (property_names m) x) (map_delete k m)).
Proof.
  intros Hm [Hp Hb]%not_elem_of_cons. rewrite valid_map, (property_names_ext m), (bounds_ok_ext m).
  - rewrite forallb_set by done. by rewrite !andb_assoc, (andb_comm (bounds_ok m x)).
  - intros k' Hk'. rewrite map_get_set, bool_decide_false; [done|]. by intros ->.
  - by rewrite map_get_set, bool_decide_false.
Qed.

Lemma valid_get other k m x :
  sorted_map m →
  valid other (AMap m) x =
    match map_get k m with Some v => check other (property_names m) x (k, v) | None => true end &&
    (bounds_ok m x && forallb (check other (property_names m) x) (map_delete k m)).
Proof.
  intros Hm. rewrite valid_map, (forallb_get _ k) by done.
  by rewrite !andb_assoc, (andb_comm (bounds_ok m x)).
Qed.

Lemma normalize_required_preserves m : sorted_map m → preserves normalize_required m.
Proof.
  intros Hm. unfold preserves, normalize_required.
  destruct (map_get "required" m) as [[| | | |required|]|] eqn:Hg; try done.
  split; [by apply map_set_sorted|]. intros other x.
  rewrite valid_set, (valid_get other "required" m), Hg; [|done..|].
  - f_equal. apply required_ok_unique.
  - unfold bound_keys. set_solver.
Qed.

(** Rewriting bounds only. *)
Lemma valid_rebound other m m' x :
  sorted_map m → sorted_map m' →
  (∀ kv, kv.1 ∉ bound_keys → kv ∈ m' ↔ kv ∈ m) → bounds_ok m' x = bounds_ok m x →
  valid other (AMap m') x = valid other (AMap m) x.
Proof.
  intros Hm%sorted_NoDup Hm'%sorted_NoDup Hin Hb. rewrite !valid_map, Hb.
  rewrite (property_names_ext m).
  2:{ apply option_eq. intros v. rewrite !map_get_NoDup by done. apply Hin.
      unfold bound_keys. set_solver. }
  f_equal. apply eq_true_iff_eq. rewrite !forallb_forall. setoid_rewrite <- list_elem_of_In.
  assert (∀ kv, kv.1 ∈ bound_keys → check other (property_names m) x kv = true) as Hbound.
  { unfold bound_keys. intros [k v] Hk. simpl in Hk.
    repeat (apply elem_of_cons in Hk as [->|Hk]; [reflexivity|]). by apply elem_of_nil in Hk. }
  split; intros H kv Hkv; (destruct (decide (kv.1 ∈ bound_keys)); [by apply Hbound|]);
    apply H; by apply Hin.
Qed.

(** The four keys of the two rounds are distinct. *)
Definition rounds : list (string * string) :=
  [("minimum", "exclusiveMinimum"); ("maximum", "exclusiveMaximum")].

Lemma normalize_bound_In bound exclusive m kv :
  (bound, exclusive) ∈ rounds → kv.1 ∉ bound_keys →
  kv ∈ normalize_bound bound exclusive m ↔ kv ∈ m.
Proof.
  intros Hr Hk.
  assert (kv.1 ≠ bound ∧ kv.1 ≠ exclusive) as [H1 H2].
  { unfold rounds in Hr. unfold bound_keys in Hk. set_solver. }
  unfold normalize_bound. repeat case_match; rewrite ?map_delete_In, ?map_set_In_ne by done; tauto.
Qed.

Lemma normalize_bound_sorted bound exclusive m :
  sorted_map m → sorted_map (normalize_bound bound exclusive m).
Proof.
  intros Hm. unfold normalize_bound.
  repeat case_match; auto using map_delete_sorted, map_set_sorted.
Qed.

(** What a round does to its own two keys, and that it keeps the others. *)
Definition new_exclusive (exclusive bound : option any) : option any :=
  match exclusive, bound with
  | Some (ABool false), _ => None
  | Some (ABool true), Some (AFloat value) => Some (AFloat value)
  | e, _ => e
  end.
Definition new_bound (exclusive bound : option any) : option any :=
  match exclusive, bound with Some (ABool true), Some (AFloat _) => None | _, b => b end.

Lemma normalize_bound_get bound exclusive m k :
  bound ≠ exclusive →
  map_get k (normalize_bound bound exclusive m) =
    if bool_decide (k = exclusive) then new_exclusive (map_get exclusive m) (map_get bound m)
    else if bool_decide (k = bound) then new_bound (map_get exclusive m) (map_get bound m)
    else map_get k m.
Proof.
  intros Hne. unfold normalize_bound, new_exclusive, new_bound.
  destruct (bool_decide_reflect (k = exclusive)) as [->|He];
    [|destruct (bool_decide_reflect (k = bound)) as [->|Hb]];
    repeat (case_match; simplify_eq); rewrite ?map_get_delete, ?map_get_set;
    rewrite ?(bool_decide_true (exclusive = exclusive)), ?(bool_decide_true (bound = bound)) by done;
    rewrite ?bool_decide_false by congruence; congruence.
Qed.

Lemma bound_ok_rewrite below strictly bound exclusive x :
  bound_ok below strictly (new_bound exclusive bound) (new_exclusive exclusive bound) x
  = bound_ok below strictly bound exclusive x.
Proof.
  unfold bound_ok. destruct x; try done.
  destruct exclusive as [[|[]| | | |]|], bound as [[| | | | |]|]; simpl; rewrite ?andb_true_r; done.
Qed.

Lemma normalize_bound_preserves bound exclusive m :
  (bound, exclusive) ∈ rounds → sorted_map m → preserves (normalize_bound bound exclusive) m.
Proof.
  intros Hr Hm. split; [by apply normalize_bound_sorted|]. intros other x.
  apply valid_rebound; [done|by apply normalize_bound_sorted| |].
  - intros kv Hk. by apply normalize_bound_In.
  - unfold bounds_ok. unfold rounds in Hr. rewrite !normalize_bound_get by set_solver.
    rewrite !elem_of_cons, elem_of_nil in Hr. destruct Hr as [[= -> ->]|[[= -> ->]|[]]]; simpl;
      by rewrite bound_ok_rewrite.
Qed.

(** Splitting off one key that is no bound and not [properties]. *)
Lemma valid_delete other k m x :
  sorted_map m → k ∉ "properties" :: bound_keys →
  valid other (AMap m) x =
    match map_get k m with Some v => check other (property_names m) x (k, v) | None => true end &&
    valid other (AMap (map_delete k m)) x.
Proof.
  intros Hm Hk. rewrite (valid_get other k) by done. f_equal. rewrite valid_map.
  apply not_elem_of_cons in Hk as [Hp Hb].
  rewrite (property_names_ext m (map_delete k m)), (bounds_ok_ext m (map_delete k m)); [done|..].
  - intros k' Hk'. rewrite map_get_delete, bool_decide_false; [done|]. by intros ->.
  - by rewrite map_get_delete, bool_decide_false.
Qed.

Lemma valid_add other k v m x :
  sorted_map m → k ∉ "properties" :: bound_keys → map_get k m = None →
  valid other (AMap (map_set k v m)) x =
    check other (property_names m) x (k, v) && valid other (AMap m) x.
Proof.
  intros Hm Hk Hn. rewrite valid_set, valid_map by done. f_equal.
  apply map_get_None in Hn. by rewrite map_delete_id.
Qed.

Lemma valid_annotation other k v m x :
  sorted_map m → k ∉ "properties" :: bound_keys → keyword_of k = KAnnotation →
  valid other (AMap (map_set k v m)) x = valid other (AMap m) x.
Proof.
  intros Hm Hk Ha. rewrite valid_set, (valid_get other k m) by done. simpl. rewrite Ha.
  by destruct (map_get k m).
Qed.

Lemma enum_null x : enum_ok (ASlice [ANil]) x = has_type "null" x.
Proof. by destruct x. Qed.

Lemma enum_nulls vs x : forallb is_nil vs = true → enum_ok (ASlice vs) x = true → has_type "null" x = true.
Proof.
  rewrite forallb_forall. simpl. intros Hn (v & Hv & Hs)%existsb_exists. specialize (Hn v Hv).
  by destruct v, x.
Qed.

Lemma normalize_null_preserves m : sorted_map m → null_enum m = true → preserves normalize_null m.
Proof.
  intros Hm He. unfold preserves, normalize_null.
  destruct (map_get "type" m) as [[| | |t| |]|] eqn:Ht; try done.
  destruct (bool_decide_reflect (t = "null")) as [->|]; [|done].
  unfold null_enum in He. rewrite Ht in He.
  set (md := map_delete "type" m). set (m1 := map_set "nullable" (ABool true) md).
  assert (sorted_map md) as Hmd by by apply map_delete_sorted.
  assert (sorted_map m1) as Hm1 by by apply map_set_sorted.
  assert (map_get "enum" m1 = map_get "enum" m) as Hge.
  { unfold m1, md. by rewrite map_get_set, map_get_delete. }
  assert (∀ other x, valid other (AMap m1) x = valid other (AMap md) x) as H1.
  { intros other x. by apply valid_annotation; [|unfold bound_keys; set_solver|]. }
  assert (∀ other x, valid other (AMap m) x = has_type "null" x && valid other (AMap md) x) as H0.
  { intros other x. rewrite (valid_delete other "type") by (done || unfold bound_keys; set_solver).
    by rewrite Ht. }
  rewrite Hge. destruct (map_get "enum" m) as [e|] eqn:Hem.
  - split; [done|]. intros other x. rewrite H1, H0.
    destruct (valid other (AMap md) x) eqn:Hv; [|by rewrite andb_false_r].
    rewrite (valid_delete other "enum") in Hv by (done || unfold bound_keys; set_solver).
    unfold md in Hv. rewrite map_get_delete in Hv. simpl in Hv. rewrite Hem in Hv.
    apply andb_true_iff in Hv as [Hv _]. rewrite bool_decide_true in He by done.
    destruct e; try done. by rewrite (enum_nulls elements).
  - split; [by apply map_set_sorted|]. intros other x.
    rewrite valid_add by (done || unfold bound_keys; set_solver). rewrite H1, H0. f_equal.
    apply enum_null.
Qed.

Lemma common_type_sound c branches t :
  common_type c branches = Some t →
  (c = t ∨ c = "") ∧
  ∀ b, b ∈ branches → ∃ object bt, b = AMap object ∧ map_get "type" object = Some (AString bt) ∧
    (bt = t ∨ bt = "").
Proof.
  revert c. induction branches as [|b branches IH]; intros c Hc.
  { injection Hc as ->. split; [by left|]. by intros ? ?%elem_of_nil. }
  simpl in Hc. destruct b as [| | | | |object]; try done.
  destruct (map_get "type" object) as [[| | |bt| |]|] eqn:Hg; try done.
  destruct (bool_decide_reflect (bt = "null")); [done|].
  assert ((c = t ∨ c = "") ∧ (bt = t ∨ bt = "") ∧ ∀ b, b ∈ branches → ∃ object bt,
    b = AMap object ∧ map_get "type" object = Some (AString bt) ∧ (bt = t ∨ bt = "")) as (H1 & H2 & H3).
  { destruct (string_empty c) eqn:Hce.
    - destruct (IH _ Hc). split_and!; [|done|done]. right. by destruct c.
    - destruct (bool_decide_reflect (c = bt)) as [->|]; [|done]. destruct (IH _ Hc). by split_and!. }
  split; [done|]. intros b [->|Hb]%elem_of_cons; [|auto]. by exists object, bt.
Qed.

Lemma has_type_empty x : has_type "" x = false.
Proof. by destruct x. Qed.

Lemma valid_type other object t x :
  map_get "type" object = Some (AString t) → valid other (AMap object) x = true → has_type t x = true.
Proof.
  intros Hg%map_get_In. rewrite valid_map, andb_true_iff, forallb_forall. intros [_ Hc].
  apply (Hc ("type", AString t)). by apply list_elem_of_In.
Qed.

Lemma normalize_common_preserves m : sorted_map m → preserves normalize_common m.
Proof.
  intros Hm. unfold preserves, normalize_common.
  destruct (map_get "type" m) as [|] eqn:Ht; [done|].
  destruct (commonAnyOfType (map_get "anyOf" m)) as [t|] eqn:Hc; [|done].
  split; [by apply map_set_sorted|]. intros other x.
  rewrite valid_add by (done || unfold bound_keys; set_solver).
  destruct (valid other (AMap m) x) eqn:Hv; [|by rewrite andb_false_r]. rewrite andb_true_r.
  unfold commonAnyOfType in Hc. destruct (map_get "anyOf" m) as [[| | | |branches|]|] eqn:Hg; try done.
  rewrite (valid_delete other "anyOf"), Hg in Hv by (done || unfold bound_keys; set_solver).
  apply andb_true_iff in Hv as [Hv _]. simpl in Hv. apply existsb_exists in Hv as (b & Hb & Hv).
  assert (common_type "" branches = Some t) as Hct by by destruct branches.
  destruct (proj2 (common_type_sound _ _ _ Hct) b) as (object & bt & -> & Hgb & Hbt);
    [by apply list_elem_of_In|].
  pose proof (valid_type _ _ _ _ Hgb Hv) as Hty. destruct Hbt as [->| ->]; [done|].
  by rewrite has_type_empty in Hty.
Qed.

(** *** The whole node *)

Lemma normalize_null_enum m :
  null_enum m = true → null_enum (normalize_required m) = true.
Proof.
  unfold null_enum, normalize_required. intros H.
  repeat case_match; simplify_eq; rewrite ?map_get_set in *; simplify_eq/=; done.
Qed.

Lemma normalize_node_preserves native m :
  sorted_map m → native || null_enum m = true → preserves (normalize_node native) m.
Proof.
  intros Hm He. unfold normalize_node.
  assert (∀ f m', preserves f m' → (∀ other x, valid other (AMap m') x = valid other (AMap m) x) →
    preserves f m' ∧ ∀ other x, valid other (AMap (f m')) x = valid other (AMap m) x) as Hstep.
  { intros f m' [Hs Hf] Hm'. split; [done|]. intros other x. by rewrite Hf. }
  destruct (normalize_required_preserves m Hm) as [Hs1 H1].
  destruct native.
  - destruct (Hstep _ _ (normalize_bound_preserves "minimum" "exclusiveMinimum" _
      ltac:(unfold rounds; set_solver) Hs1) H1) as [[Hs2 _] H2].
    destruct (Hstep _ _ (normalize_bound_preserves "maximum" "exclusiveMaximum" _
      ltac:(unfold rounds; set_solver) Hs2) H2) as [[Hs3 _] H3].
    destruct (Hstep _ _ (normalize_common_preserves _ Hs3) H3) as [[Hs4 _] H4]. by split.
  - simpl in He. destruct (Hstep _ _ (normalize_null_preserves _ Hs1 (normalize_null_enum _ He)) H1)
      as [[Hs2 _] H2].
    destruct (Hstep _ _ (normalize_common_preserves _ Hs2) H2) as [[Hs3 _] H3]. by split.
Qed.

Lemma unique_required_flat seen required :
  forallb flat required = true → forallb flat (unique_required seen required) = true.
Proof.
  rewrite !forallb_forall. setoid_rewrite <- list_elem_of_In. intros H v Hv.
  by apply H, (unique_required_In seen).
Qed.

Lemma normalize_node_schema native m :
  forallb (entry_schema native) m = true →
  forallb (entry_schema native) (normalize_node native m) = true.
Proof.
  assert (∀ f, (∀ m, forallb (entry_schema native) m = true → ∀ kv, kv ∈ f m →
      kv ∈ m ∨ entry_schema native kv = true) →
    ∀ m, forallb (entry_schema native) m = true → forallb (entry_schema native) (f m) = true) as Hstep.
  { intros f Hf m' Hm'. rewrite forallb_forall. intros kv Hkv%list_elem_of_In.
    destruct (Hf m' Hm' kv Hkv) as [Hin|]; [|done]. rewrite forallb_forall in Hm'.
    by apply Hm', list_elem_of_In. }
  assert (∀ b e, (b, e) ∈ rounds → ∀ m, forallb (entry_schema native) m = true →
    forallb (entry_schema native) (normalize_bound b e m) = true) as Hbound.
  { intros b e Hr. apply Hstep. intros m' _ kv. unfold normalize_bound.
    repeat case_match; try (by left); intros Hkv%map_delete_In; destruct Hkv as [Hkv _]; [|by left].
    apply map_set_In in Hkv as [->|]; [|by left]. right. unfold rounds in Hr.
    rewrite !elem_of_cons, elem_of_nil in Hr. by destruct Hr as [[= -> ->]|[[= -> ->]|[]]]. }
  intros Hm. unfold normalize_node. apply Hstep.
  { intros m' _ kv. unfold normalize_common. repeat case_match; try (by left).
    intros [->|]%map_set_In; [by right|by left]. }
  assert (forallb (entry_schema native) (normalize_required m) = true) as Hreq.
  { revert m Hm. apply Hstep. intros m Hm kv. unfold normalize_required.
    destruct (map_get "required" m) as [[| | | |required|]|] eqn:Hg; try (by left).
    intros [->|]%map_set_In; [right|by left]. rewrite forallb_forall in Hm.
    apply map_get_In, list_elem_of_In, Hm in Hg. by apply unique_required_flat. }
  destruct native; [by apply Hbound; [unfold rounds; set_solver|];
    apply Hbound; [unfold rounds; set_solver|]|].
  revert Hreq. apply Hstep. intros m' _ kv. unfold normalize_null.
  repeat case_match; try (by left); intros Hkv; repeat (apply map_set_In in Hkv as [->|Hkv]; [by right|]);
    apply map_delete_In in Hkv as [? _]; by left.
Qed.

(** *** The children *)

Lemma normalize_node_maps native ps :
  (∀ kv, kv ∈ ps → is_map kv.2 = true) → normalize_node native ps = ps.
Proof.
  intros Hps. assert (∀ k, match map_get k ps with Some v => is_map v | None => true end = true) as Hg.
  { intros k. destruct (map_get k ps) as [v|] eqn:Hk; [|done]. by apply (Hps (k, v)), map_get_In. }
  assert (∀ b e, normalize_bound b e ps = ps) as Hb.
  { intros b e. unfold normalize_bound. specialize (Hg e).
    by destruct (map_get e ps) as [[| | | | |]|]. }
  assert (normalize_required ps = ps) as Hr.
  { unfold normalize_required. specialize (Hg "required").
    by destruct (map_get "required" ps) as [[| | | | |]|]. }
  assert (normalize_null ps = ps) as Hn.
  { unfold normalize_null. specialize (Hg "type"). by destruct (map_get "type" ps) as [[| | | | |]|]. }
  assert (normalize_common ps = ps) as Hc.
  { unfold normalize_common, commonAnyOfType. specialize (Hg "anyOf").
    by destruct (map_get "type" ps), (map_get "anyOf" ps) as [[| | | | |]|]. }
  unfold normalize_node. rewrite Hr. destruct native; by rewrite ?Hb, ?Hn, Hc.
Qed.

Lemma well_keyed_node native m kv :
  well_keyed (AMap m) = true → kv ∈ normalize_node native m → well_keyed kv.2 = true.
Proof.
  rewrite well_keyed_map, Forall_forall. intros [_ Hm] [->|[H|[Hin|(required & Hin & ->)]]]%normalize_node_children.
  - done.
  - by destruct kv.2.
  - apply list_elem_of_fmap in Hin as (kv' & -> & Hin). by apply Hm.
  - apply list_elem_of_fmap in Hin as (kv' & Heq & Hin). apply Hm in Hin. rewrite <- Heq in Hin.
    apply well_keyed_slice, Forall_forall. apply well_keyed_slice in Hin.
    rewrite Forall_forall in Hin. intros v Hv. by eapply Hin, unique_required_In.
Qed.

Lemma forallb_eq {A} (f g : A → bool) l : (∀ v, v ∈ l → f v = g v) → forallb f l = forallb g l.
Proof.
  induction l as [|v l IH]; [done|]. intros H. simpl. rewrite (H v), IH; [done| |by left].
  intros w Hw. apply H. by right.
Qed.

Lemma existsb_eq {A} (f g : A → bool) l : (∀ v, v ∈ l → f v = g v) → existsb f l = existsb g l.
Proof.
  induction l as [|v l IH]; [done|]. intros H. simpl. rewrite (H v), IH; [done| |by left].
  intros w Hw. apply H. by right.
Qed.

Lemma forallb_map {A B} (f : A → B) g l : forallb g (List.map f l) = forallb (λ v, g (f v)) l.
Proof. induction l as [|v l IH]; [done|]. simpl. by rewrite IH. Qed.

Lemma existsb_map {A B} (f : A → B) g l : existsb g (List.map f l) = existsb (λ v, g (f v)) l.
Proof. induction l as [|v l IH]; [done|]. simpl. by rewrite IH. Qed.

(** Normalization preserves the meaning of [s]. *)
Definition preserved (native : bool) (other : string → any → any → bool) (s : any) : Prop :=
  router_schema native s = true → well_keyed s = true →
  ∀ x, valid other (normalizeRouterSchemas native s) x = valid other s x.

Lemma preserved_elements native other l :
  forallb (router_schema native) l = true → well_keyed (ASlice l) = true →
  (∀ s, nesting s < nesting (ASlice l) → preserved native other s) →
  ∀ s, s ∈ l → ∀ x, valid other (normalizeRouterSchemas native s) x = valid other s x.
Proof.
  rewrite forallb_forall, well_keyed_slice, Forall_forall. intros Hs Hk H s Hin.
  apply H; [by apply nesting_child_slice|by apply Hs, list_elem_of_In|by apply Hk].
Qed.

Lemma check_slice native other names x k l :
  keyword_of k = KAny ∨ keyword_of k = KAll ∨ keyword_of k = KOne →
  forallb (router_schema native) l = true → well_keyed (ASlice l) = true →
  (∀ s, nesting s < nesting (ASlice l) → preserved native other s) →
  check other names x (k, normalizeRouterSchemas native (ASlice l)) =
    check other names x (k, ASlice l).
Proof.
  intros Hk Hs Hw H. pose proof (preserved_elements native other l Hs Hw H) as Hp.
  unfold check. rewrite normalize_slice. destruct Hk as [->|[->| ->]].
  - rewrite existsb_map. apply existsb_eq. auto.
  - rewrite forallb_map. apply forallb_eq. auto.
  - rewrite List.map_map. do 2 f_equal. apply map_ext_in. intros s Hin. by rewrite Hp by by apply list_elem_of_In.
Qed.

Lemma check_properties native other names x k ps :
  keyword_of k = KProperties →
  forallb (λ ns, let '(_, p) := ns in is_map p && router_schema native p) ps = true →
  well_keyed (AMap ps) = true → (∀ s, nesting s < nesting (AMap ps) → preserved native other s) →
  check other names x (k, normalizeRouterSchemas native (AMap ps)) =
    check other names x (k, AMap ps).
Proof.
  rewrite forallb_forall, well_keyed_map, Forall_forall. intros Hk Hs [_ Hw] H.
  assert (∀ n s, (n, s) ∈ ps → is_map s = true ∧ router_schema native s = true) as Hps.
  { intros n s Hin. apply andb_true_iff. by apply (Hs (n, s)), list_elem_of_In. }
  rewrite normalize_map, normalize_node_maps.
  2:{ intros [n s] Hin. by apply Hps in Hin as [? _]. }
  unfold check. rewrite Hk. destruct x as [| | | | |object]; try done.
  rewrite forallb_map. apply forallb_eq. intros [n s] Hin. simpl.
  destruct (map_get n object); [|done]. apply H; [by apply (nesting_child_map (n, s))| |by apply (Hw (n, s))].
  by apply Hps in Hin as [_ ?].
Qed.

Lemma check_normalized native other names x k v :
  entry_schema native (k, v) = true → well_keyed v = true →
  (∀ s, nesting s ≤ nesting v → preserved native other s) →
  check other names x (k, normalizeRouterSchemas native v) = check other names x (k, v).
Proof.
  intros Hs Hw H. destruct (flat v) eqn:Hf; [by rewrite normalize_flat|].
  unfold entry_schema in Hs. destruct (keyword_of k) eqn:Hk; try congruence.
  1: by unfold check; rewrite Hk.
  1-3: destruct v as [| | | |l|]; try (congruence || discriminate); apply check_slice; auto; intros s Hlt; apply H; lia.
  1-3: unfold check; rewrite Hk; pose proof (H v (Nat.le_refl _) Hs Hw) as Hv.
  - by rewrite Hv.
  - destruct x; try done. apply forallb_eq. auto.
  - destruct x; try done. apply forallb_eq. intros [n y] _. simpl. by rewrite Hv.
  - destruct v as [| | | | |ps]; try (congruence || discriminate). apply check_properties; [done..|].
    intros s Hlt. apply H. lia.
Qed.

Lemma normalized_names native m :
  (∀ kv, kv ∈ m → entry_schema native kv = true) →
  property_names (List.map (λ kv, (kv.1, normalizeRouterSchemas native kv.2)) m) = property_names m.
Proof.
  intros Hm. unfold property_names. rewrite map_get_map.
  destruct (map_get "properties" m) as [v|] eqn:Hg; [|done]. simpl.
  apply map_get_In, Hm in Hg. unfold entry_schema in Hg. simpl in Hg.
  destruct v as [| | | | |ps]; try done. rewrite normalize_map, normalize_node_maps.
  - simpl. clear Hm. induction ps as [|[n p] ps IH]; [done|]. simpl. f_equal. apply IH.
    simpl in Hg. by apply andb_true_iff in Hg as [_ ?].
  - intros [n p] Hp%list_elem_of_In. rewrite forallb_forall in Hg. apply Hg in Hp.
    by apply andb_true_iff in Hp as [? _].
Qed.

Lemma normalize_preserved native other s : preserved native other s.
Proof.
  remember (nesting s) as n eqn:Hn. revert s Hn. induction n as [n IH] using lt_wf_ind.
  intros s -> Hs Hw x. destruct s as [| | | | |m]; try by rewrite normalize_flat.
  rewrite router_schema_map in Hs. apply andb_true_iff in Hs as [He Hs].
  pose proof Hw as Hwm. apply well_keyed_map in Hwm as [Hm _].
  destruct (normalize_node_preserves native m Hm He) as [Hsort Hnode].
  rewrite <- Hnode, normalize_map, !valid_map.
  pose proof (normalize_node_schema native m Hs) as Hs'. rewrite forallb_forall in Hs'.
  assert (∀ kv, kv ∈ normalize_node native m → ∀ names x,
    check other names x (kv.1, normalizeRouterSchemas native kv.2) = check other names x kv) as Hcheck.
  { intros [k v] Hin names x'. pose proof (normalize_node_children native m _ Hin) as Hfrom.
    apply from_node_nesting in Hfrom as [Heq|Hh].
    - simpl in Heq |- *. by subst v.
    - apply check_normalized.
      + by apply Hs', list_elem_of_In.
      + by apply (well_keyed_node native m (k, v)).
      + intros s Hle. simpl in Hh. apply (IH (nesting s)); [simpl; lia|done]. }
  assert (∀ k, keyword_of k = KBound → map_get k (List.map (λ kv, (kv.1,
    normalizeRouterSchemas native kv.2)) (normalize_node native m)) = map_get k (normalize_node native m)) as Hb.
  { intros k Hk. rewrite map_get_map. destruct (map_get k _) as [v|] eqn:Hg; [|done]. simpl. f_equal.
    apply normalize_flat. apply map_get_In, list_elem_of_In, Hs' in Hg.
    unfold entry_schema in Hg. by rewrite Hk in Hg. }
  f_equal.
  - unfold bounds_ok. by rewrite !Hb.
  - rewrite forallb_map. apply forallb_eq. intros kv Hin. rewrite Hcheck by done. f_equal.
    rewrite normalized_names; [done|]. intros kv' Hin'. by apply Hs', list_elem_of_In.
Qed.

(** ** Places in a document *)

Inductive place_step :=
| AtMember (k : string)
| AtIndex (i : nat).

(** [at_place v p w]: [w] stands at [p] in [v], and every value on the way is a
    map or a list, none of them the list of required names. *)
Inductive at_place : any → list place_step → any → Prop :=
| at_here v : at_place v [] v
| at_member m k v p w :
    map_get k m = Some v → k ≠ "nullable" →
    (is_map v = true ∨ k ≠ "required" ∧ ∃ l, v = ASlice l) →
    at_place v p w → at_place (AMap m) (AtMember k :: p) w
| at_index l i v p w :
    l !! i = Some v → at_place v p w → at_place (ASlice l) (AtIndex i :: p) w.

Definition container (k : string) (v : any) : Prop :=
  is_map v = true ∨ k ≠ "required" ∧ ∃ l, v = ASlice l.

(** No step of the rewriting touches a container. *)
Lemma normalize_node_get native m k v :
  k ≠ "nullable" → container k v → map_get k m = Some v →
  map_get k (normalize_node native m) = Some v.
Proof.
  intros Hn Hv Hg. assert (∀ b e m, map_get k m = Some v → map_get k (normalize_bound b e m) = Some v) as Hb.
  { clear Hg m. intros b e m Hg. unfold normalize_bound.
    destruct (map_get e m) as [[|[]| | | |]|] eqn:He; try done.
    - destruct (map_get b m) as [[| |f| | |]|] eqn:Hbm; try done. rewrite map_get_delete, map_get_set.
      repeat case_bool_decide; subst; try done; destruct Hv as [?|[_ [? ->]]]; simplify_eq; done.
    - rewrite map_get_delete. case_bool_decide; [subst|done].
      destruct Hv as [?|[_ [? ->]]]; simplify_eq; done. }
  assert (map_get k (normalize_required m) = Some v) as Hr.
  { unfold normalize_required. destruct (map_get "required" m) as [[| | | |l|]|] eqn:He; try done.
    rewrite map_get_set. case_bool_decide; [subst|done].
    destruct Hv as [?|[? _]]; simplify_eq; done. }
  assert (∀ m, map_get k m = Some v → map_get k (normalize_null m) = Some v) as Hnull.
  { clear - Hn Hv. intros m Hg. unfold normalize_null.
    destruct (map_get "type" m) as [[| | |t| |]|] eqn:Ht; try done. case_bool_decide; [|done].
    assert (map_get k (map_set "nullable" (ABool true) (map_delete "type" m)) = Some v) as H1.
    { rewrite map_get_set, bool_decide_false, map_get_delete by done. case_bool_decide; [subst|done].
      destruct Hv as [?|[_ [? ->]]]; simplify_eq; done. }
    cbv zeta. destruct (map_get "enum" _) eqn:He; [done|]. rewrite map_get_set.
    case_bool_decide; [subst; congruence|done]. }
  assert (∀ m, map_get k m = Some v → map_get k (normalize_common m) = Some v) as Hc.
  { clear. intros m Hg. unfold normalize_common. destruct (map_get "type" m) eqn:Ht; [done|].
    destruct (commonAnyOfType _); [|done]. rewrite map_get_set. case_bool_decide; [subst; congruence|done]. }
  unfold normalize_node. destruct native; auto.
Qed.

Lemma normalize_at native v p w :
  at_place v p w → at_place (normalizeRouterSchemas native v) p (normalizeRouterSchemas native w).
Proof.
  induction 1 as [v|m k v p w Hg Hn Hc _ IH|l i v p w Hi _ IH]; [constructor|..].
  - rewrite normalize_map. eapply at_member; [|done| |exact IH].
    + rewrite map_get_map. by rewrite (normalize_node_get native m k v).
    + destruct Hc as [Hm|[Hr [l ->]]].
      * left. by destruct v.
      * right. split; [done|]. rewrite normalize_slice. by eexists.
  - rewrite normalize_slice. eapply at_index; [|exact IH].
    change (List.map ?f l) with (f <$> l). by rewrite list_lookup_fmap, Hi.
Qed.

Lemma well_keyed_at v p w : at_place v p w → well_keyed v = true → well_keyed w = true.
Proof.
  induction 1 as [v|m k v p w Hg _ _ _ IH|l i v p w Hi _ IH]; [done|..].
  - rewrite well_keyed_map, Forall_forall. intros [_ H]. apply IH.
    by apply (H (k, v)), map_get_In.
  - rewrite well_keyed_slice, Forall_forall. intros H. apply IH, H. by eapply list_elem_of_lookup_2.
Qed.

(** ** The dialect of the result *)

Definition name_of (v : any) : option string := match v with AString s => Some s | _ => None end.

Definition dialect_node (native : bool) (m : list (string * any)) : bool :=
  match map_get "required" m with
  | Some (ASlice required) => bool_decide (NoDup (omap name_of required))
  | _ => true
  end &&
  if native then
    forallb (λ be, let '(bound, exclusive) := be in
      match map_get exclusive m, map_get bound m with
      | Some (ABool false), _ | Some (ABool true), Some (AFloat _) => false
      | _, _ => true
      end) rounds
  else match map_get "type" m with
       | Some (AString t) => negb (bool_decide (t = "null"))
       | _ => true
       end.

(** Every map of the document. *)
Fixpoint in_dialect (native : bool) (v : any) : bool :=
  match v with
  | ASlice l => forallb (in_dialect native) l
  | AMap m => dialect_node native m && forallb (λ kv, in_dialect native kv.2) m
  | _ => true
  end.

Lemma unique_required_NoDup seen required :
  NoDup (omap name_of (unique_required seen required)) ∧
  ∀ n, n ∈ omap name_of (unique_required seen required) → n ∉ seen.
Proof.
  revert seen. induction required as [|v required IH]; intros seen.
  { split; [constructor|]. by intros n ?%elem_of_nil. }
  destruct v as [| | |n| |]; simpl; try apply IH. case_bool_decide as Hn; [apply IH|]. simpl.
  destruct (IH ({[n]} ∪ seen)) as [H1 H2]. split.
  - constructor; [|done]. intros Hin. apply (H2 n Hin). set_solver.
  - intros n' [->|Hin]%elem_of_cons; [done|]. specialize (H2 n' Hin). set_solver.
Qed.

Lemma name_of_normalize native v : name_of (normalizeRouterSchemas native v) = name_of v.
Proof. by destruct v. Qed.

Lemma names_normalize native l :
  omap name_of (List.map (normalizeRouterSchemas native) l) = omap name_of l.
Proof.
  induction l as [|v l IH]; [done|]. cbn [List.map omap list_omap].
  rewrite name_of_normalize. destruct (name_of v); [f_equal|]; exact IH.
Qed.

Lemma dialect_node_normalized native m :
  dialect_node native (List.map (λ kv, (kv.1, normalizeRouterSchemas native kv.2)) m) =
    dialect_node native m.
Proof.
  unfold dialect_node. rewrite !map_get_map. f_equal.
  - destruct (map_get "required" m) as [[| | | |l|]|]; try done.
    cbn [fmap option_fmap option_map]. by rewrite normalize_slice, names_normalize.
  - destruct native.
    + apply forallb_eq. intros [b e] _. rewrite !map_get_map.
      destruct (map_get e m) as [[|[]| | | |]|], (map_get b m) as [[| | | | |]|]; done.
    + by destruct (map_get "type" m) as [[| | | | |]|].
Qed.

Lemma normalize_null_get m k :
  k ∉ ["type"; "nullable"; "enum"] → map_get k (normalize_null m) = map_get k m.
Proof.
  intros Hk. unfold normalize_null.
  repeat (case_match; simplify_eq); rewrite ?map_get_set, ?map_get_delete;
    rewrite ?bool_decide_false by set_solver; done.
Qed.

Lemma normalize_common_get m k : k ≠ "type" → map_get k (normalize_common m) = map_get k m.
Proof.
  intros Hk. unfold normalize_common. repeat case_match; try done.
  by rewrite map_get_set, bool_decide_false.
Qed.

Lemma common_type_not_null c branches t :
  c ≠ "null" → common_type c branches = Some t → t ≠ "null".
Proof.
  revert c. induction branches as [|b branches IH]; intros c Hc; [by intros [= <-]|]. simpl.
  destruct b as [| | | | |object]; try done.
  destruct (map_get "type" object) as [[| | |bt| |]|]; try done.
  destruct (bool_decide_reflect (bt = "null")); [done|]. repeat case_match; eauto.
Qed.

Lemma dialect_required native m :
  match map_get "required" (normalize_node native m) with
  | Some (ASlice required) => bool_decide (NoDup (omap name_of required))
  | _ => true
  end = true.
Proof.
  assert (map_get "required" (normalize_node native m) =
    map_get "required" (normalize_required m)) as ->.
  { unfold normalize_node. rewrite normalize_common_get by done.
    destruct native; [by rewrite !normalize_bound_get|by rewrite normalize_null_get by set_solver]. }
  unfold normalize_required. destruct (map_get "required" m) as [[| | | |l|]|] eqn:Hg;
    rewrite ?map_get_set, ?Hg; try done.
  rewrite (bool_decide_true ("required" = "required")) by done.
  apply bool_decide_eq_true, unique_required_NoDup.
Qed.

Lemma dialect_rewritten native m : dialect_node native (normalize_node native m) = true.
Proof.
  unfold dialect_node. rewrite dialect_required. unfold normalize_node. destruct native; simpl.
  - rewrite !normalize_common_get, !normalize_bound_get by done. simpl.
    set (r := normalize_required m). unfold new_exclusive, new_bound.
    destruct (map_get "exclusiveMinimum" r) as [[|[]| | | |]|], (map_get "minimum" r) as [[| | | | |]|],
      (map_get "exclusiveMaximum" r) as [[|[]| | | |]|], (map_get "maximum" r) as [[| | | | |]|];
      reflexivity.
  - set (r := normalize_required m). unfold normalize_common.
    destruct (map_get "type" (normalize_null r)) as [v|] eqn:Ht.
    + rewrite Ht. unfold normalize_null in Ht.
      destruct (map_get "type" r) as [[| | |t| |]|] eqn:Hr; try (rewrite Hr in Ht; by simplify_eq).
      destruct (bool_decide_reflect (t = "null")) as [->|Hne].
      * cbv zeta in Ht. destruct (map_get "enum" _);
          rewrite ?map_get_set, ?map_get_delete in Ht; by simpl in Ht.
      * rewrite Hr in Ht. simplify_eq. by rewrite bool_decide_false.
    + destruct (commonAnyOfType _) as [t|] eqn:Hc; [|by rewrite Ht].
      rewrite map_get_set, bool_decide_true by done. rewrite bool_decide_false; [done|].
      unfold commonAnyOfType in Hc. destruct (map_get "anyOf" _) as [[| | | |[|b l]|]|]; try done.
      by apply (common_type_not_null "" (b :: l)).
Qed.

Lemma in_dialect_normalized native document :
  in_dialect native (normalizeRouterSchemas native document) = true.
Proof.
  remember (nesting document) as n eqn:Hn. revert document Hn.
  induction n as [n IH] using lt_wf_ind. intros v ->. destruct v as [| | | |l|m]; [done..| |].
  - rewrite normalize_slice. simpl. rewrite forallb_map. apply forallb_forall.
    intros v Hv%list_elem_of_In%nesting_child_slice. by apply (IH (nesting v)).
  - rewrite normalize_map. cbn [in_dialect]. rewrite dialect_node_normalized, dialect_rewritten.
    rewrite forallb_map. apply forallb_forall.
    intros kv Hkv%list_elem_of_In%normalize_node_children%from_node_nesting.
    destruct Hkv as [Hkv|Hkv]; simpl; [by rewrite Hkv|]. by apply (IH (nesting kv.2)).
Qed.

(** ** The null values of the older reader *)

(** A schema that is marked nullable, which is how a reader of OpenAPI 3.0 is
    told that null is accepted; and one of the null type, which is how OpenAPI
    3.1 says it. *)
Definition nullable (m : list (string * any)) : bool :=
  match map_get "nullable" m with Some (ABool b) => b | _ => false end.
Definition null_type (m : list (string * any)) : bool :=
  match map_get "type" m with Some (AString t) => bool_decide (t = "null") | _ => false end.

Lemma nullable_ext m m' : map_get "nullable" m' = map_get "nullable" m → nullable m' = nullable m.
Proof. unfold nullable. by intros ->. Qed.

Lemma nullable_children native m :
  nullable (List.map (λ kv, (kv.1, normalizeRouterSchemas native kv.2)) m) = nullable m.
Proof.
  unfold nullable. rewrite map_get_map. by destruct (map_get "nullable" m) as [[| | | | |]|].
Qed.

Lemma nullable_node native m :
  nullable (normalize_node native m) = nullable m || negb native && null_type m.
Proof.
  assert (nullable (normalize_required m) = nullable m ∧ null_type (normalize_required m) = null_type m)
    as [Hn Ht].
  { unfold nullable, null_type, normalize_required.
    destruct (map_get "required" m) as [[| | | |l|]|]; try done.
    by rewrite (map_get_set "nullable"), (map_get_set "type"). }
  unfold normalize_node. rewrite (nullable_ext _ _ (normalize_common_get _ "nullable" ltac:(done))).
  destruct native; cbn [negb andb].
  - rewrite orb_false_r, <- Hn. apply nullable_ext. by rewrite !normalize_bound_get.
  - rewrite <- Hn, <- Ht. generalize (normalize_required m). clear. intros m.
    unfold normalize_null, null_type. destruct (map_get "type" m) as [[| | |t| |]|];
      try (by rewrite orb_false_r).
    case_bool_decide; [|by rewrite orb_false_r]. rewrite orb_true_r. unfold nullable.
    destruct (map_get "enum" _); by rewrite !map_get_set.
Qed.

Lemma nullable_at native document place m :
  at_place document place (AMap m) →
  ∃ m', at_place (normalizeRouterSchemas native document) place (AMap m') ∧
    nullable m' = nullable m || negb native && null_type m.
Proof.
  intros Hp%(normalize_at native). rewrite normalize_map in Hp. eexists. split; [exact Hp|].
  by rewrite nullable_children, nullable_node.
Qed.

(** ** Properties *)

(** The router's document means what the frozen one means: every schema
    of the decoded document, at whatever place, is found at the same place
    after the normalization, for either generation of the OpenAPI library, and
    accepts exactly the same values. *)
Theorem normalization_preserves_meaning native document place schema other x :
  well_keyed document = true → at_place document place schema →
  router_schema native schema = true →
  ∃ schema', at_place (normalizeRouterSchemas native document) place schema' ∧
    valid other schema' x = valid other schema x.
Proof.
  intros Hw Hp Hs. exists (normalizeRouterSchemas native schema). split; [by apply normalize_at|].
  apply normalize_preserved; [done|by eapply well_keyed_at].
Qed.

(** The normalized document is in the dialect of its reader: no map of it
    requires a name twice; the newer reader finds no boolean exclusive bound it
    would have to interpret, the older one no null type. *)
Theorem normalization_dialect native document :
  in_dialect native (normalizeRouterSchemas native document) = true.
Proof. apply in_dialect_normalized. Qed.

(** ** Witnesses *)

(** A document in the style of the frozen one, and its only schema. *)
Definition example_schema : any :=
  default ANil (parse (quoted "{'anyOf':[{'maxLength':3,'type':'string'},{'enum':['a'],'type':'string'}],'properties':{'type':{'type':'null'}},'required':['x','x']}") ≫= any_of).
Definition example_document : any :=
  AMap [("components", AMap [("schemas", AMap [("Voice", example_schema)])])].

Lemma normalization_preserves_meaning_witness :
  ∃ schema', at_place (normalizeRouterSchemas false example_document)
      [AtMember "components"; AtMember "schemas"; AtMember "Voice"] schema' ∧
    valid (λ _ _ _, true) schema' (AString "a") = valid (λ _ _ _, true) example_schema (AString "a").
Proof.
  apply normalization_preserves_meaning; [reflexivity| |reflexivity].
  repeat (eapply at_member; [reflexivity|discriminate|left; reflexivity|]). apply at_here.
Defined.
