(* ===== verification/RouterText.v ===== *)
(** [RouterSpecJSON] as a whole: the text it returns decodes to the normalized
    document. *)
From stdpp Require Import sorting.
From S2P Require Import Prelude GoStrings JsonString Json Float64 Any Errors JsonRound DecodeSound.
From S2P Require Import RouterSpec RouterMeaning.

(** ** The normalized document can be written *)

(** A value of a rewritten node. *)
Definition fits (depth : nat) (v : any) : Prop := lossless depth v ∨ v = ASlice [ANil].
Definition fits_entry (depth : nat) (kv : string * any) : Prop :=
  valid_utf8 kv.1 = true ∧ fits depth kv.2.
Definition fits_node (depth : nat) (m : list (string * any)) : Prop :=
  sorted_map m ∧ Forall (fits_entry depth) m.

Lemma fits_set depth k v m :
  valid_utf8 k = true → fits depth v → fits_node depth m → fits_node depth (map_set k v m).
Proof.
  intros Hk Hv [Hs Hm]. split; [by apply map_set_sorted|]. rewrite Forall_forall in Hm.
  apply Forall_forall. intros kv [->|?]%map_set_In; [by split|auto].
Qed.

Lemma fits_delete depth k m : fits_node depth m → fits_node depth (map_delete k m).
Proof.
  intros [Hs Hm]. split; [by apply map_delete_sorted|]. rewrite Forall_forall in Hm.
  apply Forall_forall. intros kv [? _]%map_delete_In. auto.
Qed.

Lemma fits_get depth k v m : fits_node depth m → map_get k m = Some v → fits depth v.
Proof.
  intros [_ Hm] Hg%map_get_In. rewrite Forall_forall in Hm. by destruct (Hm _ Hg).
Qed.

Lemma fits_flat depth v : nesting v = 0 → encodable v = true → fits depth v.
Proof. intros Hn He. left. split; [done|lia]. Qed.

Lemma unique_required_lossless depth seen required :
  Forall (lossless depth) required → Forall (lossless depth) (unique_required seen required).
Proof.
  intros H. rewrite Forall_forall in H. apply Forall_forall. intros v Hv.
  by eapply H, unique_required_In.
Qed.

Lemma normalize_required_fits depth m : fits_node depth m → fits_node depth (normalize_required m).
Proof.
  intros Hm. unfold normalize_required.
  destruct (map_get "required" m) as [[| | | |required|]|] eqn:Hg; try done.
  apply fits_set; [done| |done]. destruct (fits_get _ _ _ _ Hm Hg) as [Hl|[= ->]]; [left|by right].
  destruct depth as [|depth]; [destruct Hl as [_ Hl]; simpl in Hl; lia|].
  apply lossless_slice, unique_required_lossless. by apply lossless_slice.
Qed.

Lemma normalize_bound_fits depth bound exclusive m :
  (bound, exclusive) ∈ rounds → fits_node depth m → fits_node depth (normalize_bound bound exclusive m).
Proof.
  intros Hr Hm. unfold normalize_bound.
  destruct (map_get exclusive m) as [[|[]| | | |]|]; try done; [|by apply fits_delete].
  destruct (map_get bound m) as [[| |f| | |]|] eqn:Hg; try done.
  apply fits_delete, fits_set; [|by eapply fits_get|done].
  unfold rounds in Hr. rewrite !elem_of_cons, elem_of_nil in Hr. by destruct Hr as [[= _ ->]|[[= _ ->]|[]]].
Qed.

Lemma normalize_null_fits depth m : fits_node depth m → fits_node depth (normalize_null m).
Proof.
  intros Hm. unfold normalize_null. destruct (map_get "type" m) as [[| | |t| |]|]; try done.
  case_bool_decide; [|done]. cbv zeta.
  assert (fits_node depth (map_set "nullable" (ABool true) (map_delete "type" m))) as H1
    by (apply fits_set; [done|by apply fits_flat|by apply fits_delete]).
  destruct (map_get "enum" _); [done|]. apply fits_set; [done|by right|done].
Qed.

Lemma common_type_utf8 depth c branches t :
  Forall (lossless depth) branches → valid_utf8 c = true → common_type c branches = Some t →
  valid_utf8 t = true.
Proof.
  intros Hb. revert c. induction Hb as [|b branches Hb _ IH]; intros c Hc; [by intros [= <-]|]. simpl.
  destruct b as [| | | | |object]; try done.
  destruct (map_get "type" object) as [[| | |bt| |]|] eqn:Hg; try done.
  case_bool_decide; [done|]. repeat case_match; try (by apply IH); try done. apply IH.
  destruct depth as [|depth]; [destruct Hb as [_ Hn]; simpl in Hn; lia|].
  apply lossless_map in Hb as [_ Hb]. rewrite Forall_forall in Hb.
  by destruct (Hb _ (map_get_In _ _ _ Hg)) as [_ [He _]].
Qed.

Lemma normalize_common_fits depth m : fits_node depth m → fits_node depth (normalize_common m).
Proof.
  intros Hm. unfold normalize_common, commonAnyOfType. destruct (map_get "type" m); [done|].
  destruct (map_get "anyOf" m) as [[| | | |[|b l]|]|] eqn:Hg; try done.
  destruct (common_type "" (b :: l)) as [t|] eqn:Ht; [|done].
  apply fits_set; [done| |done]. apply fits_flat; [done|]. simpl.
  destruct (fits_get _ _ _ _ Hm Hg) as [Hl|[= -> ->]]; [|discriminate Ht].
  destruct depth as [|depth]; [destruct Hl as [_ Hl]; simpl in Hl; lia|].
  apply lossless_slice in Hl. by apply (common_type_utf8 depth "" (b :: l)).
Qed.

Lemma normalize_node_fits native depth m : fits_node depth m → fits_node depth (normalize_node native m).
Proof.
  intros Hm. unfold normalize_node. apply normalize_common_fits. destruct native.
  - do 2 (apply normalize_bound_fits; [unfold rounds; set_solver|]). by apply normalize_required_fits.
  - by apply normalize_null_fits, normalize_required_fits.
Qed.

(** It may be one level deeper. *)
Lemma normalize_lossless native depth v :
  lossless depth v → lossless (S depth) (normalizeRouterSchemas native v).
Proof.
  remember (nesting v) as n eqn:Hn. revert depth v Hn.
  induction n as [n IH] using lt_wf_ind. intros depth v -> Hv.
  destruct v as [| | | |l|m]; [by apply (lossless_mono depth); [lia|]..| |].
  - destruct depth as [|depth]; [destruct Hv as [_ H]; simpl in H; lia|].
    rewrite normalize_slice. apply lossless_slice. apply lossless_slice in Hv.
    rewrite Forall_forall in Hv. apply Forall_forall. intros v. rewrite list_elem_of_In, in_map_iff.
    intros (w & <- & Hw%list_elem_of_In). apply (IH (nesting w)); [|done|by apply Hv].
    by apply nesting_child_slice.
  - destruct depth as [|depth]; [destruct Hv as [_ H]; simpl in H; lia|].
    rewrite normalize_map. apply lossless_map. apply lossless_map in Hv as [Hs Hm].
    assert (fits_node depth (normalize_node native m)) as [Hs' Hm'].
    { apply normalize_node_fits. split; [done|]. eapply Forall_impl; [exact Hm|].
      intros kv [? ?]. split; [done|by left]. }
    split; [by apply sorted_map_map|]. rewrite Forall_forall in Hm'.
    apply Forall_forall. intros kv. rewrite list_elem_of_In, in_map_iff.
    intros (w & <- & Hw%list_elem_of_In). destruct (Hm' w Hw) as [Hk [Hl|Heq]]; split; try done; simpl.
    + pose proof (normalize_node_children _ _ _ Hw) as [Heq|Hlt]%from_node_nesting.
      * rewrite Heq. split; [done|simpl; lia].
      * by apply (IH (nesting w.2)).
    + rewrite Heq. split; [done|simpl; lia].
Qed.

(** ** Property *)

(** C5. [RouterSpecJSON] keeps its word: when the frozen document decodes, it
    returns a text that decodes in turn, to a document in the dialect of the
    library at hand, in which every schema of the frozen document that
    [router_schema] recognises is found at its place and accepts exactly the
    values it accepted (whatever [$ref] and the other keywords it does not touch
    mean), and every map is found at its place, marked nullable exactly when it
    was or, for the older library, when it had the null type; a document that
    does not decode is an error, and so is one that is not there. *)
Theorem RouterSpecJSON_equivalent SpecJSON native :
  match SpecJSON with
  | Err e => RouterSpecJSON SpecJSON native = Err e
  | Ok raw =>
      match parse raw ≫= any_of with
      | None => ∃ e, RouterSpecJSON SpecJSON native = Err e
      | Some document => nesting document < max_depth →
          ∃ text document', RouterSpecJSON SpecJSON native = Ok text ∧
            parse text ≫= any_of = Some document' ∧ in_dialect native document' = true ∧
            (∀ place schema, at_place document place schema → router_schema native schema = true →
              ∃ schema', at_place document' place schema' ∧
                ∀ other x, valid other schema' x = valid other schema x) ∧
            ∀ place m, at_place document place (AMap m) →
              ∃ m', at_place document' place (AMap m') ∧
                nullable m' = nullable m || negb native && null_type m
      end
  end.
Proof.
  destruct SpecJSON as [raw|e]; [|done]. unfold RouterSpecJSON. cbn [mbind].
  destruct (parse raw ≫= any_of) as [document|] eqn:Hd; cycle 1.
  { eexists. unfold result_bind. by rewrite Hd. }
  intros Hn. pose proof (decoded_lossless _ _ Hd) as Hl.
  assert (∃ depth, max_depth = S depth) as [depth Hdepth] by (exists 9999; by vm_compute).
  assert (lossless max_depth (normalizeRouterSchemas native document)) as Hl'.
  { rewrite Hdepth in Hn |- *. apply normalize_lossless. destruct Hl. split; [done|lia]. }
  eexists _, (normalizeRouterSchemas native document). split_and!.
  - unfold result_bind. by rewrite Hd.
  - by apply lossless_decode.
  - apply in_dialect_normalized.
  - intros place schema Hp Hs. exists (normalizeRouterSchemas native schema).
    split; [by apply normalize_at|]. intros other x. apply normalize_preserved; [done|].
    eapply well_keyed_at; [done|]. by eapply lossless_well_keyed.
  - intros place m. apply nullable_at.
Qed.

(** ** Witness *)

(** A document whose one schema spells an exclusive bound in the old way, and
    whose other one is the null type. *)
Definition example_text : string :=
  quoted "{'schemas':{'Nothing':{'type':'null'},'Size':{'required':['a','a'],'minimum':1,'exclusiveMinimum':true}}}".

Definition example_size (one : float64) : any :=
  AMap [("exclusiveMinimum", ABool true); ("minimum", AFloat one);
        ("required", ASlice [AString "a"; AString "a"])].
Definition example_nothing : list (string * any) := [("type", AString "null")].

Lemma example_text_decodes :
  ∃ one, ParseFloat "1" = Some one ∧ parse example_text ≫= any_of =
    Some (AMap [("schemas", AMap [("Nothing", AMap example_nothing); ("Size", example_size one)])]).
Proof.
  destruct (ParseFloat "1") as [one|] eqn:Hone; [|by vm_compute in Hone]. exists one. split; [done|].
  vm_compute in Hone. injection Hone as <-. by vm_compute.
Qed.

(** For the newer library the bound is respelled, and still excludes 1. *)
Lemma RouterSpecJSON_equivalent_witness :
  (∃ one text document', ParseFloat "1" = Some one ∧
    RouterSpecJSON (Ok example_text) true = Ok text ∧ parse text ≫= any_of = Some document' ∧
    in_dialect true document' = true ∧
    ∃ schema', at_place document' [AtMember "schemas"; AtMember "Size"] schema' ∧
      valid (λ _ _ _, true) schema' (AFloat one) = false) ∧
  ∃ text document' m', RouterSpecJSON (Ok example_text) false = Ok text ∧
    parse text ≫= any_of = Some document' ∧ in_dialect false document' = true ∧
    at_place document' [AtMember "schemas"; AtMember "Nothing"] (AMap m') ∧ nullable m' = true.
Proof.
  destruct example_text_decodes as (one & Hone & Hd). split.
  - pose proof (RouterSpecJSON_equivalent (Ok example_text) true) as H. cbv beta iota in H.
    rewrite Hd in H. destruct H as (text & document' & Ht & Hp & Hdialect & Hplace & _).
    { simpl. unfold max_depth. lia. }
    exists one, text, document'. split_and!; [done..|].
    destruct (Hplace [AtMember "schemas"; AtMember "Size"] (example_size one)) as (schema' & Hat & Hv).
    + by repeat (eapply at_member; [reflexivity|discriminate|left; reflexivity|]); apply at_here.
    + reflexivity.
    + exists schema'. split; [done|]. rewrite Hv. vm_compute in Hone. by injection Hone as <-.
  - pose proof (RouterSpecJSON_equivalent (Ok example_text) false) as H. cbv beta iota in H.
    rewrite Hd in H. destruct H as (text & document' & Ht & Hp & Hdialect & _ & Hplace).
    { simpl. unfold max_depth. lia. }
    destruct (Hplace [AtMember "schemas"; AtMember "Nothing"] example_nothing) as (m' & Hat & Hn).
    + by repeat (eapply at_member; [reflexivity|discriminate|left; reflexivity|]); apply at_here.
    + by exists text, document', m'.
Defined.
