(* ===== verification/WsCodec.v ===== *)
(** The WebSocket event codec: [decodeEvent] and [encodeEvent] of
    [openai/internal/websocket/handler.go], on top of the JSON reader. *)
From S2P Require Import Prelude GoStrings JsonString Json Float64 Any Errors Backend.
From S2P Require Import JsonRound DecodeSound.

(** ** decodeEvent *)

Definition protocolError (message : string) : goerror := ProtocolFailure message.

(** The anonymous struct [envelope], and whether a value had a wrong type. *)
Record envelope := mkEnvelope { env_Type : string; env_EventID : string; env_bad : bool }.

(** Decoding one value into a string field: [null] leaves it, anything but a
    string is remembered as an error. *)
Definition store_string (v : json) (old : string) : string * bool :=
  match v with
  | JString s => (s, false)
  | JNull => (old, false)
  | _ => (old, true)
  end.

(** A key selects a field by its name, in any case. *)
Definition store_member (e : envelope) (member : string * json) : envelope :=
  let '(key, v) := member in
  if EqualFold key "type" then
    let '(s, bad) := store_string v (env_Type e) in
    mkEnvelope s (env_EventID e) (env_bad e || bad)
  else if EqualFold key "event_id" then
    let '(s, bad) := store_string v (env_EventID e) in
    mkEnvelope (env_Type e) s (env_bad e || bad)
  else e.

(** [json.Unmarshal(data, &envelope)]; [None] is an error. *)
Definition unmarshal_envelope (data : string) : option envelope :=
  let empty := mkEnvelope "" "" false in
  match parse data with
  | Some JNull => Some empty
  | Some (JObject members) =>
      let e := foldl store_member empty members in
      if env_bad e then None else Some e
  | _ => None
  end.

Definition decodeEvent (data : string) : result goerror Event :=
  match unmarshal_envelope data with
  | None => Err (protocolError "event is not valid JSON")
  | Some e =>
      if string_empty (TrimSpace (env_Type e)) then Err (protocolError "event type is required")
      else Ok (mkEvent (env_Type e) (env_EventID e) data)
  end.

(** ** encodeEvent *)

(** [json.Unmarshal(data, &m)] for a [map[string]any]: the error, or the map,
    which [null] leaves nil. *)
Definition unmarshal_map (data : string) : option (option (list (string * any))) :=
  match parse data with
  | Some JNull => Some None
  | Some (JObject members) =>
      match any_of (JObject members) with
      | Some (AMap m) => Some (Some m)
      | _ => None
      end
  | _ => None
  end.

(** [None] is the panic of an assignment to a nil map. *)
Definition encodeEvent (event : Event) : option (result goerror string) :=
  if string_empty (TrimSpace (ev_Type event))
  then Some (Err (protocolError "backend event type is required"))
  else if string_empty (ev_Data event)
  then Some (Ok (marshal_object
         [("event_id", marshal_string (ev_ID event)); ("type", marshal_string (ev_Type event))]))
  else match unmarshal_map (ev_Data event) with
  | None => Some (Err (protocolError "backend event is not valid JSON"))
  | Some m =>
      let mismatch := match map_get "type" (default [] m) with
        | Some (AString existing) => negb (bool_decide (existing = ev_Type event))
        | _ => false
        end in
      if mismatch
      then Some (Err (protocolError "backend event type does not match its payload"))
      else match m with
      | None => None
      | Some m =>
          let m := map_set "type" (AString (ev_Type event)) m in
          let m := if string_empty (ev_ID event) then m
                   else map_set "event_id" (AString (ev_ID event)) m in
          Some (Ok (marshal_any (AMap m)))
      end
  end.

(** ** Specification of the envelope *)

(** The members that select a field, and the string the last of them gives it. *)
Definition selects (field : string) (member : string * json) : bool :=
  bool_decide (string_map lower member.1 = field).

Definition member_string (member : string * json) : option string :=
  match member.2 with JString s => Some s | _ => None end.

Definition field_value (field : string) (members : list (string * json)) : string :=
  default "" (last (omap member_string (List.filter (selects field) members))).

Definition field_typed (field : string) (members : list (string * json)) : Prop :=
  Forall (λ member, selects field member = true → member.2 = JNull ∨ is_Some (member_string member))
    members.

(** ** Lemmas *)

Lemma store_member_spec e key v :
  store_member e (key, v) =
    if selects "type" (key, v) then
      mkEnvelope (store_string v (env_Type e)).1 (env_EventID e)
        (env_bad e || (store_string v (env_Type e)).2)
    else if selects "event_id" (key, v) then
      mkEnvelope (env_Type e) (store_string v (env_EventID e)).1
        (env_bad e || (store_string v (env_EventID e)).2)
    else e.
Proof.
  unfold store_member, selects. cbn [fst]. rewrite !EqualFold_plain by done.
  change (string_map lower "type") with "type". change (string_map lower "event_id") with "event_id".
  repeat case_match; simplify_eq/=; done.
Qed.

Lemma field_value_snoc field members member :
  field_value field (members ++ [member]) =
    if selects field member
    then default (field_value field members) (member_string member)
    else field_value field members.
Proof.
  unfold field_value. rewrite List.filter_app, omap_app. simpl.
  destruct (selects field member); simpl; [|by rewrite app_nil_r].
  destruct (member_string member); simpl; [by rewrite last_snoc|by rewrite app_nil_r].
Qed.

Lemma selects_type_event_id member :
  selects "type" member = true → selects "event_id" member = false.
Proof. unfold selects. rewrite bool_decide_eq_true. by intros ->. Qed.

Lemma store_string_typed key v old :
  (store_string v old).2 = false ↔ v = JNull ∨ is_Some (member_string (key, v)).
Proof.
  destruct v; simpl; split; try done; auto; try (by intros [|[]]).
Qed.

Lemma store_members_spec members :
  let e := foldl store_member (mkEnvelope "" "" false) members in
  env_Type e = field_value "type" members ∧ env_EventID e = field_value "event_id" members ∧
  (env_bad e = false ↔ field_typed "type" members ∧ field_typed "event_id" members).
Proof.
  induction members as [|[key v] members (H1 & H2 & H3)] using rev_ind.
  { split_and!; [done..|]. split; [|done]. by split; constructor. }
  rewrite foldl_app. cbn [foldl]. rewrite store_member_spec, !field_value_snoc.
  unfold field_typed in *. rewrite !Forall_app, !Forall_singleton.
  destruct (selects "type" (key, v)) eqn:Ht.
  - rewrite (selects_type_event_id _ Ht). cbn [env_Type env_EventID env_bad].
    rewrite orb_false_iff, H3, H2, H1, (store_string_typed key). split; [by destruct v|].
    split; [done|]. clear. intuition congruence.
  - destruct (selects "event_id" (key, v)) eqn:He; cbn [env_Type env_EventID env_bad].
    + rewrite orb_false_iff, H3, H2, H1, (store_string_typed key). split; [done|].
      split; [by destruct v|]. clear. intuition congruence.
    + rewrite H3. split_and!; [done..|]. clear. intuition congruence.
Qed.

(** What the encoder produced, as the reader of a [map[string]any] gets it. *)
Lemma unmarshal_marshal m : lossless max_depth (AMap m) → unmarshal_map (marshal_any (AMap m)) = Some (Some m).
Proof.
  intros Hm. pose proof (lossless_decode _ Hm) as Hd. destruct Hm as [He Hn].
  unfold unmarshal_map. rewrite (parse_marshal_any _ He Hn) in Hd |- *. cbn [json_of] in Hd |- *.
  cbn [mbind option_bind] in Hd. by rewrite Hd.
Qed.

Lemma unmarshal_map_lossless data m :
  unmarshal_map data = Some (Some m) → lossless max_depth (AMap m).
Proof.
  intros H. apply (decoded_lossless data). unfold unmarshal_map in H.
  destruct (parse data) as [[| | | | |ms]|]; try done. cbn [mbind option_bind].
  destruct (any_of (JObject ms)) as [[| | | | |m']|]; try done. by injection H as ->.
Qed.

(** The successful cases of the encoder. *)
Definition discriminated (event : Event) (payload : list (string * any)) : list (string * any) :=
  let m := map_set "type" (AString (ev_Type event)) payload in
  if string_empty (ev_ID event) then m else map_set "event_id" (AString (ev_ID event)) m.

Lemma encodeEvent_Ok event text :
  encodeEvent event = Some (Ok text) →
  TrimSpace (ev_Type event) ≠ "" ∧
  (ev_Data event = "" ∧
     text = marshal_any (AMap [("event_id", AString (ev_ID event)); ("type", AString (ev_Type event))]) ∨
   ∃ payload, ev_Data event ≠ "" ∧ unmarshal_map (ev_Data event) = Some (Some payload) ∧
     (∀ existing, map_get "type" payload = Some (AString existing) → existing = ev_Type event) ∧
     text = marshal_any (AMap (discriminated event payload))).
Proof.
  unfold encodeEvent. destruct (TrimSpace (ev_Type event)) as [|c t]; cbn [string_empty]; [done|].
  destruct (string_empty (ev_Data event)) eqn:Hd.
  { intros [= <-]. split; [done|]. left. by destruct (ev_Data event). }
  intros Henc. split; [done|]. right.
  destruct (unmarshal_map (ev_Data event)) as [[m|]|] eqn:Hu; [|by destruct (match _ with Some _ => _ | None => _ end)|done].
  change (default [] (Some m)) with m in Henc.
  destruct (match map_get "type" m with
            | Some (AString existing) => negb (bool_decide (existing = ev_Type event))
            | _ => false end) eqn:Hmis; [done|]. injection Henc as <-.
  exists m. split_and!; [by intros H; rewrite H in Hd|done| |done].
  intros existing Hg. rewrite Hg in Hmis. by apply negb_false_iff, bool_decide_eq_true in Hmis.
Qed.

Lemma discriminated_get event payload key :
  map_get key (discriminated event payload) =
    if bool_decide (key = "type") then Some (AString (ev_Type event))
    else if bool_decide (key = "event_id") && negb (string_empty (ev_ID event))
    then Some (AString (ev_ID event)) else map_get key payload.
Proof.
  unfold discriminated. destruct (string_empty (ev_ID event)); cbn [negb].
  - by rewrite map_get_set, andb_false_r.
  - rewrite !map_get_set, andb_true_r.
    destruct (bool_decide_reflect (key = "event_id")) as [->|]; [done|].
    by destruct (bool_decide (key = "type")).
Qed.

Lemma max_depth_pos : ∃ depth, max_depth = S depth.
Proof. exists 9999. by vm_compute. Qed.

Lemma discriminated_lossless event payload :
  valid_utf8 (ev_Type event) = true → valid_utf8 (ev_ID event) = true →
  lossless max_depth (AMap payload) → lossless max_depth (AMap (discriminated event payload)).
Proof.
  intros Ht Hid. destruct max_depth_pos as [depth ->]. intros Hp. unfold discriminated.
  assert (∀ s, valid_utf8 s = true → lossless depth (AString s)) as Hs by (intros s ?; split; simpl; [done|lia]).
  destruct (string_empty (ev_ID event)); repeat (apply lossless_set; [done|by apply Hs|]); done.
Qed.

(** ** Properties *)

(** C32. A frame becomes an event exactly when it is a JSON object whose type
    and identifier members, found under any case of their names, are strings or
    null, and whose type is not blank: the event carries the last string of
    each, and the frame itself as its payload, byte for byte. *)
Theorem decodeEvent_spec data event :
  decodeEvent data = Ok event ↔
    ∃ members, parse data = Some (JObject members) ∧
      field_typed "type" members ∧ field_typed "event_id" members ∧
      TrimSpace (field_value "type" members) ≠ "" ∧
      event = mkEvent (field_value "type" members) (field_value "event_id" members) data.
Proof.
  unfold decodeEvent, unmarshal_envelope.
  destruct (parse data) as [[| | | | |members]|]; try (split; [done|by intros (? & ? & _)]).
  pose proof (store_members_spec members) as (H1 & H2 & H3).
  destruct (env_bad (foldl store_member (mkEnvelope "" "" false) members)) eqn:Hbad.
  - split; [done|]. intros (ms & [= <-] & Ht & He & _).
    assert (true = false) as [=] by by apply H3.
  - rewrite H1, H2. destruct (proj1 H3 eq_refl) as [Ht He].
    destruct (TrimSpace (field_value "type" members)) as [|c t] eqn:Htrim; simpl.
    + split; [done|]. intros (ms & [= <-] & _ & _ & Hne & _). congruence.
    + split.
      * intros [= <-]. exists members. split_and!; [done..|congruence|done].
      * by intros (ms & [= <-] & _ & _ & _ & ->).
Qed.

(** What the client is sent is the backend's payload with its
    discriminator and identifier put in: encoding succeeds only for an event
    with a type, whose payload is absent or an object that does not claim
    another type; every other member of the payload is kept as decoded. *)
Theorem encodeEvent_members event text :
  encodeEvent event = Some (Ok text) →
  TrimSpace (ev_Type event) ≠ "" ∧
  (ev_Data event = "" ∧
     text = marshal_any (AMap [("event_id", AString (ev_ID event)); ("type", AString (ev_Type event))]) ∨
   ∃ members m m', parse (ev_Data event) = Some (JObject members) ∧
     any_of (JObject members) = Some (AMap m) ∧ text = marshal_any (AMap m') ∧
     (∀ existing, map_get "type" m = Some (AString existing) → existing = ev_Type event) ∧
     ∀ key, map_get key m' =
       if bool_decide (key = "type") then Some (AString (ev_Type event))
       else if bool_decide (key = "event_id") && negb (string_empty (ev_ID event))
       then Some (AString (ev_ID event)) else map_get key m).
Proof.
  intros (Ht & [H|(payload & Hd & Hu & Hty & ->)])%encodeEvent_Ok; (split; [done|]); [by left|right].
  unfold unmarshal_map in Hu.
  destruct (parse (ev_Data event)) as [[| | | | |members]|] eqn:Hp; try done.
  destruct (any_of (JObject members)) as [[| | | | |m]|] eqn:Hm; try done. injection Hu as ->.
  exists members, payload, (discriminated event payload). split_and!; [done..|].
  apply discriminated_get.
Qed.

(** C33. Nothing is lost on the way to the client, numbers apart: the text of
    an encoded event decodes to a map that holds the discriminator, the
    identifier when there is one, and every other member of the backend's
    payload as it decodes; an event without payload becomes those two members. *)
Theorem encodeEvent_round_trip event text :
  valid_utf8 (ev_Type event) = true → valid_utf8 (ev_ID event) = true →
  encodeEvent event = Some (Ok text) →
  let payload := match unmarshal_map (ev_Data event) with Some (Some m) => m | _ => [] end in
  ∃ m, unmarshal_map text = Some (Some m) ∧
    ∀ key, map_get key m =
      if bool_decide (key = "type") then Some (AString (ev_Type event))
      else if bool_decide (key = "event_id") &&
              (negb (string_empty (ev_ID event)) || string_empty (ev_Data event))
      then Some (AString (ev_ID event))
      else map_get key payload.
Proof.
  intros Ht Hid Henc. apply encodeEvent_Ok in Henc as (_ & [[Hd ->]|(payload & Hd & Hu & _ & ->)]).
  - eexists. split; [apply unmarshal_marshal; split|].
    + simpl. by rewrite Ht, Hid.
    + destruct max_depth_pos as [depth ->]. simpl. lia.
    + intros key. rewrite Hd, orb_true_r, andb_true_r. simpl.
      destruct (bool_decide_reflect (key = "type")) as [->|H1]; [done|].
      destruct (bool_decide_reflect (key = "event_id")) as [->|H2]; [done|].
      by rewrite !bool_decide_false.
  - rewrite Hu. eexists. split.
    + apply unmarshal_marshal, discriminated_lossless; [done..|]. by eapply unmarshal_map_lossless.
    + intros key. rewrite discriminated_get. by destruct (ev_Data event); [|rewrite orb_false_r].
Qed.

(** The payload is not preserved as it was written: members pass through
    64-bit floating point, so that a whole number the backend sends reaches the
    client as another one. *)
Theorem encodeEvent_changes_numbers :
  let type := "session.updated" in
  let payload number := quoted "{'item_id':" +:+ number +:+ quoted ",'type':'session.updated'}" in
  encodeEvent (mkEvent type "" (payload "9007199254740993")) =
    Some (Ok (payload "9007199254740992")) ∧
  payload "9007199254740993" ≠ payload "9007199254740992".
Proof. split; [vm_compute; reflexivity|discriminate]. Qed.

(** ** Witnesses *)

Definition example_frame : string :=
  quoted "{'event_id':'e1','type':'session.update','future':{'kept':true}}".

Lemma encodeEvent_members_witness :
  TrimSpace "session.updated" ≠ "" ∧
  ("{}" = "" ∧
     quoted "{'event_id':'e1','type':'session.updated'}" =
       marshal_any (AMap [("event_id", AString "e1"); ("type", AString "session.updated")]) ∨
   ∃ members m m', parse "{}" = Some (JObject members) ∧
     any_of (JObject members) = Some (AMap m) ∧
     quoted "{'event_id':'e1','type':'session.updated'}" = marshal_any (AMap m') ∧
     (∀ existing, map_get "type" m = Some (AString existing) → existing = "session.updated") ∧
     ∀ key, map_get key m' =
       if bool_decide (key = "type") then Some (AString "session.updated")
       else if bool_decide (key = "event_id") && negb (string_empty "e1")
       then Some (AString "e1") else map_get key m).
Proof.
  apply (encodeEvent_members (mkEvent "session.updated" "e1" "{}")
    (quoted "{'event_id':'e1','type':'session.updated'}")).
  vm_compute. reflexivity.
Defined.

Lemma encodeEvent_round_trip_witness :
  ∃ m, unmarshal_map (quoted "{'event_id':'e1','type':'session.updated','x':0.1}") = Some (Some m) ∧
    ∀ key, map_get key m =
      if bool_decide (key = "type") then Some (AString "session.updated")
      else if bool_decide (key = "event_id") && (negb (string_empty "e1") || string_empty (quoted "{'x':1e-1}"))
      then Some (AString "e1")
      else map_get key (match unmarshal_map (quoted "{'x':1e-1}") with Some (Some m) => m | _ => [] end).
Proof.
  apply (encodeEvent_round_trip (mkEvent "session.updated" "e1" (quoted "{'x':1e-1}")));
    vm_compute; reflexivity.
Defined.
