(* ===== verification/World.v ===== *)
(** The effects of an HTTP handler: a response writer, the trace of the calls
    it makes on the outside, panics, and a loop that is still waiting.

    The writer follows the documented contract of [http.ResponseWriter]: any
    number of 1xx informational headers, then one final header that is fixed
    together with the header map; later [WriteHeader] calls and header changes
    are without effect; [Write] sends a final 200 first when there is none;
    statuses 1xx, 204 and 304 carry no body; a code outside 100..999 panics.
    A final header with a [Content-Length] declares the length of the body: a
    write that would pass it fails with [http.ErrContentLength] and sends
    nothing, and so do the writes after it.
    [rw_capacity] is the number of body bytes the connection still accepts
    before every write fails ([None]: it never fails), and [rw_flusher] whether
    the writer implements [http.Flusher]. *)
From S2P Require Import Prelude GoStrings GoHttp Backend.

Record ResponseWriter := mkWriter {
  rw_header : Header;
  rw_informational : list Z;
  rw_status : option Z;
  rw_sent : Header;
  rw_body : string;
  rw_flusher : bool;
  rw_capacity : option nat }.

(** The calls whose order the properties talk about. *)
Inductive action :=
| ActAuthenticate
| ActValidateRequest
| ActHandle (request : Request)
| ActValidateResponse
| ActCloseBody
| ActCloseStream
| ActFlush
| ActOpenSession (request : SessionRequest)
| ActAccept (subprotocols origins : list string)
| ActSetReadLimit (limit : Z)
| ActCancel
| ActCloseSession
| ActCloseConnection (code : Z) (reason : string)
| ActUnregister (id : N).

Record World := mkWorld { w_rw : ResponseWriter; w_trace : list action }.

(** How a call ends: it returns, it panics, or it is still blocked. *)
Inductive outcome (A : Type) :=
| Return (a : A) (w : World)
| Panic (w : World)
| Blocked (w : World).
Arguments Return {A} a w.
Arguments Panic {A} w.
Arguments Blocked {A} w.

Definition M (A : Type) : Type := World → outcome A.

#[export] Instance M_ret : MRet M := λ A a w, Return a w.
#[export] Instance M_bind : MBind M := λ A B f m w,
  match m w with
  | Return a w' => f a w'
  | Panic w' => Panic w'
  | Blocked w' => Blocked w'
  end.

Definition panic {A} : M A := λ w, Panic w.
Definition blocked {A} : M A := λ w, Blocked w.

(** [defer cleanup()] around [body]: it runs on return and on panic. *)
Definition deferred {A} (cleanup : M ()) (body : M A) : M A := λ w,
  match body w with
  | Return a w' => match cleanup w' with
                   | Return _ w'' => Return a w''
                   | Panic w'' => Panic w''
                   | Blocked w'' => Blocked w''
                   end
  | Panic w' => match cleanup w' with
                | Return _ w'' | Panic w'' => Panic w''
                | Blocked w'' => Blocked w''
                end
  | Blocked w' => Blocked w'
  end.

Definition act (a : action) : M () := λ w, Return () (mkWorld (w_rw w) (w_trace w ++ [a])).

Definition with_rw {A} (f : ResponseWriter → A * ResponseWriter) : M A := λ w,
  let '(a, rw) := f (w_rw w) in Return a (mkWorld rw (w_trace w)).

Definition get_rw : M ResponseWriter := with_rw (λ rw, (rw, rw)).

Definition modify_header (f : Header → Header) : M () := with_rw (λ rw,
  ((), mkWriter (f (rw_header rw)) (rw_informational rw) (rw_status rw) (rw_sent rw)
         (rw_body rw) (rw_flusher rw) (rw_capacity rw))).

Definition commit (code : Z) (rw : ResponseWriter) : ResponseWriter :=
  mkWriter (rw_header rw) (rw_informational rw) (Some code) (rw_header rw)
    (rw_body rw) (rw_flusher rw) (rw_capacity rw).

Definition inform (code : Z) (rw : ResponseWriter) : ResponseWriter :=
  mkWriter (rw_header rw) (rw_informational rw ++ [code]) (rw_status rw) (rw_sent rw)
    (rw_body rw) (rw_flusher rw) (rw_capacity rw).

Definition informational (code : Z) : bool :=
  (100 <=? code)%Z && (code <=? 199)%Z && negb (code =? 101)%Z.

Definition WriteHeader (code : Z) : M () := λ w,
  match rw_status (w_rw w) with
  | Some _ => Return () w
  | None =>
      if (code <? 100)%Z || (999 <? code)%Z then Panic w
      else if informational code
      then Return () (mkWorld (inform code (w_rw w)) (w_trace w))
      else Return () (mkWorld (commit code (w_rw w)) (w_trace w))
  end.

Definition bodyAllowed (status : Z) : bool :=
  negb ((100 <=? status)%Z && (status <=? 199)%Z) &&
  negb (status =? 204)%Z && negb (status =? 304)%Z.

(** The length a header map declares for the body: the first [Content-Length],
    which net/http ignores when it is not a natural number of 63 bits. *)
Definition declared_length (h : Header) : option Z :=
  match Atoi (header_get h "Content-Length") with
  | Some n => if (0 <=? n)%Z then Some n else None
  | None => None
  end.

(** Whether a body of [n] bytes is longer than what the header declared. *)
Definition exceeds (h : Header) (n : nat) : bool :=
  match declared_length h with Some declared => (declared <? Z.of_nat n)%Z | None => false end.

(** [writer.Write(data)] on the writer itself: whether it failed, and the new
    state. *)
Definition write_rw (data : string) (rw : ResponseWriter) : bool * ResponseWriter :=
  let rw := match rw_status rw with Some _ => rw | None => commit 200 rw end in
  if negb (bodyAllowed (default 200%Z (rw_status rw))) then (true, rw)
  else if exceeds (rw_sent rw) (String.length (rw_body rw) + String.length data)
  then (true, mkWriter (rw_header rw) (rw_informational rw) (rw_status rw) (rw_sent rw)
                (rw_body rw) (rw_flusher rw) (Some 0))
  else match rw_capacity rw with
       | None =>
           (false, mkWriter (rw_header rw) (rw_informational rw) (rw_status rw) (rw_sent rw)
                     (rw_body rw +:+ data) (rw_flusher rw) None)
       | Some room =>
           (bool_decide (room < String.length data),
            mkWriter (rw_header rw) (rw_informational rw) (rw_status rw) (rw_sent rw)
              (rw_body rw +:+ string_take room data) (rw_flusher rw)
              (Some (room - String.length data)))
       end.

Definition Write (data : string) : M bool := with_rw (write_rw data).

Definition Flush : M () := act ActFlush.

(** A fresh writer, as the server hands it to the handler. *)
Definition fresh_writer (flusher : bool) (capacity : option nat) : ResponseWriter :=
  mkWriter ∅ [] None ∅ "" flusher capacity.
Definition fresh_world (flusher : bool) (capacity : option nat) : World :=
  mkWorld (fresh_writer flusher capacity) [].

(** ** Lemmas *)

Lemma M_bind_Return {A B} (m : M A) (f : A → M B) w a w' :
  m w = Return a w' → (m ≫= f) w = f a w'.
Proof. unfold mbind, M_bind. by intros ->. Qed.

Lemma M_bind_Panic {A B} (m : M A) (f : A → M B) w w' :
  m w = Panic w' → (m ≫= f) w = Panic w'.
Proof. unfold mbind, M_bind. by intros ->. Qed.

(** What a write does once the final header is out: it appends a prefix of
    the data, all of it unless it fails. *)
Lemma write_rw_committed data rw st :
  rw_status rw = Some st →
  ∃ failed taken rest rw',
    write_rw data rw = (failed, rw') ∧
    data = taken +:+ rest ∧ (failed = false → rest = "") ∧
    rw_body rw' = rw_body rw +:+ taken ∧ rw_status rw' = Some st ∧
    rw_sent rw' = rw_sent rw ∧ rw_informational rw' = rw_informational rw.
Proof.
  intros Hst. unfold write_rw. rewrite Hst.
  destruct (negb _).
  { exists true, "", data, rw. by rewrite app_nil_r_str. }
  destruct (exceeds _ _).
  { eexists true, "", data, _. split; [reflexivity|]. by rewrite app_nil_r_str. }
  destruct (rw_capacity rw) as [room|].
  - eexists _, (string_take room data), (string_drop room data), _.
    split; [reflexivity|]. rewrite string_take_app_drop. split; [done|]. split; [|done].
    intros Hlt%bool_decide_eq_false.
    pose proof (f_equal String.length (string_take_app_drop room data)) as Hlen.
    rewrite length_app_str, string_take_ge in Hlen by lia.
    destruct (string_drop room data); simpl in Hlen; [done|lia].
  - eexists false, data, "", _. split; [reflexivity|]. by rewrite app_nil_r_str.
Qed.

(** A header map that sets no limit to the body. *)
Lemma exceeds_undeclared h n : declared_length h = None → exceeds h n = false.
Proof. unfold exceeds. by intros ->. Qed.

Lemma declared_length_values h h' :
  header_values h' "Content-Length" = header_values h "Content-Length" →
  declared_length h' = declared_length h.
Proof. unfold declared_length. rewrite !header_get_values. by intros ->. Qed.

Lemma write_rw_unlimited data rw st :
  rw_status rw = Some st → bodyAllowed st = true → rw_capacity rw = None →
  exceeds (rw_sent rw) (String.length (rw_body rw) + String.length data) = false →
  write_rw data rw =
    (false, mkWriter (rw_header rw) (rw_informational rw) (Some st) (rw_sent rw)
              (rw_body rw +:+ data) (rw_flusher rw) None).
Proof.
  intros Hst Hb Hc Hx. unfold write_rw. rewrite Hst, Hst.
  change (default 200%Z (Some st)) with st. by rewrite Hb, Hx, Hc.
Qed.

(** What a write past the declared length does: nothing, for good. *)
Lemma write_rw_exceeds data rw st :
  rw_status rw = Some st → bodyAllowed st = true →
  exceeds (rw_sent rw) (String.length (rw_body rw) + String.length data) = true →
  ∃ rw', write_rw data rw = (true, rw') ∧ rw_body rw' = rw_body rw ∧
    rw_status rw' = Some st ∧ rw_sent rw' = rw_sent rw ∧ rw_capacity rw' = Some 0.
Proof.
  intros Hst Hb Hx. unfold write_rw. rewrite Hst, Hst.
  change (default 200%Z (Some st)) with st. rewrite Hb, Hx. by eexists.
Qed.

(** The connection does not fail, and no length was declared for the body. *)
Definition takes_all (rw : ResponseWriter) : Prop :=
  rw_capacity rw = None ∧ declared_length (rw_header rw) = None.

Lemma takes_all_set key value rw header :
  takes_all rw → rw_header rw = header → CanonicalHeaderKey key ≠ "Content-Length" →
  declared_length (header_set key value header) = None.
Proof.
  intros [_ Hd] <- Hk. rewrite <- Hd. apply declared_length_values. by apply header_values_set_ne.
Qed.

Lemma informational_spec code :
  informational code = true ↔ (100 ≤ code ≤ 199)%Z ∧ code ≠ 101%Z.
Proof.
  unfold informational. rewrite !andb_true_iff, negb_true_iff, !Z.leb_le, Z.eqb_neq. lia.
Qed.

(** A final status commits the header map. *)
Lemma WriteHeader_final code w :
  rw_status (w_rw w) = None → (100 ≤ code ≤ 999)%Z → informational code = false →
  WriteHeader code w = Return () (mkWorld (commit code (w_rw w)) (w_trace w)).
Proof.
  intros Hst Hc Hi. unfold WriteHeader. rewrite Hst, Hi.
  assert ((code <? 100)%Z || (999 <? code)%Z = false) as ->; [|done].
  apply orb_false_iff. rewrite !Z.ltb_ge. lia.
Qed.

(** The writer with its header map changed. *)
Definition with_header (f : Header → Header) (rw : ResponseWriter) : ResponseWriter :=
  mkWriter (f (rw_header rw)) (rw_informational rw) (rw_status rw) (rw_sent rw)
    (rw_body rw) (rw_flusher rw) (rw_capacity rw).

(** How often an action occurs in a trace. *)
Definition count (p : action → bool) (trace : list action) : nat := length (List.filter p trace).

Definition is_handle (a : action) : bool := match a with ActHandle _ => true | _ => false end.
Definition is_close_body (a : action) : bool := match a with ActCloseBody => true | _ => false end.
Definition is_close_stream (a : action) : bool :=
  match a with ActCloseStream => true | _ => false end.

Definition is_open_session (a : action) : bool :=
  match a with ActOpenSession _ => true | _ => false end.
Definition is_close_session (a : action) : bool :=
  match a with ActCloseSession => true | _ => false end.
Definition is_close_connection (a : action) : bool :=
  match a with ActCloseConnection _ _ => true | _ => false end.
Definition is_unregister (a : action) : bool :=
  match a with ActUnregister _ => true | _ => false end.

Lemma count_app p t t' : count p (t ++ t') = count p t + count p t'.
Proof. unfold count. by rewrite List.filter_app, length_app. Qed.

Lemma count_replicate_flush p n : p ActFlush = false → count p (replicate n ActFlush) = 0.
Proof. intros Hp. unfold count. induction n as [|n IH]; [done|]. simpl. by rewrite Hp. Qed.

(** ** What a computation adds to the trace *)

Definition world_of {A} (o : outcome A) : World :=
  match o with Return _ w | Panic w | Blocked w => w end.

(** [m] only adds actions that satisfy [P]. *)
Definition emits {A} (P : action → Prop) (m : M A) : Prop :=
  ∀ w, ∃ l, w_trace (world_of (m w)) = w_trace w ++ l ∧ Forall P l.

Lemma emits_with_rw {A} P (f : ResponseWriter → A * ResponseWriter) : emits P (with_rw f).
Proof.
  intros w. exists []. unfold with_rw. destruct (f _). by rewrite app_nil_r.
Qed.

Lemma emits_ret {A} P (a : A) : emits P (mret a).
Proof. intros w. exists []. by rewrite app_nil_r. Qed.

Lemma emits_blocked {A} P : emits P (@blocked A).
Proof. intros w. exists []. by rewrite app_nil_r. Qed.

Lemma emits_panic {A} P : emits P (@panic A).
Proof. intros w. exists []. by rewrite app_nil_r. Qed.

Lemma emits_act (P : action → Prop) a : P a → emits P (act a).
Proof. intros Ha w. exists [a]. split; [done|by constructor]. Qed.

Lemma emits_WriteHeader P code : emits P (WriteHeader code).
Proof.
  intros w. exists []. unfold WriteHeader. repeat case_match; by rewrite app_nil_r.
Qed.

Lemma emits_bind {A B} P (m : M A) (f : A → M B) :
  emits P m → (∀ a, emits P (f a)) → emits P (m ≫= f).
Proof.
  intros Hm Hf w. destruct (Hm w) as (l & Hl & Hp). unfold mbind, M_bind.
  destruct (m w) as [a w'|w'|w']; simpl in Hl; [|by exists l..].
  destruct (Hf a w') as (l' & Hl' & Hp'). exists (l ++ l').
  rewrite Hl', Hl, (assoc_L (++)). split; [done|]. by apply Forall_app.
Qed.

Lemma emits_deferred {A} P cleanup (m : M A) :
  emits P cleanup → emits P m → emits P (deferred cleanup m).
Proof.
  intros Hc Hm w. destruct (Hm w) as (l & Hl & Hp). unfold deferred.
  destruct (m w) as [a w'|w'|w']; simpl in Hl; [| |by exists l];
    (destruct (Hc w') as (l' & Hl' & Hp'); exists (l ++ l'); split;
      [|by apply Forall_app]; rewrite (assoc_L (++)), <- Hl, <- Hl';
      by destruct (cleanup w')).
Qed.

Lemma emits_impl {A} (P Q : action → Prop) (m : M A) :
  (∀ a, P a → Q a) → emits P m → emits Q m.
Proof.
  intros HPQ Hm w. destruct (Hm w) as (l & Hl & Hp). exists l. split; [done|].
  by eapply Forall_impl.
Qed.

(** Actions that are counted elsewhere do not change a count. *)
Lemma count_none (p : action → bool) l : Forall (λ a, p a = false) l → count p l = 0.
Proof. unfold count. induction 1 as [|a l Ha _ IH]; [done|]. simpl. by rewrite Ha. Qed.

Create HintDb emits.
#[export] Hint Resolve emits_with_rw emits_ret emits_blocked emits_panic emits_WriteHeader
  emits_bind emits_deferred : emits.
#[export] Hint Extern 2 (emits _ (act _)) => apply emits_act; done : emits.
#[export] Hint Extern 3 (emits _ (match ?x with _ => _ end)) => destruct x : emits.
#[export] Hint Extern 1 (∀ _, emits _ _) => intro : emits.
#[export] Hint Extern 4 (emits _ (Write _)) => apply emits_with_rw : emits.
#[export] Hint Extern 4 (emits _ (modify_header _)) => apply emits_with_rw : emits.
#[export] Hint Extern 4 (emits _ get_rw) => apply emits_with_rw : emits.
#[export] Hint Extern 4 (emits _ Flush) => apply emits_act; done : emits.

(** ** Computations that do not panic *)

Definition never_panics {A} (m : M A) : Prop := ∀ w w', m w ≠ Panic w'.

Lemma never_panics_with_rw {A} (f : ResponseWriter → A * ResponseWriter) :
  never_panics (with_rw f).
Proof. intros w w'. unfold with_rw. by destruct (f _). Qed.
Lemma never_panics_ret {A} (a : A) : never_panics (mret a).
Proof. done. Qed.
Lemma never_panics_act a : never_panics (act a).
Proof. done. Qed.
Lemma never_panics_blocked {A} : never_panics (@blocked A).
Proof. done. Qed.
Lemma never_panics_WriteHeader code : (100 ≤ code ≤ 999)%Z → never_panics (WriteHeader code).
Proof.
  intros Hc w w'. unfold WriteHeader. repeat case_match; try done.
  apply orb_true_iff in H0 as [?%Z.ltb_lt|?%Z.ltb_lt]; lia.
Qed.
Lemma never_panics_bind {A B} (m : M A) (f : A → M B) :
  never_panics m → (∀ a, never_panics (f a)) → never_panics (m ≫= f).
Proof.
  intros Hm Hf w w'. unfold mbind, M_bind. specialize (Hm w).
  destruct (m w) as [a w1|w1|w1]; [apply Hf|by destruct (Hm w1)|done].
Qed.
Lemma never_panics_deferred {A} cleanup (m : M A) :
  never_panics cleanup → never_panics m → never_panics (deferred cleanup m).
Proof.
  intros Hc Hm w w'. unfold deferred. specialize (Hm w).
  destruct (m w) as [a w1|w1|w1]; [|by destruct (Hm w1)|done]. specialize (Hc w1).
  destruct (cleanup w1) as [? w2|w2|w2]; [done|by destruct (Hc w2)|done].
Qed.

Create HintDb never_panics.
#[export] Hint Resolve never_panics_with_rw never_panics_ret never_panics_act
  never_panics_blocked never_panics_bind never_panics_deferred : never_panics.
#[export] Hint Extern 1 (∀ _, never_panics _) => intro : never_panics.
#[export] Hint Extern 3 (never_panics (WriteHeader _)) =>
  apply never_panics_WriteHeader; lia : never_panics.
#[export] Hint Extern 3 (never_panics (match ?x with _ => _ end)) => destruct x : never_panics.
#[export] Hint Extern 4 (never_panics (Write _)) => apply never_panics_with_rw : never_panics.
#[export] Hint Extern 4 (never_panics (modify_header _)) => apply never_panics_with_rw : never_panics.
#[export] Hint Extern 4 (never_panics get_rw) => apply never_panics_with_rw : never_panics.
#[export] Hint Extern 4 (never_panics Flush) => apply never_panics_act : never_panics.

(** Whatever happens, [defer cleanup()] runs [cleanup] once, last, unless the
    body is still blocked. *)
Lemma deferred_act {A} a (m : M A) w :
  deferred (act a) m w =
    match m w with
    | Return x w' => Return x (mkWorld (w_rw w') (w_trace w' ++ [a]))
    | Panic w' => Panic (mkWorld (w_rw w') (w_trace w' ++ [a]))
    | Blocked w' => Blocked w'
    end.
Proof. unfold deferred, act. by destruct (m w). Qed.

Lemma deferred_ret {A} (m : M A) w : deferred (mret ()) m w = m w.
Proof. unfold deferred, mret, M_ret. by destruct (m w). Qed.

(** Both predicates follow the structure of a computation. *)
Ltac structural :=
  cbv zeta;
  repeat match goal with
  | |- ∀ _, _ => intro
  | |- emits _ (_ ≫= _) => apply emits_bind
  | |- emits _ (deferred _ _) => apply emits_deferred
  | |- never_panics (_ ≫= _) => apply never_panics_bind
  | |- never_panics (deferred _ _) => apply never_panics_deferred
  | |- emits _ (match ?x with _ => _ end) => destruct x eqn:?
  | |- never_panics (match ?x with _ => _ end) => destruct x eqn:?
  | |- _ => solve [auto with emits never_panics]
  end.

(** A world with more actions behind it. *)
Definition traced (l : list action) (w : World) : World := mkWorld (w_rw w) (w_trace w ++ l).
