(* ===== verification/RestErrors.v ===== *)
(** Error responses of the REST handler: [openai/internal/rest/errors.go]. *)
From S2P Require Import Prelude GoStrings GoHttp Errors Services Backend JsonString Json World.

Definition errorStatus (err : backend_error) : Z :=
  let kind := err_Kind err in
  if bool_decide (kind = ErrorInvalid) then 400
  else if bool_decide (kind = ErrorUnauthorized) then 401
  else if bool_decide (kind = ErrorForbidden) then 403
  else if bool_decide (kind = ErrorNotFound) then 404
  else if bool_decide (kind = ErrorConflict) then 409
  else if bool_decide (kind = ErrorRateLimit) then 429
  else if bool_decide (kind = ErrorUnsupported) then 501
  else if bool_decide (kind = ErrorTimeout) then 408
  else if bool_decide (kind = ErrorCanceled) then 499
  else if bool_decide (kind = ErrorUnavailable) then 503
  else 500.

(** [type errorObject struct], a nil [*string] being [None]. *)
Record errorObject := mkErrorObject {
  eo_Message : string;
  eo_Type : ErrorKind;
  eo_Param : option string;
  eo_Code : option string }.

(** [json.NewEncoder(writer).Encode(errorEnvelope{Error: ...})]: the members
    in field order, with a final newline. *)
Definition encode_envelope (e : errorObject) : string :=
  let opt o := match o with Some s => marshal_string s | None => marshal_nil end in
  marshal_object [("error", marshal_object
    [ ("message", marshal_string (eo_Message e));
      ("type", marshal_string (eo_Type e));
      ("param", opt (eo_Param e));
      ("code", opt (eo_Code e)) ])] +:+ str1 LF.

Definition nonempty (s : string) : option string :=
  if string_empty s then None else Some s.

(** The defaults [writeErrorStatus] stores into the error it is given. *)
Definition fill_defaults (e : backend_error) : backend_error :=
  mkError (if string_empty (err_Kind e) then ErrorInternal else err_Kind e)
    (err_Code e) (err_Param e)
    (if string_empty (err_Message e) then "The request could not be completed." else err_Message e)
    (err_RetryAfter e) (err_Cause e).

(** [writeErrorStatus] stores the defaults into the error it was given, which a
    backend may still hold; the copy here is the value it answers with, and an
    error that was stored into before is answered in the same way
    ([fill_defaults_again]). *)
Definition writeErrorStatus (requestID : string) (status : Z) (e : backend_error) : M () :=
  let e := fill_defaults e in
  let code := nonempty (err_Code e) in
  let param := nonempty (err_Param e) in
  (if (0 <? err_RetryAfter e)%Z
   then modify_header (header_set "Retry-After" (Itoa (err_RetryAfter e)))
   else mret ());;
  modify_header (header_set "Content-Type" "application/json");;
  modify_header (header_set "X-Request-Id" requestID);;
  WriteHeader status;;
  _ ← Write (encode_envelope (mkErrorObject (err_Message e) (err_Kind e) param code));
  mret ().

Definition writeError (requestID : string) (e : backend_error) : M () :=
  writeErrorStatus requestID (errorStatus e) e.

(** A nil [*backend.Error] found by [errors.As] is dereferenced by
    [errorStatus]. *)
Definition writeBackendError (requestID : string) (err : goerror) : M () :=
  match as_backend err with
  | None => writeError requestID
      (simple_error ErrorInternal "The server encountered an internal error.")
  | Some None => panic
  | Some (Some e) => writeError requestID e
  end.

(** ** Lemmas *)

(** The envelope of an error, and the writer after it was sent. *)
Definition error_body (e : backend_error) : string :=
  let e := fill_defaults e in
  encode_envelope (mkErrorObject (err_Message e) (err_Kind e)
    (nonempty (err_Param e)) (nonempty (err_Code e))).

Definition error_header (requestID : string) (e : backend_error) (h : Header) : Header :=
  header_set "X-Request-Id" requestID (header_set "Content-Type" "application/json"
    (if (0 <? err_RetryAfter e)%Z then header_set "Retry-After" (Itoa (err_RetryAfter e)) h
     else h)).

Definition error_rw (requestID : string) (status : Z) (e : backend_error) (rw : ResponseWriter)
    : ResponseWriter :=
  (write_rw (error_body e) (commit status (with_header (error_header requestID e) rw))).2.

Lemma writeErrorStatus_spec requestID status e w :
  rw_status (w_rw w) = None → (200 ≤ status ≤ 599)%Z →
  writeErrorStatus requestID status e w =
    Return () (mkWorld (error_rw requestID status e (w_rw w)) (w_trace w)).
Proof.
  intros Hst Hr. unfold writeErrorStatus, error_rw, error_body, error_header.
  unfold mbind, M_bind, modify_header, Write, with_rw.
  cbn [err_RetryAfter fill_defaults].
  destruct (0 <? err_RetryAfter e)%Z; unfold mret, M_ret; cbn [w_rw w_trace];
    (rewrite WriteHeader_final; [|done|lia|];
     [|apply not_true_is_false; rewrite informational_spec; lia]);
    cbn [w_rw w_trace]; unfold with_header; cbn; by destruct (write_rw _ _).
Qed.

Lemma errorStatus_range e : (400 ≤ errorStatus e ≤ 503)%Z.
Proof. unfold errorStatus. repeat case_match; lia. Qed.

Lemma writeError_spec requestID e w :
  rw_status (w_rw w) = None →
  writeError requestID e w =
    Return () (mkWorld (error_rw requestID (errorStatus e) e (w_rw w)) (w_trace w)).
Proof.
  intros Hst. unfold writeError. pose proof (errorStatus_range e) as Hr. revert Hr.
  generalize (errorStatus e). intros status Hr. apply writeErrorStatus_spec; [exact Hst|lia].
Qed.

Lemma emits_writeErrorStatus P requestID status e : emits P (writeErrorStatus requestID status e).
Proof. unfold writeErrorStatus. auto 10 with emits. Qed.

Lemma never_panics_writeErrorStatus requestID status e :
  (100 ≤ status ≤ 999)%Z → never_panics (writeErrorStatus requestID status e).
Proof. intros. unfold writeErrorStatus. auto 10 with never_panics. Qed.

Lemma error_header_length requestID e h :
  declared_length (error_header requestID e h) = declared_length h.
Proof.
  apply declared_length_values. unfold error_header.
  rewrite !header_values_set_ne by (by vm_compute).
  destruct (0 <? err_RetryAfter e)%Z; by rewrite ?header_values_set_ne by (by vm_compute).
Qed.

(** What the reply is made of: the status, the request identifier, and the
    envelope (all of it on a connection that does not fail). *)
Lemma error_rw_spec requestID status e rw :
  let rw' := error_rw requestID status e rw in
  rw_status rw' = Some status ∧ rw_sent rw' = error_header requestID e (rw_header rw) ∧
  rw_informational rw' = rw_informational rw ∧
  (bodyAllowed status = true → takes_all rw →
   rw_body rw' = rw_body rw +:+ error_body e).
Proof.
  simpl. unfold error_rw.
  destruct (write_rw_committed (error_body e)
    (commit status (with_header (error_header requestID e) rw)) status eq_refl)
    as (f & t & r & rw' & Hw & _ & _ & _ & Hs & Hsent & Hi).
  rewrite Hw. cbn [snd]. split_and!; [done|by rewrite Hsent|by rewrite Hi|].
  intros Hb [Hc Hl]. rewrite (write_rw_unlimited _ _ status) in Hw;
    [by injection Hw as _ <-|done..|].
  apply exceeds_undeclared. simpl. by rewrite error_header_length.
Qed.

Lemma error_header_id requestID e h :
  header_get (error_header requestID e h) "X-Request-Id" = requestID.
Proof. unfold header_get, error_header, header_set. by rewrite lookup_insert_eq. Qed.

#[export] Hint Resolve emits_writeErrorStatus : emits.
#[export] Hint Extern 3 (never_panics (writeErrorStatus _ _ _)) =>
  apply never_panics_writeErrorStatus; lia : never_panics.

(** The part of an error a client may see. *)
Record public_error := mkPublic {
  pub_Kind : ErrorKind; pub_Code : string; pub_Param : string; pub_Message : string;
  pub_RetryAfter : Z }.

Definition public_of (e : backend_error) : public_error :=
  mkPublic (err_Kind e) (err_Code e) (err_Param e) (err_Message e) (err_RetryAfter e).

(** What a client may learn from an [error]: nothing beyond a generic message
    when there is no [*backend.Error] in it. *)
Definition disclosed (err : goerror) : option public_error :=
  match as_backend err with
  | Some (Some e) => Some (public_of e)
  | Some None => None
  | None => Some (public_of
      (simple_error ErrorInternal "The server encountered an internal error."))
  end.

Definition from_public (p : public_error) : backend_error :=
  mkError (pub_Kind p) (pub_Code p) (pub_Param p) (pub_Message p) (pub_RetryAfter p) None.

Lemma writeBackendError_disclosed requestID err w :
  rw_status (w_rw w) = None →
  writeBackendError requestID err w =
    match disclosed err with
    | Some p => let e := from_public p in
        Return () (mkWorld (error_rw requestID (errorStatus e) e (w_rw w)) (w_trace w))
    | None => Panic w
    end.
Proof.
  intros Hst. unfold writeBackendError, disclosed.
  destruct (as_backend err) as [[e|]|]; [|done|]; by rewrite writeError_spec.
Qed.

(** The statuses of the kinds, and the text of the envelope. *)
Lemma errorStatus_table e :
  (err_Kind e, errorStatus e) ∈ [("invalid_request_error", 400); ("authentication_error", 401);
     ("permission_error", 403); ("not_found_error", 404); ("conflict_error", 409);
     ("rate_limit_error", 429); ("unsupported_error", 501); ("timeout_error", 408);
     ("canceled_error", 499); ("service_unavailable_error", 503)]%Z ∨
  errorStatus e = 500%Z ∧ err_Kind e ∉ ["invalid_request_error"; "authentication_error";
     "permission_error"; "not_found_error"; "conflict_error"; "rate_limit_error";
     "unsupported_error"; "timeout_error"; "canceled_error"; "service_unavailable_error"].
Proof.
  unfold errorStatus. generalize (err_Kind e). intros kind.
  repeat (let Hk := fresh "Hk" in
    case_bool_decide as Hk; [left; rewrite Hk; apply (bool_decide_unpack _); by vm_compute|]).
  right. split; [done|]. set_solver.
Qed.

Lemma error_body_text e :
  let optional s := if bool_decide (s = "") then "null" else marshal_string s in
  let or_default d s := if bool_decide (s = "") then d else s in
  error_body e = quoted "{'error':{'message':" +:+
      marshal_string (or_default "The request could not be completed." (err_Message e)) +:+
    quoted ",'type':" +:+ marshal_string (or_default "server_error" (err_Kind e)) +:+
    quoted ",'param':" +:+ optional (err_Param e) +:+
    quoted ",'code':" +:+ optional (err_Code e) +:+ "}}" +:+ str1 LF.
Proof.
  intros optional or_default. unfold error_body, encode_envelope, marshal_object.
  cbn [fmap list_fmap Join fst snd eo_Message eo_Type eo_Param eo_Code fill_defaults
    err_Message err_Kind err_Param err_Code].
  assert (∀ d s, (if string_empty s then d else s) = or_default d s) as Hd
    by (intros ? []; done).
  assert (∀ s, match nonempty s with Some s => marshal_string s | None => marshal_nil end
    = optional s) as Ho by (by intros []).
  change ErrorInternal with "server_error". rewrite !Hd, !Ho.
  generalize (marshal_string (or_default "The request could not be completed." (err_Message e)))
    (marshal_string (or_default "server_error" (err_Kind e)))
    (optional (err_Param e)) (optional (err_Code e)). clear.
  intros message kind param code. by rewrite !app_assoc_str.
Qed.

(** Answering an error whose defaults were already stored changes nothing. *)
Lemma fill_defaults_again requestID e :
  writeError requestID (fill_defaults e) = writeError requestID e.
Proof.
  unfold writeError, writeErrorStatus.
  assert (fill_defaults (fill_defaults e) = fill_defaults e) as ->.
  { destruct e as [[] ? ? [] ? ?]; done. }
  by destruct e as [[] ? ? ? ? ?].
Qed.

(** ** Properties *)

(** C25. A backend error is answered once, under the request identifier and
    with the retry hint: each of the ten kinds has the status listed here and
    every other kind 500, and the body is the envelope with the public message,
    type, parameter and code of the error, each absent text as [null] or its
    default, on a connection that does not fail and without a declared length.
    Whatever wraps the error, and whatever caused it, never reaches the client,
    and an error that is not a [*backend.Error] is answered with a constant. *)
Theorem writeBackendError_reply requestID err p w :
  rw_status (w_rw w) = None → disclosed err = Some p →
  let optional s := if bool_decide (s = "") then "null" else marshal_string s in
  let or_default d s := if bool_decide (s = "") then d else s in
  ∃ rw status, writeBackendError requestID err w = Return () (mkWorld rw (w_trace w)) ∧
    rw_status rw = Some status ∧
    ((pub_Kind p, status) ∈ [("invalid_request_error", 400); ("authentication_error", 401);
        ("permission_error", 403); ("not_found_error", 404); ("conflict_error", 409);
        ("rate_limit_error", 429); ("unsupported_error", 501); ("timeout_error", 408);
        ("canceled_error", 499); ("service_unavailable_error", 503)]%Z ∨
     status = 500%Z ∧ pub_Kind p ∉ ["invalid_request_error"; "authentication_error";
        "permission_error"; "not_found_error"; "conflict_error"; "rate_limit_error";
        "unsupported_error"; "timeout_error"; "canceled_error"; "service_unavailable_error"]) ∧
    header_get (rw_sent rw) "X-Request-Id" = requestID ∧
    header_get (rw_sent rw) "Content-Type" = "application/json" ∧
    ((0 < pub_RetryAfter p)%Z → header_get (rw_sent rw) "Retry-After" = Itoa (pub_RetryAfter p)) ∧
    (takes_all (w_rw w) →
     rw_body rw = rw_body (w_rw w) +:+
       quoted "{'error':{'message':" +:+
         marshal_string (or_default "The request could not be completed." (pub_Message p)) +:+
       quoted ",'type':" +:+ marshal_string (or_default "server_error" (pub_Kind p)) +:+
       quoted ",'param':" +:+ optional (pub_Param p) +:+
       quoted ",'code':" +:+ optional (pub_Code p) +:+ "}}" +:+ str1 LF).
Proof.
  intros Hst Hd optional or_default. rewrite writeBackendError_disclosed, Hd by done.
  set (e := from_public p). exists (error_rw requestID (errorStatus e) e (w_rw w)), (errorStatus e).
  split; [reflexivity|].
  destruct (error_rw_spec requestID (errorStatus e) e (w_rw w)) as (Hs & Hh & _ & Hb).
  split; [done|]. split; [exact (errorStatus_table e)|].
  rewrite Hh, error_header_id. split; [done|].
  unfold error_header, header_get, header_set. split; [by simplify_map_eq|]. split.
  - intros Hr%Z.ltb_lt. change (err_RetryAfter e) with (pub_RetryAfter p). rewrite Hr.
    by simplify_map_eq.
  - intros Ht. rewrite Hb; [by rewrite error_body_text| |done].
    pose proof (errorStatus_range e). unfold bodyAllowed.
    rewrite !andb_true_iff, !negb_true_iff, !Z.eqb_neq, andb_false_iff, !Z.leb_gt. lia.
Qed.

(** No backend error value reaches the client beyond its public fields:
    two errors that disclose the same produce the same reply, whatever their
    causes and wrappers, in every state of the connection. *)
Theorem writeBackendError_hides requestID err err' w :
  rw_status (w_rw w) = None → disclosed err = disclosed err' →
  writeBackendError requestID err w = writeBackendError requestID err' w.
Proof. intros Hst Hd. by rewrite !writeBackendError_disclosed, Hd. Qed.

(** The error kinds a backend may report map to pairwise distinct
    statuses, all of them errors, and an unknown kind is an internal error. *)
Theorem errorStatus_kinds :
  NoDup ((λ k, errorStatus (simple_error k "")) <$> error_kinds) ∧
  ∀ e : backend_error, (400 ≤ errorStatus e ≤ 599)%Z ∧
    (err_Kind e ∉ error_kinds → errorStatus e = 500%Z).
Proof.
  split; [apply (bool_decide_unpack _); by vm_compute|]. intros e.
  pose proof (errorStatus_range e). split; [lia|].
  unfold error_kinds. rewrite !not_elem_of_cons. intros. unfold errorStatus.
  repeat (case_bool_decide; [naive_solver|]). done.
Qed.

(** A nil [*backend.Error] that a backend returns as its [error], which
    [Error()] is written to tolerate, crashes the request: [errorStatus]
    dereferences it before anything is answered. *)
Theorem nil_backend_error_panics requestID text wrapped w :
  writeBackendError requestID (BackendErr None) w = Panic w ∧
  (head (omap as_backend wrapped) = Some None →
   writeBackendError requestID (Opaque text wrapped) w = Panic w) ∧
  Error_text None = "<nil>".
Proof.
  split; [done|]. split; [|done]. intros Hw. unfold writeBackendError.
  by rewrite as_backend_opaque, Hw.
Qed.

(** ** Witnesses *)

Definition example_error : goerror :=
  Opaque "upstream: secret" [BackendErr (Some
    (mkError ErrorRateLimit "slow_down" "" "Try later." 3 (Some (Opaque "secret" []))))].

Lemma writeBackendError_reply_witness :
  ∃ rw, writeBackendError "req_1" example_error (fresh_world true None)
          = Return () (mkWorld rw []) ∧
    rw_status rw = Some 429%Z ∧
    header_get (rw_sent rw) "X-Request-Id" = "req_1" ∧
    header_get (rw_sent rw) "Retry-After" = "3" ∧
    rw_body rw = quoted "{'error':{'message':'Try later.','type':'rate_limit_error','param':null,'code':'slow_down'}}"
      +:+ str1 LF.
Proof.
  destruct (writeBackendError_reply "req_1" example_error
    (mkPublic ErrorRateLimit "slow_down" "" "Try later." 3) (fresh_world true None))
    as (rw & status & Hrun & Hs & Ht & Hid & _ & Hr & Hb); [reflexivity..|].
  exists rw. rewrite Hs, Hid, (Hr eq_refl), Hb by (split; reflexivity).
  split; [done|]. split; [|by vm_compute]. f_equal.
  destruct Ht as [Ht|[_ Hn]]; [|destruct Hn; apply (bool_decide_unpack _); by vm_compute].
  cbn [pub_Kind] in Ht. set_solver.
Defined.

Lemma writeBackendError_hides_witness :
  writeBackendError "req_1" (Opaque "secret" []) (fresh_world true None) =
  writeBackendError "req_1" (Sentinel "other") (fresh_world true None).
Proof.
  apply (writeBackendError_hides "req_1" (Opaque "secret" []) (Sentinel "other")); reflexivity.
Defined.

Lemma nil_backend_error_panics_witness :
  writeBackendError "req_1" (Opaque "wrapped" [BackendErr None]) (fresh_world true None) =
    Panic (fresh_world true None).
Proof.
  apply (nil_backend_error_panics "req_1" "wrapped" [BackendErr None]). reflexivity.
Defined.
