(* ===== verification/RestStream.v ===== *)
(** Server-sent events: [openai/internal/rest/stream.go], with the event
    stream interpretation of the WHATWG HTML standard as the specification of
    what a client reads. *)
From S2P Require Import Prelude GoStrings GoHttp Errors Services Backend JsonString World RestErrors.

(** [sanitizeSSE]: the [Replacer] deletes CR and LF. *)
Definition sanitizeSSE (value : string) : string :=
  string_filter (λ c, negb (bool_decide (c = CR)) && negb (bool_decide (c = LF))) value.

(** The payload of an event without data: [{"type": event.Type}]. *)
Definition event_data (event : Event) : string :=
  if string_empty (ev_Data event)
  then marshal_object [("type", marshal_string (ev_Type event))]
  else ev_Data event.

Definition sse_line (field value : string) : string := field +:+ ": " +:+ value +:+ str1 LF.

Definition sse_data_lines (lines : list string) : string :=
  foldr (λ line rest, sse_line "data" line +:+ rest) "" lines.

(** What one round of the loop puts into the buffer. *)
Definition sse_frame (event : Event) : string :=
  (if string_empty (ev_ID event) then "" else sse_line "id" (sanitizeSSE (ev_ID event))) +:+
  (if string_empty (ev_Type event) then "" else sse_line "event" (sanitizeSSE (ev_Type event))) +:+
  sse_data_lines (Split LF (event_data event)) +:+ str1 LF.

(** The [for]/[select] loop over what the [select] yields.  [buffer.Flush]
    fails when the writer took only part of the frame. *)
Fixpoint sse_loop (tape : list selection) : M () :=
  match tape with
  | [] => blocked
  | SelDone :: _ | SelClosed :: _ => mret ()
  | SelEvent event :: tape =>
      failed ← Write (sse_frame event);
      if (failed : bool) then mret () else Flush;; sse_loop tape
  end.

Definition writeSSE (requestID : string) (status : Z) (stream : list selection) : M () :=
  deferred (act ActCloseStream) (
    rw ← get_rw;
    if negb (rw_flusher rw)
    then writeErrorStatus requestID 500
           (simple_error ErrorInternal "Streaming is not supported by this server.")
    else
      modify_header (header_set "Content-Type" "text/event-stream");;
      modify_header (header_set "Cache-Control" "no-cache");;
      modify_header (header_set "Connection" "keep-alive");;
      WriteHeader status;;
      Flush;;
      sse_loop stream).

(** ** Specification: how a client interprets an event stream *)

(** Lines end with CR LF, LF or CR; the last element is the unfinished line. *)
Fixpoint es_split (s : string) : list string :=
  match s with
  | "" => [""]
  | String c s1 =>
      if bool_decide (c = LF) then "" :: es_split s1
      else if bool_decide (c = CR) then
        match s1 with
        | String d s2 => if bool_decide (d = LF) then "" :: es_split s2 else "" :: es_split s1
        | "" => "" :: es_split s1
        end
      else match es_split s1 with
           | [] => [str1 c]
           | line :: lines => String c line :: lines
           end
  end.

Record message := mkMessage { msg_type : string; msg_data : string; msg_id : string }.
#[export] Instance message_eq_dec : EqDecision message.
Proof. solve_decision. Defined.

Record es_state := mkEs {
  es_data : string; es_type : string; es_last_id : string; es_out : list message }.

Definition es_dispatch (st : es_state) : es_state :=
  if string_empty (es_data st) then mkEs "" "" (es_last_id st) (es_out st)
  else mkEs "" "" (es_last_id st)
         (es_out st ++ [mkMessage (es_type st)
            (TrimSuffix (es_data st) (str1 LF)) (es_last_id st)]).

Definition es_field (field value : string) (st : es_state) : es_state :=
  if bool_decide (field = "data")
  then mkEs (es_data st +:+ value +:+ str1 LF) (es_type st) (es_last_id st) (es_out st)
  else if bool_decide (field = "event") then mkEs (es_data st) value (es_last_id st) (es_out st)
  else if bool_decide (field = "id")
  then if free_of (byte_of 0) value
       then mkEs (es_data st) (es_type st) value (es_out st) else st
  else st.

Definition es_line (st : es_state) (line : string) : es_state :=
  if string_empty line then es_dispatch st
  else let '(field, value, found) := Cut ":"%char line in
       if string_empty field && found then st
       else es_field field (default value (CutPrefix value " ")) st.

(** The messages a client dispatches for a whole stream. *)
Definition es_parse (s : string) : list message :=
  es_out (foldl es_line (mkEs "" "" "" []) (removelast (es_split s))).



(** ** Lemmas: lines *)

(** The lines of a frame, and text made of finished lines. *)
Definition frame_lines (event : Event) : list string :=
  (if string_empty (ev_ID event) then [] else ["id: " +:+ sanitizeSSE (ev_ID event)]) ++
  (if string_empty (ev_Type event) then [] else ["event: " +:+ sanitizeSSE (ev_Type event)]) ++
  ((λ line, "data: " +:+ line) <$> Split LF (event_data event)) ++ [""].

Definition unlines (ls : list string) (rest : string) : string :=
  foldr (λ l r, l +:+ String LF r) rest ls.

Definition clean (l : string) : bool := free_of LF l && free_of CR l.

Lemma unlines_app ls ls' rest : unlines (ls ++ ls') rest = unlines ls (unlines ls' rest).
Proof. apply foldr_app. Qed.


Lemma es_split_line l rest :
  clean l = true → es_split (l +:+ String LF rest) = l :: es_split rest.
Proof.
  unfold clean, free_of. induction l as [|c l IH]; intros Hc.
  - done.
  - rewrite app_cons_str. simpl in *.
    apply andb_true_iff in Hc as [[H1 H2]%andb_true_iff [H3 H4]%andb_true_iff].
    apply negb_true_iff in H1, H3. rewrite H1, H3, IH by (by rewrite H2, H4). done.
Qed.


Lemma sse_data_lines_unlines ls rest :
  sse_data_lines ls +:+ rest = unlines ((λ l, "data: " +:+ l) <$> ls) rest.
Proof.
  induction ls as [|l ls IH]; [done|]. csimpl. rewrite app_assoc_str, IH.
  unfold sse_line. by autorewrite with str.
Qed.

Lemma sse_frame_unlines e rest : sse_frame e +:+ rest = unlines (frame_lines e) rest.
Proof.
  unfold sse_frame, frame_lines. rewrite !unlines_app, !app_assoc_str, sse_data_lines_unlines.
  simpl. destruct (string_empty (ev_ID e)), (string_empty (ev_Type e)); simpl;
    unfold sse_line; by autorewrite with str.
Qed.




(** ** Lemmas: the client *)

Lemma es_line_field st field value :
  free_of ":"%char field = true → string_empty field = false →
  es_line st (field +:+ ": " +:+ value) = es_field field value st.
Proof.
  intros Hf He. unfold es_line.
  change (": " +:+ value) with (String ":" (String " " value)).
  rewrite Cut_free, He by done. destruct field; [done|]. rewrite app_cons_str. simpl.
  done.
Qed.

Lemma es_line_data st v : es_line st ("data: " +:+ v) = es_field "data" v st.
Proof. exact (es_line_field st "data" v eq_refl eq_refl). Qed.
Lemma es_line_event st v : es_line st ("event: " +:+ v) = es_field "event" v st.
Proof. exact (es_line_field st "event" v eq_refl eq_refl). Qed.

Lemma es_line_empty st : es_line st "" = es_dispatch st.
Proof. done. Qed.
Lemma es_field_data v st :
  es_field "data" v st = mkEs (es_data st +:+ v +:+ str1 LF) (es_type st) (es_last_id st) (es_out st).
Proof. done. Qed.
Lemma es_field_event v st :
  es_field "event" v st = mkEs (es_data st) v (es_last_id st) (es_out st).
Proof. done. Qed.





Definition sse_frames (events : list Event) : string :=
  foldr (λ e r, sse_frame e +:+ r) "" events.




(** ** Lemmas: the loop *)

(** The events received before the loop ends. *)
Fixpoint tape_events (tape : list selection) : list Event :=
  match tape with
  | SelEvent e :: tape => e :: tape_events tape
  | _ => []
  end.

(** The stream ends: the channel is closed or the request is cancelled. *)
Definition tape_ends (tape : list selection) : bool :=
  existsb (λ s, match s with SelEvent _ => false | _ => true end) tape.

Lemma sse_frames_app es es' : sse_frames (es ++ es') = sse_frames es +:+ sse_frames es'.
Proof. induction es as [|e es IH]; [done|]. simpl. by rewrite IH, app_assoc_str. Qed.

(** The loop, once the header is out: it only writes frames in order and
    flushes; what it wrote is a prefix of the frames of the events received,
    and all of them while it still waits, which it does only when the stream
    has not ended. *)
Lemma sse_loop_spec tape w st :
  rw_status (w_rw w) = Some st →
  ∃ n written rest w',
    (sse_loop tape w = Return () w' ∨
     sse_loop tape w = Blocked w' ∧ tape_ends tape = false ∧ rest = "") ∧
    w_trace w' = w_trace w ++ replicate n ActFlush ∧
    rw_body (w_rw w') = rw_body (w_rw w) +:+ written ∧
    rw_status (w_rw w') = Some st ∧ rw_sent (w_rw w') = rw_sent (w_rw w) ∧
    sse_frames (tape_events tape) = written +:+ rest.
Proof.
  revert w. induction tape as [|[|e|] tape IH]; intros w Hst; simpl.
  - exists 0, "", "", w. rewrite app_nil_r, app_nil_r_str. split_and!; auto.
  - exists 0, "", "", w. rewrite app_nil_r, app_nil_r_str. split_and!; auto.
  - destruct (write_rw_committed (sse_frame e) _ _ Hst)
      as (failed & taken & rest & rw' & Hw & Hd & Hfull & Hb & Hs & Hsent & _).
    unfold mbind, M_bind, Write, with_rw. rewrite Hw. destruct failed.
    + exists 0, taken, (rest +:+ sse_frames (tape_events tape)). eexists.
      split; [left; reflexivity|]. simpl. rewrite app_nil_r, Hd, app_assoc_str. split_and!; auto.
    + rewrite (Hfull eq_refl), app_nil_r_str in Hd. subst taken. simpl.
      edestruct (IH (mkWorld rw' (w_trace w ++ [ActFlush])))
        as (n & written & rest' & w' & Hloop & Ht & Hb' & Hs' & Hsent' & Hr); [done|].
      exists (S n), (sse_frame e +:+ written), rest', w'. split; [exact Hloop|]. simpl in *.
      rewrite Ht, Hb', Hsent', Hb, Hr, !app_assoc_str, <- (assoc_L (++)). split_and!; auto.
  - exists 0, "", "", w. rewrite app_nil_r, app_nil_r_str. split_and!; auto.
Qed.


Lemma es_split_cr l rest :
  clean l = true → match rest with String c _ => c ≠ LF | "" => False end →
  es_split (l +:+ String CR rest) = l :: es_split rest.
Proof.
  unfold clean, free_of. intros Hc Hlf. induction l as [|d l IH].
  - rewrite app_nil_l_str. destruct rest as [|c rest]; [done|].
    change (es_split (String CR (String c rest))) with
      (if bool_decide (c = LF) then "" :: es_split rest else "" :: es_split (String c rest)).
    by rewrite bool_decide_false.
  - rewrite app_cons_str. simpl in Hc.
    apply andb_true_iff in Hc as [[H1 H2]%andb_true_iff [H3 H4]%andb_true_iff].
    specialize (IH ltac:(by rewrite H2, H4)). apply negb_true_iff in H1, H3.
    cbn [es_split]. by rewrite H1, H3, IH.
Qed.

Lemma string_filter_id f s : string_forallb f s = true → string_filter f s = s.
Proof.
  induction s as [|c s IH]; [done|]. simpl. rewrite andb_true_iff. intros [Hc Hs].
  by rewrite Hc, IH.
Qed.

(** The loop only flushes, and does not panic. *)
Lemma emits_sse_loop (P : action → Prop) tape : P ActFlush → emits P (sse_loop tape).
Proof.
  intros HP. induction tape as [|[|e|] tape IH]; simpl; auto with emits.
Qed.

Lemma never_panics_sse_loop tape : never_panics (sse_loop tape).
Proof. induction tape as [|[|e|] tape IH]; simpl; auto with never_panics. Qed.

(** The loop waits only at the end of a tape that does not end. *)
Lemma sse_loop_blocked tape w w' : sse_loop tape w = Blocked w' → tape_ends tape = false.
Proof.
  revert w. induction tape as [|[|e|] tape IH]; intros w; [done|done| |done].
  simpl. unfold mbind at 1, M_bind at 1, Write, with_rw. destruct (write_rw _ _) as [[] rw]; [done|].
  apply IH.
Qed.

Lemma writeSSE_blocked rid status tape w w' :
  writeSSE rid status tape w = Blocked w' → tape_ends tape = false.
Proof.
  unfold writeSSE. rewrite deferred_act. erewrite M_bind_Return by reflexivity. cbv beta.
  destruct (rw_flusher (w_rw w)); cbn [negb].
  - do 3 (erewrite M_bind_Return by reflexivity). unfold mbind at 1, M_bind at 1.
    destruct (WriteHeader status _) as [[] w1|w1|w1] eqn:E; [|done|].
    + erewrite M_bind_Return by reflexivity. destruct (sse_loop _ _) eqn:El; [done..|].
      intros _. by eapply sse_loop_blocked.
    + unfold WriteHeader in E. repeat case_match; done.
  - unfold writeErrorStatus, mbind, M_bind, modify_header, Write, with_rw, WriteHeader, mret, M_ret.
    intros H. repeat (case_match; simplify_eq).
Qed.

(** ** Properties *)

(** The header map a stream is sent with. *)
Definition sse_header (h : Header) : Header :=
  header_set "Connection" "keep-alive"
    (header_set "Cache-Control" "no-cache"
       (header_set "Content-Type" "text/event-stream" h)).


(** What [writeSSE] does before its loop. *)
Lemma writeSSE_unfold rid status tape w :
  rw_flusher (w_rw w) = true → rw_status (w_rw w) = None →
  (200 ≤ status ≤ 599)%Z →
  writeSSE rid status tape w =
    deferred (act ActCloseStream) (sse_loop tape)
      (mkWorld (commit status (with_header sse_header (w_rw w))) (w_trace w ++ [ActFlush])).
Proof.
  intros Hf Hst Hr. unfold writeSSE, deferred.
  unfold mbind, M_bind, get_rw, modify_header, with_rw. cbn [w_rw rw_flusher]. rewrite Hf.
  cbn [negb]. rewrite WriteHeader_final; [done..|lia|].
  apply not_true_is_false. rewrite informational_spec. lia.
Qed.


(** C27. Whatever the stream yields and however the connection fails,
    [writeSSE] never panics; it stays in its loop only while the stream has
    neither ended nor been cancelled; and whenever it returns it has closed
    the stream exactly once, after the last flush, having written nothing but
    a prefix of the frames of the received events. *)
Theorem writeSSE_safe rid status tape w :
  rw_flusher (w_rw w) = true → rw_status (w_rw w) = None → (200 ≤ status ≤ 599)%Z →
  ∃ n written rest w',
    (writeSSE rid status tape w = Return () w' ∧
       w_trace w' = w_trace w ++ replicate n ActFlush ++ [ActCloseStream] ∨
     writeSSE rid status tape w = Blocked w' ∧ tape_ends tape = false ∧
       w_trace w' = w_trace w ++ replicate n ActFlush) ∧
    rw_status (w_rw w') = Some status ∧
    rw_body (w_rw w') = rw_body (w_rw w) +:+ written ∧
    sse_frames (tape_events tape) = written +:+ rest.
Proof.
  intros Hf Hst Hr. rewrite writeSSE_unfold by done.
  destruct (sse_loop_spec tape
    (mkWorld (commit status (with_header sse_header (w_rw w))) (w_trace w ++ [ActFlush])) status)
    as (n & written & rest & w' & Hl & Ht & Hb & Hs & _ & Hr'); [done|].
  unfold deferred. simpl in *. rewrite <- (assoc_L (++)) in Ht. destruct Hl as [Hl|(Hl & Hn & _)]; rewrite Hl.
  - eexists (S n), written, rest, _. split; [left; split; [reflexivity|]|done].
    simpl. by rewrite Ht, <- !(assoc_L (++)).
  - exists (S n), written, rest, w'. split; [by right|done].
Qed.

(** A carriage return in the data is not escaped, although it is legal
    white space in JSON: a client reads the rest of the payload as further
    lines of the stream, so that one backend event becomes two messages, the
    second with contents taken from the payload. *)
Theorem sse_data_cr_splits_event t payload :
  free_of LF t = true → free_of CR t = true → string_empty t = false →
  free_of LF payload = true → free_of CR payload = true →
  es_parse (sse_frame (mkEvent t ""
    ("{}" +:+ String CR (String CR ("data: " +:+ payload))))) =
  [mkMessage t "{}" ""; mkMessage "" payload ""].
Proof.
  intros Ht1 Ht2 Ht3 Hp1 Hp2.
  assert (sanitizeSSE t = t) as Hsan.
  { apply string_filter_id. clear Ht3. unfold free_of in *.
    induction t as [|c t IH]; [done|]. simpl in *. rewrite !andb_true_iff in *. naive_solver. }
  unfold es_parse. rewrite <- (app_nil_r_str (sse_frame _)), sse_frame_unlines.
  unfold frame_lines, event_data. cbn [ev_ID ev_Type ev_Data]. rewrite Ht3, Hsan.
  cbn [string_empty].
  change (string_empty ("{}" +:+ ?x)) with false. cbv iota.
  rewrite Split_single by exact Hp1. cbn [app fmap list_fmap unlines foldr].
  assert (∀ l, free_of LF l = true → free_of CR l = true → clean l = true) as Hcl.
  { intros l Hl1 Hl2. unfold clean. by rewrite Hl1, Hl2. }
  rewrite es_split_line by (by apply Hcl). rewrite (app_nil_l_str (String LF "")).

  replace (("data: " +:+ "{}" +:+ String CR (String CR ("data: " +:+ payload))) +:+
             String LF (String LF ""))
    with ("data: {}" +:+ String CR (String CR (("data: " +:+ payload) +:+ String LF (String LF ""))))
    by (by autorewrite with str).
  rewrite es_split_cr by done.
  pose proof (es_split_cr "" (("data: " +:+ payload) +:+ String LF (String LF ""))
    eq_refl ltac:(done)) as Hcr. rewrite app_nil_l_str in Hcr. rewrite Hcr. clear Hcr.
  rewrite es_split_line by (by apply Hcl).
  assert (∀ a b c d : string, removelast [a; b; c; d; ""; ""] = [a; b; c; d; ""]) as Hrl by done.
  change (es_split (String LF "")) with [""; ""]. rewrite Hrl. cbn [foldl].
  rewrite es_line_event, es_line_data.
  change (es_line ?st "data: {}") with (es_field "data" "{}" st).
  rewrite !es_line_empty, !es_field_data, es_field_event.
  cbn [es_data es_type es_last_id es_out]. unfold es_dispatch.
  cbn [es_data es_type es_last_id es_out]. rewrite !app_nil_l_str.
  assert (string_empty ("{}" +:+ str1 LF) = false) as -> by done.
  cbn [es_data es_type es_last_id es_out].
  rewrite (TrimSuffix_app payload (str1 LF)), (TrimSuffix_app "{}" (str1 LF)).
  by destruct payload.
Qed.

(** ** Witnesses *)



Lemma writeSSE_safe_witness :
  ∃ n written rest w',
    (writeSSE "req_1" 200 [SelEvent (mkEvent "t" "" "{}"); SelDone] (fresh_world true (Some 5))
       = Return () w' ∧
       w_trace w' = [] ++ replicate n ActFlush ++ [ActCloseStream] ∨
     writeSSE "req_1" 200 [SelEvent (mkEvent "t" "" "{}"); SelDone] (fresh_world true (Some 5))
       = Blocked w' ∧
       tape_ends [SelEvent (mkEvent "t" "" "{}"); SelDone] = false ∧
       w_trace w' = [] ++ replicate n ActFlush) ∧
    rw_status (w_rw w') = Some 200%Z ∧ rw_body (w_rw w') = "" +:+ written ∧
    sse_frames [mkEvent "t" "" "{}"] = written +:+ rest.
Proof.
  apply (writeSSE_safe "req_1" 200 [SelEvent (mkEvent "t" "" "{}"); SelDone]
           (fresh_world true (Some 5))); try reflexivity. lia.
Defined.

Lemma sse_data_cr_splits_event_witness :
  es_parse (sse_frame (mkEvent "response.created" ""
    ("{}" +:+ String CR (String CR ("data: " +:+ "smuggled"))))) =
  [mkMessage "response.created" "{}" ""; mkMessage "" "smuggled" ""].
Proof. apply (sse_data_cr_splits_event "response.created" "smuggled"); reflexivity. Defined.
