(* ===== verification/ProfileData.v ===== *)
(** The frozen profile: the two tables of
    [openai/internal/profile/profile.gen.go], entry by entry, and the types of
    their entries ([openai/internal/profile/profile.go]).

    The operation table is cut in two only to keep the terms small;
    [Operations] is their concatenation.  [compressedSpecBase64] is data for
    the OpenAPI library and is not represented. *)
From S2P Require Import Prelude.

Record Operation := mkOperation {
  op_Method : string;
  op_Path : string;
  op_ID : string;
  op_Capability : string;
  op_RequestMedia : list string;
  op_ResponseMedia : list string;
  op_SuccessStatus : Z }.

(** [profile.Event]: one direction-specific WebSocket discriminator. *)
Record ProfileEvent := mkProfileEvent {
  pe_Surface : string;
  pe_Direction : string;
  pe_Type : string }.

#[export] Instance Operation_eq_dec : EqDecision Operation.
Proof. solve_decision. Defined.
#[export] Instance ProfileEvent_eq_dec : EqDecision ProfileEvent.
Proof. solve_decision. Defined.

Definition SpecPathCount : Z := 182.
Definition SpecOperationCount : Z := 288.

Definition Operations_1 : list Operation :=
  [ mkOperation "GET" "/assistants" "listAssistants" "assistants" [] ["application/json"] 200;
    mkOperation "POST" "/assistants" "createAssistant" "assistants" ["application/json"] ["application/json"] 200;
    mkOperation "DELETE" "/assistants/{assistant_id}" "deleteAssistant" "assistants" [] ["application/json"] 200;
    mkOperation "GET" "/assistants/{assistant_id}" "getAssistant" "assistants" [] ["application/json"] 200;
    mkOperation "POST" "/assistants/{assistant_id}" "modifyAssistant" "assistants" ["application/json"] ["application/json"] 200;
    mkOperation "POST" "/audio/speech" "createSpeech" "audio" ["application/json"] ["application/octet-stream"; "text/event-stream"] 200;
    mkOperation "POST" "/audio/transcriptions" "createTranscription" "audio" ["multipart/form-data"] ["application/json"; "text/event-stream"] 200;
    mkOperation "POST" "/audio/translations" "createTranslation" "audio" ["multipart/form-data"] ["application/json"] 200;
    mkOperation "GET" "/audio/voice_consents" "listVoiceConsents" "audio" [] ["application/json"] 200;
    mkOperation "POST" "/audio/voice_consents" "createVoiceConsent" "audio" ["multipart/form-data"] ["application/json"] 200;
    mkOperation "DELETE" "/audio/voice_consents/{consent_id}" "deleteVoiceConsent" "audio" [] ["application/json"] 200;
    mkOperation "GET" "/audio/voice_consents/{consent_id}" "getVoiceConsent" "audio" [] ["application/json"] 200;
    mkOperation "POST" "/audio/voice_consents/{consent_id}" "updateVoiceConsent" "audio" ["application/json"] ["application/json"] 200;
    mkOperation "POST" "/audio/voices" "createVoice" "audio" ["multipart/form-data"] ["application/json"] 200;
    mkOperation "GET" "/batches" "listBatches" "batches" [] ["application/json"] 200;
    mkOperation "POST" "/batches" "createBatch" "batches" ["application/json"] ["application/json"] 200;
    mkOperation "GET" "/batches/{batch_id}" "retrieveBatch" "batches" [] ["application/json"] 200;
    mkOperation "POST" "/batches/{batch_id}/cancel" "cancelBatch" "batches" [] ["application/json"] 200;
    mkOperation "GET" "/chat/completions" "listChatCompletions" "chat" [] ["application/json"] 200;
    mkOperation "POST" "/chat/completions" "createChatCompletion" "chat" ["application/json"] ["application/json"; "text/event-stream"] 200;
    mkOperation "DELETE" "/chat/completions/{completion_id}" "deleteChatCompletion" "chat" [] ["application/json"] 200;
    mkOperation "GET" "/chat/completions/{completion_id}" "getChatCompletion" "chat" [] ["application/json"] 200;
    mkOperation "POST" "/chat/completions/{completion_id}" "updateChatCompletion" "chat" ["application/json"] ["application/json"] 200;
    mkOperation "GET" "/chat/completions/{completion_id}/messages" "getChatCompletionMessages" "chat" [] ["application/json"] 200;
    mkOperation "POST" "/chatkit/sessions" "CreateChatSessionMethod" "chatkit" ["application/json"] ["application/json"] 200;
    mkOperation "POST" "/chatkit/sessions/{session_id}/cancel" "CancelChatSessionMethod" "chatkit" [] ["application/json"] 200;
    mkOperation "GET" "/chatkit/threads" "ListThreadsMethod" "chatkit" [] ["application/json"] 200;
    mkOperation "DELETE" "/chatkit/threads/{thread_id}" "DeleteThreadMethod" "chatkit" [] ["application/json"] 200;
    mkOperation "GET" "/chatkit/threads/{thread_id}" "GetThreadMethod" "chatkit" [] ["application/json"] 200;
    mkOperation "GET" "/chatkit/threads/{thread_id}/items" "ListThreadItemsMethod" "chatkit" [] ["application/json"] 200;
    mkOperation "POST" "/completions" "createCompletion" "completions" ["application/json"] ["application/json"] 200;
    mkOperation "GET" "/containers" "ListContainers" "containers" [] ["application/json"] 200;
    mkOperation "POST" "/containers" "CreateContainer" "containers" ["application/json"] ["application/json"] 200;
    mkOperation "DELETE" "/containers/{container_id}" "DeleteContainer" "containers" [] [] 200;
    mkOperation "GET" "/containers/{container_id}" "RetrieveContainer" "containers" [] ["application/json"] 200;
    mkOperation "GET" "/containers/{container_id}/files" "ListContainerFiles" "containers" [] ["application/json"] 200;
    mkOperation "POST" "/containers/{container_id}/files" "CreateContainerFile" "containers" ["application/json"; "multipart/form-data"] ["application/json"] 200;
    mkOperation "DELETE" "/containers/{container_id}/files/{file_id}" "DeleteContainerFile" "containers" [] [] 200;
    mkOperation "GET" "/containers/{container_id}/files/{file_id}" "RetrieveContainerFile" "containers" [] ["application/json"] 200;
    mkOperation "GET" "/containers/{container_id}/files/{file_id}/content" "RetrieveContainerFileContent" "containers" [] [] 200;
    mkOperation "POST" "/content_provenance_checks" "Createcontentprovenancecheck" "moderations" ["multipart/form-data"] ["application/json"] 200;
    mkOperation "POST" "/conversations" "createConversation" "conversations" ["application/json"] ["application/json"] 200;
    mkOperation "DELETE" "/conversations/{conversation_id}" "deleteConversation" "conversations" [] ["application/json"] 200;
    mkOperation "GET" "/conversations/{conversation_id}" "getConversation" "conversations" [] ["application/json"] 200;
    mkOperation "POST" "/conversations/{conversation_id}" "updateConversation" "conversations" ["application/json"] ["application/json"] 200;
    mkOperation "GET" "/conversations/{conversation_id}/items" "listConversationItems" "conversations" [] ["application/json"] 200;
    mkOperation "POST" "/conversations/{conversation_id}/items" "createConversationItems" "conversations" ["application/json"] ["application/json"] 200;
    mkOperation "DELETE" "/conversations/{conversation_id}/items/{item_id}" "deleteConversationItem" "conversations" [] ["application/json"] 200;
    mkOperation "GET" "/conversations/{conversation_id}/items/{item_id}" "getConversationItem" "conversations" [] ["application/json"] 200;
    mkOperation "POST" "/embeddings" "createEmbedding" "embeddings" ["application/json"] ["application/json"] 200;
    mkOperation "GET" "/evals" "listEvals" "evals" [] ["application/json"] 200;
    mkOperation "POST" "/evals" "createEval" "evals" ["application/json"] ["application/json"] 201;
    mkOperation "DELETE" "/evals/{eval_id}" "deleteEval" "evals" [] ["application/json"] 200;
    mkOperation "GET" "/evals/{eval_id}" "getEval" "evals" [] ["application/json"] 200;
    mkOperation "POST" "/evals/{eval_id}" "updateEval" "evals" ["application/json"] ["application/json"] 200;
    mkOperation "GET" "/evals/{eval_id}/runs" "getEvalRuns" "evals" [] ["application/json"] 200;
    mkOperation "POST" "/evals/{eval_id}/runs" "createEvalRun" "evals" ["application/json"] ["application/json"] 201;
    mkOperation "DELETE" "/evals/{eval_id}/runs/{run_id}" "deleteEvalRun" "evals" [] ["application/json"] 200;
    mkOperation "GET" "/evals/{eval_id}/runs/{run_id}" "getEvalRun" "evals" [] ["application/json"] 200;
    mkOperation "POST" "/evals/{eval_id}/runs/{run_id}" "cancelEvalRun" "evals" [] ["application/json"] 200;
    mkOperation "GET" "/evals/{eval_id}/runs/{run_id}/output_items" "getEvalRunOutputItems" "evals" [] ["application/json"] 200;
    mkOperation "GET" "/evals/{eval_id}/runs/{run_id}/output_items/{output_item_id}" "getEvalRunOutputItem" "evals" [] ["application/json"] 200;
    mkOperation "GET" "/files" "listFiles" "files" [] ["application/json"] 200;
    mkOperation "POST" "/files" "createFile" "files" ["multipart/form-data"] ["application/json"] 200;
    mkOperation "DELETE" "/files/{file_id}" "deleteFile" "files" [] ["application/json"] 200;
    mkOperation "GET" "/files/{file_id}" "retrieveFile" "files" [] ["application/json"] 200;
    mkOperation "GET" "/files/{file_id}/content" "downloadFile" "files" [] ["application/json"] 200;
    mkOperation "POST" "/fine_tuning/alpha/graders/run" "runGrader" "fine_tuning" ["application/json"] ["application/json"] 200;
    mkOperation "POST" "/fine_tuning/alpha/graders/validate" "validateGrader" "fine_tuning" ["application/json"] ["application/json"] 200;
    mkOperation "GET" "/fine_tuning/checkpoints/{fine_tuned_model_checkpoint}/permissions" "listFineTuningCheckpointPermissions" "fine_tuning" [] ["application/json"] 200;
    mkOperation "POST" "/fine_tuning/checkpoints/{fine_tuned_model_checkpoint}/permissions" "createFineTuningCheckpointPermission" "fine_tuning" ["application/json"] ["application/json"] 200;
    mkOperation "DELETE" "/fine_tuning/checkpoints/{fine_tuned_model_checkpoint}/permissions/{permission_id}" "deleteFineTuningCheckpointPermission" "fine_tuning" [] ["application/json"] 200;
    mkOperation "GET" "/fine_tuning/jobs" "listPaginatedFineTuningJobs" "fine_tuning" [] ["application/json"] 200;
    mkOperation "POST" "/fine_tuning/jobs" "createFineTuningJob" "fine_tuning" ["application/json"] ["application/json"] 200;
    mkOperation "GET" "/fine_tuning/jobs/{fine_tuning_job_id}" "retrieveFineTuningJob" "fine_tuning" [] ["application/json"] 200;
    mkOperation "POST" "/fine_tuning/jobs/{fine_tuning_job_id}/cancel" "cancelFineTuningJob" "fine_tuning" [] ["application/json"] 200;
    mkOperation "GET" "/fine_tuning/jobs/{fine_tuning_job_id}/checkpoints" "listFineTuningJobCheckpoints" "fine_tuning" [] ["application/json"] 200;
    mkOperation "GET" "/fine_tuning/jobs/{fine_tuning_job_id}/events" "listFineTuningEvents" "fine_tuning" [] ["application/json"] 200;
    mkOperation "POST" "/fine_tuning/jobs/{fine_tuning_job_id}/pause" "pauseFineTuningJob" "fine_tuning" [] ["application/json"] 200;
    mkOperation "POST" "/fine_tuning/jobs/{fine_tuning_job_id}/resume" "resumeFineTuningJob" "fine_tuning" [] ["application/json"] 200;
    mkOperation "POST" "/images/edits" "createImageEdit" "images" ["application/json"; "multipart/form-data"] ["application/json"; "text/event-stream"] 200;
    mkOperation "POST" "/images/generations" "createImage" "images" ["application/json"] ["application/json"; "text/event-stream"] 200;
    mkOperation "POST" "/images/variations" "createImageVariation" "images" ["multipart/form-data"] ["application/json"] 200;
    mkOperation "GET" "/models" "listModels" "models" [] ["application/json"] 200;
    mkOperation "DELETE" "/models/{model}" "deleteModel" "models" [] ["application/json"] 200;
    mkOperation "GET" "/models/{model}" "retrieveModel" "models" [] ["application/json"] 200;
    mkOperation "POST" "/moderations" "createModeration" "moderations" ["application/json"] ["application/json"] 200;
    mkOperation "GET" "/organization/admin_api_keys" "admin-api-keys-list" "organization" [] ["application/json"] 200;
    mkOperation "POST" "/organization/admin_api_keys" "admin-api-keys-create" "organization" ["application/json"] ["application/json"] 200;
    mkOperation "DELETE" "/organization/admin_api_keys/{key_id}" "admin-api-keys-delete" "organization" [] ["application/json"] 200;
    mkOperation "GET" "/organization/admin_api_keys/{key_id}" "admin-api-keys-get" "organization" [] ["application/json"] 200;
    mkOperation "GET" "/organization/audit_logs" "list-audit-logs" "organization" [] ["application/json"] 200;
    mkOperation "GET" "/organization/certificates" "listOrganizationCertificates" "organization" [] ["application/json"] 200;
    mkOperation "POST" "/organization/certificates" "uploadCertificate" "organization" ["application/json"] ["application/json"] 200;
    mkOperation "POST" "/organization/certificates/activate" "activateOrganizationCertificates" "organization" ["application/json"] ["application/json"] 200;
    mkOperation "POST" "/organization/certificates/deactivate" "deactivateOrganizationCertificates" "organization" ["application/json"] ["application/json"] 200;
    mkOperation "DELETE" "/organization/certificates/{certificate_id}" "deleteCertificate" "organization" [] ["application/json"] 200;
    mkOperation "GET" "/organization/certificates/{certificate_id}" "getCertificate" "organization" [] ["application/json"] 200;
    mkOperation "POST" "/organization/certificates/{certificate_id}" "modifyCertificate" "organization" ["application/json"] ["application/json"] 200;
    mkOperation "GET" "/organization/costs" "usage-costs" "organization" [] ["application/json"] 200;
    mkOperation "GET" "/organization/data_retention" "retrieve-organization-data-retention" "organization" [] ["application/json"] 200;
    mkOperation "POST" "/organization/data_retention" "update-organization-data-retention" "organization" ["application/json"] ["application/json"] 200;
    mkOperation "GET" "/organization/groups" "list-groups" "organization" [] ["application/json"] 200;
    mkOperation "POST" "/organization/groups" "create-group" "organization" ["application/json"] ["application/json"] 200;
    mkOperation "DELETE" "/organization/groups/{group_id}" "delete-group" "organization" [] ["application/json"] 200;
    mkOperation "GET" "/organization/groups/{group_id}" "retrieve-group" "organization" [] ["application/json"] 200;
    mkOperation "POST" "/organization/groups/{group_id}" "update-group" "organization" ["application/json"] ["application/json"] 200;
    mkOperation "GET" "/organization/groups/{group_id}/roles" "list-group-role-assignments" "organization" [] ["application/json"] 200;
    mkOperation "POST" "/organization/groups/{group_id}/roles" "assign-group-role" "organization" ["application/json"] ["application/json"] 200;
    mkOperation "DELETE" "/organization/groups/{group_id}/roles/{role_id}" "unassign-group-role" "organization" [] ["application/json"] 200;
    mkOperation "GET" "/organization/groups/{group_id}/roles/{role_id}" "retrieve-group-role" "organization" [] ["application/json"] 200;
    mkOperation "GET" "/organization/groups/{group_id}/users" "list-group-users" "organization" [] ["application/json"] 200;
    mkOperation "POST" "/organization/groups/{group_id}/users" "add-group-user" "organization" ["application/json"] ["application/json"] 200;
    mkOperation "DELETE" "/organization/groups/{group_id}/users/{user_id}" "remove-group-user" "organization" [] ["application/json"] 200;
    mkOperation "GET" "/organization/groups/{group_id}/users/{user_id}" "retrieve-group-user" "organization" [] ["application/json"] 200;
    mkOperation "GET" "/organization/invites" "list-invites" "organization" [] ["application/json"] 200;
    mkOperation "POST" "/organization/invites" "inviteUser" "organization" ["application/json"] ["application/json"] 200;
    mkOperation "DELETE" "/organization/invites/{invite_id}" "delete-invite" "organization" [] ["application/json"] 200;
    mkOperation "GET" "/organization/invites/{invite_id}" "retrieve-invite" "organization" [] ["application/json"] 200;
    mkOperation "GET" "/organization/projects" "list-projects" "organization" [] ["application/json"] 200;
    mkOperation "POST" "/organization/projects" "create-project" "organization" ["application/json"] ["application/json"] 200;
    mkOperation "GET" "/organization/projects/{project_id}" "retrieve-project" "organization" [] ["application/json"] 200;
    mkOperation "POST" "/organization/projects/{project_id}" "modify-project" "organization" ["application/json"] ["application/json"] 200;
    mkOperation "GET" "/organization/projects/{project_id}/api_keys" "list-project-api-keys" "organization" [] ["application/json"] 200;
    mkOperation "DELETE" "/organization/projects/{project_id}/api_keys/{api_key_id}" "delete-project-api-key" "organization" [] ["application/json"] 200;
    mkOperation "GET" "/organization/projects/{project_id}/api_keys/{api_key_id}" "retrieve-project-api-key" "organization" [] ["application/json"] 200;
    mkOperation "POST" "/organization/projects/{project_id}/archive" "archive-project" "organization" [] ["application/json"] 200;
    mkOperation "GET" "/organization/projects/{project_id}/certificates" "listProjectCertificates" "organization" [] ["application/json"] 200;
    mkOperation "POST" "/organization/projects/{project_id}/certificates/activate" "activateProjectCertificates" "organization" ["application/json"] ["application/json"] 200;
    mkOperation "POST" "/organization/projects/{project_id}/certificates/deactivate" "deactivateProjectCertificates" "organization" ["application/json"] ["application/json"] 200;
    mkOperation "GET" "/organization/projects/{project_id}/data_retention" "retrieve-project-data-retention" "organization" [] ["application/json"] 200;
    mkOperation "POST" "/organization/projects/{project_id}/data_retention" "update-project-data-retention" "organization" ["application/json"] ["application/json"] 200;
    mkOperation "GET" "/organization/projects/{project_id}/groups" "list-project-groups" "organization" [] ["application/json"] 200;
    mkOperation "POST" "/organization/projects/{project_id}/groups" "add-project-group" "organization" ["application/json"] ["application/json"] 200;
    mkOperation "DELETE" "/organization/projects/{project_id}/groups/{group_id}" "remove-project-group" "organization" [] ["application/json"] 200;
    mkOperation "GET" "/organization/projects/{project_id}/groups/{group_id}" "retrieve-project-group" "organization" [] ["application/json"] 200;
    mkOperation "GET" "/organization/projects/{project_id}/hosted_tool_permissions" "retrieve-project-hosted-tool-permissions" "organization" [] ["application/json"] 200;
    mkOperation "POST" "/organization/projects/{project_id}/hosted_tool_permissions" "update-project-hosted-tool-permissions" "organization" ["application/json"] ["application/json"] 200;
    mkOperation "DELETE" "/organization/projects/{project_id}/model_permissions" "delete-project-model-permissions" "organization" [] ["application/json"] 200;
    mkOperation "GET" "/organization/projects/{project_id}/model_permissions" "retrieve-project-model-permissions" "organization" [] ["application/json"] 200;
    mkOperation "POST" "/organization/projects/{project_id}/model_permissions" "update-project-model-permissions" "organization" ["application/json"] ["application/json"] 200;
    mkOperation "GET" "/organization/projects/{project_id}/rate_limits" "list-project-rate-limits" "organization" [] ["application/json"] 200;
    mkOperation "POST" "/organization/projects/{project_id}/rate_limits/{rate_limit_id}" "update-project-rate-limits" "organization" ["application/json"] ["application/json"] 200;
    mkOperation "GET" "/organization/projects/{project_id}/service_accounts" "list-project-service-accounts" "organization" [] ["application/json"] 200 ].

Definition Operations_2 : list Operation :=
  [ mkOperation "POST" "/organization/projects/{project_id}/service_accounts" "create-project-service-account" "organization" ["application/json"] ["application/json"] 200;
    mkOperation "DELETE" "/organization/projects/{project_id}/service_accounts/{service_account_id}" "delete-project-service-account" "organization" [] ["application/json"] 200;
    mkOperation "GET" "/organization/projects/{project_id}/service_accounts/{service_account_id}" "retrieve-project-service-account" "organization" [] ["application/json"] 200;
    mkOperation "POST" "/organization/projects/{project_id}/service_accounts/{service_account_id}" "update-project-service-account" "organization" ["application/json"] ["application/json"] 200;
    mkOperation "POST" "/organization/projects/{project_id}/service_accounts/{service_account_id}/api_keys" "CreateanAPIkeyforaserviceaccount" "organization" ["application/json"] ["application/json"] 200;
    mkOperation "GET" "/organization/projects/{project_id}/spend_alerts" "list-project-spend-alerts" "organization" [] ["application/json"] 200;
    mkOperation "POST" "/organization/projects/{project_id}/spend_alerts" "create-project-spend-alert" "organization" ["application/json"] ["application/json"] 200;
    mkOperation "DELETE" "/organization/projects/{project_id}/spend_alerts/{alert_id}" "delete-project-spend-alert" "organization" [] ["application/json"] 200;
    mkOperation "GET" "/organization/projects/{project_id}/spend_alerts/{alert_id}" "retrieve-project-spend-alert" "organization" [] ["application/json"] 200;
    mkOperation "POST" "/organization/projects/{project_id}/spend_alerts/{alert_id}" "update-project-spend-alert" "organization" ["application/json"] ["application/json"] 200;
    mkOperation "DELETE" "/organization/projects/{project_id}/spend_limit" "Deleteprojectspendlimit" "organization" [] ["application/json"] 200;
    mkOperation "GET" "/organization/projects/{project_id}/spend_limit" "Getprojectspendlimit" "organization" [] ["application/json"] 200;
    mkOperation "POST" "/organization/projects/{project_id}/spend_limit" "Updateprojectspendlimit" "organization" ["application/json"] ["application/json"] 200;
    mkOperation "GET" "/organization/projects/{project_id}/users" "list-project-users" "organization" [] ["application/json"] 200;
    mkOperation "POST" "/organization/projects/{project_id}/users" "create-project-user" "organization" ["application/json"] ["application/json"] 200;
    mkOperation "DELETE" "/organization/projects/{project_id}/users/{user_id}" "delete-project-user" "organization" [] ["application/json"] 200;
    mkOperation "GET" "/organization/projects/{project_id}/users/{user_id}" "retrieve-project-user" "organization" [] ["application/json"] 200;
    mkOperation "POST" "/organization/projects/{project_id}/users/{user_id}" "modify-project-user" "organization" ["application/json"] ["application/json"] 200;
    mkOperation "GET" "/organization/roles" "list-roles" "organization" [] ["application/json"] 200;
    mkOperation "POST" "/organization/roles" "create-role" "organization" ["application/json"] ["application/json"] 200;
    mkOperation "DELETE" "/organization/roles/{role_id}" "delete-role" "organization" [] ["application/json"] 200;
    mkOperation "GET" "/organization/roles/{role_id}" "retrieve-role" "organization" [] ["application/json"] 200;
    mkOperation "POST" "/organization/roles/{role_id}" "update-role" "organization" ["application/json"] ["application/json"] 200;
    mkOperation "GET" "/organization/spend_alerts" "list-organization-spend-alerts" "organization" [] ["application/json"] 200;
    mkOperation "POST" "/organization/spend_alerts" "create-organization-spend-alert" "organization" ["application/json"] ["application/json"] 200;
    mkOperation "DELETE" "/organization/spend_alerts/{alert_id}" "delete-organization-spend-alert" "organization" [] ["application/json"] 200;
    mkOperation "GET" "/organization/spend_alerts/{alert_id}" "retrieve-organization-spend-alert" "organization" [] ["application/json"] 200;
    mkOperation "POST" "/organization/spend_alerts/{alert_id}" "update-organization-spend-alert" "organization" ["application/json"] ["application/json"] 200;
    mkOperation "DELETE" "/organization/spend_limit" "Deleteorganizationspendlimit" "organization" [] ["application/json"] 200;
    mkOperation "GET" "/organization/spend_limit" "Getorganizationspendlimit" "organization" [] ["application/json"] 200;
    mkOperation "POST" "/organization/spend_limit" "Updateorganizationspendlimit" "organization" ["application/json"] ["application/json"] 200;
    mkOperation "GET" "/organization/usage/audio_speeches" "usage-audio-speeches" "organization" [] ["application/json"] 200;
    mkOperation "GET" "/organization/usage/audio_transcriptions" "usage-audio-transcriptions" "organization" [] ["application/json"] 200;
    mkOperation "GET" "/organization/usage/code_interpreter_sessions" "usage-code-interpreter-sessions" "organization" [] ["application/json"] 200;
    mkOperation "GET" "/organization/usage/completions" "usage-completions" "organization" [] ["application/json"] 200;
    mkOperation "GET" "/organization/usage/embeddings" "usage-embeddings" "organization" [] ["application/json"] 200;
    mkOperation "GET" "/organization/usage/file_search_calls" "usage-file-search-calls" "organization" [] ["application/json"] 200;
    mkOperation "GET" "/organization/usage/images" "usage-images" "organization" [] ["application/json"] 200;
    mkOperation "GET" "/organization/usage/moderations" "usage-moderations" "organization" [] ["application/json"] 200;
    mkOperation "GET" "/organization/usage/vector_stores" "usage-vector-stores" "organization" [] ["application/json"] 200;
    mkOperation "GET" "/organization/usage/web_search_calls" "usage-web-search-calls" "organization" [] ["application/json"] 200;
    mkOperation "GET" "/organization/users" "list-users" "organization" [] ["application/json"] 200;
    mkOperation "DELETE" "/organization/users/{user_id}" "delete-user" "organization" [] ["application/json"] 200;
    mkOperation "GET" "/organization/users/{user_id}" "retrieve-user" "organization" [] ["application/json"] 200;
    mkOperation "POST" "/organization/users/{user_id}" "modify-user" "organization" ["application/json"] ["application/json"] 200;
    mkOperation "GET" "/organization/users/{user_id}/roles" "list-user-role-assignments" "organization" [] ["application/json"] 200;
    mkOperation "POST" "/organization/users/{user_id}/roles" "assign-user-role" "organization" ["application/json"] ["application/json"] 200;
    mkOperation "DELETE" "/organization/users/{user_id}/roles/{role_id}" "unassign-user-role" "organization" [] ["application/json"] 200;
    mkOperation "GET" "/organization/users/{user_id}/roles/{role_id}" "retrieve-user-role" "organization" [] ["application/json"] 200;
    mkOperation "GET" "/projects/{project_id}/groups/{group_id}/roles" "list-project-group-role-assignments" "organization" [] ["application/json"] 200;
    mkOperation "POST" "/projects/{project_id}/groups/{group_id}/roles" "assign-project-group-role" "organization" ["application/json"] ["application/json"] 200;
    mkOperation "DELETE" "/projects/{project_id}/groups/{group_id}/roles/{role_id}" "unassign-project-group-role" "organization" [] ["application/json"] 200;
    mkOperation "GET" "/projects/{project_id}/groups/{group_id}/roles/{role_id}" "retrieve-project-group-role" "organization" [] ["application/json"] 200;
    mkOperation "GET" "/projects/{project_id}/roles" "list-project-roles" "organization" [] ["application/json"] 200;
    mkOperation "POST" "/projects/{project_id}/roles" "create-project-role" "organization" ["application/json"] ["application/json"] 200;
    mkOperation "DELETE" "/projects/{project_id}/roles/{role_id}" "delete-project-role" "organization" [] ["application/json"] 200;
    mkOperation "GET" "/projects/{project_id}/roles/{role_id}" "retrieve-project-role" "organization" [] ["application/json"] 200;
    mkOperation "POST" "/projects/{project_id}/roles/{role_id}" "update-project-role" "organization" ["application/json"] ["application/json"] 200;
    mkOperation "GET" "/projects/{project_id}/users/{user_id}/roles" "list-project-user-role-assignments" "organization" [] ["application/json"] 200;
    mkOperation "POST" "/projects/{project_id}/users/{user_id}/roles" "assign-project-user-role" "organization" ["application/json"] ["application/json"] 200;
    mkOperation "DELETE" "/projects/{project_id}/users/{user_id}/roles/{role_id}" "unassign-project-user-role" "organization" [] ["application/json"] 200;
    mkOperation "GET" "/projects/{project_id}/users/{user_id}/roles/{role_id}" "retrieve-project-user-role" "organization" [] ["application/json"] 200;
    mkOperation "POST" "/realtime/calls" "create-realtime-call" "realtime" ["application/sdp"; "multipart/form-data"] ["application/sdp"] 201;
    mkOperation "POST" "/realtime/calls/{call_id}/accept" "accept-realtime-call" "realtime" ["application/json"] [] 200;
    mkOperation "POST" "/realtime/calls/{call_id}/hangup" "hangup-realtime-call" "realtime" [] [] 200;
    mkOperation "POST" "/realtime/calls/{call_id}/refer" "refer-realtime-call" "realtime" ["application/json"] [] 200;
    mkOperation "POST" "/realtime/calls/{call_id}/reject" "reject-realtime-call" "realtime" ["application/json"] [] 200;
    mkOperation "POST" "/realtime/client_secrets" "create-realtime-client-secret" "realtime" ["application/json"] ["application/json"] 200;
    mkOperation "POST" "/realtime/sessions" "create-realtime-session" "realtime" ["application/json"] ["application/json"] 200;
    mkOperation "POST" "/realtime/transcription_sessions" "create-realtime-transcription-session" "realtime" ["application/json"] ["application/json"] 200;
    mkOperation "POST" "/realtime/translations/client_secrets" "create-realtime-translation-client-secret" "realtime" ["application/json"] ["application/json"] 200;
    mkOperation "POST" "/responses" "createResponse" "responses" ["application/json"] ["application/json"; "text/event-stream"] 200;
    mkOperation "POST" "/responses/compact" "Compactconversation" "responses" ["application/json"] ["application/json"] 200;
    mkOperation "POST" "/responses/compact?beta=true" "beta_Compactconversation" "responses" ["application/json"] ["application/json"] 200;
    mkOperation "POST" "/responses/input_tokens" "Getinputtokencounts" "responses" ["application/json"] ["application/json"] 200;
    mkOperation "POST" "/responses/input_tokens?beta=true" "beta_Getinputtokencounts" "responses" ["application/json"] ["application/json"] 200;
    mkOperation "DELETE" "/responses/{response_id}" "deleteResponse" "responses" [] ["application/json"] 200;
    mkOperation "GET" "/responses/{response_id}" "getResponse" "responses" [] ["application/json"] 200;
    mkOperation "POST" "/responses/{response_id}/cancel" "cancelResponse" "responses" [] ["application/json"] 200;
    mkOperation "POST" "/responses/{response_id}/cancel?beta=true" "beta_cancelResponse" "responses" [] ["application/json"] 200;
    mkOperation "GET" "/responses/{response_id}/input_items" "listInputItems" "responses" [] ["application/json"] 200;
    mkOperation "GET" "/responses/{response_id}/input_items?beta=true" "beta_listInputItems" "responses" [] ["application/json"] 200;
    mkOperation "DELETE" "/responses/{response_id}?beta=true" "beta_deleteResponse" "responses" [] ["application/json"] 200;
    mkOperation "GET" "/responses/{response_id}?beta=true" "beta_getResponse" "responses" [] ["application/json"] 200;
    mkOperation "POST" "/responses?beta=true" "beta_createResponse" "responses" ["application/json"] ["application/json"; "text/event-stream"] 200;
    mkOperation "GET" "/skills" "ListSkills" "skills" [] ["application/json"] 200;
    mkOperation "POST" "/skills" "CreateSkill" "skills" ["application/json"; "multipart/form-data"] ["application/json"] 200;
    mkOperation "DELETE" "/skills/{skill_id}" "DeleteSkill" "skills" [] ["application/json"] 200;
    mkOperation "GET" "/skills/{skill_id}" "GetSkill" "skills" [] ["application/json"] 200;
    mkOperation "POST" "/skills/{skill_id}" "UpdateSkillDefaultVersion" "skills" ["application/json"] ["application/json"] 200;
    mkOperation "GET" "/skills/{skill_id}/content" "GetSkillContent" "skills" [] ["application/json"; "application/zip"] 200;
    mkOperation "GET" "/skills/{skill_id}/versions" "ListSkillVersions" "skills" [] ["application/json"] 200;
    mkOperation "POST" "/skills/{skill_id}/versions" "CreateSkillVersion" "skills" ["application/json"; "multipart/form-data"] ["application/json"] 200;
    mkOperation "DELETE" "/skills/{skill_id}/versions/{version}" "DeleteSkillVersion" "skills" [] ["application/json"] 200;
    mkOperation "GET" "/skills/{skill_id}/versions/{version}" "GetSkillVersion" "skills" [] ["application/json"] 200;
    mkOperation "GET" "/skills/{skill_id}/versions/{version}/content" "GetSkillVersionContent" "skills" [] ["application/json"; "application/zip"] 200;
    mkOperation "POST" "/threads" "createThread" "assistants" ["application/json"] ["application/json"] 200;
    mkOperation "POST" "/threads/runs" "createThreadAndRun" "assistants" ["application/json"] ["application/json"] 200;
    mkOperation "DELETE" "/threads/{thread_id}" "deleteThread" "assistants" [] ["application/json"] 200;
    mkOperation "GET" "/threads/{thread_id}" "getThread" "assistants" [] ["application/json"] 200;
    mkOperation "POST" "/threads/{thread_id}" "modifyThread" "assistants" ["application/json"] ["application/json"] 200;
    mkOperation "GET" "/threads/{thread_id}/messages" "listMessages" "assistants" [] ["application/json"] 200;
    mkOperation "POST" "/threads/{thread_id}/messages" "createMessage" "assistants" ["application/json"] ["application/json"] 200;
    mkOperation "DELETE" "/threads/{thread_id}/messages/{message_id}" "deleteMessage" "assistants" [] ["application/json"] 200;
    mkOperation "GET" "/threads/{thread_id}/messages/{message_id}" "getMessage" "assistants" [] ["application/json"] 200;
    mkOperation "POST" "/threads/{thread_id}/messages/{message_id}" "modifyMessage" "assistants" ["application/json"] ["application/json"] 200;
    mkOperation "GET" "/threads/{thread_id}/runs" "listRuns" "assistants" [] ["application/json"] 200;
    mkOperation "POST" "/threads/{thread_id}/runs" "createRun" "assistants" ["application/json"] ["application/json"] 200;
    mkOperation "GET" "/threads/{thread_id}/runs/{run_id}" "getRun" "assistants" [] ["application/json"] 200;
    mkOperation "POST" "/threads/{thread_id}/runs/{run_id}" "modifyRun" "assistants" ["application/json"] ["application/json"] 200;
    mkOperation "POST" "/threads/{thread_id}/runs/{run_id}/cancel" "cancelRun" "assistants" [] ["application/json"] 200;
    mkOperation "GET" "/threads/{thread_id}/runs/{run_id}/steps" "listRunSteps" "assistants" [] ["application/json"] 200;
    mkOperation "GET" "/threads/{thread_id}/runs/{run_id}/steps/{step_id}" "getRunStep" "assistants" [] ["application/json"] 200;
    mkOperation "POST" "/threads/{thread_id}/runs/{run_id}/submit_tool_outputs" "submitToolOuputsToRun" "assistants" ["application/json"] ["application/json"] 200;
    mkOperation "POST" "/uploads" "createUpload" "uploads" ["application/json"] ["application/json"] 200;
    mkOperation "POST" "/uploads/{upload_id}/cancel" "cancelUpload" "uploads" [] ["application/json"] 200;
    mkOperation "POST" "/uploads/{upload_id}/complete" "completeUpload" "uploads" ["application/json"] ["application/json"] 200;
    mkOperation "POST" "/uploads/{upload_id}/parts" "addUploadPart" "uploads" ["multipart/form-data"] ["application/json"] 200;
    mkOperation "GET" "/vector_stores" "listVectorStores" "vector_stores" [] ["application/json"] 200;
    mkOperation "POST" "/vector_stores" "createVectorStore" "vector_stores" ["application/json"] ["application/json"] 200;
    mkOperation "DELETE" "/vector_stores/{vector_store_id}" "deleteVectorStore" "vector_stores" [] ["application/json"] 200;
    mkOperation "GET" "/vector_stores/{vector_store_id}" "getVectorStore" "vector_stores" [] ["application/json"] 200;
    mkOperation "POST" "/vector_stores/{vector_store_id}" "modifyVectorStore" "vector_stores" ["application/json"] ["application/json"] 200;
    mkOperation "POST" "/vector_stores/{vector_store_id}/file_batches" "createVectorStoreFileBatch" "vector_stores" ["application/json"] ["application/json"] 200;
    mkOperation "GET" "/vector_stores/{vector_store_id}/file_batches/{batch_id}" "getVectorStoreFileBatch" "vector_stores" [] ["application/json"] 200;
    mkOperation "POST" "/vector_stores/{vector_store_id}/file_batches/{batch_id}/cancel" "cancelVectorStoreFileBatch" "vector_stores" [] ["application/json"] 200;
    mkOperation "GET" "/vector_stores/{vector_store_id}/file_batches/{batch_id}/files" "listFilesInVectorStoreBatch" "vector_stores" [] ["application/json"] 200;
    mkOperation "GET" "/vector_stores/{vector_store_id}/files" "listVectorStoreFiles" "vector_stores" [] ["application/json"] 200;
    mkOperation "POST" "/vector_stores/{vector_store_id}/files" "createVectorStoreFile" "vector_stores" ["application/json"] ["application/json"] 200;
    mkOperation "DELETE" "/vector_stores/{vector_store_id}/files/{file_id}" "deleteVectorStoreFile" "vector_stores" [] ["application/json"] 200;
    mkOperation "GET" "/vector_stores/{vector_store_id}/files/{file_id}" "getVectorStoreFile" "vector_stores" [] ["application/json"] 200;
    mkOperation "POST" "/vector_stores/{vector_store_id}/files/{file_id}" "updateVectorStoreFileAttributes" "vector_stores" ["application/json"] ["application/json"] 200;
    mkOperation "GET" "/vector_stores/{vector_store_id}/files/{file_id}/content" "retrieveVectorStoreFileContent" "vector_stores" [] ["application/json"] 200;
    mkOperation "POST" "/vector_stores/{vector_store_id}/search" "searchVectorStore" "vector_stores" ["application/json"] ["application/json"] 200;
    mkOperation "GET" "/videos" "ListVideos" "videos" [] ["application/json"] 200;
    mkOperation "POST" "/videos" "createVideo" "videos" ["application/json"; "multipart/form-data"] ["application/json"] 200;
    mkOperation "POST" "/videos/characters" "CreateVideoCharacter" "videos" ["multipart/form-data"] ["application/json"] 200;
    mkOperation "GET" "/videos/characters/{character_id}" "GetVideoCharacter" "videos" [] ["application/json"] 200;
    mkOperation "POST" "/videos/edits" "CreateVideoEdit" "videos" ["application/json"; "multipart/form-data"] ["application/json"] 200;
    mkOperation "POST" "/videos/extensions" "CreateVideoExtend" "videos" ["application/json"; "multipart/form-data"] ["application/json"] 200;
    mkOperation "DELETE" "/videos/{video_id}" "DeleteVideo" "videos" [] ["application/json"] 200;
    mkOperation "GET" "/videos/{video_id}" "GetVideo" "videos" [] ["application/json"] 200;
    mkOperation "GET" "/videos/{video_id}/content" "RetrieveVideoContent" "videos" [] ["application/json"; "image/webp"; "video/mp4"] 200;
    mkOperation "POST" "/videos/{video_id}/remix" "CreateVideoRemix" "videos" ["application/json"; "multipart/form-data"] ["application/json"] 200 ].

Definition Operations : list Operation := Operations_1 ++ Operations_2.

Definition Events : list ProfileEvent :=
  [ mkProfileEvent "realtime" "client" "conversation.item.create";
    mkProfileEvent "realtime" "client" "conversation.item.delete";
    mkProfileEvent "realtime" "client" "conversation.item.retrieve";
    mkProfileEvent "realtime" "client" "conversation.item.truncate";
    mkProfileEvent "realtime" "client" "input_audio_buffer.append";
    mkProfileEvent "realtime" "client" "input_audio_buffer.clear";
    mkProfileEvent "realtime" "client" "input_audio_buffer.commit";
    mkProfileEvent "realtime" "client" "output_audio_buffer.clear";
    mkProfileEvent "realtime" "client" "response.cancel";
    mkProfileEvent "realtime" "client" "response.create";
    mkProfileEvent "realtime" "client" "session.update";
    mkProfileEvent "realtime" "server" "conversation.created";
    mkProfileEvent "realtime" "server" "conversation.item.added";
    mkProfileEvent "realtime" "server" "conversation.item.created";
    mkProfileEvent "realtime" "server" "conversation.item.deleted";
    mkProfileEvent "realtime" "server" "conversation.item.done";
    mkProfileEvent "realtime" "server" "conversation.item.input_audio_transcription.completed";
    mkProfileEvent "realtime" "server" "conversation.item.input_audio_transcription.delta";
    mkProfileEvent "realtime" "server" "conversation.item.input_audio_transcription.failed";
    mkProfileEvent "realtime" "server" "conversation.item.input_audio_transcription.segment";
    mkProfileEvent "realtime" "server" "conversation.item.retrieved";
    mkProfileEvent "realtime" "server" "conversation.item.truncated";
    mkProfileEvent "realtime" "server" "error";
    mkProfileEvent "realtime" "server" "input_audio_buffer.cleared";
    mkProfileEvent "realtime" "server" "input_audio_buffer.committed";
    mkProfileEvent "realtime" "server" "input_audio_buffer.dtmf_event_received";
    mkProfileEvent "realtime" "server" "input_audio_buffer.speech_started";
    mkProfileEvent "realtime" "server" "input_audio_buffer.speech_stopped";
    mkProfileEvent "realtime" "server" "input_audio_buffer.timeout_triggered";
    mkProfileEvent "realtime" "server" "mcp_list_tools.completed";
    mkProfileEvent "realtime" "server" "mcp_list_tools.failed";
    mkProfileEvent "realtime" "server" "mcp_list_tools.in_progress";
    mkProfileEvent "realtime" "server" "output_audio_buffer.cleared";
    mkProfileEvent "realtime" "server" "output_audio_buffer.started";
    mkProfileEvent "realtime" "server" "output_audio_buffer.stopped";
    mkProfileEvent "realtime" "server" "rate_limits.updated";
    mkProfileEvent "realtime" "server" "response.content_part.added";
    mkProfileEvent "realtime" "server" "response.content_part.done";
    mkProfileEvent "realtime" "server" "response.created";
    mkProfileEvent "realtime" "server" "response.done";
    mkProfileEvent "realtime" "server" "response.function_call_arguments.delta";
    mkProfileEvent "realtime" "server" "response.function_call_arguments.done";
    mkProfileEvent "realtime" "server" "response.mcp_call.completed";
    mkProfileEvent "realtime" "server" "response.mcp_call.failed";
    mkProfileEvent "realtime" "server" "response.mcp_call.in_progress";
    mkProfileEvent "realtime" "server" "response.mcp_call_arguments.delta";
    mkProfileEvent "realtime" "server" "response.mcp_call_arguments.done";
    mkProfileEvent "realtime" "server" "response.output_audio.delta";
    mkProfileEvent "realtime" "server" "response.output_audio.done";
    mkProfileEvent "realtime" "server" "response.output_audio_transcript.delta";
    mkProfileEvent "realtime" "server" "response.output_audio_transcript.done";
    mkProfileEvent "realtime" "server" "response.output_item.added";
    mkProfileEvent "realtime" "server" "response.output_item.done";
    mkProfileEvent "realtime" "server" "response.output_text.delta";
    mkProfileEvent "realtime" "server" "response.output_text.done";
    mkProfileEvent "realtime" "server" "session.created";
    mkProfileEvent "realtime" "server" "session.updated";
    mkProfileEvent "realtime_translation" "client" "session.close";
    mkProfileEvent "realtime_translation" "client" "session.input_audio_buffer.append";
    mkProfileEvent "realtime_translation" "client" "session.update";
    mkProfileEvent "realtime_translation" "server" "error";
    mkProfileEvent "realtime_translation" "server" "session.closed";
    mkProfileEvent "realtime_translation" "server" "session.created";
    mkProfileEvent "realtime_translation" "server" "session.input_transcript.delta";
    mkProfileEvent "realtime_translation" "server" "session.output_audio.delta";
    mkProfileEvent "realtime_translation" "server" "session.output_transcript.delta";
    mkProfileEvent "realtime_translation" "server" "session.updated";
    mkProfileEvent "responses_websocket" "client" "response.create";
    mkProfileEvent "responses_websocket" "server" "error";
    mkProfileEvent "responses_websocket" "server" "response.audio.delta";
    mkProfileEvent "responses_websocket" "server" "response.audio.done";
    mkProfileEvent "responses_websocket" "server" "response.audio.transcript.delta";
    mkProfileEvent "responses_websocket" "server" "response.audio.transcript.done";
    mkProfileEvent "responses_websocket" "server" "response.code_interpreter_call.completed";
    mkProfileEvent "responses_websocket" "server" "response.code_interpreter_call.in_progress";
    mkProfileEvent "responses_websocket" "server" "response.code_interpreter_call.interpreting";
    mkProfileEvent "responses_websocket" "server" "response.code_interpreter_call_code.delta";
    mkProfileEvent "responses_websocket" "server" "response.code_interpreter_call_code.done";
    mkProfileEvent "responses_websocket" "server" "response.completed";
    mkProfileEvent "responses_websocket" "server" "response.content_part.added";
    mkProfileEvent "responses_websocket" "server" "response.content_part.done";
    mkProfileEvent "responses_websocket" "server" "response.created";
    mkProfileEvent "responses_websocket" "server" "response.custom_tool_call_input.delta";
    mkProfileEvent "responses_websocket" "server" "response.custom_tool_call_input.done";
    mkProfileEvent "responses_websocket" "server" "response.failed";
    mkProfileEvent "responses_websocket" "server" "response.file_search_call.completed";
    mkProfileEvent "responses_websocket" "server" "response.file_search_call.in_progress";
    mkProfileEvent "responses_websocket" "server" "response.file_search_call.searching";
    mkProfileEvent "responses_websocket" "server" "response.function_call_arguments.delta";
    mkProfileEvent "responses_websocket" "server" "response.function_call_arguments.done";
    mkProfileEvent "responses_websocket" "server" "response.image_generation_call.completed";
    mkProfileEvent "responses_websocket" "server" "response.image_generation_call.generating";
    mkProfileEvent "responses_websocket" "server" "response.image_generation_call.in_progress";
    mkProfileEvent "responses_websocket" "server" "response.image_generation_call.partial_image";
    mkProfileEvent "responses_websocket" "server" "response.in_progress";
    mkProfileEvent "responses_websocket" "server" "response.incomplete";
    mkProfileEvent "responses_websocket" "server" "response.mcp_call.completed";
    mkProfileEvent "responses_websocket" "server" "response.mcp_call.failed";
    mkProfileEvent "responses_websocket" "server" "response.mcp_call.in_progress";
    mkProfileEvent "responses_websocket" "server" "response.mcp_call_arguments.delta";
    mkProfileEvent "responses_websocket" "server" "response.mcp_call_arguments.done";
    mkProfileEvent "responses_websocket" "server" "response.mcp_list_tools.completed";
    mkProfileEvent "responses_websocket" "server" "response.mcp_list_tools.failed";
    mkProfileEvent "responses_websocket" "server" "response.mcp_list_tools.in_progress";
    mkProfileEvent "responses_websocket" "server" "response.output_item.added";
    mkProfileEvent "responses_websocket" "server" "response.output_item.done";
    mkProfileEvent "responses_websocket" "server" "response.output_text.annotation.added";
    mkProfileEvent "responses_websocket" "server" "response.output_text.delta";
    mkProfileEvent "responses_websocket" "server" "response.output_text.done";
    mkProfileEvent "responses_websocket" "server" "response.queued";
    mkProfileEvent "responses_websocket" "server" "response.reasoning_summary_part.added";
    mkProfileEvent "responses_websocket" "server" "response.reasoning_summary_part.done";
    mkProfileEvent "responses_websocket" "server" "response.reasoning_summary_text.delta";
    mkProfileEvent "responses_websocket" "server" "response.reasoning_summary_text.done";
    mkProfileEvent "responses_websocket" "server" "response.reasoning_text.delta";
    mkProfileEvent "responses_websocket" "server" "response.reasoning_text.done";
    mkProfileEvent "responses_websocket" "server" "response.refusal.delta";
    mkProfileEvent "responses_websocket" "server" "response.refusal.done";
    mkProfileEvent "responses_websocket" "server" "response.web_search_call.completed";
    mkProfileEvent "responses_websocket" "server" "response.web_search_call.in_progress";
    mkProfileEvent "responses_websocket" "server" "response.web_search_call.searching" ].
