(* ===== verification/Profile.v ===== *)
(** Lookups in the frozen profile: [EventAllowed], [OperationByID] and
    [OperationForRoute] of [openai/internal/profile/profile.go].  The
    [sync.Once] initialisations build the maps of a pure function of the
    tables, so the maps are constants here. *)
From S2P Require Import Prelude GoStrings GoHttp Services ProfileData.

Definition NUL : string := str1 (byte_of 0).

Definition event_key (surface direction eventType : string) : string :=
  surface +:+ NUL +:+ direction +:+ NUL +:+ eventType.

Definition eventSet : gset string :=
  list_to_set ((λ e, event_key (pe_Surface e) (pe_Direction e) (pe_Type e)) <$> Events).

#[global] Typeclasses Opaque eventSet.

Definition EventAllowed (surface direction eventType : string) : bool :=
  bool_decide (event_key surface direction eventType ∈ eventSet).

(** The map [OperationByID] fills: a later entry overrides an earlier one. *)
Definition operationsByID : gmap string Operation :=
  foldl (λ m operation, <[op_ID operation := operation]> m) ∅ Operations.

Definition OperationByID (id : string) : option Operation := operationsByID !! id.

(** The path and the raw query of a profile entry. *)
Definition operation_route (operation : Operation) : string * string :=
  let '(path, rawQuery, _) := Cut "?"%char (op_Path operation) in (path, rawQuery).

(** The inner loop: every required key has the expected (last) value as the
    first value of the request's query. *)
Definition query_matches (required query : Values) : bool :=
  forallb (λ '(key, expected),
    match last expected with
    | None => false
    | Some v => bool_decide (values_get query key = v)
    end) (map_to_list required).

(** The loop of [OperationForRoute] over a table, with the fallback found so
    far. *)
Fixpoint scan_route (ops : list Operation) (method routePath : string) (query : Values)
    (fallback : option Operation) : option Operation :=
  match ops with
  | [] => fallback
  | operation :: ops =>
      let '(operationPath, rawQuery) := operation_route operation in
      if negb (bool_decide (op_Method operation = method)) ||
         negb (bool_decide (operationPath = routePath))
      then scan_route ops method routePath query fallback
      else if string_empty rawQuery
      then scan_route ops method routePath query (Some operation)
      else let '(required, ok) := ParseQuery rawQuery in
           if negb ok then scan_route ops method routePath query fallback
           else if query_matches required query then Some operation
           else scan_route ops method routePath query fallback
  end.

Definition OperationForRoute (method routePath : string) (query : Values) : option Operation :=
  scan_route Operations method routePath query None.

(** ** Specification *)

(** The entries of a table for a method and a matched path. *)
Definition for_route (method routePath : string) (operation : Operation) : Prop :=
  op_Method operation = method ∧ (operation_route operation).1 = routePath.

Definition is_variant (operation : Operation) : bool :=
  negb (string_empty (operation_route operation).2).

(** A query-selected variant applies to a request's query. *)
Definition selected_by (query : Values) (operation : Operation) : bool :=
  is_variant operation &&
  (let '(required, ok) := ParseQuery (operation_route operation).2 in
   ok && query_matches required query).

(** What distinguishes the entries: at most one plain entry and one variant
    per method and path. *)
Definition route_key (operation : Operation) : string * string * bool :=
  (op_Method operation, (operation_route operation).1, is_variant operation).

(** ** Facts of the tables, by computation *)

Definition nodup_strings (l : list string) : bool := bool_decide (NoDup l).

Lemma Operations_keys_NoDup : NoDup (route_key <$> Operations).
Proof. apply (bool_decide_unpack _). by vm_compute. Qed.

Lemma Operations_ids_NoDup : NoDup (op_ID <$> Operations).
Proof. apply (bool_decide_unpack _). by vm_compute. Qed.

Lemma Events_keys_free :
  Forall (λ e, free_of (byte_of 0) (pe_Surface e) && free_of (byte_of 0) (pe_Direction e) = true) Events.
Proof. apply (bool_decide_unpack _). by vm_compute. Qed.

(** ** Lemmas *)

Lemma scan_route_cons op ops m p q fb :
  scan_route (op :: ops) m p q fb =
    if bool_decide (op_Method op = m) && bool_decide ((operation_route op).1 = p) then
      if is_variant op then
        if selected_by q op then Some op else scan_route ops m p q fb
      else scan_route ops m p q (Some op)
    else scan_route ops m p q fb.
Proof.
  unfold selected_by, is_variant. simpl. destruct (operation_route op) as [p' r].
  simpl. repeat case_bool_decide; simpl; try done.
  destruct (string_empty r); simpl; [done|].
  destruct (ParseQuery r) as [required [|]]; simpl; [|done]. by destruct (query_matches _ _).
Qed.

(** The two kinds of entries the scan looks for. *)
Definition is_selected (m p : string) (q : Values) (op : Operation) : bool :=
  bool_decide (op_Method op = m) && bool_decide ((operation_route op).1 = p) && selected_by q op.
Definition is_plain (m p : string) (op : Operation) : bool :=
  bool_decide (op_Method op = m) && bool_decide ((operation_route op).1 = p) &&
  negb (is_variant op).

Lemma is_selected_spec m p q op :
  is_selected m p q op = true ↔ for_route m p op ∧ selected_by q op = true.
Proof. unfold is_selected, for_route. rewrite !andb_true_iff, !bool_decide_eq_true. done. Qed.

Lemma is_plain_spec m p op : is_plain m p op = true ↔ for_route m p op ∧ is_variant op = false.
Proof.
  unfold is_plain, for_route. by rewrite !andb_true_iff, !bool_decide_eq_true, negb_true_iff.
Qed.

Lemma selected_is_variant q op : selected_by q op = true → is_variant op = true.
Proof. unfold selected_by. by rewrite andb_true_iff; intros []. Qed.

(** The scan answers the first selected variant, else the last plain entry,
    else the fallback. *)
Lemma scan_route_spec ops m p q fb :
  scan_route ops m p q fb =
    match List.filter (is_selected m p q) ops with
    | op :: _ => Some op
    | [] => match last (List.filter (is_plain m p) ops) with Some op => Some op | None => fb end
    end.
Proof.
  revert fb. induction ops as [|o ops IH]; intros fb; [done|].
  rewrite scan_route_cons. simpl. unfold is_selected at 1, is_plain at 1.
  destruct (bool_decide (op_Method o = m) && bool_decide _); simpl; [|done].
  destruct (is_variant o) eqn:Hv; simpl.
  - destruct (selected_by q o); [done|]. by rewrite IH.
  - assert (selected_by q o = false) as -> by (unfold selected_by; by rewrite Hv).
    rewrite IH. destruct (List.filter (is_selected m p q) ops); [|done].
    rewrite last_cons. by destruct (last (List.filter (is_plain m p) ops)).
Qed.

Lemma filter_nil {A} (P : A → bool) l : (∀ x, x ∈ l → P x = false) → List.filter P l = [].
Proof.
  induction l as [|x l IH]; intros Hl; [done|]. simpl. rewrite (Hl x) by by left.
  apply IH. intros y Hy. apply Hl. by right.
Qed.

(** At most one entry of a duplicate-free table has a given key. *)
Lemma filter_unique {A K} (f : A → K) (P : A → bool) (l : list A) x :
  NoDup (f <$> l) → (∀ y, P y = true → f y = f x) → x ∈ l → P x = true →
  List.filter P l = [x].
Proof.
  intros Hnd HP. induction l as [|y l IH]; [by intros ?%elem_of_nil|].
  csimpl in Hnd. apply NoDup_cons in Hnd as [Hy Hnd].
  intros [<-|Hx]%elem_of_cons Hpx; simpl.
  - rewrite Hpx, filter_nil; [done|]. intros z Hz. destruct (P z) eqn:Hpz; [|done].
    destruct Hy. rewrite <- (HP z Hpz). by apply list_elem_of_fmap_2.
  - destruct (P y) eqn:Hpy; [|by apply IH].
    destruct Hy. rewrite (HP y) by done. by apply list_elem_of_fmap_2.
Qed.

Lemma filter_elem {A} (P : A → bool) l x : x ∈ List.filter P l ↔ x ∈ l ∧ P x = true.
Proof. rewrite !list_elem_of_In. apply filter_In. Qed.

(** The last entry of a table with a given key, through the map. *)
Lemma foldl_insert_lookup (l : list Operation) (m : gmap string Operation) id op :
  NoDup (op_ID <$> l) → (∀ o, o ∈ l → m !! op_ID o = None) →
  foldl (λ m o, <[op_ID o := o]> m) m l !! id = Some op ↔
    m !! id = Some op ∨ op ∈ l ∧ op_ID op = id.
Proof.
  revert m. induction l as [|o l IH]; intros m Hnd Hm; simpl.
  { split; [auto|]. by intros [|[?%elem_of_nil _]]. }
  csimpl in Hnd. apply NoDup_cons in Hnd as [Ho Hnd].
  rewrite IH; [|done|].
  - rewrite elem_of_cons. specialize (Hm o ltac:(by left)).
    rewrite lookup_insert. case_decide; naive_solver.
  - intros o' Ho'. rewrite lookup_insert_ne; [apply Hm; by right|].
    intros Heq. apply Ho. rewrite Heq. by apply list_elem_of_fmap_2.
Qed.

Lemma free_of_key_inj (b : ascii) s s' t t' :
  free_of b s = true → free_of b s' = true →
  s +:+ String b t = s' +:+ String b t' → s = s' ∧ t = t'.
Proof.
  intros Hs Hs' Heq. pose proof (Cut_free b s t Hs) as H1.
  rewrite Heq, Cut_free in H1 by done. by simplify_eq.
Qed.

Lemma event_key_inj s d t s' d' t' :
  free_of (byte_of 0) s = true → free_of (byte_of 0) d = true →
  free_of (byte_of 0) s' = true → free_of (byte_of 0) d' = true →
  event_key s d t = event_key s' d' t' → s = s' ∧ d = d' ∧ t = t'.
Proof.
  unfold event_key. intros Hs Hd Hs' Hd' Heq.
  apply (free_of_key_inj (byte_of 0) s s') in Heq as [-> Heq]; [|done..].
  by apply (free_of_key_inj (byte_of 0) d d') in Heq as [-> ->].
Qed.

(** [EventAllowed] is membership in the frozen table. *)
Lemma EventAllowed_In s d t :
  free_of (byte_of 0) s = true → free_of (byte_of 0) d = true →
  EventAllowed s d t = true ↔ mkProfileEvent s d t ∈ Events.
Proof.
  intros Hs Hd. unfold EventAllowed, eventSet.
  rewrite bool_decide_eq_true, elem_of_list_to_set, list_elem_of_fmap. split.
  - intros ([s' d' t'] & Heq & Hin). pose proof Events_keys_free as Hf.
    rewrite Forall_forall in Hf. specialize (Hf _ Hin). simpl in *.
    apply andb_true_iff in Hf as [Hs' Hd'].
    by apply event_key_inj in Heq as (-> & -> & ->).
  - intros Hin. by exists (mkProfileEvent s d t).
Qed.

(** What the lookups answer is an entry of the table. *)
Lemma scan_route_In ops m p q fb op :
  scan_route ops m p q fb = Some op → op ∈ ops ∨ fb = Some op.
Proof.
  revert fb. induction ops as [|o ops IH]; intros fb; [by right|].
  rewrite scan_route_cons, elem_of_cons.
  destruct (bool_decide (op_Method o = m) && _);
    [destruct (is_variant o); [destruct (selected_by q o)|]|]; intros H;
    first [injection H as ->; by auto | apply IH in H as [?|[= ->]]; by auto].
Qed.

Lemma OperationForRoute_In m p q op : OperationForRoute m p q = Some op → op ∈ Operations.
Proof.
  unfold OperationForRoute. intros H. apply scan_route_In in H as [H|H]; [exact H|discriminate H].
Qed.

Lemma OperationByID_In id op : OperationByID id = Some op → op ∈ Operations.
Proof.
  unfold OperationByID, operationsByID. rewrite foldl_insert_lookup.
  - rewrite lookup_empty. intros [H|[H _]]; [discriminate H|exact H].
  - apply Operations_ids_NoDup.
  - intros o _. apply lookup_empty.
Qed.

Lemma Operations_success : Forall (λ op, (200 ≤ op_SuccessStatus op < 300)%Z) Operations.
Proof. apply (bool_decide_unpack _). by vm_compute. Qed.

(** ** Properties *)

(** C12. Route resolution is exact on the frozen table: [OperationForRoute]
    answers an entry precisely when it is the entry of that method and matched
    path that the query calls for, that is the variant whose required
    parameters the query carries, else the plain entry when no variant is
    called for; there is never a second candidate. *)
Theorem OperationForRoute_spec method routePath query op :
  OperationForRoute method routePath query = Some op ↔
    op ∈ Operations ∧ for_route method routePath op ∧
    (if is_variant op then selected_by query op = true
     else ∀ o, o ∈ Operations → for_route method routePath o → selected_by query o = false).
Proof.
  unfold OperationForRoute. rewrite scan_route_spec.
  pose proof Operations_keys_NoDup as Hnd.
  assert (∀ x y, for_route method routePath x → for_route method routePath y →
    is_variant x = is_variant y → route_key x = route_key y) as Hkey.
  { unfold for_route, route_key. intros x y [] [] ->. congruence. }
  split.
  - destruct (List.filter (is_selected method routePath query) Operations) as [|o l] eqn:Hf.
    + intros Hl. assert (op ∈ List.filter (is_plain method routePath) Operations) as Hin.
      { destruct (last _) eqn:E in Hl; simplify_eq. apply last_Some_elem_of in E. done. }
      apply filter_elem in Hin as [Hin [Hr Hv]%is_plain_spec]. rewrite Hv. split_and!; [done..|].
      intros o Ho Hro. destruct (selected_by query o) eqn:Hs; [|done].
      assert (o ∈ List.filter (is_selected method routePath query) Operations) as Hx.
      { apply filter_elem. split; [done|]. by apply is_selected_spec. }
      rewrite Hf in Hx. by apply elem_of_nil in Hx.
    + intros [= ->]. assert (op ∈ List.filter (is_selected method routePath query) Operations) as Hin.
      { rewrite Hf. by left. }
      apply filter_elem in Hin as [Hin [Hr Hs]%is_selected_spec].
      by rewrite (selected_is_variant _ _ Hs).
  - intros (Hin & Hr & Hop). destruct (is_variant op) eqn:Hv.
    + rewrite (filter_unique route_key _ Operations op); [done|done|..|done|].
      * intros y [Hy Hs]%is_selected_spec. apply Hkey; [done..|].
        by rewrite Hv, (selected_is_variant _ _ Hs).
      * by apply is_selected_spec.
    + rewrite filter_nil.
      2:{ intros o Ho. apply not_true_is_false. rewrite is_selected_spec. intros [Hro Hs].
          specialize (Hop o Ho Hro). congruence. }
      rewrite (filter_unique route_key _ Operations op); [done|done|..|done|].
      * intros y [Hy Hs]%is_plain_spec. apply Hkey; [done..|]. by rewrite Hv.
      * by apply is_plain_spec.
Qed.

(** The transcribed table against the constants beside it. *)
Example Operations_counts :
  Z.of_nat (length Operations) = SpecOperationCount ∧
  Z.of_nat (length (remove_dups (op_Path <$> Operations))) = SpecPathCount.
Proof. by vm_compute. Qed.

(** Lookup by identifier finds exactly the entry with that identifier. *)
Theorem OperationByID_spec id op :
  OperationByID id = Some op ↔ op ∈ Operations ∧ op_ID op = id.
Proof.
  unfold OperationByID, operationsByID. rewrite foldl_insert_lookup.
  - rewrite lookup_empty. naive_solver.
  - apply Operations_ids_NoDup.
  - intros o _. apply lookup_empty.
Qed.
