(* ===== verification/BodyDecoders.v ===== *)
(** The body decoders the REST package registers when it is loaded:
    [openai/internal/rest/body_decoders.go].

    The decoders themselves, and those that are there before, are the OpenAPI
    library's. *)
From S2P Require Import Prelude GoStrings ProfileData Profile.

Inductive BodyDecoder := PlainBodyDecoder | FileBodyDecoder | LibraryDecoder (name : string).

(** [openapi3filter.RegisterBodyDecoder]: the last decoder of a media type counts. *)
Definition RegisterBodyDecoder (mediaType : string) (decoder : BodyDecoder)
    (decoders : gmap string BodyDecoder) : gmap string BodyDecoder :=
  <[mediaType := decoder]> decoders.

Definition file_media : list string :=
  ["audio/mpeg"; "audio/mp4"; "audio/wav"; "image/jpeg"; "image/png"; "video/mp4"].

Definition init (decoders : gmap string BodyDecoder) : gmap string BodyDecoder :=
  foldl (λ decoders mediaType, RegisterBodyDecoder mediaType FileBodyDecoder decoders)
    (RegisterBodyDecoder "application/sdp" PlainBodyDecoder decoders) file_media.

(** What is registered, on top of what the library has. *)
Lemma init_lookup decoders mediaType :
  init decoders !! mediaType =
    if bool_decide (mediaType ∈ file_media) then Some FileBodyDecoder
    else if bool_decide (mediaType = "application/sdp") then Some PlainBodyDecoder
    else decoders !! mediaType.
Proof.
  unfold init, RegisterBodyDecoder. cbn [foldl file_media].
  assert (∀ k v (m : gmap string BodyDecoder), <[k := v]> m !! mediaType =
    if bool_decide (mediaType = k) then Some v else m !! mediaType) as Hk.
  { intros k v m. rewrite lookup_insert. case_decide; case_bool_decide; congruence. }
  rewrite !Hk. repeat case_bool_decide; subst; set_solver.
Qed.

(** With the decoders the library documents for JSON and forms, every body the
    frozen profile allows can be decoded. *)
Lemma profile_decodable decoders operation mediaType :
  is_Some (decoders !! "application/json") → is_Some (decoders !! "multipart/form-data") →
  operation ∈ Operations → mediaType ∈ op_RequestMedia operation →
  is_Some (init decoders !! mediaType).
Proof.
  intros Hjson Hform Hop Hmedia.
  assert (forallb (λ o, forallb (λ m, bool_decide (m ∈ ["application/json"; "multipart/form-data"; "application/sdp"]))
    (op_RequestMedia o)) Operations = true) as Hall by by vm_compute.
  rewrite forallb_forall in Hall. apply list_elem_of_In, Hall in Hop. rewrite forallb_forall in Hop.
  apply list_elem_of_In, Hop, bool_decide_eq_true in Hmedia. rewrite init_lookup.
  repeat case_bool_decide; [by eexists..|]. set_unfold. naive_solver.
Qed.
