(* ===== verification/RestHandler.v ===== *)
(** The unary REST handler: [openai/internal/rest/handler.go], with
    [openai/internal/contract/contract.go].

    The OpenAPI library (router, request and response validation) is outside
    the repository: its functions are the fields of [Collaborators], and its
    routes carry the fields the handler reads.  The application's backends are
    [HandleFunc]s behind interface values. *)
From S2P Require Import Prelude GoStrings GoHttp Errors Services Backend JsonString World.
From S2P Require Import RestErrors RestStream ProfileData Profile.

(** ** The request as the handler reads it *)

(** [body_error]: a read after the data fails.  [random] is what
    [crypto/rand] yields for the twelve bytes of an identifier. *)
Record HttpRequest := mkHttpRequest {
  r_Method : string;
  r_Path : string;
  r_RawQuery : string;
  r_Header : Header;
  r_Body : string;
  r_body_error : bool;
  r_random : option string }.

(** [request.URL.Query()] *)
Definition url_query (request : HttpRequest) : Values := (ParseQuery (r_RawQuery request)).1.

(** [contract.Config] *)
Record Config := mkConfig {
  BasePath : string;
  MaxBodyBytes : Z;
  OriginPatterns : list string;
  Validate : bool;
  Authenticate : HttpRequest → string → result goerror string }.

(** [openapi3.Operation] and [routers.Route], as far as they are read. *)
Record OasOperation := mkOasOperation { OperationID : string; has_RequestBody : bool }.
Abbreviation PathItem := (list (string * OasOperation)) (only parsing).
Record Route := mkRoute {
  rt_Server : option string;
  rt_Path : string;
  rt_PathItem : PathItem;
  rt_Method : string;
  rt_Operation : OasOperation }.

(** [openapi3.T]: its servers, and its paths in the order they are ranged over. *)
Record Document := mkDocument {
  doc_Servers : list string;
  doc_Paths : list (string * PathItem) }.

Record ValidationInput := mkValidationInput {
  vi_Request : HttpRequest;
  vi_PathParams : gmap string string;
  vi_QueryParams : Values;
  vi_Route : Route;
  vi_MultiError : bool;
  vi_RejectWhenRequestBodyNotSpecified : bool;
  vi_SkipSettingDefaults : bool }.

Record Collaborators := mkCollaborators {
  FindRoute : HttpRequest → result goerror (Route * gmap string string);
  ValidateRequest : ValidationInput → option string;
  ValidateResponse : ValidationInput → Z → Header → string → option string }.

(** ** Helpers *)

(** [newRequestID] *)
Definition newRequestID (random : option string) : string :=
  match random with
  | None => "req_unknown"
  | Some value => "req_" +:+ hex_EncodeToString value
  end.

(** Two's complement [int64] addition. *)
Definition wrap64 (z : Z) : Z := ((z + 2 ^ 63) mod 2 ^ 64 - 2 ^ 63)%Z.
Definition add64 (a b : Z) : Z := wrap64 (a + b).

(** [io.ReadAll(io.LimitReader(body, limit))]; [None] is a read error. *)
Definition read_limited (limit : Z) (request : HttpRequest) : option string :=
  if (limit <=? 0)%Z then Some ""
  else if (limit <=? len (r_Body request))%Z
  then Some (string_take (Z.to_nat limit) (r_Body request))
  else if r_body_error request then None else Some (r_Body request).

(** [request.Body] replaced by a reader of the buffered body. *)
Definition with_body (body : string) (request : HttpRequest) : HttpRequest :=
  mkHttpRequest (r_Method request) (r_Path request) (r_RawQuery request) (r_Header request)
    body false (r_random request).

(** [routers.ErrMethodNotAllowed], and [errors.Is] with it on the router's
    errors. *)
Definition ErrMethodNotAllowed : goerror := Sentinel "routers.ErrMethodNotAllowed".
Fixpoint is_method_not_allowed (err : goerror) : bool :=
  match err with
  | Sentinel name => bool_decide (name = "routers.ErrMethodNotAllowed")
  | Opaque _ wrapped => existsb is_method_not_allowed wrapped
  | _ => false
  end.

Definition routeErrorStatus (err : goerror) : Z :=
  if is_method_not_allowed err then 405 else 404.

Definition input (body contentType : string) : Input :=
  let mediaType := default contentType (ParseMediaType contentType) in
  mkInput mediaType
    (if Contains mediaType "json" && negb (string_empty body) then body else "") body.

(** One query parameter: a single value is a JSON string, several a list. *)
Definition marshal_values (values : list string) : string :=
  match values with [value] => marshal_string value | _ => marshal_strings values end.

(** The second loop overwrites what the first one stored. *)
Definition parameters (pathParams : gmap string string) (query : Values) : gmap string string :=
  (marshal_values <$> query) ∪ (marshal_string <$> pathParams).

Definition sensitive (key : string) : bool :=
  EqualFold key "Authorization" || EqualFold key "Cookie" ||
  EqualFold key "Sec-WebSocket-Protocol".

(** [range] over a map visits its entries in an unspecified order: the bodies
    of the two loops below take the entries in the order they are visited. *)
Definition safe_entries (entries : list (string * list string)) : Header :=
  foldl (λ result '(key, values),
    if sensitive key then result else <[CanonicalHeaderKey key := values]> result) ∅ entries.

Definition safeHeaders (headers : Header) : Header := safe_entries (map_to_list headers).

Definition hopByHop (header : string) : bool :=
  bool_decide (CanonicalHeaderKey header ∈
    ["Connection"; "Keep-Alive"; "Proxy-Authenticate"; "Proxy-Authorization"; "Te";
     "Trailer"; "Transfer-Encoding"; "Upgrade"]).

Definition withheld (key : string) : bool :=
  hopByHop key || EqualFold key "Authorization" || EqualFold key "Set-Cookie".

Definition copy_entries (target : Header) (entries : list (string * list string)) : Header :=
  foldl (λ acc '(key, values),
    if withheld key then acc else foldl (λ acc value, header_add key value acc) acc values)
    target entries.

Definition copySafeHeaders (target : Header) (source : gmap string (list string)) : Header :=
  copy_entries target (map_to_list source).

Definition nonNilInterface {A} (value : interface A) : bool :=
  match value with
  | None => false
  | Some reflected => if nillable (dyn_kind reflected) then negb (dyn_isnil reflected) else true
  end.

Definition responseModeCount (response : Response) : Z :=
  (if string_empty (resp_JSON response) then 0 else 1) +
  (if nonNilInterface (resp_Body response) then 1 else 0) +
  (if nonNilInterface (resp_Stream response) then 1 else 0).

Definition closeResponse (response : Response) : M () :=
  if nonNilInterface (resp_Body response) then act ActCloseBody else mret ().

Definition safeValidationMessage (text : string) : string :=
  let message := string_map (λ c, if bool_decide (c = LF) then " "%char else c) text in
  "Invalid request: " +:+
  (if (500 <? len message)%Z then string_take 500 message else message).

(** [validationRoutesByOperationID] *)
Definition add_path_routes (server : option string) (routes : gmap string Route)
    (entry : string * PathItem) : gmap string Route :=
  let '(profilePath, pathItem) := entry in
  let canonicalPath := (Cut "?"%char profilePath).1.1 in
  foldl (λ routes '(method, operation),
    if string_empty (OperationID operation) then routes
    else <[OperationID operation :=
             mkRoute server canonicalPath pathItem method operation]> routes)
    routes pathItem.

Definition validationRoutesByOperationID (document : Document) : gmap string Route :=
  foldl (add_path_routes (head (doc_Servers document))) ∅ (doc_Paths document).

(** ** The handler *)

Record handler := mkHandler {
  h_services : Services HandleFunc SessionBackend;
  h_collaborators : Collaborators;
  h_validationRoutes : gmap string Route;
  h_config : Config }.

Definition New (services : Services HandleFunc SessionBackend) (document : Document)
    (collaborators : Collaborators) (config : Config) : handler :=
  mkHandler services collaborators (validationRoutesByOperationID document) config.

Definition validationRoute (h : handler) (matched : Route) (operation : Operation) : Route :=
  match h_validationRoutes h !! op_ID operation with
  | None => matched
  | Some indexed =>
      mkRoute (rt_Server matched) (rt_Path indexed) (rt_PathItem indexed) (rt_Method matched)
        (rt_Operation indexed)
  end.

(** The object behind a non-nil interface value. *)
Definition non_nil {A} (value : interface A) : option A :=
  if nonNilInterface value then dyn_val <$> value else None.

Definition response_status (operation : Operation) (result : Response) : Z :=
  if (StatusCode result =? 0)%Z then op_SuccessStatus operation else StatusCode result.

(** [io.Copy(writer, body)]: an empty body writes nothing. *)
Definition copy_body (data : string) : M () :=
  if string_empty data then mret () else _ ← Write data; mret ().

Definition internal_error (message : string) : backend_error :=
  simple_error ErrorInternal message.

(** [ServeHTTP] once the backend has answered without an error. *)
Definition respond (h : handler) (requestID : string) (operation : Operation)
    (validationInput : ValidationInput) (result : Response) : M () :=
  deferred (closeResponse result) (
    if (1 <? responseModeCount result)%Z then
      (if nonNilInterface (resp_Stream result) then act ActCloseStream else mret ());;
      writeErrorStatus requestID 500
        (internal_error "Backend returned an ambiguous response.")
    else
    let status := response_status operation result in
    if (status <? 100)%Z || (599 <? status)%Z then
      writeErrorStatus requestID 500
        (internal_error "Backend returned an invalid HTTP status.")
    else
    modify_header (λ header, copySafeHeaders header (resp_Metadata result));;
    match non_nil (resp_Stream result), non_nil (resp_Body result) with
    | Some stream, _ => writeSSE requestID status stream
    | None, Some body =>
        (if string_empty (resp_MediaType result) then mret ()
         else modify_header (header_set "Content-Type" (resp_MediaType result)));;
        WriteHeader status;;
        copy_body body
    | None, None =>
        let mediaType := if string_empty (resp_MediaType result) then "application/json"
                         else resp_MediaType result in
        modify_header (header_set "Content-Type" mediaType);;
        rw ← get_rw;
        invalid ← (if Validate (h_config h) && negb (string_empty (resp_JSON result))
                      && Contains mediaType "json"
                   then act ActValidateResponse;;
                        mret (bool_decide (is_Some (ValidateResponse (h_collaborators h)
                          validationInput status (rw_header rw) (resp_JSON result))))
                   else mret false);
        if (invalid : bool) then
          writeErrorStatus requestID 500
            (internal_error "Backend returned a response outside the active compatibility profile.")
        else
          WriteHeader status;;
          copy_body (resp_JSON result)
    end).

Definition request_id (request : HttpRequest) : string :=
  let given := header_get (r_Header request) "X-Request-Id" in
  if string_empty given then newRequestID (r_random request) else given.

(** The operation of a matched route: by its method, path and query, else by
    the operation identifier of the document. *)
Definition resolve (request : HttpRequest) (route : Route) : option Operation :=
  match OperationForRoute (r_Method request) (rt_Path route) (url_query request) with
  | Some operation => Some operation
  | None => OperationByID (OperationID (rt_Operation route))
  end.

Definition validation_input (h : handler) (request : HttpRequest) (route : Route)
    (pathParams : gmap string string) (operation : Operation) : ValidationInput :=
  let validationRoute := validationRoute h route operation in
  mkValidationInput request pathParams (url_query request) validationRoute true
    (negb (has_RequestBody (rt_Operation validationRoute))) true.

(** The [backend.Request] literal. *)
Definition backend_request (requestID callerID : string) (operation : Operation)
    (pathParams : gmap string string) (request : HttpRequest) (body : string) : Request :=
  mkRequest (op_Capability operation) (op_ID operation)
    (mkMetadata requestID callerID "openai" (safeHeaders (r_Header request)))
    (parameters pathParams (url_query request))
    (input body (header_get (r_Header request) "Content-Type")).

Definition not_configured (operation : Operation) : backend_error :=
  mkError ErrorUnsupported "capability_not_configured" ""
    ("The " +:+ op_Capability operation +:+ " capability is not configured.") 0 None.

Definition ServeHTTP (h : handler) (request : HttpRequest) : M () :=
  let requestID := request_id request in
  modify_header (header_set "X-Request-Id" requestID);;
  act ActAuthenticate;;
  match Authenticate (h_config h) request requestID with
  | Err _ => writeError requestID
      (simple_error ErrorUnauthorized "Invalid authentication credentials.")
  | Ok callerID =>
  match read_limited (add64 (MaxBodyBytes (h_config h)) 1) request with
  | None => writeError requestID (simple_error ErrorInvalid "Could not read request body.")
  | Some body =>
  if (MaxBodyBytes (h_config h) <? len body)%Z then
    writeErrorStatus requestID 413 (simple_error ErrorInvalid "Request body is too large.")
  else
  let request := with_body body request in
  match FindRoute (h_collaborators h) request with
  | Err err => writeErrorStatus requestID (routeErrorStatus err)
      (simple_error ErrorNotFound "The requested resource was not found.")
  | Ok (route, pathParams) =>
  match resolve request route with
  | None => writeErrorStatus requestID 501
      (simple_error ErrorUnsupported "Operation is not in the active compatibility profile.")
  | Some operation =>
  let validationInput := validation_input h request route pathParams operation in
  invalid ← (if Validate (h_config h)
             then act ActValidateRequest;;
                  mret (ValidateRequest (h_collaborators h) validationInput)
             else mret None);
  match (invalid : option string) with
  | Some text => writeError requestID (simple_error ErrorInvalid (safeValidationMessage text))
  | None =>
  match HandlerFor (h_services h) (op_Capability operation) with
  | (_, false) => writeErrorStatus requestID 501 (not_configured operation)
  | (None, true) => panic
  | (Some handler, true) =>
  let call := backend_request requestID callerID operation pathParams request body in
  act (ActHandle call);;
  match dyn_val handler call with
  | Err err => writeBackendError requestID err
  | Ok result => respond h requestID operation validationInput result
  end
  end
  end
  end
  end
  end
  end.
