(* ===== verification/RestAnswer.v ===== *)
(** How the REST handler serves a backend's response: the branches of
    [respond], the headers it copies, what it closes and what it sends. *)
From S2P Require Import Prelude GoStrings GoHttp Errors Services Backend JsonString World.
From S2P Require Import RestErrors RestStream ProfileData Profile RestHandler.

(** ** Lemmas: headers *)

Lemma sensitive_canonical key : sensitive (CanonicalHeaderKey key) = sensitive key.
Proof. unfold sensitive. by rewrite !EqualFold_canonical. Qed.

Lemma withheld_canonical key : withheld (CanonicalHeaderKey key) = withheld key.
Proof. unfold withheld, hopByHop. by rewrite CanonicalHeaderKey_idem, !EqualFold_canonical. Qed.

Lemma safe_entries_snoc entries key values :
  safe_entries (entries ++ [(key, values)]) =
    if sensitive key then safe_entries entries
    else <[CanonicalHeaderKey key := values]> (safe_entries entries).
Proof. unfold safe_entries. by rewrite foldl_app. Qed.

Lemma safe_entries_sensitive entries k :
  sensitive k = true → safe_entries entries !! k = None.
Proof.
  intros Hk. induction entries as [|[key values] entries IH] using rev_ind; [done|].
  rewrite safe_entries_snoc. destruct (sensitive key) eqn:E; [done|].
  rewrite lookup_insert_ne; [done|]. intros <-. rewrite sensitive_canonical in Hk. congruence.
Qed.

(** With canonical and pairwise distinct keys, the visit order is irrelevant. *)
Lemma safe_entries_lookup entries k :
  NoDup entries.*1 → Forall (λ e, CanonicalHeaderKey e.1 = e.1) entries →
  sensitive k = false → ∀ values,
  safe_entries entries !! k = Some values ↔ (k, values) ∈ entries.
Proof.
  intros Hnd Hc Hk values. induction entries as [|[key vs] entries IH] using rev_ind.
  { split; [done|]. by intros ?%elem_of_nil. }
  apply NoDup_fmap_snoc in Hnd as [Hnd Hnew]. apply Forall_app in Hc as [Hc Hc1].
  apply (Forall_singleton (λ e : string * list string, CanonicalHeaderKey e.1 = e.1)) in Hc1.
  simpl in Hc1, Hnew. specialize (IH Hnd Hc).
  rewrite safe_entries_snoc, elem_of_app, list_elem_of_singleton, <- IH.
  destruct (sensitive key) eqn:E.
  - split; [auto|]. intros [?|[=]]; congruence.
  - rewrite Hc1, lookup_insert. case_decide as Heq; [subst k|naive_solver].
    split; [intros [= ->]; auto|]. intros [Hs|[= ->]]; [|done].
    destruct Hnew. apply IH in Hs. by apply (list_elem_of_fmap_2 fst) in Hs.
Qed.

Lemma header_add_all key values h k :
  header_values (foldl (λ acc value, header_add key value acc) h values) k =
    header_values h k ++
      (if decide (CanonicalHeaderKey key = CanonicalHeaderKey k) then values else []).
Proof.
  revert h. induction values as [|v vs IH]; intros h; simpl.
  { destruct (decide _); by rewrite app_nil_r. }
  rewrite IH. unfold header_values, header_add at 1. rewrite lookup_insert.
  case_decide as Hk; [|done]. simpl. by rewrite <- Hk, <- (assoc_L (++)).
Qed.

(** The values [copySafeHeaders] adds under one canonical key. *)
Definition copied (entries : list (string * list string)) (k : string) : list string :=
  entries ≫= λ '(key, values),
    if withheld key then []
    else if decide (CanonicalHeaderKey key = CanonicalHeaderKey k) then values else [].

Lemma copy_entries_values entries target k :
  header_values (copy_entries target entries) k = header_values target k ++ copied entries k.
Proof.
  revert target. induction entries as [|[key values] entries IH]; intros target; csimpl.
  { by rewrite app_nil_r. }
  change (copy_entries target ((key, values) :: entries)) with
    (copy_entries (if withheld key then target
       else foldl (λ acc value, header_add key value acc) target values) entries).
  rewrite IH. destruct (withheld key); [done|].
  by rewrite header_add_all, <- (assoc_L (++)).
Qed.

Lemma copied_withheld entries k : withheld k = true → copied entries k = [].
Proof.
  intros Hk. induction entries as [|[key values] entries IH]; csimpl; [done|].
  fold (copied entries k). rewrite IH, app_nil_r. destruct (withheld key) eqn:E; [done|].
  case_decide as Hc; [|done]. apply (f_equal withheld) in Hc.
  rewrite !withheld_canonical in Hc. congruence.
Qed.

(** With canonical and pairwise distinct keys the added values are those of the
    one entry of that key. *)
Lemma copied_absent entries key :
  Forall (λ e, CanonicalHeaderKey e.1 = e.1) entries →
  ¬ (∃ vs, (CanonicalHeaderKey key, vs) ∈ entries) → copied entries key = [].
Proof.
  induction 1 as [|[k vs] entries Hk _ IH]; intros Hno; csimpl; [done|].
  fold (copied entries key). simpl in Hk. rewrite IH, app_nil_r.
  - rewrite Hk. case_match; [done|]. case_decide as Heq; [|done]. subst k.
    destruct Hno. exists vs. by left.
  - intros [vs' Hin]. apply Hno. exists vs'. by right.
Qed.

Lemma copied_one entries key vs :
  NoDup entries.*1 → Forall (λ e, CanonicalHeaderKey e.1 = e.1) entries →
  withheld key = false → (CanonicalHeaderKey key, vs) ∈ entries → copied entries key = vs.
Proof.
  intros Hnd Hc Hw. induction Hc as [|[k vs'] entries Hk Hc IH]; [by intros ?%elem_of_nil|].
  csimpl in Hnd. apply NoDup_cons in Hnd as [Hnew Hnd]. csimpl.
  fold (copied entries key). simpl in Hk. intros [Heq|Hin]%elem_of_cons.
  - injection Heq as <- <-. rewrite copied_absent, app_nil_r; [|done|].
    + rewrite withheld_canonical, Hw, CanonicalHeaderKey_idem, decide_True by done. done.
    + intros [vs' Hin]. apply Hnew. by apply (list_elem_of_fmap_2 fst) in Hin.
  - rewrite IH by done. rewrite Hk, decide_False; [by destruct (withheld k)|].
    intros ->. apply Hnew. by apply (list_elem_of_fmap_2 fst) in Hin.
Qed.

(** ** Lemmas: the answer of the backend *)

Definition closes_body (result : Response) : list action :=
  if nonNilInterface (resp_Body result) then [ActCloseBody] else [].

Lemma deferred_close {A} result (m : M A) w :
  deferred (closeResponse result) m w =
    match m w with
    | Return x w' => Return x (traced (closes_body result) w')
    | Panic w' => Panic (traced (closes_body result) w')
    | Blocked w' => Blocked w'
    end.
Proof.
  unfold closeResponse, closes_body, traced. destruct (nonNilInterface _).
  - apply deferred_act.
  - rewrite deferred_ret. destruct (m w) as [x [rw t]|[rw t]|]; simpl; by rewrite ?app_nil_r.
Qed.

(** At most one of [JSON], [Body] and [Stream] is set. *)
Definition unambiguous (result : Response) : Prop := (responseModeCount result ≤ 1)%Z.

Lemma unambiguous_stream result :
  unambiguous result → nonNilInterface (resp_Stream result) = true →
  nonNilInterface (resp_Body result) = false ∧ resp_JSON result = "".
Proof.
  unfold unambiguous, responseModeCount. intros Hu Hs. rewrite Hs in Hu.
  destruct (nonNilInterface (resp_Body result)); [case_match; lia|].
  destruct (resp_JSON result); [done|]. simpl in Hu. lia.
Qed.

Lemma non_nil_spec {A} (value : interface A) :
  bool_decide (is_Some (non_nil value)) = nonNilInterface value.
Proof.
  unfold non_nil. destruct (nonNilInterface value) eqn:E; [|done].
  by destruct value.
Qed.

Definition valid_status (status : Z) : bool := (100 <=? status)%Z && (status <=? 599)%Z.

Lemma valid_status_spec status :
  (status <? 100)%Z || (599 <? status)%Z = negb (valid_status status).
Proof. unfold valid_status. by rewrite negb_andb, !Z.leb_antisym, !negb_involutive. Qed.

Lemma emits_respond h requestID operation vi result :
  emits (λ a, is_handle a = false) (respond h requestID operation vi result).
Proof.
  unfold respond, closeResponse, writeSSE, copy_body.
  structural. by apply emits_sse_loop.
Qed.

Lemma never_panics_respond h requestID operation vi result :
  never_panics (respond h requestID operation vi result).
Proof.
  unfold respond, closeResponse, writeSSE, copy_body. rewrite valid_status_spec.
  unfold valid_status. structural. apply never_panics_sse_loop.
Qed.

(** The writer after the backend's metadata was copied, after a declared media
    type was set, and after a final status and a body were sent. *)
Definition metadata_rw (result : Response) (rw : ResponseWriter) : ResponseWriter :=
  with_header (λ header, copySafeHeaders header (resp_Metadata result)) rw.

Definition typed_rw (mediaType : string) (rw : ResponseWriter) : ResponseWriter :=
  if string_empty mediaType then rw
  else with_header (header_set "Content-Type" mediaType) rw.

Definition sent_rw (status : Z) (data : string) (rw : ResponseWriter) : ResponseWriter :=
  let rw := if informational status then inform status rw else commit status rw in
  if string_empty data then rw else (write_rw data rw).2.

Lemma WriteHeader_valid status w :
  rw_status (w_rw w) = None → valid_status status = true →
  WriteHeader status w = Return () (mkWorld
    (if informational status then inform status (w_rw w) else commit status (w_rw w)) (w_trace w)).
Proof.
  unfold valid_status. rewrite andb_true_iff, !Z.leb_le. intros Hst Hr.
  unfold WriteHeader. rewrite Hst.
  assert ((status <? 100)%Z || (999 <? status)%Z = false) as -> by lia.
  by destruct (informational status).
Qed.

Lemma send_spec status data w :
  rw_status (w_rw w) = None → valid_status status = true →
  (WriteHeader status;; copy_body data) w =
    Return () (mkWorld (sent_rw status data (w_rw w)) (w_trace w)).
Proof.
  intros Hst Hr. erewrite M_bind_Return by by apply WriteHeader_valid.
  unfold copy_body, sent_rw. destruct (string_empty data); [done|].
  unfold mbind, M_bind, Write, with_rw. cbn [w_rw w_trace]. by destruct (write_rw _ _).
Qed.

(** An answer the handler cannot serve. *)
Lemma respond_ambiguous h requestID operation vi result w :
  rw_status (w_rw w) = None → ¬ unambiguous result →
  respond h requestID operation vi result w =
    Return () (mkWorld
      (error_rw requestID 500 (internal_error "Backend returned an ambiguous response.") (w_rw w))
      (w_trace w ++ (if nonNilInterface (resp_Stream result) then [ActCloseStream] else []) ++
       closes_body result)).
Proof.
  unfold unambiguous. intros Hst Hu. unfold respond. rewrite deferred_close.
  destruct (Z.ltb_spec 1 (responseModeCount result)); [|lia].
  destruct (nonNilInterface (resp_Stream result)).
  - unfold mbind, M_bind, act. rewrite writeErrorStatus_spec by (done || lia).
    unfold traced. cbn [w_rw w_trace]. by rewrite <- (assoc_L (++)).
  - unfold mbind, M_bind, mret, M_ret. rewrite writeErrorStatus_spec by (done || lia). done.
Qed.

Lemma respond_invalid_status h requestID operation vi result w :
  rw_status (w_rw w) = None → unambiguous result →
  valid_status (response_status operation result) = false →
  respond h requestID operation vi result w =
    Return () (mkWorld
      (error_rw requestID 500 (internal_error "Backend returned an invalid HTTP status.") (w_rw w))
      (w_trace w ++ closes_body result)).
Proof.
  unfold unambiguous. intros Hst Hu Hs. unfold respond. rewrite deferred_close.
  destruct (Z.ltb_spec 1 (responseModeCount result)); [lia|].
  rewrite valid_status_spec, Hs. simpl. rewrite writeErrorStatus_spec by (done || lia). done.
Qed.

Lemma respond_stream h requestID operation vi result stream w :
  unambiguous result → valid_status (response_status operation result) = true →
  non_nil (resp_Stream result) = Some stream →
  respond h requestID operation vi result w =
    writeSSE requestID (response_status operation result) stream
      (mkWorld (metadata_rw result (w_rw w)) (w_trace w)).
Proof.
  intros Hu Hs Hstream. unfold respond. rewrite deferred_close.
  pose proof Hu as Hu'. unfold unambiguous in Hu'.
  destruct (Z.ltb_spec 1 (responseModeCount result)); [lia|].
  rewrite valid_status_spec, Hs. simpl. rewrite Hstream.
  assert (nonNilInterface (resp_Stream result) = true) as Hn.
  { rewrite <- non_nil_spec, Hstream. done. }
  apply unambiguous_stream in Hn as [Hn _]; [|done].
  unfold closes_body, traced. rewrite Hn. unfold mbind at 1, M_bind, modify_header, with_rw.
  fold (metadata_rw result (w_rw w)).
  destruct (writeSSE _ _ _ _) as [[] [rw t]|[rw t]|]; simpl; by rewrite ?app_nil_r.
Qed.

Lemma respond_body h requestID operation vi result body w :
  rw_status (w_rw w) = None → unambiguous result →
  valid_status (response_status operation result) = true →
  non_nil (resp_Stream result) = None → non_nil (resp_Body result) = Some body →
  respond h requestID operation vi result w =
    Return () (mkWorld
      (sent_rw (response_status operation result) body
        (typed_rw (resp_MediaType result) (metadata_rw result (w_rw w))))
      (w_trace w ++ [ActCloseBody])).
Proof.
  intros Hst Hu Hs Hstream Hbody. unfold respond. rewrite deferred_close.
  pose proof Hu as Hu'. unfold unambiguous in Hu'.
  destruct (Z.ltb_spec 1 (responseModeCount result)); [lia|].
  rewrite valid_status_spec, Hs. cbn [negb].
  rewrite Hstream, Hbody.
  assert (closes_body result = [ActCloseBody]) as ->.
  { unfold closes_body. by rewrite <- non_nil_spec, Hbody. }
  unfold mbind at 1, M_bind at 1, modify_header at 1, with_rw.
  fold (metadata_rw result (w_rw w)). unfold typed_rw.
  destruct (string_empty (resp_MediaType result)).
  - unfold mbind at 1, M_bind at 1, mret, M_ret. by rewrite send_spec.
  - unfold mbind at 1, M_bind at 1, modify_header, with_rw. by rewrite send_spec.
Qed.

(** What response validation says about a JSON answer. *)
Definition json_media (result : Response) : string :=
  if string_empty (resp_MediaType result) then "application/json" else resp_MediaType result.

Definition json_rw (result : Response) (rw : ResponseWriter) : ResponseWriter :=
  with_header (header_set "Content-Type" (json_media result)) (metadata_rw result rw).

Definition validates_response (h : handler) (result : Response) : bool :=
  Validate (h_config h) && negb (string_empty (resp_JSON result)) &&
  Contains (json_media result) "json".

Definition response_verdict (h : handler) (vi : ValidationInput) (status : Z)
    (result : Response) (rw : ResponseWriter) : option string :=
  if validates_response h result
  then ValidateResponse (h_collaborators h) vi status (rw_header (json_rw result rw))
         (resp_JSON result)
  else None.

Lemma respond_json h requestID operation vi result w :
  rw_status (w_rw w) = None → unambiguous result →
  valid_status (response_status operation result) = true →
  non_nil (resp_Stream result) = None → non_nil (resp_Body result) = None →
  respond h requestID operation vi result w =
    let status := response_status operation result in
    let rw := json_rw result (w_rw w) in
    Return () (mkWorld
      (match response_verdict h vi status result (w_rw w) with
       | Some _ => error_rw requestID 500 (internal_error
           "Backend returned a response outside the active compatibility profile.") rw
       | None => sent_rw status (resp_JSON result) rw
       end)
      (w_trace w ++ if validates_response h result then [ActValidateResponse] else [])).
Proof.
  intros Hst Hu Hs Hstream Hbody. unfold respond. rewrite deferred_close.
  pose proof Hu as Hu'. unfold unambiguous in Hu'.
  destruct (Z.ltb_spec 1 (responseModeCount result)); [lia|].
  rewrite valid_status_spec, Hs. cbn [negb].
  rewrite Hstream, Hbody.
  assert (closes_body result = []) as ->.
  { unfold closes_body. by rewrite <- non_nil_spec, Hbody. }
  fold (json_media result). fold (validates_response h result). unfold response_verdict.
  do 3 (erewrite M_bind_Return by reflexivity). cbn [w_rw w_trace].
  fold (metadata_rw result (w_rw w)). fold (json_rw result (w_rw w)).
  unfold traced.
  destruct (validates_response h result); cbn [w_rw w_trace].
  - erewrite M_bind_Return by reflexivity. cbn [w_rw w_trace].
    destruct (ValidateResponse _ _ _ _ _);
      [rewrite bool_decide_true by by eexists|rewrite bool_decide_false by by intros []].
    + rewrite writeErrorStatus_spec by (done || lia). by rewrite app_nil_r.
    + rewrite send_spec by done. by rewrite app_nil_r.
  - erewrite M_bind_Return by reflexivity. cbv beta iota. rewrite send_spec by done.
    cbn [w_rw w_trace]. by rewrite !app_nil_r.
Qed.

(** ** Lemmas: what is closed *)

Lemma Forall_flush l : Forall (λ a, a = ActFlush) l → l = replicate (length l) ActFlush.
Proof. induction 1 as [|a l -> _ IH]; [done|]. simpl. by f_equal. Qed.

Lemma deferred_flushes {A} a (m : M A) w :
  emits (λ a, a = ActFlush) m →
  ∃ n, match deferred (act a) m w with
  | Return _ w' | Panic w' => w_trace w' = w_trace w ++ replicate n ActFlush ++ [a]
  | Blocked w' => w_trace w' = w_trace w ++ replicate n ActFlush
  end.
Proof.
  intros Hm. rewrite deferred_act. destruct (Hm w) as (l & Hl & Hf).
  apply Forall_flush in Hf. exists (length l). rewrite <- Hf.
  destruct (m w) as [x w'|w'|w']; simpl in *; by rewrite Hl, ?(assoc_L (++)).
Qed.

(** Only the stream writer flushes and closes the stream. *)
Lemma writeSSE_trace requestID status stream w :
  ∃ n, match writeSSE requestID status stream w with
  | Return _ w' | Panic w' => w_trace w' = w_trace w ++ replicate n ActFlush ++ [ActCloseStream]
  | Blocked w' => w_trace w' = w_trace w ++ replicate n ActFlush
  end.
Proof. apply deferred_flushes. structural. by apply emits_sse_loop. Qed.

(** The stream and the body the answer carries. *)
Definition has_stream (result : Response) : bool := nonNilInterface (resp_Stream result).
Definition has_body (result : Response) : bool := nonNilInterface (resp_Body result).

Definition closes (p : action → bool) (w w' : World) (n : nat) : Prop :=
  count p (w_trace w') = count p (w_trace w) + n.

(** What the handler closes, by the kind of answer. *)
Lemma respond_closes h requestID operation vi result w :
  rw_status (w_rw w) = None →
  match respond h requestID operation vi result w with
  | Return _ w' =>
      closes is_close_body w w' (if has_body result then 1 else 0) ∧
      closes is_close_stream w w'
        (if has_stream result &&
            ((1 <? responseModeCount result)%Z || valid_status (response_status operation result))
         then 1 else 0)
  | Panic _ => False
  | Blocked w' =>
      closes is_close_body w w' 0 ∧ has_body result = false ∧ has_stream result = true ∧
      closes is_close_stream w w' 0
  end.
Proof.
  intros Hst. unfold closes, has_body, has_stream.
  pose proof (never_panics_respond h requestID operation vi result w) as Hnp.
  destruct (Z.ltb_spec 1 (responseModeCount result)) as [Hu|Hu].
  { rewrite respond_ambiguous by (done || unfold unambiguous; lia). cbn [w_trace].
    unfold closes_body. rewrite !count_app.
    destruct (nonNilInterface (resp_Body result)), (nonNilInterface (resp_Stream result));
      split; reflexivity. }
  destruct (valid_status (response_status operation result)) eqn:Hs.
  2:{ rewrite respond_invalid_status by (done || unfold unambiguous; lia). cbn [w_trace].
      unfold closes_body. rewrite !count_app, orb_false_l, andb_false_r.
      destruct (nonNilInterface (resp_Body result)); split; reflexivity. }
  destruct (non_nil (resp_Stream result)) as [stream|] eqn:Hstream.
  - assert (nonNilInterface (resp_Stream result) = true) as Hn.
    { by rewrite <- non_nil_spec, Hstream. }
    destruct (unambiguous_stream result Hu Hn) as [Hb _]. rewrite Hn, Hb in *.
    revert Hnp. rewrite (respond_stream _ _ _ _ _ stream) by done. intros Hnp.
    destruct (writeSSE_trace requestID (response_status operation result) stream
      (mkWorld (metadata_rw result (w_rw w)) (w_trace w))) as (n & Hn').
    destruct (writeSSE _ _ _ _) as [a w'|w'|w']; [|by destruct (Hnp w')|];
      cbn [w_trace] in Hn'; rewrite Hn', !count_app, !count_replicate_flush by done;
      split_and!; reflexivity.
  - assert (nonNilInterface (resp_Stream result) = false) as ->.
    { by rewrite <- non_nil_spec, Hstream. }
    destruct (non_nil (resp_Body result)) as [body|] eqn:Hbody.
    + assert (nonNilInterface (resp_Body result) = true) as ->.
      { by rewrite <- non_nil_spec, Hbody. }
      rewrite (respond_body _ _ _ _ _ body) by done. cbn [w_trace].
      rewrite !count_app. split; reflexivity.
    + assert (nonNilInterface (resp_Body result) = false) as ->.
      { by rewrite <- non_nil_spec, Hbody. }
      rewrite respond_json by done. cbn [w_trace]. rewrite !count_app.
      destruct (validates_response h result); split; reflexivity.
Qed.

(** ** Lemmas: the final answer *)

(** The header map still carries the request identifier first. *)
Definition identified (requestID : string) (h : Header) : Prop :=
  head (header_values h "X-Request-Id") = Some requestID.

Lemma identified_set requestID key value h :
  CanonicalHeaderKey key ≠ "X-Request-Id" → identified requestID h →
  identified requestID (header_set key value h).
Proof.
  unfold identified, header_values, header_set. intros Hk.
  change (CanonicalHeaderKey "X-Request-Id") with "X-Request-Id" in *.
  by rewrite lookup_insert_ne.
Qed.

Lemma identified_copy requestID metadata h :
  identified requestID h → identified requestID (copySafeHeaders h metadata).
Proof.
  unfold identified, copySafeHeaders. rewrite copy_entries_values.
  by destruct (header_values h "X-Request-Id").
Qed.

Lemma identified_get requestID h :
  identified requestID h → header_get h "X-Request-Id" = requestID.
Proof. unfold identified. rewrite header_get_values. by intros ->. Qed.

(** A final response went out under the request identifier. *)
Definition answered (requestID : string) (w : World) : Prop :=
  ∃ status, rw_status (w_rw w) = Some status ∧ (200 ≤ status ≤ 599)%Z ∧
    header_get (rw_sent (w_rw w)) "X-Request-Id" = requestID.

Lemma answered_error requestID status e rw t :
  (200 ≤ status ≤ 599)%Z → answered requestID (mkWorld (error_rw requestID status e rw) t).
Proof.
  intros Hs. destruct (error_rw_spec requestID status e rw) as (H1 & H2 & _).
  exists status. cbn [w_rw]. rewrite H1, H2, error_header_id. split_and!; [done|lia..|done].
Qed.

Lemma sent_rw_final status data rw :
  (200 ≤ status ≤ 599)%Z →
  rw_status (sent_rw status data rw) = Some status ∧
  rw_sent (sent_rw status data rw) = rw_header rw ∧
  (bodyAllowed status = true → rw_capacity rw = None →
   exceeds (rw_header rw) (String.length (rw_body rw) + String.length data) = false →
   rw_body (sent_rw status data rw) = rw_body rw +:+ data).
Proof.
  intros Hs. unfold sent_rw.
  assert (informational status = false) as ->.
  { apply not_true_is_false. rewrite informational_spec. lia. }
  destruct data as [|c data]; [by rewrite app_nil_r_str|]. cbn [string_empty].
  destruct (write_rw_committed (String c data) (commit status rw) status eq_refl)
    as (f & t & r & rw' & Hw & _ & _ & _ & H1 & H2 & _).
  rewrite Hw. cbn [snd]. split_and!; [done|by rewrite H2|].
  intros Hb Hc Hx. rewrite (write_rw_unlimited _ _ status) in Hw by done.
  by injection Hw as _ <-.
Qed.

(** On a connection that does not fail, a body is sent whole, or not at all
    when the header map declares a shorter one. *)
Definition within (declared : option Z) (body : string) : string :=
  match declared with
  | Some n => if (n <? len body)%Z then "" else body
  | None => body
  end.

Lemma write_rw_within data rw st :
  rw_status rw = Some st → bodyAllowed st = true → rw_capacity rw = None → rw_body rw = "" →
  rw_body (write_rw data rw).2 = within (declared_length (rw_sent rw)) data.
Proof.
  intros Hst Hb Hc He. destruct (exceeds (rw_sent rw) (String.length data)) eqn:Hx.
  - destruct (write_rw_exceeds data rw st Hst Hb) as (rw' & -> & Hbody & _); [by rewrite He|].
    cbn [snd]. rewrite Hbody, He. unfold exceeds in Hx. unfold within, len.
    destruct (declared_length _); [by rewrite Hx|done].
  - rewrite (write_rw_unlimited _ _ st) by (done || by rewrite He). cbn [snd rw_body].
    rewrite He, app_nil_l_str. unfold exceeds in Hx. unfold within, len.
    destruct (declared_length _); [by rewrite Hx|done].
Qed.

Lemma sent_rw_within status data rw :
  (200 ≤ status ≤ 599)%Z → bodyAllowed status = true → rw_capacity rw = None → rw_body rw = "" →
  rw_body (sent_rw status data rw) = within (declared_length (rw_header rw)) data.
Proof.
  intros Hs Hb Hc He. unfold sent_rw.
  assert (informational status = false) as ->.
  { apply not_true_is_false. rewrite informational_spec. lia. }
  destruct data as [|c data].
  - cbn. rewrite He. unfold within. destruct (declared_length _); [|done]. by destruct (_ <? _)%Z.
  - by apply (write_rw_within (String c data) (commit status rw) status).
Qed.

Lemma error_rw_within requestID status e rw :
  bodyAllowed status = true → rw_capacity rw = None → rw_body rw = "" →
  rw_body (error_rw requestID status e rw) =
    within (declared_length (rw_header rw)) (error_body e).
Proof.
  intros Hb Hc He. unfold error_rw. rewrite (write_rw_within _ _ status) by done.
  f_equal. apply error_header_length.
Qed.

Lemma answered_sent requestID status data rw t :
  (200 ≤ status ≤ 599)%Z → identified requestID (rw_header rw) →
  answered requestID (mkWorld (sent_rw status data rw) t).
Proof.
  intros Hs Hid. destruct (sent_rw_final status data rw Hs) as (H1 & H2 & _).
  exists status. cbn [w_rw]. rewrite H1, H2. split_and!; [done|lia..|by apply identified_get].
Qed.

Lemma answered_writeSSE requestID status stream w :
  (200 ≤ status ≤ 599)%Z → rw_status (w_rw w) = None →
  identified requestID (rw_header (w_rw w)) →
  match writeSSE requestID status stream w with
  | Return _ w' => answered requestID w'
  | Panic _ => False
  | Blocked w' => answered requestID w' ∧ tape_ends stream = false
  end.
Proof.
  intros Hs Hst Hid. destruct (rw_flusher (w_rw w)) eqn:Hf.
  - rewrite writeSSE_unfold by done. rewrite deferred_act.
    destruct (sse_loop_spec stream
      (mkWorld (commit status (with_header sse_header (w_rw w))) (w_trace w ++ [ActFlush]))
      status eq_refl) as (n & wr & rest & w' & Hl & _ & _ & H1 & H2 & _).
    assert (answered requestID w') as Hans.
    { exists status. rewrite H1, H2. split_and!; [done|lia..|]. apply identified_get.
      cbn [w_rw rw_sent commit with_header rw_header].
      by repeat (apply identified_set; [done|]). }
    by destruct Hl as [->|(-> & ? & _)].
  - unfold writeSSE. rewrite deferred_act. erewrite M_bind_Return by reflexivity.
    cbv beta. rewrite Hf. cbn [negb]. rewrite writeErrorStatus_spec by (done || lia).
    exact (answered_error requestID 500 _ _ _ ltac:(lia)).
Qed.

Lemma respond_answers h requestID operation vi result w :
  rw_status (w_rw w) = None → identified requestID (rw_header (w_rw w)) →
  informational (response_status operation result) = false →
  response_status operation result ≠ 101%Z →
  match respond h requestID operation vi result w with
  | Return _ w' => answered requestID w'
  | Panic _ => False
  | Blocked w' => answered requestID w' ∧
      ∃ stream, non_nil (resp_Stream result) = Some stream ∧ tape_ends stream = false
  end.
Proof.
  intros Hst Hid Hi H101.
  destruct (Z.le_gt_cases (responseModeCount result) 1) as [Hu|Hu].
  2:{ rewrite respond_ambiguous by (done || unfold unambiguous; lia).
      apply answered_error. lia. }
  destruct (valid_status (response_status operation result)) eqn:Hs.
  2:{ rewrite respond_invalid_status by done. apply answered_error. lia. }
  assert (200 ≤ response_status operation result ≤ 599)%Z as Hr.
  { unfold valid_status in Hs. unfold informational in Hi. lia. }
  assert (identified requestID (rw_header (metadata_rw result (w_rw w)))) as Hid'.
  { by apply identified_copy. }
  destruct (non_nil (resp_Stream result)) as [stream|] eqn:Hstream.
  { rewrite (respond_stream _ _ _ _ _ stream) by done.
    pose proof (answered_writeSSE requestID (response_status operation result) stream
      (mkWorld (metadata_rw result (w_rw w)) (w_trace w)) Hr Hst Hid') as Hans.
    destruct (writeSSE _ _ _ _); [done..|]. destruct Hans. split; [done|]. by eexists. }
  destruct (non_nil (resp_Body result)) as [body|] eqn:Hbody.
  - rewrite (respond_body _ _ _ _ _ body) by done. apply answered_sent; [done|].
    unfold typed_rw. destruct (string_empty (resp_MediaType result)); [done|].
    by apply identified_set.
  - rewrite respond_json by done. cbv zeta. destruct (response_verdict _ _ _ _ _).
    + apply answered_error. lia.
    + apply answered_sent; [done|]. by apply identified_set.
Qed.

(** The handler waits only for a stream that has not ended. *)
Lemma respond_blocked h requestID operation vi result w w' :
  rw_status (w_rw w) = None → respond h requestID operation vi result w = Blocked w' →
  ∃ stream, non_nil (resp_Stream result) = Some stream ∧ tape_ends stream = false.
Proof.
  intros Hst.
  destruct (Z.le_gt_cases (responseModeCount result) 1) as [Hu|Hu].
  2:{ by rewrite respond_ambiguous by (done || unfold unambiguous; lia). }
  destruct (valid_status (response_status operation result)) eqn:Hs.
  2:{ by rewrite respond_invalid_status. }
  destruct (non_nil (resp_Stream result)) as [stream|] eqn:Hstream.
  - rewrite (respond_stream _ _ _ _ _ stream) by done. intros ?%writeSSE_blocked. by exists stream.
  - destruct (non_nil (resp_Body result)) as [body|] eqn:Hbody.
    + by rewrite (respond_body _ _ _ _ _ body).
    + by rewrite respond_json.
Qed.

(** ** Properties: response headers *)

(** [h'] has the values of [h] under every withheld key. *)
Definition shields (h h' : Header) : Prop :=
  ∀ key, withheld key = true → header_values h' key = header_values h key.

Lemma shields_set key value h h' :
  withheld key = false → shields h h' → shields h (header_set key value h').
Proof.
  intros Hk Hh k Hw. rewrite <- (Hh k Hw). unfold header_values, header_set.
  rewrite lookup_insert_ne; [done|]. intros Heq. apply (f_equal withheld) in Heq.
  rewrite !withheld_canonical in Heq. congruence.
Qed.

Lemma shields_copy metadata h h' : shields h h' → shields h (copySafeHeaders h' metadata).
Proof.
  intros Hh k Hw. unfold copySafeHeaders.
  by rewrite copy_entries_values, copied_withheld, app_nil_r, Hh.
Qed.

Lemma shields_error requestID e h h' : shields h h' → shields h (error_header requestID e h').
Proof.
  intros Hh. unfold error_header. do 2 (apply shields_set; [done|]).
  destruct (0 <? err_RetryAfter e)%Z; [by apply shields_set|done].
Qed.

Lemma shields_error_rw requestID status e h rw :
  shields h (rw_header rw) → shields h (rw_sent (error_rw requestID status e rw)).
Proof.
  intros Hh. destruct (error_rw_spec requestID status e rw) as (_ & -> & _).
  by apply shields_error.
Qed.

(** The headers a stream is sent with. *)
Lemma writeSSE_sent requestID status stream w :
  (200 ≤ status ≤ 599)%Z → rw_status (w_rw w) = None →
  rw_sent (w_rw (world_of (writeSSE requestID status stream w))) =
    if rw_flusher (w_rw w) then sse_header (rw_header (w_rw w))
    else error_header requestID
      (simple_error ErrorInternal "Streaming is not supported by this server.")
      (rw_header (w_rw w)).
Proof.
  intros Hs Hst. destruct (rw_flusher (w_rw w)) eqn:Hf.
  - rewrite writeSSE_unfold by done. rewrite deferred_act.
    destruct (sse_loop_spec stream
      (mkWorld (commit status (with_header sse_header (w_rw w))) (w_trace w ++ [ActFlush]))
      status eq_refl) as (n & wr & rest & w' & Hl & _ & _ & _ & H2 & _).
    by destruct Hl as [->|(-> & _ & _)].
  - unfold writeSSE. rewrite deferred_act. erewrite M_bind_Return by reflexivity.
    cbv beta. rewrite Hf. cbn [negb]. rewrite writeErrorStatus_spec by (done || lia).
    apply error_rw_spec.
Qed.

(** The header map of a successful answer. *)
Lemma sent_headers h requestID operation vi result w :
  rw_status (w_rw w) = None → informational (response_status operation result) = false →
  response_status operation result ≠ 101%Z →
  let sent := rw_sent (w_rw (world_of (respond h requestID operation vi result w))) in
  let copied := copySafeHeaders (rw_header (w_rw w)) (resp_Metadata result) in
  (∃ e h0, sent = error_header requestID e h0 ∧
     (h0 = rw_header (w_rw w) ∨ h0 = copied ∨
      h0 = header_set "Content-Type" (json_media result) copied)) ∨
  (has_stream result = true ∧ sent = sse_header copied) ∨
  sent = copied ∨ (∃ mediaType, sent = header_set "Content-Type" mediaType copied).
Proof.
  intros Hst Hi H101 sent copied. subst sent.
  destruct (Z.le_gt_cases (responseModeCount result) 1) as [Hu|Hu].
  2:{ rewrite respond_ambiguous by (done || unfold unambiguous; lia). left.
      do 2 eexists. split; [apply error_rw_spec|auto]. }
  destruct (valid_status (response_status operation result)) eqn:Hs.
  2:{ rewrite respond_invalid_status by done. left.
      do 2 eexists. split; [apply error_rw_spec|auto]. }
  assert (200 ≤ response_status operation result ≤ 599)%Z as Hr.
  { unfold valid_status in Hs. unfold informational in Hi. lia. }
  destruct (non_nil (resp_Stream result)) as [stream|] eqn:Hstream.
  { rewrite (respond_stream _ _ _ _ _ stream), writeSSE_sent by done.
    change (rw_header (w_rw (mkWorld (metadata_rw result (w_rw w)) _))) with copied.
    destruct (rw_flusher _); [right; left|left; do 2 eexists; split; [reflexivity|auto]].
    split; [|done]. unfold has_stream. by rewrite <- non_nil_spec, Hstream. }
  destruct (non_nil (resp_Body result)) as [body|] eqn:Hbody.
  - rewrite (respond_body _ _ _ _ _ body) by done. cbn [world_of w_rw].
    rewrite (proj1 (proj2 (sent_rw_final _ _ _ Hr))). unfold typed_rw. do 2 right.
    destruct (string_empty (resp_MediaType result)); [by left|right]. by eexists.
  - rewrite respond_json by done. cbn [world_of w_rw]. destruct (response_verdict _ _ _ _ _).
    + left. do 2 eexists. split; [apply error_rw_spec|]. auto.
    + rewrite (proj1 (proj2 (sent_rw_final _ _ _ Hr))). do 3 right. by eexists.
Qed.

(** The names under which nothing is copied. *)
Lemma withheld_names key :
  CanonicalHeaderKey key ∈ ["Connection"; "Keep-Alive"; "Proxy-Authenticate";
    "Proxy-Authorization"; "Te"; "Trailer"; "Transfer-Encoding"; "Upgrade"; "Authorization";
    "Set-Cookie"] → withheld key = true.
Proof.
  intros Hk. rewrite <- withheld_canonical. revert Hk. generalize (CanonicalHeaderKey key).
  intros k Hk. set_unfold. by intuition subst.
Qed.

(** C26. Of the backend's metadata the ten headers named here, in any spelling
    that has the same canonical form, do not leave the server when the answer
    has a final status: under those names the response carries what the writer
    held before, except for the [Connection] header that an event stream sets
    itself. *)
Theorem respond_withholds h requestID operation vi result w key :
  rw_status (w_rw w) = None → ¬ (100 ≤ response_status operation result ≤ 199)%Z →
  CanonicalHeaderKey key ∈ ["Connection"; "Keep-Alive"; "Proxy-Authenticate";
    "Proxy-Authorization"; "Te"; "Trailer"; "Transfer-Encoding"; "Upgrade"; "Authorization";
    "Set-Cookie"] →
  let sent := rw_sent (w_rw (world_of (respond h requestID operation vi result w))) in
  header_values sent key = header_values (rw_header (w_rw w)) key ∨
  has_stream result = true ∧ CanonicalHeaderKey key = "Connection" ∧
  header_values sent key = ["keep-alive"].
Proof.
  intros Hst Hfinal Hk%withheld_names sent.
  assert (informational (response_status operation result) = false ∧
    response_status operation result ≠ 101%Z) as [Hi H101].
  { split; [|lia]. apply not_true_is_false. rewrite informational_spec. lia. }
  assert (shields (rw_header (w_rw w))
    (copySafeHeaders (rw_header (w_rw w)) (resp_Metadata result))) as Hcopy
    by by apply shields_copy.
  destruct (sent_headers h requestID operation vi result w Hst Hi H101)
    as [(e & h0 & Hsent & Hh0)|[[Hstream Hsent]|[Hsent|[mediaType Hsent]]]];
    subst sent; rewrite Hsent.
  - left. apply shields_error; [|done].
    destruct Hh0 as [->|[->| ->]]; [done|done|by apply shields_set].
  - destruct (decide (CanonicalHeaderKey key = "Connection")) as [Heq|Hne].
    + right. split_and!; [done..|]. unfold header_values, sse_header, header_set.
      rewrite Heq. by simplify_map_eq.
    + left. unfold sse_header. unfold header_values at 1, header_set at 1.
      rewrite lookup_insert_ne by (intros Heq; apply Hne; by rewrite <- Heq).
      by apply (shields_set "Cache-Control"); [|apply shields_set|].
  - left. by apply Hcopy.
  - left. by apply shields_set.
Qed.

(** Every other header of the backend's metadata is passed on with all
    its values, behind those the writer held, when the backend's answer is
    served as it is. *)
Theorem copySafeHeaders_passes (target : Header) metadata entries key :
  entries ≡ₚ map_to_list metadata →
  map_Forall (λ k (_ : list string), CanonicalHeaderKey k = k) metadata →
  header_values (copy_entries target entries) key =
    header_values target key ++
      if withheld key then [] else default [] (metadata !! CanonicalHeaderKey key).
Proof.
  intros Hp Hc. rewrite copy_entries_values. f_equal.
  destruct (withheld key) eqn:Hw; [by apply copied_withheld|].
  assert (NoDup entries.*1) as Hnd by (rewrite Hp; apply NoDup_fst_map_to_list).
  assert (Forall (λ e, CanonicalHeaderKey e.1 = e.1) entries) as Hcan.
  { apply Forall_forall. intros [k vs] Hin. rewrite Hp in Hin.
    apply elem_of_map_to_list in Hin. by apply (Hc k vs). }
  assert (∀ vs, metadata !! CanonicalHeaderKey key = Some vs ↔
    (CanonicalHeaderKey key, vs) ∈ entries) as Hin.
  { intros vs. by rewrite Hp, elem_of_map_to_list. }
  destruct (metadata !! CanonicalHeaderKey key) as [vs|] eqn:E; simpl.
  - apply copied_one; [done..|]. by apply Hin.
  - apply copied_absent; [done|]. intros [vs Hvs]. apply Hin in Hvs. done.
Qed.

(** ** Witnesses *)

Definition example_metadata : gmap string (list string) :=
  {[ "set-cookie" := ["session=1"]; "X-Trace" := ["a"; "b"] ]}.

Definition example_answer : World :=
  world_of (respond
    (New (mkServices None ∅ ∅) (mkDocument [] [])
      (mkCollaborators (λ _, Err (Sentinel "")) (λ _, None) (λ _ _ _ _, None))
      (mkConfig "" 10 [] false (λ _ _, Ok "")))
    "req_1" (mkOperation "GET" "/models" "listModels" "models" [] ["application/json"] 200)
    (mkValidationInput (mkHttpRequest "GET" "/models" "" ∅ "" false None) ∅ ∅
      (mkRoute None "/models" [] "GET" (mkOasOperation "listModels" false)) true false true)
    (mkResponse 0 example_metadata "" "" (ptr "payload") None) (fresh_world true None)).

Lemma respond_withholds_witness :
  header_values (rw_sent (w_rw example_answer)) "Set-Cookie" = [] ∨
  false = true ∧ CanonicalHeaderKey "Set-Cookie" = "Connection" ∧
  header_values (rw_sent (w_rw example_answer)) "Set-Cookie" = ["keep-alive"].
Proof.
  unfold example_answer.
  apply (respond_withholds _ "req_1"
    (mkOperation "GET" "/models" "listModels" "models" [] ["application/json"] 200) _
    (mkResponse 0 example_metadata "" "" (ptr "payload") None) (fresh_world true None));
    [reflexivity|by vm_compute; intros []|apply (bool_decide_unpack _); by vm_compute].
Defined.

Lemma copySafeHeaders_passes_witness :
  header_values (copy_entries ∅ [("X-Trace", ["a"; "b"])]) "x-trace" =
    header_values ∅ "x-trace" ++ ["a"; "b"].
Proof.
  etransitivity; [apply (copySafeHeaders_passes ∅ {[ "X-Trace" := ["a"; "b"] ]}
    [("X-Trace", ["a"; "b"])] "x-trace")|vm_compute; reflexivity].
  - by rewrite map_to_list_singleton.
  - apply map_Forall_singleton. reflexivity.
Defined.
