(* ===== verification/RestGate.v ===== *)
(** The REST handler as a whole: the gates a request passes before a backend
    is called, the request the backend is given, and the answers. *)
From S2P Require Import Prelude GoStrings GoHttp Errors Services Backend JsonString World.
From S2P Require Import RestErrors RestStream ProfileData Profile RestHandler RestAnswer.

(** ** Specification: admission *)

(** The gates a request passes, each one on top of the previous: the caller is
    authenticated, the body is read whole and within the limit, the router
    knows the route, the profile knows the operation, and validation (when it
    is on) accepts the request. *)
Section gates.
Context (h : handler) (request : HttpRequest).

Definition buffered : HttpRequest := with_body (r_Body request) request.

Definition authenticated (callerID : string) : Prop :=
  Authenticate (h_config h) request (request_id request) = Ok callerID.

Definition received (callerID : string) : Prop :=
  authenticated callerID ∧ (len (r_Body request) ≤ MaxBodyBytes (h_config h))%Z ∧
  r_body_error request = false.

Definition routed (callerID : string) (route : Route) (pathParams : gmap string string) : Prop :=
  received callerID ∧ FindRoute (h_collaborators h) buffered = Ok (route, pathParams).

Definition known (callerID : string) (route : Route) (pathParams : gmap string string)
    (operation : Operation) : Prop :=
  routed callerID route pathParams ∧ resolve buffered route = Some operation.

Definition accepted (callerID : string) (route : Route) (pathParams : gmap string string)
    (operation : Operation) : Prop :=
  known callerID route pathParams operation ∧
  (Validate (h_config h) = true →
   ValidateRequest (h_collaborators h)
     (validation_input h buffered route pathParams operation) = None).

(** The operation's capability has a handler as well: the backend is called. *)
Definition admitted (callerID : string) (route : Route) (pathParams : gmap string string)
    (operation : Operation) (backend : dynamic HandleFunc) : Prop :=
  accepted callerID route pathParams operation ∧
  HandlerFor (h_services h) (op_Capability operation) = (Some backend, true).

(** The first gate a request fails, with the status and the error it is
    refused with. *)
Inductive refused : Z → backend_error → Prop :=
| refused_auth err :
    Authenticate (h_config h) request (request_id request) = Err err →
    refused 401 (simple_error ErrorUnauthorized "Invalid authentication credentials.")
| refused_size callerID :
    authenticated callerID → (MaxBodyBytes (h_config h) < len (r_Body request))%Z →
    refused 413 (simple_error ErrorInvalid "Request body is too large.")
| refused_read callerID :
    authenticated callerID → (len (r_Body request) ≤ MaxBodyBytes (h_config h))%Z →
    r_body_error request = true →
    refused 400 (simple_error ErrorInvalid "Could not read request body.")
| refused_route callerID err :
    received callerID → FindRoute (h_collaborators h) buffered = Err err →
    refused (if is_method_not_allowed err then 405 else 404)
      (simple_error ErrorNotFound "The requested resource was not found.")
| refused_operation callerID route pathParams :
    routed callerID route pathParams → resolve buffered route = None →
    refused 501 (simple_error ErrorUnsupported
      "Operation is not in the active compatibility profile.")
| refused_validation callerID route pathParams operation text :
    known callerID route pathParams operation → Validate (h_config h) = true →
    ValidateRequest (h_collaborators h)
      (validation_input h buffered route pathParams operation) = Some text →
    refused 400 (simple_error ErrorInvalid (safeValidationMessage text))
| refused_capability callerID route pathParams operation value :
    accepted callerID route pathParams operation →
    HandlerFor (h_services h) (op_Capability operation) = (value, false) →
    refused 501 (not_configured operation).

Lemma refused_range status e : refused status e → (400 ≤ status ≤ 501)%Z.
Proof. destruct 1; try lia. case_match; lia. Qed.
End gates.

(** The limits [MaxBodyBytes] for which adding one does not wrap. *)
Definition sane_limit (h : handler) : Prop := (0 ≤ MaxBodyBytes (h_config h) < 2 ^ 63 - 1)%Z.

(** What the handler did before it answers or calls the backend. *)
Definition start_world (request : HttpRequest) (w : World) : World :=
  mkWorld (with_header (header_set "X-Request-Id" (request_id request)) (w_rw w))
    (w_trace w ++ [ActAuthenticate]).

Definition checks (h : handler) : list action :=
  if Validate (h_config h) then [ActValidateRequest] else [].

Lemma takes_all_start request w :
  takes_all (w_rw w) → takes_all (w_rw (start_world request w)).
Proof.
  intros [Hc Hd]. split; [done|]. rewrite <- Hd. apply declared_length_values.
  by apply header_values_set_ne.
Qed.

(** ** Lemmas: bodies *)

Lemma add64_small a b : (- 2 ^ 63 ≤ a + b < 2 ^ 63)%Z → add64 a b = (a + b)%Z.
Proof. intros H. unfold add64, wrap64. rewrite Z.mod_small; lia. Qed.

Lemma read_limited_spec h request :
  sane_limit h →
  match read_limited (add64 (MaxBodyBytes (h_config h)) 1) request with
  | None => (len (r_Body request) ≤ MaxBodyBytes (h_config h))%Z ∧ r_body_error request = true
  | Some body =>
      if (MaxBodyBytes (h_config h) <? len body)%Z
      then (MaxBodyBytes (h_config h) < len (r_Body request))%Z
      else (len (r_Body request) ≤ MaxBodyBytes (h_config h))%Z ∧
           r_body_error request = false ∧ body = r_Body request
  end.
Proof.
  intros [H0 H1]. unfold read_limited. rewrite add64_small by lia. unfold len.
  destruct (Z.leb_spec (MaxBodyBytes (h_config h) + 1) 0); [lia|].
  destruct (Z.leb_spec (MaxBodyBytes (h_config h) + 1) (Z.of_nat (String.length (r_Body request)))).
  - rewrite length_take_str.
    destruct (Z.ltb_spec (MaxBodyBytes (h_config h))
      (Z.of_nat (Nat.min (Z.to_nat (MaxBodyBytes (h_config h) + 1)) (String.length (r_Body request)))));
      lia.
  - destruct (r_body_error request); [split; [lia|done]|].
    destruct (Z.ltb_spec (MaxBodyBytes (h_config h)) (Z.of_nat (String.length (r_Body request))));
      [lia|]. split_and!; [lia|done..].
Qed.

(** ** Lemmas: the gates, one step at a time *)

Lemma ServeHTTP_admitted h request callerID route pathParams operation backend w :
  sane_limit h → admitted h request callerID route pathParams operation backend →
  let call := backend_request (request_id request) callerID operation pathParams
                (buffered request) (r_Body request) in
  ServeHTTP h request w =
    match dyn_val backend call with
    | Err err => writeBackendError (request_id request) err
    | Ok result => respond h (request_id request) operation
        (validation_input h (buffered request) route pathParams operation) result
    end (traced (checks h ++ [ActHandle call]) (start_world request w)).
Proof.
  intros Hm (((((Hauth & Hlen & Herr) & Hroute) & Hop) & Hval) & Hh). simpl.
  unfold ServeHTTP. unfold mbind, M_bind, modify_header, with_rw, act. cbn [w_rw w_trace].
  unfold authenticated in Hauth. rewrite Hauth.
  pose proof (read_limited_spec h request Hm) as Hread.
  destruct (read_limited _ _) as [body|]; [|destruct Hread; congruence].
  destruct (_ <? _)%Z; [lia|]. destruct Hread as (_ & _ & ->).
  fold (buffered request). rewrite Hroute, Hop. unfold checks, traced, start_world.
  cbn [w_rw w_trace].
  destruct (Validate (h_config h)); unfold mret, M_ret; cbn [w_rw w_trace];
    rewrite ?(Hval eq_refl), Hh; cbn [w_rw w_trace]; rewrite <- ?(assoc_L (++)); reflexivity.
Qed.

Definition reply (request : HttpRequest) (status : Z) (e : backend_error) (l : list action)
    (w : World) : outcome () :=
  Return () (mkWorld
    (error_rw (request_id request) status e (w_rw (start_world request w)))
    (w_trace (start_world request w) ++ l)).

Lemma writeErrorStatus_reply request status e l w :
  rw_status (w_rw w) = None → (200 ≤ status ≤ 599)%Z →
  writeErrorStatus (request_id request) status e (traced l (start_world request w)) =
    reply request status e l w.
Proof. intros. by rewrite writeErrorStatus_spec. Qed.

Lemma ServeHTTP_refused h request status e w :
  sane_limit h → rw_status (w_rw w) = None → refused h request status e →
  ∃ l, ServeHTTP h request w = reply request status e l w ∧
    (l = [] ∨ l = checks h).
Proof.
  intros Hm Hst Href. pose proof (refused_range _ _ _ _ Href) as Hrange.
  pose proof (read_limited_spec h request Hm) as Hread.
  unfold ServeHTTP. unfold mbind, M_bind, modify_header, with_rw, act. cbn [w_rw w_trace].
  assert (∀ l, writeErrorStatus (request_id request) status e (traced l (start_world request w)) =
    reply request status e l w) as Hreply.
  { intros. apply writeErrorStatus_reply; [done|lia]. }
  pose proof (Hreply []) as Hreply0. unfold traced, start_world, with_header in Hreply0.
  cbn [w_rw w_trace] in Hreply0. rewrite app_nil_r in Hreply0.
  assert (∀ callerID, authenticated h request callerID →
    (len (r_Body request) ≤ MaxBodyBytes (h_config h))%Z → r_body_error request = false →
    read_limited (add64 (MaxBodyBytes (h_config h)) 1) request = Some (r_Body request) ∧
    (MaxBodyBytes (h_config h) <? len (r_Body request))%Z = false) as Hwhole.
  { intros callerID _ Hlen Herr. split; [|by apply Z.ltb_ge].
    destruct (read_limited _ _) as [body|]; [|destruct Hread; congruence].
    destruct (_ <? _)%Z; [lia|]. by destruct Hread as (_ & _ & ->). }
  destruct Href as [err Hauth|callerID Hauth Hlen|callerID Hauth Hlen Herr
    |callerID err (Hauth & Hlen & Herr) Hf|callerID route pp ((Hauth & Hlen & Herr) & Hf) Hop
    |callerID route pp op text (((Hauth & Hlen & Herr) & Hf) & Hop) Hv Htext
    |callerID route pp op value ((((Hauth & Hlen & Herr) & Hf) & Hop) & Hv) Hh];
    try (destruct (Hwhole callerID Hauth Hlen Herr) as [Hbody Hle]); clear Hwhole;
    unfold authenticated in Hauth; rewrite Hauth.
  - exists []. split; [exact Hreply0|by left].
  - destruct (read_limited _ _) as [body|]; [|lia].
    destruct (_ <? _)%Z; [|lia]. exists []. split; [exact Hreply0|by left].
  - destruct (read_limited _ _) as [body|].
    { destruct (_ <? _)%Z; [lia|]. destruct Hread as (_ & ? & _). congruence. }
    exists []. split; [exact Hreply0|by left].
  - rewrite Hbody, Hle. fold (buffered request). rewrite Hf. exists [].
    split; [exact Hreply0|by left].
  - rewrite Hbody, Hle. fold (buffered request). rewrite Hf, Hop. exists [].
    split; [exact Hreply0|by left].
  - rewrite Hbody, Hle. fold (buffered request). rewrite Hf, Hop, Hv.
    exists (checks h). split; [|by right]. unfold mret, M_ret. cbn [w_rw w_trace].
    rewrite Htext. unfold checks in *. rewrite Hv in *.
    exact (Hreply [ActValidateRequest]).
  - rewrite Hbody, Hle. fold (buffered request). rewrite Hf, Hop.
    exists (checks h). split; [|by right]. unfold checks in *.
    destruct (Validate (h_config h)); unfold mret, M_ret; cbn [w_rw w_trace];
      rewrite ?(Hv eq_refl), Hh; destruct value; [exact (Hreply [ActValidateRequest])..| |];
      exact Hreply0.
Qed.

(** Every request passes all the gates or fails a first one. *)
Lemma gates_total h request `{!LookupsUsable (h_services h)} :
  (∃ callerID route pathParams operation backend,
     admitted h request callerID route pathParams operation backend) ∨
  (∃ status e, refused h request status e).
Proof.
  destruct (Authenticate (h_config h) request (request_id request)) as [callerID|err] eqn:Hauth.
  2:{ right. do 2 eexists. by eapply refused_auth. }
  destruct (Z.le_gt_cases (len (r_Body request)) (MaxBodyBytes (h_config h))) as [Hlen|Hlen].
  2:{ right. do 2 eexists. by eapply refused_size. }
  destruct (r_body_error request) eqn:Herr.
  { right. do 2 eexists. by eapply refused_read. }
  destruct (FindRoute (h_collaborators h) (buffered request)) as [[route pp]|err] eqn:Hf.
  2:{ right. do 2 eexists. by eapply refused_route. }
  destruct (resolve (buffered request) route) as [op|] eqn:Hop.
  2:{ right. do 2 eexists. by eapply refused_operation. }
  destruct (Validate (h_config h)) eqn:Hv;
    [destruct (ValidateRequest (h_collaborators h) (validation_input h (buffered request) route pp op))
      as [text|] eqn:Htext|].
  { right. do 2 eexists. by eapply refused_validation. }
  all: assert (accepted h request callerID route pp op) as Hacc by
    (split; [by split_and!|congruence]).
  all: destruct (HandlerFor (h_services h) (op_Capability op)) as [value []] eqn:Hh;
    [|right; do 2 eexists; by eapply refused_capability].
  all: destruct (HandlerFor_object _ _ _ Hh) as [d ->]; left; by exists callerID, route, pp, op, d.
Qed.

(** The gates exclude each other. *)
Lemma admitted_not_refused h request c r p o b status e :
  admitted h request c r p o b → ¬ refused h request status e.
Proof.
  intros (((((Hauth & Hlen & Herr) & Hf) & Hop) & Hval) & Hh) Href.
  unfold authenticated in Hauth. destruct Href; unfold accepted, known, routed, received,
    authenticated in *; destruct_and?; simplify_eq; try lia.
  all: intuition congruence.
Qed.

(** ** Lemmas: the trace of a request *)

Lemma count_handle_checks h : count is_handle (checks h) = 0.
Proof. unfold checks. by destruct (Validate (h_config h)). Qed.

Lemma emits_writeBackendError P requestID err : emits P (writeBackendError requestID err).
Proof.
  unfold writeBackendError, writeError. destruct (as_backend err) as [[]|]; auto with emits.
Qed.

(** The backend is called after the checks, and nothing calls it again. *)
Lemma ServeHTTP_admitted_trace h request callerID route pathParams operation backend w :
  sane_limit h → admitted h request callerID route pathParams operation backend →
  ∃ rest, w_trace (world_of (ServeHTTP h request w)) =
      w_trace w ++ [ActAuthenticate] ++ checks h ++
      ActHandle (backend_request (request_id request) callerID operation pathParams
        (buffered request) (r_Body request)) :: rest ∧
    Forall (λ a, is_handle a = false) rest.
Proof.
  intros Hm Hadm. erewrite ServeHTTP_admitted by done. cbv zeta.
  set (call := backend_request _ _ _ _ _ _).
  set (w1 := traced _ _).
  assert (emits (λ a, is_handle a = false)
    match dyn_val backend call with
    | Err err => writeBackendError (request_id request) err
    | Ok result => respond h (request_id request) operation
        (validation_input h (buffered request) route pathParams operation) result
    end) as Hemits.
  { destruct (dyn_val backend call); [apply emits_respond|apply emits_writeBackendError]. }
  destruct (Hemits w1) as (rest & Hrest & Hp). exists rest. split; [|done].
  rewrite Hrest. subst w1. unfold traced, start_world. cbn [w_trace].
  by rewrite <- !(assoc_L (++)).
Qed.

Lemma ServeHTTP_refused_trace h request status e w :
  sane_limit h → rw_status (w_rw w) = None → refused h request status e →
  ∃ l, w_trace (world_of (ServeHTTP h request w)) = w_trace w ++ ActAuthenticate :: l ∧
    Forall (λ a, is_handle a = false) l.
Proof.
  intros Hm Hst Href. destruct (ServeHTTP_refused h request status e w Hm Hst Href)
    as (l & -> & Hl). exists l. split.
  - simpl. unfold start_world. cbn [w_trace]. by rewrite <- (assoc_L (++)).
  - destruct Hl as [-> | ->]; [done|]. unfold checks.
    destruct (Validate (h_config h)); by repeat constructor.
Qed.

Lemma handle_not_in call l : Forall (λ a, is_handle a = false) l → ActHandle call ∉ l.
Proof. intros Hl Hin. rewrite Forall_forall in Hl. by specialize (Hl _ Hin). Qed.

Lemma handle_not_checks call h : ActHandle call ∉ ActAuthenticate :: checks h.
Proof.
  apply handle_not_in. constructor; [done|]. unfold checks.
  destruct (Validate (h_config h)); by repeat constructor.
Qed.

(** A backend call in the trace comes from an admitted request, and is the
    call that request determines. *)
Lemma called_admitted h request w call `{!LookupsUsable (h_services h)} :
  sane_limit h → rw_status (w_rw w) = None → w_trace w = [] →
  ActHandle call ∈ w_trace (world_of (ServeHTTP h request w)) →
  ∃ c r p o b, admitted h request c r p o b ∧
    call = backend_request (request_id request) c o p (buffered request) (r_Body request) ∧
    ∃ rest, w_trace (world_of (ServeHTTP h request w)) =
        [ActAuthenticate] ++ checks h ++ [ActHandle call] ++ rest ∧
      Forall (λ a, is_handle a = false) rest.
Proof.
  intros Hm Hst Hw Hin.
  destruct (gates_total h request) as [(c & r & p & o & b & Hadm)|(s & e & Href)].
  - destruct (ServeHTTP_admitted_trace _ _ _ _ _ _ _ w Hm Hadm) as (rest & Ht & Hrest).
    rewrite Hw in Ht. rewrite Ht in Hin |- *. exists c, r, p, o, b. split; [done|].
    assert (call = backend_request (request_id request) c o p (buffered request)
      (r_Body request)) as ->; [|split; [done|by exists rest]].
    change ([] ++ [ActAuthenticate] ++ checks h ++ ?l) with ((ActAuthenticate :: checks h) ++ l)
      in Hin.
    apply elem_of_app in Hin as [Hin|[Hin|Hin]%elem_of_cons];
      [by apply handle_not_checks in Hin|congruence|by apply handle_not_in in Hin].
  - destruct (ServeHTTP_refused_trace _ _ _ _ w Hm Hst Href) as (l & Ht & Hl).
    rewrite Ht, Hw in Hin. apply elem_of_cons in Hin as [?|Hin]; [done|].
    by apply handle_not_in in Hin.
Qed.

(** ** Properties: the gates *)

(** C1. The backend is called exactly for the admitted requests: after the
    caller was authenticated, the whole body was read within the limit, the
    route and the operation were found, validation (when it is on) accepted
    the request and a handler is registered for the operation's capability;
    then it is called once, after these steps, with the request those steps
    determine. *)
Theorem ServeHTTP_calls_backend h request w `{!LookupsUsable (h_services h)} :
  sane_limit h → rw_status (w_rw w) = None → w_trace w = [] →
  let trace := w_trace (world_of (ServeHTTP h request w)) in
  ∀ call, ActHandle call ∈ trace ↔
    ∃ callerID route pathParams operation backend,
      admitted h request callerID route pathParams operation backend ∧
      call = backend_request (request_id request) callerID operation pathParams
               (buffered request) (r_Body request) ∧
      ∃ rest, trace = [ActAuthenticate] ++ checks h ++ [ActHandle call] ++ rest ∧
        Forall (λ a, is_handle a = false) rest.
Proof.
  intros Hm Hst Hw trace call. subst trace. split; [by apply called_admitted|].
  intros (c & r & p & o & b & _ & _ & rest & -> & _). simpl. right.
  apply elem_of_app. right. by left.
Qed.

(** C13. Every request is either admitted or refused at its first failing
    gate, never both; a refused request is answered once, with the status and
    the error of that gate, under its request identifier, and no backend is
    called for it. *)
Theorem ServeHTTP_refuses h request w `{!LookupsUsable (h_services h)} :
  sane_limit h → rw_status (w_rw w) = None → w_trace w = [] →
  (∃ c r p o b, admitted h request c r p o b ∧ ∀ status e, ¬ refused h request status e) ∨
  (∃ status e, refused h request status e ∧
     (∀ c r p o b, ¬ admitted h request c r p o b) ∧
     ∃ w', ServeHTTP h request w = Return () w' ∧
       rw_status (w_rw w') = Some status ∧ (400 ≤ status ≤ 501)%Z ∧
       header_get (rw_sent (w_rw w')) "X-Request-Id" = request_id request ∧
       (takes_all (w_rw w) → rw_body (w_rw w') = rw_body (w_rw w) +:+ error_body e) ∧
       count is_handle (w_trace w') = 0).
Proof.
  intros Hm Hst Hw.
  destruct (gates_total h request) as [(c & r & p & o & b & Hadm)|(s & e & Href)].
  - left. exists c, r, p, o, b. split; [done|]. intros s e. by eapply admitted_not_refused.
  - right. exists s, e. split; [done|]. split.
    { intros c r p o b Hadm. by eapply admitted_not_refused. }
    pose proof (refused_range _ _ _ _ Href) as Hr.
    destruct (ServeHTTP_refused_trace _ _ _ _ w Hm Hst Href) as (l & Ht & Hl).
    destruct (ServeHTTP_refused h request s e w Hm Hst Href) as (l' & Hrun & _).
    rewrite Hrun in Ht |- *. eexists. split; [reflexivity|].
    destruct (error_rw_spec (request_id request) s e (w_rw (start_world request w)))
      as (Hs & Hh & _ & Hb). simpl in Ht. cbn [w_rw w_trace].
    rewrite Hs, Hh, error_header_id. split_and!; [done|lia..|done| |].
    + intros Ht'. rewrite Hb; [done| |by apply takes_all_start]. unfold bodyAllowed. lia.
    + unfold start_world in Ht. cbn [w_trace] in Ht. unfold start_world. cbn [w_trace].
      rewrite Ht, Hw. apply count_none. by constructor.
Qed.

(** ** Properties: what the backend is given *)

Lemma resolve_In request route operation :
  resolve request route = Some operation → operation ∈ Operations.
Proof.
  unfold resolve. destruct (OperationForRoute _ _ _) as [op|] eqn:E.
  - intros [= <-]. exact (OperationForRoute_In _ _ _ _ E).
  - apply OperationByID_In.
Qed.

(** Every header that is not held back is forwarded with its values unchanged,
    in whatever order the header map is visited, when the server has made its
    keys canonical. *)
Lemma safeHeaders_forwards (headers : Header) entries key :
  entries ≡ₚ map_to_list headers →
  map_Forall (λ key (_ : list string), CanonicalHeaderKey key = key) headers →
  sensitive key = false → safe_entries entries !! key = headers !! key.
Proof.
  intros Hp Hc Hk. apply option_eq. intros values.
  rewrite safe_entries_lookup; [|..|done].
  - by rewrite Hp, elem_of_map_to_list.
  - rewrite Hp. apply NoDup_fst_map_to_list.
  - apply Forall_forall. intros [k vs] Hin. rewrite Hp in Hin.
    apply elem_of_map_to_list in Hin. by apply (Hc k vs).
Qed.

Lemma safeHeaders_canonical headers key :
  CanonicalHeaderKey key ≠ key → safeHeaders headers !! key = None.
Proof.
  unfold safeHeaders. induction (map_to_list headers) as [|[k vs] entries IH] using rev_ind;
    intros Hk; [done|].
  rewrite safe_entries_snoc. destruct (sensitive k); [by apply IH|].
  rewrite lookup_insert_ne; [by apply IH|]. intros <-. by rewrite CanonicalHeaderKey_idem in Hk.
Qed.

(** The names that are not forwarded, in any spelling of the same canonical
    form. *)
Lemma sensitive_names key :
  CanonicalHeaderKey key ∈ ["Authorization"; "Cookie"; "Sec-Websocket-Protocol"] →
  sensitive key = true.
Proof.
  intros Hk. rewrite <- sensitive_canonical. revert Hk. generalize (CanonicalHeaderKey key).
  intros k Hk. set_unfold. by intuition subst.
Qed.

Lemma sensitive_token key :
  string_forallb token_byte key = true →
  CanonicalHeaderKey key ∉ ["Authorization"; "Cookie"; "Sec-Websocket-Protocol"] →
  sensitive key = false.
Proof.
  intros Ht Hk. unfold sensitive. rewrite !EqualFold_token by done.
  assert (∀ t, string_forallb token_byte t = true →
    CanonicalHeaderKey t ∈ ["Authorization"; "Cookie"; "Sec-Websocket-Protocol"] →
    bool_decide (string_map lower key = string_map lower t) = false) as Hne.
  { intros t Htt Hin. apply bool_decide_eq_false. intros Heq. destruct Hk.
    by rewrite (CanonicalHeaderKey_fold key t). }
  rewrite !Hne; [done|done|..]; apply (bool_decide_unpack _); by vm_compute.
Qed.

(** C23. The backend reads the wire payload: when it is called under a limit
    below the largest [int64], the bytes of its input are the whole body of the
    request, the JSON view is that same payload or absent, and the operation it
    is told belongs to the profile and to the capability the handler was
    registered for.  Of the request's headers [Authorization], [Cookie] and
    [Sec-WebSocket-Protocol] are held back in any spelling, and the others are
    handed over as they came. *)
Theorem backend_input_exact h request w call `{!LookupsUsable (h_services h)} :
  sane_limit h → rw_status (w_rw w) = None → w_trace w = [] →
  ActHandle call ∈ w_trace (world_of (ServeHTTP h request w)) →
  in_Bytes (req_Input call) = r_Body request ∧
  (in_JSON (req_Input call) = r_Body request ∨ in_JSON (req_Input call) = "") ∧
  (len (in_Bytes (req_Input call)) ≤ MaxBodyBytes (h_config h))%Z ∧
  RequestID (req_Metadata call) = request_id request ∧
  (∀ key, CanonicalHeaderKey key ∈ ["Authorization"; "Cookie"; "Sec-Websocket-Protocol"] →
     Extensions (req_Metadata call) !! key = None) ∧
  (map_Forall (λ key (_ : list string), CanonicalHeaderKey key = key) (r_Header request) →
   ∀ key, string_forallb token_byte key = true →
     key ∉ ["Authorization"; "Cookie"; "Sec-Websocket-Protocol"] →
     Extensions (req_Metadata call) !! key = r_Header request !! key) ∧
  ∃ operation, operation ∈ Operations ∧ req_Operation call = op_ID operation ∧
    req_Capability call = op_Capability operation.
Proof.
  intros Hm Hst Hw Hin.
  destruct (called_admitted h request w call Hm Hst Hw Hin)
    as (c & r & p & o & b & (((((_ & Hlen & _) & _) & Hop) & _) & _) & -> & _).
  unfold backend_request, input. cbn [req_Input in_Bytes in_JSON req_Metadata RequestID
    Extensions req_Operation req_Capability].
  split_and!; [done| |done|done| | |].
  - destruct (_ && _); auto.
  - intros key Hk%sensitive_names. by apply safe_entries_sensitive.
  - intros Hc key Ht Hk.
    destruct (decide (CanonicalHeaderKey key = key)) as [Heq|Hne].
    + apply (safeHeaders_forwards (r_Header request) (map_to_list (r_Header request))); [done..|].
      apply sensitive_token; [done|]. by rewrite Heq.
    + transitivity (@None (list string)); [by apply safeHeaders_canonical|].
      symmetry. apply eq_None_not_Some. by intros [vs ?%Hc].
  - exists o. split; [exact (resolve_In _ _ _ Hop)|by split].
Qed.

(** Parameters: every query parameter is handed over with all its
    values; a path parameter is handed over unless the query has a parameter
    of the same name, which then takes its place. *)
Theorem parameters_spec (pathParams : gmap string string) (query : Values) key :
  parameters pathParams query !! key =
    match query !! key, pathParams !! key with
    | Some values, _ => Some (marshal_values values)
    | None, Some value => Some (marshal_string value)
    | None, None => None
    end.
Proof.
  unfold parameters. rewrite lookup_union, !lookup_fmap.
  destruct (query !! key) as [vs|], (pathParams !! key) as [v|]; done.
Qed.

(** ** Properties: the backend's answer *)

Lemma identified_start request w :
  identified (request_id request) (rw_header (w_rw (start_world request w))).
Proof.
  unfold identified, header_values, start_world, with_header, header_set. cbn [w_rw rw_header].
  by rewrite lookup_insert_eq.
Qed.

(** A backend that asks for no interim status is answered with a final one. *)
Lemma final_status request route operation result :
  resolve (buffered request) route = Some operation → ¬ (100 ≤ StatusCode result ≤ 199)%Z →
  informational (response_status operation result) = false ∧
  response_status operation result ≠ 101%Z.
Proof.
  intros Hop%resolve_In Hi. unfold response_status, informational.
  pose proof Operations_success as Hall. rewrite Forall_forall in Hall.
  specialize (Hall _ Hop). simpl in Hall. destruct (Z.eqb_spec (StatusCode result) 0); lia.
Qed.

(** C4. Every request is answered under its identifier, whatever the request,
    the router, the validation and the backend do: the handler sends one final
    response with a status from 200 to 599, unless the backend was called and
    asked for a status from 100 to 199 (then the final status is net/http's);
    it panics only when the backend returned an error that holds a nil
    [*backend.Error], and waits only while a stream that has neither ended nor
    been cancelled is being written. *)
Theorem ServeHTTP_answers h request w `{!LookupsUsable (h_services h)} :
  sane_limit h → rw_status (w_rw w) = None →
  let called c o b r := ∃ route p, admitted h request c route p o b ∧
    dyn_val b (backend_request (request_id request) c o p (buffered request) (r_Body request)) = r in
  let settled w' := answered (request_id request) w' ∨
    ∃ c o b result, called c o b (Ok result) ∧ (100 ≤ StatusCode result ≤ 199)%Z in
  match ServeHTTP h request w with
  | Return _ w' => settled w'
  | Panic _ => ∃ c o b err, called c o b (Err err) ∧ as_backend err = Some None
  | Blocked w' => settled w' ∧ ∃ c o b result stream, called c o b (Ok result) ∧
      non_nil (resp_Stream result) = Some stream ∧ tape_ends stream = false
  end.
Proof.
  intros Hm Hst called settled.
  destruct (gates_total h request) as [(c & r & p & o & b & Hadm)|(s & e & Href)].
  2:{ destruct (ServeHTTP_refused h request s e w Hm Hst Href) as (l & -> & _). left.
      apply answered_error. pose proof (refused_range _ _ _ _ Href). lia. }
  erewrite ServeHTTP_admitted by done. cbv zeta.
  set (call := backend_request _ _ _ _ _ _). pose proof Hadm as [[[_ Hop] _] _].
  destruct (dyn_val b call) as [result|err] eqn:Hcall.
  - assert (called c o b (Ok result)) as Hc by (by exists r, p).
    set (w1 := traced _ _). set (vi := validation_input _ _ _ _ _).
    pose proof (never_panics_respond h (request_id request) o vi result w1) as Hnp.
    pose proof (respond_blocked h (request_id request) o vi result w1) as Hblocked.
    pose proof (respond_answers h (request_id request) o vi result w1 Hst) as Hans.
    assert (settled (world_of (respond h (request_id request) o vi result w1))) as Hsettled.
    { destruct (decide (100 ≤ StatusCode result ≤ 199)%Z) as [Hi|Hi].
      { right. by exists c, o, b, result. }
      left. destruct (final_status request r o result) as [H1 H2]; [done..|].
      specialize (Hans (identified_start request w) H1 H2).
      destruct (respond _ _ _ _ _ _); [done..|]. by destruct Hans. }
    destruct (respond _ _ _ _ _ _) as [[] w'|w'|w'].
    + done.
    + by destruct (Hnp w').
    + split; [done|]. destruct (Hblocked w' Hst eq_refl) as (stream & ? & ?).
      by exists c, o, b, result, stream.
  - destruct (as_backend err) as [[e|]|] eqn:E; unfold writeBackendError; rewrite E.
    2:{ exists c, o, b, err. split; [|done]. by exists r, p. }
    all: rewrite writeError_spec by done; left; apply answered_error.
    + pose proof (errorStatus_range e). lia.
    + by vm_compute.
Qed.

(** C22. Resources: once the backend has handed over a response, its body is
    closed exactly once, on every path, and its stream exactly once before the
    handler returns, unless the response is refused for its status. *)
Theorem ServeHTTP_closes h request w c r p o b result :
  sane_limit h → rw_status (w_rw w) = None → w_trace w = [] →
  admitted h request c r p o b →
  dyn_val b (backend_request (request_id request) c o p (buffered request) (r_Body request))
    = Ok result →
  match ServeHTTP h request w with
  | Return _ w' =>
      count is_close_body (w_trace w') = (if has_body result then 1 else 0) ∧
      count is_close_stream (w_trace w') =
        (if has_stream result &&
            ((1 <? responseModeCount result)%Z || valid_status (response_status o result))
         then 1 else 0)
  | Panic _ => False
  | Blocked w' =>
      has_body result = false ∧ has_stream result = true ∧
      count is_close_body (w_trace w') = 0 ∧ count is_close_stream (w_trace w') = 0
  end.
Proof.
  intros Hm Hst Hw Hadm Hok. erewrite ServeHTTP_admitted by done. cbv zeta. rewrite Hok.
  set (call := backend_request _ _ _ _ _ _). set (w1 := traced _ _).
  assert (count is_close_body (w_trace w1) = 0 ∧ count is_close_stream (w_trace w1) = 0)
    as [H1 H2].
  { subst w1. unfold traced, start_world. cbn [w_trace]. rewrite Hw, !count_app.
    unfold checks. by destruct (Validate (h_config h)). }
  pose proof (respond_closes h (request_id request) o
    (validation_input h (buffered request) r p o) result w1 Hst) as Hc.
  unfold closes in Hc. rewrite H1, H2 in Hc. destruct (respond _ _ _ _ _ _); simpl in *; tauto.
Qed.

(** A stream that comes with a status the handler rejects is never
    closed, although the handler owns it: the request is answered with an
    internal error and the backend's producer is left waiting. *)
Theorem invalid_status_leaks_stream h request w c r p o b result :
  sane_limit h → rw_status (w_rw w) = None → w_trace w = [] →
  admitted h request c r p o b →
  dyn_val b (backend_request (request_id request) c o p (buffered request) (r_Body request))
    = Ok result →
  has_stream result = true → responseModeCount result = 1%Z →
  valid_status (response_status o result) = false →
  ∃ w', ServeHTTP h request w = Return () w' ∧ rw_status (w_rw w') = Some 500%Z ∧
    count is_close_stream (w_trace w') = 0.
Proof.
  intros Hm Hst Hw Hadm Hok Hs Hu Hv. erewrite ServeHTTP_admitted by done. cbv zeta.
  rewrite Hok, respond_invalid_status; [|done|unfold unambiguous; lia|done].
  eexists. split; [reflexivity|]. cbn [w_rw w_trace].
  split; [by apply error_rw_spec|]. unfold closes_body.
  destruct (unambiguous_stream result) as [-> _]; [unfold unambiguous; lia|done|].
  unfold traced, start_world. cbn [w_trace]. rewrite Hw, !count_app. unfold checks.
  by destruct (Validate (h_config h)).
Qed.

(** The length declared by the metadata is that of the answer. *)
Lemma json_rw_length result rw :
  declared_length (rw_header (json_rw result rw)) =
    declared_length (copySafeHeaders (rw_header rw) (resp_Metadata result)).
Proof. apply declared_length_values. by apply header_values_set_ne. Qed.

(** C24. A JSON answer reaches the client unchanged: with a final status from
    200 to 599 that allows a body, and unless response validation rejects it,
    the client gets that status (the operation's own when the backend gives
    none), the declared media type or JSON, and exactly the bytes of the
    backend; a rejected answer is replaced as a whole by an internal error.
    Either body is sent whole or, when the header map with the copied metadata
    declares a shorter [Content-Length], not at all. *)
Theorem ServeHTTP_json h request w c r p o b result :
  sane_limit h → rw_status (w_rw w) = None → rw_capacity (w_rw w) = None → rw_body (w_rw w) = "" →
  admitted h request c r p o b →
  dyn_val b (backend_request (request_id request) c o p (buffered request) (r_Body request))
    = Ok result →
  has_stream result = false → has_body result = false →
  let status := if (StatusCode result =? 0)%Z then op_SuccessStatus o else StatusCode result in
  (200 ≤ status ≤ 599)%Z → bodyAllowed status = true →
  let declared := declared_length
    (copySafeHeaders (rw_header (w_rw (start_world request w))) (resp_Metadata result)) in
  let sent body := match declared with
    | Some n => if (n <? len body)%Z then "" else body
    | None => body
    end in
  ∃ w', ServeHTTP h request w = Return () w' ∧
    header_get (rw_sent (w_rw w')) "X-Request-Id" = request_id request ∧
    match response_verdict h (validation_input h (buffered request) r p o) status result
            (w_rw (start_world request w)) with
    | None => rw_status (w_rw w') = Some status ∧ rw_body (w_rw w') = sent (resp_JSON result) ∧
        header_get (rw_sent (w_rw w')) "Content-Type" = json_media result
    | Some _ => rw_status (w_rw w') = Some 500%Z ∧
        rw_body (w_rw w') = sent (error_body (internal_error
          "Backend returned a response outside the active compatibility profile."))
    end.
Proof.
  intros Hm Hst Hcap Hempty Hadm Hok Hs Hb status Hr Hallowed declared sent.
  assert (valid_status status = true) as Hv by (unfold valid_status; lia).
  assert (non_nil (resp_Stream result) = None ∧ non_nil (resp_Body result) = None) as [Hs' Hb'].
  { unfold has_stream, has_body in *. unfold non_nil. by rewrite Hs, Hb. }
  erewrite ServeHTTP_admitted by done. cbv zeta.
  rewrite Hok, respond_json; [|done|..|done|done|done].
  2:{ unfold unambiguous, responseModeCount. unfold has_stream, has_body in *. rewrite Hs, Hb.
      destruct (string_empty (resp_JSON result)); lia. }
  change (response_status o result) with status.
  change (w_rw (traced ?l ?x)) with (w_rw x).
  assert (identified (request_id request)
    (rw_header (json_rw result (w_rw (start_world request w))))) as Hid.
  { apply identified_set; [done|]. apply identified_copy, identified_start. }
  eexists. split; [reflexivity|]. cbn [w_rw]. destruct (response_verdict _ _ _ _ _).
  - destruct (error_rw_spec (request_id request) 500 (internal_error
      "Backend returned a response outside the active compatibility profile.")
      (json_rw result (w_rw (start_world request w)))) as (H1 & H2 & _ & _).
    rewrite H1, H2, error_header_id. split_and!; [done..|].
    by rewrite error_rw_within, json_rw_length.
  - destruct (sent_rw_final status (resp_JSON result)
      (json_rw result (w_rw (start_world request w))) Hr) as (H1 & H2 & _).
    rewrite H1, H2. split_and!; [by apply identified_get|done| |apply header_get_set].
    by rewrite sent_rw_within, json_rw_length by (done || lia).
Qed.

(** C30. The largest limit an application may configure turns the limit upside
    down: adding one wraps around, the reader yields nothing, and every request
    is handled as if its body were empty. *)
Theorem largest_limit_drops_bodies h request w :
  MaxBodyBytes (h_config h) = (2 ^ 63 - 1)%Z →
  Authenticate (h_config h) (with_body "" request) (request_id request) =
    Authenticate (h_config h) request (request_id request) →
  ServeHTTP h request w = ServeHTTP h (with_body "" request) w.
Proof.
  intros Hm Hauth. unfold ServeHTTP.
  change (request_id (with_body "" request)) with (request_id request). rewrite Hauth, Hm.
  assert (∀ r, read_limited (add64 (2 ^ 63 - 1) 1) r = Some "") as Hread by done.
  by rewrite !Hread.
Qed.

(** A backend that answers with an interim status is accepted by the
    range check, and its status is lost: the client is told 200. *)
Theorem interim_status_becomes_200 h request w c r p o b result :
  sane_limit h → rw_status (w_rw w) = None → rw_capacity (w_rw w) = None →
  rw_body (w_rw w) = "" → admitted h request c r p o b →
  dyn_val b (backend_request (request_id request) c o p (buffered request) (r_Body request))
    = Ok result →
  has_stream result = false → has_body result = false → resp_JSON result ≠ "" →
  (100 < StatusCode result < 200)%Z → StatusCode result ≠ 101%Z →
  response_verdict h (validation_input h (buffered request) r p o) (StatusCode result) result
    (w_rw (start_world request w)) = None →
  declared_length (rw_header (json_rw result (w_rw (start_world request w)))) = None →
  ∃ w', ServeHTTP h request w = Return () w' ∧ rw_status (w_rw w') = Some 200%Z ∧
    rw_informational (w_rw w') = rw_informational (w_rw w) ++ [StatusCode result] ∧
    rw_body (w_rw w') = resp_JSON result.
Proof.
  intros Hm Hst Hcap Hempty Hadm Hok Hs Hb Hj Hr H101 Hverdict Hd.
  assert (response_status o result = StatusCode result) as Hrs.
  { unfold response_status. destruct (Z.eqb_spec (StatusCode result) 0); [lia|done]. }
  assert (informational (StatusCode result) = true) as Hi.
  { apply informational_spec. lia. }
  assert (non_nil (resp_Stream result) = None ∧ non_nil (resp_Body result) = None) as [Hs' Hb'].
  { unfold has_stream, has_body in *. unfold non_nil. by rewrite Hs, Hb. }
  erewrite ServeHTTP_admitted by done. cbv zeta.
  rewrite Hok, respond_json; [|done|..|done|done]; rewrite ?Hrs.
  2:{ unfold unambiguous, responseModeCount. unfold has_stream, has_body in *. rewrite Hs, Hb.
      destruct (string_empty (resp_JSON result)); lia. }
  2:{ unfold valid_status. lia. }
  cbv zeta. change (w_rw (traced ?l ?x)) with (w_rw x). rewrite Hverdict.
  eexists. split; [reflexivity|]. cbn [w_rw]. unfold sent_rw. rewrite Hi.
  destruct (resp_JSON result) as [|ch js] eqn:Hjs; [done|]. cbn [string_empty].
  unfold write_rw. cbn -[json_media copySafeHeaders exceeds]. rewrite Hst.
  cbn -[json_media copySafeHeaders exceeds]. rewrite exceeds_undeclared by exact Hd.
  rewrite Hcap. cbn. by rewrite Hempty.
Qed.

(** ** Properties: validation routes *)

(** The operations of a document that have an identifier, as the routes they
    are indexed under, in the order they are visited. *)
Definition route_entries (document : Document) : list (string * Route) :=
  doc_Paths document ≫= λ '(profilePath, pathItem),
    pathItem ≫= λ '(method, operation),
      if string_empty (OperationID operation) then []
      else [(OperationID operation,
             mkRoute (head (doc_Servers document)) (Cut "?"%char profilePath).1.1
               pathItem method operation)].

Definition insert_all (m : gmap string Route) (l : list (string * Route)) : gmap string Route :=
  foldl (λ m e, <[e.1 := e.2]> m) m l.

Lemma add_path_routes_entries server path item m :
  add_path_routes server m (path, item) =
    insert_all m (item ≫= λ '(method, operation),
      if string_empty (OperationID operation) then []
      else [(OperationID operation,
             mkRoute server (Cut "?"%char path).1.1 item method operation)]).
Proof.
  unfold add_path_routes. generalize (mkRoute server (Cut "?"%char path).1.1 item).
  intros route. revert m. induction item as [|[method op] item IH]; intros m; csimpl; [done|].
  rewrite IH. unfold insert_all. rewrite foldl_app. by destruct (string_empty (OperationID op)).
Qed.

Lemma validationRoutes_entries document :
  validationRoutesByOperationID document = insert_all ∅ (route_entries document).
Proof.
  unfold validationRoutesByOperationID, route_entries. generalize (∅ : gmap string Route).
  induction (doc_Paths document) as [|[path item] paths IH]; intros m; [done|].
  cbn [foldl mbind list_bind]. rewrite IH, add_path_routes_entries. unfold insert_all.
  by rewrite foldl_app.
Qed.

Lemma insert_all_lookup l m k v :
  NoDup l.*1 → (∀ e, e ∈ l → m !! e.1 = None) →
  insert_all m l !! k = Some v ↔ m !! k = Some v ∨ (k, v) ∈ l.
Proof.
  unfold insert_all. revert m. induction l as [|[k' v'] l IH]; intros m Hnd Hm; simpl.
  { split; [auto|]. by intros [|?%elem_of_nil]. }
  csimpl in Hnd. apply NoDup_cons in Hnd as [Hk' Hnd]. rewrite IH; [|done|].
  - pose proof (Hm (k', v') ltac:(by left)) as Hmk. simpl in Hmk.
    rewrite elem_of_cons, lookup_insert. case_decide as Heq; [subst k'|naive_solver].
    split; [intros [[= ->]|?]; auto|].
    intros [?|[[= ->]|?]]; [congruence|auto|auto].
  - intros [k'' v''] He. rewrite lookup_insert_ne; [apply Hm; by right|].
    simpl. intros ->. apply Hk'. by apply (list_elem_of_fmap_2 fst) in He.
Qed.

(** The validation routes are a function of the document: when its
    operation identifiers are distinct, an identifier is indexed exactly when
    the document has an operation of that name, with the path it is declared
    under (without the discriminating query), whatever the order in which the
    maps of the document are visited. *)
Theorem validationRoutes_exact document id route :
  NoDup (route_entries document).*1 →
  validationRoutesByOperationID document !! id = Some route ↔
    ∃ profilePath pathItem, (profilePath, pathItem) ∈ doc_Paths document ∧
      (rt_Method route, rt_Operation route) ∈ pathItem ∧
      OperationID (rt_Operation route) = id ∧ id ≠ "" ∧
      rt_PathItem route = pathItem ∧ rt_Path route = (Cut "?"%char profilePath).1.1 ∧
      rt_Server route = head (doc_Servers document).
Proof.
  intros Hnd. rewrite validationRoutes_entries, insert_all_lookup; [|done|done].
  rewrite lookup_empty. unfold route_entries.
  assert (∀ P Q, ¬ P → (P ∨ Q ↔ Q)) as Hor by tauto. rewrite Hor by done. clear Hor.
  rewrite list_elem_of_bind. split.
  - intros ([path item] & ([method op] & Hin)%list_elem_of_bind & Hp).
    destruct Hin as [Hin Hop]. destruct (OperationID op) as [|ch rest] eqn:Hid; simpl in Hin;
      [by apply elem_of_nil in Hin|].
    apply list_elem_of_singleton in Hin. injection Hin as -> ->.
    exists path, item. simpl. by rewrite Hid.
  - intros (path & item & Hp & Hop & Hid & Hne & Hi & Hpath & Hs).
    exists (path, item). split; [|done]. apply list_elem_of_bind.
    exists (rt_Method route, rt_Operation route). split; [|done].
    rewrite Hid. destruct id as [|ch rest]; [done|]. simpl. apply list_elem_of_singleton.
    destruct route; simpl in *. by subst.
Qed.

(** ** Witnesses *)

(** A handler over one backend, with a router that knows [GET /models] and
    validation that accepts everything. *)
Definition example_operation : OasOperation := mkOasOperation "listModels" false.
Definition example_route : Route :=
  mkRoute None "/models" [("GET", example_operation)] "GET" example_operation.
Definition example_collaborators : Collaborators :=
  mkCollaborators
    (λ request, if bool_decide (r_Path request = "/models") then Ok (example_route, ∅)
                else Err (Sentinel "routers.ErrPathNotFound"))
    (λ _, None) (λ _ _ _ _, None).

Definition example_registry (backend : HandleFunc) : Services HandleFunc SessionBackend :=
  mkServices (Some (Dyn KFunc false backend)) ∅ ∅.

#[export] Instance example_registry_usable backend : LookupsUsable (example_registry backend).
Proof. constructor; [by intros c h [= <-]|by intros x b [=]]. Qed.

Definition example_handler (limit : Z) (backend : HandleFunc) : handler :=
  New (example_registry backend) (mkDocument [] [("/models", [("GET", example_operation)])])
    example_collaborators (mkConfig "" limit [] true (λ _ _, Ok "caller")).

Definition example_request (path : string) : HttpRequest :=
  mkHttpRequest "GET" path "" {[ "Authorization" := ["Bearer secret"]; "Accept" := ["*/*"] ]}
    "" false (Some "abcdefghijkl").

Definition answer_with (status : Z) (json : string) (stream : interface (list selection))
    : HandleFunc := λ _, Ok (mkResponse status ∅ "" json None stream).

Definition example_json : handler := example_handler 10 (answer_with 0 "{}" None).
Definition example_trace : list action :=
  w_trace (world_of (ServeHTTP example_json (example_request "/models") (fresh_world true None))).
Definition example_listModels : Operation :=
  mkOperation "GET" "/models" "listModels" "models" [] ["application/json"] 200.

Definition example_call : Request :=
  backend_request (request_id (example_request "/models")) "caller"
    example_listModels ∅
    (buffered (example_request "/models")) "".

Lemma example_admitted backend :
  admitted (example_handler 10 backend) (example_request "/models") "caller" example_route ∅
    example_listModels
    (Dyn KFunc false backend).
Proof.
  assert (resolve (buffered (example_request "/models")) example_route =
    Some example_listModels) as Hop
    by (vm_compute; reflexivity).
  split; [|reflexivity]. split; [|done]. split; [|exact Hop].
  split; [|reflexivity]. split_and!; [reflexivity|by apply Z.leb_le|reflexivity].
Qed.

(** The hypotheses of the properties, at the example. *)
Ltac example_run :=
  first [ exact (example_admitted _) | unfold sane_limit; cbn; lia | reflexivity | discriminate ].

Lemma ServeHTTP_calls_backend_witness :
  ActHandle example_call ∈ example_trace ↔
    ∃ callerID route pathParams operation backend,
      admitted example_json (example_request "/models") callerID route pathParams operation backend ∧
      example_call = backend_request (request_id (example_request "/models")) callerID operation
        pathParams (buffered (example_request "/models")) "" ∧
      ∃ rest, example_trace =
          [ActAuthenticate] ++ checks example_json ++ [ActHandle example_call] ++ rest ∧
        Forall (λ a, is_handle a = false) rest.
Proof.
  apply (ServeHTTP_calls_backend example_json (example_request "/models") (fresh_world true None));
    example_run.
Defined.

Lemma ServeHTTP_refuses_witness :
  (∃ c r p o b, admitted example_json (example_request "/unknown") c r p o b ∧
     ∀ status e, ¬ refused example_json (example_request "/unknown") status e) ∨
  (∃ status e, refused example_json (example_request "/unknown") status e ∧
     (∀ c r p o b, ¬ admitted example_json (example_request "/unknown") c r p o b) ∧
     ∃ w', ServeHTTP example_json (example_request "/unknown") (fresh_world true None)
         = Return () w' ∧
       rw_status (w_rw w') = Some status ∧ (400 ≤ status ≤ 501)%Z ∧
       header_get (rw_sent (w_rw w')) "X-Request-Id" = request_id (example_request "/unknown") ∧
       (takes_all (fresh_writer true None) → rw_body (w_rw w') = "" +:+ error_body e) ∧
       count is_handle (w_trace w') = 0).
Proof.
  apply (ServeHTTP_refuses example_json (example_request "/unknown") (fresh_world true None));
    example_run.
Defined.

Lemma backend_input_exact_witness :
  in_Bytes (req_Input example_call) = "" ∧
  (in_JSON (req_Input example_call) = "" ∨ in_JSON (req_Input example_call) = "") ∧
  (len (in_Bytes (req_Input example_call)) ≤ 10)%Z ∧
  RequestID (req_Metadata example_call) = request_id (example_request "/models") ∧
  Extensions (req_Metadata example_call) !! "Authorization" = None ∧
  Extensions (req_Metadata example_call) !! "Accept" = Some ["*/*"] ∧
  ∃ operation, operation ∈ Operations ∧ req_Operation example_call = op_ID operation ∧
    req_Capability example_call = op_Capability operation.
Proof.
  destruct (backend_input_exact (example_handler 10 (answer_with 0 "{}" None))
    (example_request "/models") (fresh_world true None) example_call)
    as (H1 & H2 & H3 & H4 & H5 & H6 & H7).
  - unfold sane_limit. cbn. lia.
  - reflexivity.
  - reflexivity.
  - apply (list_elem_of_lookup_2 _ 2). vm_compute. reflexivity.
  - split_and!; [exact H1|exact H2|exact H3|exact H4| | |exact H7].
    + apply H5. apply (bool_decide_unpack _). by vm_compute.
    + rewrite H6; [reflexivity| |by vm_compute|apply (bool_decide_unpack _); by vm_compute].
      apply (bool_decide_unpack _). by vm_compute.
Defined.

Lemma ServeHTTP_answers_witness :
  ∃ w', ServeHTTP (example_handler 10 (answer_with 0 "" (ptr [SelClosed])))
          (example_request "/models") (fresh_world true None) = Return () w' ∧
    answered (request_id (example_request "/models")) w'.
Proof.
  pose proof (ServeHTTP_answers (example_handler 10 (answer_with 0 "" (ptr [SelClosed])))
    (example_request "/models") (fresh_world true None)) as H.
  cbv zeta in H. destruct (ServeHTTP _ _ _) as [[] w'|w'|w'] eqn:E;
    [|vm_compute in E; discriminate E..].
  exists w'. split; [done|].
  destruct H as [Hans|(c & o & b & result & (r & p & [_ Hb] & Hr) & Hs)];
    [unfold sane_limit; cbn; lia|reflexivity|exact Hans|].
  change (HandlerFor _ _) with (Some (Dyn KFunc false (answer_with 0 "" (ptr [SelClosed]))), true)
    in Hb.
  injection Hb as <-. injection Hr as <-. cbn in Hs. lia.
Defined.

Lemma ServeHTTP_closes_witness :
  match ServeHTTP (example_handler 10 (answer_with 0 "" (ptr [SelClosed])))
          (example_request "/models") (fresh_world true None) with
  | Return _ w' =>
      count is_close_body (w_trace w') = 0 ∧ count is_close_stream (w_trace w') = 1
  | Panic _ => False
  | Blocked w' => false = false ∧ true = true ∧
      count is_close_body (w_trace w') = 0 ∧ count is_close_stream (w_trace w') = 0
  end.
Proof.
  apply (ServeHTTP_closes (example_handler 10 (answer_with 0 "" (ptr [SelClosed])))
    (example_request "/models") (fresh_world true None) "caller" example_route ∅
    example_listModels
    (Dyn KFunc false (answer_with 0 "" (ptr [SelClosed])))
    (mkResponse 0 ∅ "" "" None (ptr [SelClosed])));
    example_run.
Defined.

Lemma invalid_status_leaks_stream_witness :
  ∃ w', ServeHTTP (example_handler 10 (answer_with 600 "" (ptr [SelClosed])))
          (example_request "/models") (fresh_world true None) = Return () w' ∧
    rw_status (w_rw w') = Some 500%Z ∧ count is_close_stream (w_trace w') = 0.
Proof.
  apply (invalid_status_leaks_stream (example_handler 10 (answer_with 600 "" (ptr [SelClosed])))
    (example_request "/models") (fresh_world true None) "caller" example_route ∅
    example_listModels
    (Dyn KFunc false (answer_with 600 "" (ptr [SelClosed])))
    (mkResponse 600 ∅ "" "" None (ptr [SelClosed])));
    example_run.
Defined.

Lemma ServeHTTP_json_witness :
  ∃ w', ServeHTTP example_json (example_request "/models") (fresh_world true None) = Return () w' ∧
    header_get (rw_sent (w_rw w')) "X-Request-Id" = request_id (example_request "/models") ∧
    rw_status (w_rw w') = Some 200%Z ∧ rw_body (w_rw w') = "{}" ∧
    header_get (rw_sent (w_rw w')) "Content-Type" = "application/json".
Proof.
  destruct (ServeHTTP_json example_json
    (example_request "/models") (fresh_world true None) "caller" example_route ∅
    example_listModels
    (Dyn KFunc false (answer_with 0 "{}" None)) (mkResponse 0 ∅ "" "{}" None None))
    as (w' & H1 & H2 & H3); [example_run..|].
  exists w'. vm_compute in H3. destruct H3 as (H3 & H4 & H5).
  split_and!; [exact H1|exact H2|exact H3|exact H4|exact H5].
Defined.

(** Metadata that declares the length of an answer also limits the error that
    replaces the answer: a response outside the profile is refused with 500 and
    an empty body. *)
Example declared_length_cuts_error :
  let h := mkHandler (example_registry (λ _, Ok (mkResponse 0
               {[ "Content-Length" := ["2"] ]} "" "{}" None None)))
             (mkCollaborators (FindRoute example_collaborators) (λ _, None)
               (λ _ _ _ _, Some "not a model list"))
             ∅ (mkConfig "" 10 [] true (λ _ _, Ok "caller")) in
  let w := world_of (ServeHTTP h (example_request "/models") (fresh_world true None)) in
  rw_status (w_rw w) = Some 500%Z ∧ rw_body (w_rw w) = "" ∧
  header_get (rw_sent (w_rw w)) "Content-Length" = "2".
Proof. vm_compute. done. Qed.

Lemma largest_limit_drops_bodies_witness :
  ServeHTTP (example_handler (2 ^ 63 - 1) (answer_with 0 "{}" None))
    (with_body "payload" (example_request "/models")) (fresh_world true None) =
  ServeHTTP (example_handler (2 ^ 63 - 1) (answer_with 0 "{}" None))
    (with_body "" (with_body "payload" (example_request "/models"))) (fresh_world true None).
Proof.
  apply (largest_limit_drops_bodies (example_handler (2 ^ 63 - 1) (answer_with 0 "{}" None))
    (with_body "payload" (example_request "/models"))); reflexivity.
Defined.

Lemma interim_status_becomes_200_witness :
  ∃ w', ServeHTTP (example_handler 10 (answer_with 150 "{}" None))
          (example_request "/models") (fresh_world true None) = Return () w' ∧
    rw_status (w_rw w') = Some 200%Z ∧ rw_informational (w_rw w') = [] ++ [150%Z] ∧
    rw_body (w_rw w') = "{}".
Proof.
  apply (interim_status_becomes_200 (example_handler 10 (answer_with 150 "{}" None))
    (example_request "/models") (fresh_world true None) "caller" example_route ∅
    example_listModels
    (Dyn KFunc false (answer_with 150 "{}" None)) (mkResponse 150 ∅ "" "{}" None None));
    example_run.
Defined.

Lemma validationRoutes_exact_witness :
  validationRoutesByOperationID
    (mkDocument [] [("/models?beta=true", [("GET", example_operation)])]) !! "listModels" =
    Some (mkRoute None "/models" [("GET", example_operation)] "GET" example_operation).
Proof.
  apply (validationRoutes_exact (mkDocument [] [("/models?beta=true", [("GET", example_operation)])])).
  - apply NoDup_singleton.
  - exists "/models?beta=true", [("GET", example_operation)]. split_and!;
      [by left|by left|reflexivity|discriminate|reflexivity..].
Defined.
