(* ===== verification/WsRegistry.v ===== *)
(** The session registry of the WebSocket handler and its graceful shutdown:
    [register], [unregister] and [Shutdown] of
    [openai/internal/websocket/handler.go].

    The three critical sections under [h.mu] are functions on the registry;
    goroutines interleave them, and the steps of [Shutdown] outside the lock,
    in the step relation [step]. *)
From S2P Require Import Prelude.
From stdpp Require Import relations.

(** ** The registry *)

(** A [context.CancelFunc], named by the connection handler it belongs to. *)
Abbreviation CancelFunc := nat (only parsing).

(** The fields of [Handler] under the mutex.  [shutdownDone] tells whether the
    channel is closed, [shutdownOnce] whether the [sync.Once] has run. *)
Record Registry := mkRegistry {
  shuttingDown : bool;
  nextSession : N;
  active : gmap N CancelFunc;
  shutdownDone : bool;
  shutdownOnce : bool }.

(** [New] *)
Definition new_registry : Registry := mkRegistry false 0 ∅ false false.

(** [uint64] increment. *)
Definition incr64 (n : N) : N := ((n + 1) mod 2 ^ 64)%N.

(** [close(channel)]: closing a closed channel panics. *)
Definition close_channel (closed : bool) : option bool :=
  if closed then None else Some true.

(** [h.shutdownOnce.Do(func() { close(h.shutdownDone) })] *)
Definition once_close (h : Registry) : option Registry :=
  if shutdownOnce h then Some h
  else closed ← close_channel (shutdownDone h);
       Some (mkRegistry (shuttingDown h) (nextSession h) (active h) closed true).

Definition register (cancel : CancelFunc) (h : Registry) : (N * bool) * Registry :=
  if shuttingDown h then (0%N, false, h)
  else let id := incr64 (nextSession h) in
       (id, true, mkRegistry (shuttingDown h) id (<[id := cancel]> (active h))
                    (shutdownDone h) (shutdownOnce h)).

(** [None] is a panic. *)
Definition unregister (id : N) (h : Registry) : option Registry :=
  let h := mkRegistry (shuttingDown h) (nextSession h) (delete id (active h))
             (shutdownDone h) (shutdownOnce h) in
  if shuttingDown h && bool_decide (active h = ∅) then once_close h else Some h.

(** The critical section of [Shutdown]: the cancel functions, in the order the
    map is visited, and the new registry. *)
Definition shutdown_lock (h : Registry) : option (list CancelFunc * Registry) :=
  let h := mkRegistry true (nextSession h) (active h) (shutdownDone h) (shutdownOnce h) in
  let cancels := (map_to_list (active h)).*2 in
  h ← (if bool_decide (active h = ∅) then once_close h else Some h);
  Some (cancels, h).

(** ** The system of connection handlers and shutdown callers *)

Inductive handler_phase :=
| Active (id : N)
| Rejected
| Finished.

(** [Cancelling ts]: the loop over the cancel functions has [ts] left; with
    none left the caller waits in its [select]. *)
Inductive shutdown_phase :=
| Cancelling (cancels : list CancelFunc)
| ReturnedNil
| ReturnedErr.

Record System := mkSystem {
  registry : Registry;
  handlers : gmap nat handler_phase;
  cancelled : gset nat;
  shutdowns : gmap nat shutdown_phase;
  panicked : bool }.

Definition initial : System := mkSystem new_registry ∅ ∅ ∅ false.

Inductive step : System → System → Prop :=
| step_register s t id h :
    handlers s !! t = None → register t (registry s) = (id, true, h) →
    step s (mkSystem h (<[t := Active id]> (handlers s)) (cancelled s) (shutdowns s) (panicked s))
| step_reject s t id h :
    handlers s !! t = None → register t (registry s) = (id, false, h) →
    step s (mkSystem h (<[t := Rejected]> (handlers s)) (cancelled s) (shutdowns s) (panicked s))
| step_unregister s t id h :
    handlers s !! t = Some (Active id) → unregister id (registry s) = Some h →
    step s (mkSystem h (<[t := Finished]> (handlers s)) (cancelled s) (shutdowns s) (panicked s))
(** A context is cancelled by its handler, or because the client went away. *)
| step_cancelled s t :
    is_Some (handlers s !! t) →
    step s (mkSystem (registry s) (handlers s) ({[t]} ∪ cancelled s) (shutdowns s) (panicked s))
| step_unregister_panic s t id :
    handlers s !! t = Some (Active id) → unregister id (registry s) = None →
    step s (mkSystem (registry s) (handlers s) (cancelled s) (shutdowns s) true)
| step_lock s k cancels cancels' h :
    shutdowns s !! k = None → shutdown_lock (registry s) = Some (cancels, h) →
    cancels' ≡ₚ cancels →
    step s (mkSystem h (handlers s) (cancelled s) (<[k := Cancelling cancels']> (shutdowns s))
              (panicked s))
| step_lock_panic s k :
    shutdowns s !! k = None → shutdown_lock (registry s) = None →
    step s (mkSystem (registry s) (handlers s) (cancelled s) (shutdowns s) true)
| step_cancel s k t cancels :
    shutdowns s !! k = Some (Cancelling (t :: cancels)) →
    step s (mkSystem (registry s) (handlers s) ({[t]} ∪ cancelled s)
              (<[k := Cancelling cancels]> (shutdowns s)) (panicked s))
| step_return_nil s k :
    shutdowns s !! k = Some (Cancelling []) → shutdownDone (registry s) = true →
    step s (mkSystem (registry s) (handlers s) (cancelled s)
              (<[k := ReturnedNil]> (shutdowns s)) (panicked s))
| step_return_err s k :
    shutdowns s !! k = Some (Cancelling []) →
    step s (mkSystem (registry s) (handlers s) (cancelled s)
              (<[k := ReturnedErr]> (shutdowns s)) (panicked s)).

Abbreviation steps := (rtc step).
Definition reachable (s : System) : Prop := steps initial s.

(** Fewer connections than the session counter can number. *)
Definition bounded (s : System) : Prop := (N.of_nat (size (handlers s)) < 2 ^ 64)%N.

(** ** The invariant *)

Record invariant (s : System) : Prop := {
  inv_active t id : handlers s !! t = Some (Active id) ↔ active (registry s) !! id = Some t;
  inv_counter : (nextSession (registry s) ≤ N.of_nat (size (handlers s)))%N;
  inv_ids id : is_Some (active (registry s) !! id) → (id ≤ nextSession (registry s))%N;
  inv_done : shutdownDone (registry s) = true ↔
    shuttingDown (registry s) = true ∧ active (registry s) = ∅;
  inv_once : shutdownOnce (registry s) = shutdownDone (registry s);
  inv_shutdown k : is_Some (shutdowns s !! k) → shuttingDown (registry s) = true;
  inv_cancelling k cancels : shutdowns s !! k = Some (Cancelling cancels) →
    ∀ t id, handlers s !! t = Some (Active id) → t ∈ cancelled s ∨ t ∈ cancels;
  inv_nil k : shutdowns s !! k = Some ReturnedNil → shutdownDone (registry s) = true;
  inv_panic : panicked s = false }.

(** ** Lemmas *)

Lemma step_size s s' : step s s' → size (handlers s) ≤ size (handlers s').
Proof.
  destruct 1; simpl; try lia;
    match goal with
    | H : handlers ?s !! ?t = None |- _ => rewrite map_size_insert_None by done; lia
    | H : handlers ?s !! ?t = Some _ |- _ =>
        rewrite map_size_insert_Some by (by rewrite H); lia
    end.
Qed.

Lemma bounded_step s s' : step s s' → bounded s' → bounded s.
Proof. intros Hs%step_size. unfold bounded. lia. Qed.

Lemma bounded_steps s s' : steps s s' → bounded s' → bounded s.
Proof. induction 1 as [|s1 s2 s3 H _ IH]; [done|]. intros. eapply bounded_step; eauto. Qed.

(** With [shutdownOnce] in step with the channel, closing never panics. *)
Lemma once_close_spec h :
  shutdownOnce h = shutdownDone h →
  once_close h = Some (mkRegistry (shuttingDown h) (nextSession h) (active h) true true).
Proof.
  destruct h as [sd n a d o]. unfold once_close, close_channel. simpl. intros ->.
  by destruct d.
Qed.

Lemma unregister_spec id h :
  shutdownOnce h = shutdownDone h →
  unregister id h =
    let closed := shuttingDown h && bool_decide (delete id (active h) = ∅) in
    Some (mkRegistry (shuttingDown h) (nextSession h) (delete id (active h))
            (closed || shutdownDone h) (closed || shutdownDone h)).
Proof.
  intros Ho. unfold unregister. cbn [shuttingDown active]. cbv zeta.
  destruct (shuttingDown h && _).
  - rewrite once_close_spec by done. done.
  - by rewrite Ho.
Qed.

Lemma shutdown_lock_spec h :
  shutdownOnce h = shutdownDone h →
  shutdown_lock h =
    let closed := bool_decide (active h = ∅) in
    Some ((map_to_list (active h)).*2,
          mkRegistry true (nextSession h) (active h)
            (closed || shutdownDone h) (closed || shutdownDone h)).
Proof.
  intros Ho. unfold shutdown_lock. cbn [active]. cbv zeta.
  destruct (bool_decide (active h = ∅)).
  - rewrite once_close_spec by done. done.
  - by rewrite Ho.
Qed.

Lemma register_spec t h :
  register t h =
    if shuttingDown h then (0%N, false, h)
    else (incr64 (nextSession h), true,
          mkRegistry (shuttingDown h) (incr64 (nextSession h))
            (<[incr64 (nextSession h) := t]> (active h)) (shutdownDone h) (shutdownOnce h)).
Proof. done. Qed.

Lemma incr64_small n : (n + 1 < 2 ^ 64)%N → incr64 n = (n + 1)%N.
Proof. intros. unfold incr64. by rewrite N.mod_small. Qed.

Lemma invariant_initial : invariant initial.
Proof.
  constructor; simpl; intros *; rewrite ?lookup_empty;
    first [done | by intros [] | by split; [|intros []]].
Qed.

(** Each step keeps the invariant. *)
Lemma invariant_register s t id h :
  invariant s → handlers s !! t = None → register t (registry s) = (id, true, h) →
  (N.of_nat (size (handlers s)) + 1 < 2 ^ 64)%N →
  invariant (mkSystem h (<[t := Active id]> (handlers s)) (cancelled s) (shutdowns s) (panicked s)).
Proof.
  intros [Hact Hcnt Hids Hdone Honce Hsd Hcan Hnil Hp] Ht Hr Hb.
  rewrite register_spec in Hr. destruct (shuttingDown (registry s)) eqn:Hs; [done|].
  rewrite incr64_small in Hr by lia. injection Hr as <- <-.
  assert (active (registry s) !! (nextSession (registry s) + 1)%N = None) as Hfresh.
  { apply eq_None_not_Some. intros Hx%Hids. lia. }
  constructor; simpl; try done.
  + intros t' id'. rewrite !lookup_insert. repeat case_decide; simplify_eq; try done.
    * split; [by intros [=]|]. intros Hx%Hact. congruence.
    * split; [intros Hx%Hact; congruence|by intros [=]].
  + rewrite map_size_insert_None by done. lia.
  + intros id'. rewrite lookup_insert. case_decide; [lia|]. intros Hx%Hids. lia.
  + rewrite Hdone. naive_solver.
  + intros k cs Hk. specialize (Hsd k (ex_intro _ _ Hk)). congruence.
Qed.

Lemma invariant_reject s t id h :
  invariant s → handlers s !! t = None → register t (registry s) = (id, false, h) →
  invariant (mkSystem h (<[t := Rejected]> (handlers s)) (cancelled s) (shutdowns s) (panicked s)).
Proof.
  intros [Hact Hcnt Hids Hdone Honce Hsd Hcan Hnil Hp] Ht Hr.
  rewrite register_spec in Hr. destruct (shuttingDown (registry s)) eqn:Hs; [|done].
  injection Hr as <- <-.
  constructor; simpl; rewrite ?Hs; try done.
  + intros t' id'. rewrite lookup_insert. case_decide; simplify_eq; [|done].
    rewrite <- Hact. split; [done|congruence].
  + rewrite map_size_insert_None by done. lia.
  + intros k cs Hk t' id'. rewrite lookup_insert. case_decide; [done|].
    intros Hx. destruct (Hcan k cs Hk t' id' Hx); set_solver.
Qed.

Lemma invariant_unregister s t id h :
  invariant s → handlers s !! t = Some (Active id) → unregister id (registry s) = Some h →
  invariant (mkSystem h (<[t := Finished]> (handlers s)) (cancelled s) (shutdowns s) (panicked s)).
Proof.
  intros [Hact Hcnt Hids Hdone Honce Hsd Hcan Hnil Hp] Ht Hu.
  rewrite unregister_spec in Hu by done. injection Hu as <-.
  constructor; simpl; try done.
  + pose proof (proj1 (Hact _ _) Ht) as Ha. intros t' id'.
    rewrite lookup_insert, lookup_delete.
    repeat case_decide; simplify_eq; split; intros Hx; try done;
      first [by apply Hact | apply Hact in Hx; congruence].
  + rewrite map_size_insert_Some by (by rewrite Ht). done.
  + intros id'. rewrite lookup_delete. case_decide; [by intros [? ?]|apply Hids].
  + rewrite orb_true_iff, andb_true_iff, bool_decide_eq_true, Hdone.
    split; [|by left]. intros [?|[? He]]; [done|]. split; [done|]. by rewrite He, delete_empty.
  + intros k cs Hk t' id'. rewrite lookup_insert. case_decide; [done|].
    intros Hx. destruct (Hcan k cs Hk t' id' Hx); set_solver.
  + intros k Hk. rewrite (Hnil k Hk). by rewrite orb_true_r.
Qed.

Lemma invariant_cancelled s t :
  invariant s → invariant (mkSystem (registry s) (handlers s) ({[t]} ∪ cancelled s) (shutdowns s) (panicked s)).
Proof.
  intros [Hact Hcnt Hids Hdone Honce Hsd Hcan Hnil Hp].
  constructor; simpl; try done.
  intros k cs Hk t' id' Hx. destruct (Hcan k cs Hk t' id' Hx); set_solver.
Qed.

Lemma invariant_lock s k cs cs' h :
  invariant s → shutdown_lock (registry s) = Some (cs, h) → cs' ≡ₚ cs →
  invariant (mkSystem h (handlers s) (cancelled s) (<[k := Cancelling cs']> (shutdowns s)) (panicked s)).
Proof.
  intros [Hact Hcnt Hids Hdone Honce Hsd Hcan Hnil Hp] Hl Hperm.
  rewrite shutdown_lock_spec in Hl by done. injection Hl as <- <-.
  constructor; simpl; try done.
  + rewrite orb_true_iff, bool_decide_eq_true, Hdone. naive_solver.
  + intros k' cs. rewrite lookup_insert. case_decide; [|apply Hcan].
    intros [= <-] t id Ht%Hact. right. rewrite Hperm.
    apply (list_elem_of_fmap_2 snd _ (id, t)). by apply elem_of_map_to_list.
  + intros k'. rewrite lookup_insert. case_decide; [done|]. intros Hx.
    by rewrite (Hnil k' Hx), orb_true_r.
Qed.

Lemma invariant_cancel s k t cs :
  invariant s → shutdowns s !! k = Some (Cancelling (t :: cs)) →
  invariant (mkSystem (registry s) (handlers s) ({[t]} ∪ cancelled s) (<[k := Cancelling cs]> (shutdowns s))
    (panicked s)).
Proof.
  intros [Hact Hcnt Hids Hdone Honce Hsd Hcan Hnil Hp] Hk.
  assert (shuttingDown (registry s) = true) as Hs by by apply (Hsd k).
  constructor; simpl; try done.
  + intros k' cs'. rewrite lookup_insert. case_decide as Hkk.
    * intros [= <-] t' id' Ht'. destruct (Hcan k _ Hk t' id' Ht') as [|Hin]; [set_solver|].
      apply elem_of_cons in Hin as [->|]; set_solver.
    * intros Hk' t' id' Ht'. destruct (Hcan k' _ Hk' t' id' Ht'); set_solver.
  + intros k'. rewrite lookup_insert. case_decide; [done|apply Hnil].
Qed.

Lemma invariant_return_nil s k :
  invariant s → shutdowns s !! k = Some (Cancelling []) → shutdownDone (registry s) = true →
  invariant (mkSystem (registry s) (handlers s) (cancelled s) (<[k := ReturnedNil]> (shutdowns s)) (panicked s)).
Proof.
  intros [Hact Hcnt Hids Hdone Honce Hsd Hcan Hnil Hp] Hk Hd.
  assert (shuttingDown (registry s) = true) as Hs by by apply (Hsd k).
  constructor; simpl; try done.
  + intros k' cs'. rewrite lookup_insert. case_decide; [done|apply Hcan].
Qed.

Lemma invariant_return_err s k :
  invariant s → shutdowns s !! k = Some (Cancelling []) →
  invariant (mkSystem (registry s) (handlers s) (cancelled s) (<[k := ReturnedErr]> (shutdowns s)) (panicked s)).
Proof.
  intros [Hact Hcnt Hids Hdone Honce Hsd Hcan Hnil Hp] Hk.
  assert (shuttingDown (registry s) = true) as Hs by by apply (Hsd k).
  constructor; simpl; try done.
  + intros k' cs'. rewrite lookup_insert. case_decide; [done|apply Hcan].
  + intros k'. rewrite lookup_insert. case_decide; [done|apply Hnil].
Qed.

Lemma invariant_step s s' : invariant s → step s s' → bounded s' → invariant s'.
Proof.
  intros Hi Hstep Hb. pose proof (inv_once _ Hi) as Ho.
  destruct Hstep as [s t id h Ht Hr|s t id h Ht Hr|s t id h Ht Hu|s t Ht|s t id Ht Hu
    |s k cs cs' h Hk Hl Hperm|s k Hk Hl|s k t cs Hk|s k Hk Hd|s k Hk].
  - apply invariant_register; [done..|]. unfold bounded in Hb. simpl in Hb.
    rewrite map_size_insert_None in Hb by done. lia.
  - by eapply invariant_reject.
  - by eapply invariant_unregister.
  - by apply invariant_cancelled.
  - by rewrite unregister_spec in Hu.
  - by eapply invariant_lock.
  - by rewrite shutdown_lock_spec in Hl.
  - by apply invariant_cancel.
  - by apply invariant_return_nil.
  - by apply invariant_return_err.
Qed.

Lemma invariant_steps s s' : invariant s → steps s s' → bounded s' → invariant s'.
Proof.
  intros Hi Hs. induction Hs as [|s1 s2 s3 H12 H23 IH]; [done|]. intros Hb.
  apply IH; [|done]. eapply invariant_step; [done|done|]. by eapply bounded_steps.
Qed.

Lemma invariant_reachable s : reachable s → bounded s → invariant s.
Proof. intros Hr. exact (invariant_steps initial s invariant_initial Hr). Qed.

(** A connection is being served. *)
Definition serving (s : System) (t : nat) : Prop := ∃ id, handlers s !! t = Some (Active id).

Lemma step_returned s s' k :
  step s s' → shutdowns s !! k = Some ReturnedNil → shutdowns s' !! k = Some ReturnedNil.
Proof.
  destruct 1; simpl; try done; intros Hk; (rewrite lookup_insert_ne; [done|congruence]).
Qed.

Lemma steps_returned s s' k :
  steps s s' → shutdowns s !! k = Some ReturnedNil → shutdowns s' !! k = Some ReturnedNil.
Proof. induction 1; [done|]. intros. eauto using step_returned. Qed.

(** [shuttingDown] is never taken back. *)
Lemma register_shutting t h r h' :
  register t h = (r, h') → shuttingDown h = true → h' = h ∧ r.2 = false.
Proof. rewrite register_spec. intros Hr Hs. rewrite Hs in Hr. by simplify_eq. Qed.

Lemma unregister_shutting id h h' :
  unregister id h = Some h' → shuttingDown h = true → shuttingDown h' = true.
Proof.
  unfold unregister, once_close, close_channel. simpl. intros Hu Hs. rewrite Hs in Hu.
  split_matches; by simplify_option_eq.
Qed.

Lemma shutdown_lock_shutting h cs h' :
  shutdown_lock h = Some (cs, h') → shuttingDown h' = true.
Proof.
  unfold shutdown_lock, once_close, close_channel. simpl. intros Hl.
  split_matches; by simplify_option_eq.
Qed.

(** After shutdown began, a step serves no connection that was not served. *)
Lemma step_shutting s s' :
  step s s' → shuttingDown (registry s) = true →
  shuttingDown (registry s') = true ∧ ∀ t, serving s' t → serving s t.
Proof.
  unfold serving. destruct 1 as [s t id h Ht Hr|s t id h Ht Hr|s t id h Ht Hu|s t Ht|s t id Ht Hu
    |s k cs cs' h Hk Hl Hperm|s k Hk Hl|s k t cs Hk|s k Hk Hd|s k Hk];
    simpl; intros Hs; try done.
  - by apply register_shutting in Hr as [_ ?].
  - apply register_shutting in Hr as [-> _]; [|done]. split; [done|].
    intros t' [id' Hx]. rewrite lookup_insert in Hx. case_decide; [done|]. by exists id'.
  - split; [by eapply unregister_shutting|]. intros t' [id' Hx].
    rewrite lookup_insert in Hx. case_decide; [done|]. by exists id'.
  - split; [by eapply shutdown_lock_shutting|done].
Qed.

Lemma steps_shutting s s' :
  steps s s' → shuttingDown (registry s) = true →
  shuttingDown (registry s') = true ∧ ∀ t, serving s' t → serving s t.
Proof.
  induction 1 as [|s1 s2 s3 H12 _ IH]; [done|]. intros Hs.
  destruct (step_shutting _ _ H12 Hs) as [Hs2 H2]. destruct (IH Hs2) as [? H3]. auto.
Qed.

(** A waiting caller returns as soon as nobody is served. *)
Lemma waiting_returns s k :
  invariant s → shutdowns s !! k = Some (Cancelling []) → active (registry s) = ∅ →
  step s (mkSystem (registry s) (handlers s) (cancelled s)
            (<[k := ReturnedNil]> (shutdowns s)) (panicked s)).
Proof.
  intros Hi Hk He. apply step_return_nil; [done|]. apply inv_done; [done|].
  split; [|done]. by apply (inv_shutdown s Hi k).
Qed.

(** The connections still served can all finish. *)
Lemma drain s k n :
  invariant s → bounded s → size (active (registry s)) = n →
  shutdowns s !! k = Some (Cancelling []) →
  ∃ s', nsteps step (S n) s s' ∧ shutdowns s' !! k = Some ReturnedNil.
Proof.
  revert s. induction n as [|n IH]; intros s Hi Hb Hn Hk.
  - apply map_size_empty_inv in Hn. eexists. split.
    + apply nsteps_once. by apply waiting_returns.
    + simpl. by rewrite lookup_insert_eq.
  - destruct (map_choose (active (registry s))) as (id & t & Hid).
    { intros He. by rewrite He, map_size_empty in Hn. }
    pose proof (proj2 (inv_active s Hi t id) Hid) as Ht.
    pose proof (unregister_spec id (registry s) (inv_once s Hi)) as Hu. cbv zeta in Hu.
    pose proof (step_unregister s t id _ Ht Hu) as Hstep.
    match type of Hstep with step _ ?s2 => set (s2' := s2) in * end.
    assert (bounded s2') as Hb2.
    { unfold bounded, s2'. simpl. rewrite map_size_insert_Some by (by rewrite Ht). done. }
    destruct (IH s2') as (s' & Hsteps & Hret).
    + by eapply invariant_step.
    + done.
    + unfold s2'. simpl. rewrite map_size_delete, Hid, Hn. simpl. lia.
    + done.
    + exists s'. split; [|done]. by eapply nsteps_l.
Qed.

(** ** Properties *)

(** The registry mirrors the connections: whatever the interleaving, its
    map holds exactly the connections being served, each under its own
    identifier, the channel of [Shutdown] is closed exactly when shutdown has
    begun and none is left, and closing it never panics. *)
Theorem registry_mirrors s :
  reachable s → bounded s →
  (∀ t id, handlers s !! t = Some (Active id) ↔ active (registry s) !! id = Some t) ∧
  (shutdownDone (registry s) = true ↔
     shuttingDown (registry s) = true ∧ ∀ t, ¬ serving s t) ∧
  panicked s = false.
Proof.
  intros Hr Hb. pose proof (invariant_reachable s Hr Hb) as Hi.
  split; [apply (inv_active s Hi)|]. split; [|apply (inv_panic s Hi)].
  rewrite (inv_done s Hi). apply and_iff_compat_l. split.
  - intros He t [id Ht]. apply (inv_active s Hi) in Ht. by rewrite He, lookup_empty in Ht.
  - intros Hno. apply map_eq. intros id. rewrite lookup_empty.
    apply eq_None_not_Some. intros [t Ht]. apply (Hno t). exists id.
    by apply (inv_active s Hi).
Qed.

(** [Shutdown] means shutdown: once any call has returned nil, no
    connection is being served, now or ever after. *)
Theorem shutdown_excludes_sessions s s' k :
  reachable s → steps s s' → bounded s' → shutdowns s !! k = Some ReturnedNil →
  ∀ t, ¬ serving s' t.
Proof.
  intros Hr Hs Hb Hk t [id Ht].
  pose proof (invariant_reachable s' (transitivity Hr Hs) Hb) as Hi.
  pose proof (inv_nil s' Hi k (steps_returned _ _ _ Hs Hk)) as Hd.
  apply (inv_done s' Hi) in Hd as [_ He]. apply (inv_active s' Hi) in Ht.
  by rewrite He, lookup_empty in Ht.
Qed.

(** From the moment a [Shutdown] call holds the lock no new connection is
    accepted: every connection served later was already being served then. *)
Theorem shutdown_rejects_new s s' k :
  reachable s → steps s s' → bounded s' → is_Some (shutdowns s !! k) →
  ∀ t, serving s' t → serving s t.
Proof.
  intros Hr Hs Hb Hk. apply steps_shutting; [done|].
  apply (inv_shutdown s (invariant_reachable s Hr (bounded_steps _ _ Hs Hb)) k Hk).
Qed.

(** A [Shutdown] call that waits has cancelled every connection that is
    still being served, and it is never stuck: the served connections can
    finish one by one, after which, in as many steps, the call returns nil. *)
Theorem shutdown_progress s k :
  reachable s → bounded s → shutdowns s !! k = Some (Cancelling []) →
  (∀ t, serving s t → t ∈ cancelled s) ∧
  ∃ s', nsteps step (S (size (active (registry s)))) s s' ∧
    shutdowns s' !! k = Some ReturnedNil.
Proof.
  intros Hr Hb Hk. pose proof (invariant_reachable s Hr Hb) as Hi. split.
  - intros t [id Ht]. destruct (inv_cancelling s Hi k [] Hk t id Ht) as [?|?%elem_of_nil]; done.
  - by apply drain.
Qed.

(** ** Witnesses *)

(** One connection is served while a shutdown waits; then it ends. *)
Definition example_waiting : System :=
  mkSystem (mkRegistry true 1 {[ 1%N := 7 ]} false false) {[ 7 := Active 1 ]} {[ 7 ]}
    {[ 0 := Cancelling [] ]} false.
Definition example_drained : System :=
  mkSystem (mkRegistry true 1 ∅ true true) {[ 7 := Finished ]} {[ 7 ]}
    {[ 0 := ReturnedNil ]} false.

Lemma example_waiting_reachable : reachable example_waiting.
Proof.
  eapply rtc_l; [eapply (step_register initial 7); reflexivity|].
  eapply rtc_l; [eapply (step_lock _ 0); [reflexivity|reflexivity|apply Permutation_refl]|].
  eapply rtc_l; [eapply (step_cancel _ 0 7 []); vm_compute; reflexivity|].
  vm_compute. apply rtc_refl.
Qed.

Lemma example_waiting_drained : steps example_waiting example_drained.
Proof.
  eapply rtc_l; [eapply (step_unregister _ 7 1); vm_compute; reflexivity|].
  eapply rtc_l; [eapply (step_return_nil _ 0); vm_compute; reflexivity|].
  vm_compute. apply rtc_refl.
Qed.

Lemma registry_mirrors_witness :
  shutdownDone (registry example_drained) = true ↔
    shuttingDown (registry example_drained) = true ∧ ∀ t, ¬ serving example_drained t.
Proof.
  apply (registry_mirrors example_drained).
  - exact (transitivity example_waiting_reachable example_waiting_drained).
  - vm_compute. reflexivity.
Defined.

Lemma shutdown_excludes_sessions_witness : ¬ serving example_drained 7.
Proof.
  apply (shutdown_excludes_sessions example_drained example_drained 0).
  - exact (transitivity example_waiting_reachable example_waiting_drained).
  - apply rtc_refl.
  - vm_compute. reflexivity.
  - vm_compute. reflexivity.
Defined.

Lemma shutdown_rejects_new_witness : serving example_waiting 7.
Proof.
  apply (shutdown_rejects_new example_waiting example_waiting 0).
  - exact example_waiting_reachable.
  - apply rtc_refl.
  - vm_compute. reflexivity.
  - by exists (Cancelling []).
  - exists 1%N. vm_compute. reflexivity.
Defined.

Lemma shutdown_progress_witness :
  (∀ t, serving example_waiting t → t ∈ cancelled example_waiting) ∧
  ∃ s', nsteps step 2 example_waiting s' ∧ shutdowns s' !! 0 = Some ReturnedNil.
Proof.
  apply (shutdown_progress example_waiting 0).
  - exact example_waiting_reachable.
  - vm_compute. reflexivity.
  - vm_compute. reflexivity.
Defined.
