(* ===== verification/Options.v ===== *)
(** The options and the credential handling of the OpenAI handler:
    [openai/options.go], [openai/auth.go], and from [openai/handler.go] the
    option loop of [NewHandler], the [Authenticate] closure,
    [credentialFromRequest] and [isWebSocket]. *)
From S2P Require Import Prelude GoStrings GoHttp Errors Services RestHandler.

(** ** path.Clean *)

(** One element of the path against the elements kept so far, last first. *)
Definition clean_element (rooted : bool) (kept : list string) (element : string) : list string :=
  if string_empty element || bool_decide (element = ".") then kept
  else if bool_decide (element = "..") then
    match kept with
    | last :: kept' =>
        if bool_decide (last = "..") then ".." :: kept else kept'
    | [] => if rooted then [] else [".."]
    end
  else element :: kept.

Definition SLASH : ascii := "/"%char.

Definition Clean (path : string) : string :=
  if string_empty path then "." else
  let rooted := HasPrefix path "/" in
  let kept := reverse (foldl (clean_element rooted) [] (Split SLASH path)) in
  if rooted then "/" +:+ Join kept "/"
  else match kept with [] => "." | _ => Join kept "/" end.

(** ** Credentials *)

Record Credential := mkCredential {
  Token : string;
  Source : string;
  cred_RequestID : string }.

Record Principal := mkPrincipal { principal_ID : string }.

(** [Authenticator] *)
Definition AuthenticateFunc := Credential → result goerror Principal.

(** The loop over the offered subprotocols. *)
Definition subprotocol_prefix : string := "openai-insecure-api-key.".

Fixpoint first_subprotocol (candidates : list string) : option string :=
  match candidates with
  | [] => None
  | candidate :: candidates =>
      match CutPrefix (TrimSpace candidate) subprotocol_prefix with
      | Some after => Some after
      | None => first_subprotocol candidates
      end
  end.

Definition credentialFromRequest (request : HttpRequest) : string * string :=
  let authorization := header_get (r_Header request) "Authorization" in
  if HasPrefix (ToLower authorization) "bearer "
  then (TrimSpace (string_drop 7 authorization), "authorization")
  else
    match first_subprotocol
            (header_values (r_Header request) "Sec-WebSocket-Protocol" ≫= Split ","%char) with
    | Some after => (after, "websocket_subprotocol")
    | None => ("", "none")
    end.

Definition isWebSocket (request : HttpRequest) : bool :=
  EqualFold (header_get (r_Header request) "Upgrade") "websocket" &&
  Contains (ToLower (header_get (r_Header request) "Connection")) "upgrade".

(** ** Settings and options *)

Record settings := mkSettings {
  basePath : string;
  maxBodyBytes : Z;
  originPatterns : list string;
  authenticator : interface AuthenticateFunc;
  validate : bool }.

Inductive option_error :=
| ErrBasePathRelative
| ErrBasePathRoot
| ErrBodyLimit
| ErrNilAuthenticator
| ErrEmptyOrigin
| ErrNilOption.

#[export] Instance option_error_eq_dec : EqDecision option_error.
Proof. solve_decision. Defined.

(** A nil [Option] is [None]. *)
Definition Option : Type := option (settings → result option_error settings).

Definition WithBasePath (base : string) : Option := Some (λ s,
  if string_empty base || negb (HasPrefix base "/") then Err ErrBasePathRelative
  else let cleaned := Clean base in
       if bool_decide (cleaned = ".") || bool_decide (cleaned = "/") then Err ErrBasePathRoot
       else Ok (mkSettings (TrimSuffix cleaned "/") (maxBodyBytes s) (originPatterns s)
                  (authenticator s) (validate s))).

Definition WithMaxBodyBytes (limit : Z) : Option := Some (λ s,
  if (limit <=? 0)%Z then Err ErrBodyLimit
  else Ok (mkSettings (basePath s) limit (originPatterns s) (authenticator s) (validate s))).

Definition isNil {A} (value : interface A) : bool :=
  match value with
  | None => true
  | Some reflected => if nillable (dyn_kind reflected) then dyn_isnil reflected else false
  end.

Definition WithAuthenticator (auth : interface AuthenticateFunc) : Option := Some (λ s,
  if isNil auth then Err ErrNilAuthenticator
  else Ok (mkSettings (basePath s) (maxBodyBytes s) (originPatterns s) auth (validate s))).

Definition WithOriginPatterns (patterns : list string) : Option := Some (λ s,
  if existsb (λ pattern, string_empty (TrimSpace pattern)) patterns then Err ErrEmptyOrigin
  else Ok (mkSettings (basePath s) (maxBodyBytes s) patterns (authenticator s) (validate s))).

Definition WithoutSchemaValidation : Option := Some (λ s,
  Ok (mkSettings (basePath s) (maxBodyBytes s) (originPatterns s) (authenticator s) false)).

Definition defaultMaxBodyBytes : Z := Z.shiftl 32 20.

Definition default_settings : settings :=
  mkSettings "/v1" defaultMaxBodyBytes [] None true.

(** The option loop of [NewHandler]. *)
Fixpoint apply_options (s : settings) (options : list Option) : result option_error settings :=
  match options with
  | [] => Ok s
  | None :: _ => Err ErrNilOption
  | Some f :: options => s ← f s; apply_options s options
  end.

(** The closure [internalConfig.Authenticate]. *)
Definition authenticate (s : settings) (request : HttpRequest) (requestID : string)
    : result goerror string :=
  match authenticator s with
  | None => Ok "anonymous"
  | Some auth =>
      let '(token, source) := credentialFromRequest request in
      principal ← dyn_val auth (mkCredential token source requestID);
      if string_empty (TrimSpace (principal_ID principal))
      then Err (Opaque "openai: authenticator returned an empty principal" [])
      else Ok (principal_ID principal)
  end.

Definition internal_config (s : settings) : Config :=
  mkConfig (basePath s) (maxBodyBytes s) (originPatterns s) (validate s) (authenticate s).

(** ** Specification *)

(** A normalized path prefix: at least one element, none of them empty, [.] or
    [..], and no final slash. *)
Definition good_element (e : string) : Prop :=
  e ≠ "" ∧ e ≠ "." ∧ e ≠ ".." ∧ free_of SLASH e = true.

Definition valid_base (p : string) : Prop :=
  ∃ es, es ≠ [] ∧ Forall good_element es ∧ p = "/" +:+ Join es "/".

(** The options an application can build. *)
Inductive setting_option :=
| OptNil
| OptBasePath (base : string)
| OptMaxBodyBytes (limit : Z)
| OptAuthenticator (auth : interface AuthenticateFunc)
| OptOriginPatterns (patterns : list string)
| OptWithoutValidation.

Definition denote_option (o : setting_option) : Option :=
  match o with
  | OptNil => None
  | OptBasePath base => WithBasePath base
  | OptMaxBodyBytes limit => WithMaxBodyBytes limit
  | OptAuthenticator auth => WithAuthenticator auth
  | OptOriginPatterns patterns => WithOriginPatterns patterns
  | OptWithoutValidation => WithoutSchemaValidation
  end.

(** The error an option is refused with, whatever was set before. *)
Definition option_refusal (o : setting_option) : option option_error :=
  match o with
  | OptNil => Some ErrNilOption
  | OptBasePath base =>
      if HasPrefix base "/" then
        if bool_decide (Clean base = "/") then Some ErrBasePathRoot else None
      else Some ErrBasePathRelative
  | OptMaxBodyBytes limit => if (0 <? limit)%Z then None else Some ErrBodyLimit
  | OptAuthenticator auth => if isNil auth then Some ErrNilAuthenticator else None
  | OptOriginPatterns patterns =>
      if forallb (λ p, negb (string_empty (TrimSpace p))) patterns then None
      else Some ErrEmptyOrigin
  | OptWithoutValidation => None
  end.

(** The last value the options give each setting. *)
Definition last_set {A} (f : setting_option → option A) (d : A) (os : list setting_option) : A :=
  default d (last (omap f os)).

Definition spec_settings (os : list setting_option) : settings :=
  mkSettings
    (last_set (λ o, match o with OptBasePath b => Some (Clean b) | _ => None end) "/v1" os)
    (last_set (λ o, match o with OptMaxBodyBytes l => Some l | _ => None end)
       defaultMaxBodyBytes os)
    (last_set (λ o, match o with OptOriginPatterns ps => Some ps | _ => None end) [] os)
    (last_set (λ o, match o with OptAuthenticator a => Some a | _ => None end) None os)
    (last_set (λ o, match o with OptWithoutValidation => Some false | _ => None end) true os).

(** ** Lemmas: paths *)

Lemma Clean_rooted base :
  HasPrefix base "/" = true →
  Clean base = "/" +:+ Join (reverse (foldl (clean_element true) [] (Split SLASH base))) "/".
Proof. intros Hp. unfold Clean. rewrite Hp. by destruct base. Qed.

Lemma clean_elements_good es kept :
  Forall (λ e, free_of SLASH e = true) es → Forall good_element kept →
  Forall good_element (foldl (clean_element true) kept es).
Proof.
  intros Hes. revert kept. induction Hes as [|e es He _ IH]; intros kept Hk; [done|].
  simpl. apply IH. unfold clean_element. destruct e as [|c e']; [done|].
  cbn [string_empty orb]. repeat case_bool_decide.
  - done.
  - destruct kept as [|k kept]; [done|]. apply Forall_cons in Hk as [[_ [_ [Hk _]]] Hk'].
    by rewrite bool_decide_false.
  - constructor; [|done]. by split_and!.
Qed.

Lemma Clean_valid base :
  HasPrefix base "/" = true → Clean base = "/" ∨ valid_base (Clean base).
Proof.
  intros Hp. rewrite Clean_rooted by done.
  set (es := reverse _).
  assert (Forall good_element es) as Hg.
  { unfold es. apply Forall_reverse, clean_elements_good; [apply Split_free|done]. }
  destruct es as [|e es]; [by left|right]. by exists (e :: es).
Qed.

(** Cutting a joined list apart again. *)
Lemma Split_Join es :
  es ≠ [] → Forall (λ e, free_of SLASH e = true) es → Split SLASH (Join es "/") = es.
Proof.
  intros Hne Hes. induction Hes as [|e es He Hes IH]; [done|].
  destruct es as [|e' es].
  - by apply Split_single.
  - rewrite Join_cons by done. change ("/" +:+ ?x) with (String SLASH x).
    by rewrite Split_app_sep, IH.
Qed.

Lemma clean_good_elements es kept :
  Forall good_element es →
  foldl (clean_element true) kept es = reverse es ++ kept.
Proof.
  intros Hes. revert kept. induction Hes as [|e es (H1 & H2 & H3 & _) _ IH]; intros kept; [done|].
  simpl. rewrite IH, reverse_cons, <- (assoc_L (++)). f_equal. simpl.
  unfold clean_element. rewrite !bool_decide_false by done. by destruct e.
Qed.

Lemma good_free e : good_element e → free_of SLASH e = true.
Proof. by intros (_ & _ & _ & ?). Qed.

(** A normalized prefix is left alone. *)
Lemma Clean_idempotent p : valid_base p → Clean p = p.
Proof.
  intros (es & Hne & Hes & ->). rewrite Clean_rooted.
  2:{ apply HasPrefix_spec. by eexists. }
  do 2 f_equal. change ("/" +:+ Join es "/") with ("" +:+ String SLASH (Join es "/")).
  rewrite Split_app_sep, Split_Join; [|done|..|done].
  2:{ eapply Forall_impl; [exact Hes|apply good_free]. }
  simpl. change (clean_element true [] "") with ([] : list string).
  by rewrite clean_good_elements, app_nil_r, reverse_involutive.
Qed.

Lemma free_of_rev b s : free_of b s = true → free_of b (String.rev s) = true.
Proof.
  unfold free_of. induction s as [|c s IH]; [done|]. intros Hs. simpl in Hs.
  apply andb_true_iff in Hs as [Hc Hs].
  change (String c s) with (str1 c +:+ s). rewrite rev_app_distr_str, string_forallb_app.
  rewrite IH by done. simpl. by rewrite Hc.
Qed.

Lemma TrimSuffix_free b e t :
  free_of b e = true → e ≠ "" → TrimSuffix (t +:+ e) (str1 b) = t +:+ e.
Proof.
  intros He Hne. unfold TrimSuffix. rewrite rev_app_distr_str. apply free_of_rev in He.
  assert (String.rev e ≠ "") as Hne'.
  { intros Heq. apply Hne. by rewrite <- (rev_involutive_str e), Heq. }
  destruct (String.rev e) as [|c r]; [done|]. unfold free_of in He. simpl in He.
  apply andb_true_iff in He as [Hc _]. apply negb_true_iff, bool_decide_eq_false in Hc.
  change (String.rev (str1 b)) with (str1 b). rewrite app_cons_str. simpl.
  by rewrite bool_decide_false.
Qed.

Lemma Join_last es e :
  ∃ t, Join (es ++ [e]) "/" = t +:+ e.
Proof.
  induction es as [|e' es [t IH]]; [by exists ""|].
  exists (e' +:+ "/" +:+ t). simpl app. rewrite Join_cons by (by destruct es).
  by rewrite IH, !app_assoc_str.
Qed.

Lemma TrimSuffix_base p : valid_base p → TrimSuffix p "/" = p.
Proof.
  intros (es & Hne & Hes & ->). destruct es as [|e es _] using rev_ind; [done|].
  apply Forall_app in Hes as [_ Hes]. apply (Forall_singleton good_element) in Hes.
  destruct (Join_last es e) as [t ->]. rewrite <- app_assoc_str.
  apply TrimSuffix_free; [by apply good_free|by destruct Hes].
Qed.

(** ** Lemmas: options *)

Lemma denote_option_spec o s :
  match denote_option o with
  | None => option_refusal o = Some ErrNilOption
  | Some f => f s =
      match option_refusal o with
      | Some e => Err e
      | None => Ok match o with
          | OptBasePath b => mkSettings (Clean b) (maxBodyBytes s) (originPatterns s)
              (authenticator s) (validate s)
          | OptMaxBodyBytes l => mkSettings (basePath s) l (originPatterns s)
              (authenticator s) (validate s)
          | OptOriginPatterns ps => mkSettings (basePath s) (maxBodyBytes s) ps
              (authenticator s) (validate s)
          | OptAuthenticator a => mkSettings (basePath s) (maxBodyBytes s) (originPatterns s)
              a (validate s)
          | OptWithoutValidation => mkSettings (basePath s) (maxBodyBytes s) (originPatterns s)
              (authenticator s) false
          | OptNil => s
          end
      end
  end.
Proof.
  destruct o as [|b|l|a|ps|]; simpl; [done|..|done].
  - destruct (HasPrefix b "/") eqn:Hp.
    + destruct (Clean_valid b Hp) as [Hc|Hc].
      * rewrite Hc. destruct b; [done|]. done.
      * rewrite (bool_decide_false (Clean b = "/")), TrimSuffix_base; [|done|].
        2:{ destruct Hc as (es & Hne & Hes & ->). destruct es as [|e es]; [done|].
            apply Forall_cons in Hes as [(He & _) _]. destruct e as [|c e]; [done|].
            by destruct es. }
        rewrite (bool_decide_false (Clean b = ".")).
        2:{ destruct Hc as (es & _ & _ & ->). done. }
        destruct b; done.
    + by destruct b.
  - destruct (Z.leb_spec l 0), (Z.ltb_spec 0 l); done || lia.
  - by destruct (isNil a).
  - replace (existsb (λ p, string_empty (TrimSpace p)) ps)
      with (negb (forallb (λ p, negb (string_empty (TrimSpace p))) ps)).
    + by destruct (forallb _ _).
    + induction ps as [|p ps IH]; [done|]. simpl. rewrite <- IH.
      by destruct (string_empty (TrimSpace p)).
Qed.

Lemma last_set_snoc {A} f (d : A) os o :
  last_set f d (os ++ [o]) = default (last_set f d os) (f o).
Proof.
  unfold last_set. rewrite omap_app. simpl. destruct (f o); simpl.
  - by rewrite last_snoc.
  - by rewrite app_nil_r.
Qed.

Lemma spec_settings_snoc os o f :
  denote_option o = Some f → option_refusal o = None →
  f (spec_settings os) = Ok (spec_settings (os ++ [o])).
Proof.
  intros Hf Hr. pose proof (denote_option_spec o (spec_settings os)) as Hs.
  rewrite Hf, Hr in Hs. rewrite Hs. f_equal. unfold spec_settings. rewrite !last_set_snoc.
  by destruct o.
Qed.

Lemma apply_options_from pre os :
  Forall (λ o, option_refusal o = None) pre →
  match apply_options (spec_settings pre) (denote_option <$> os) with
  | Ok s => s = spec_settings (pre ++ os) ∧ Forall (λ o, option_refusal o = None) os
  | Err e => ∃ os1 o os2, os = os1 ++ o :: os2 ∧
      Forall (λ o, option_refusal o = None) os1 ∧ option_refusal o = Some e
  end.
Proof.
  revert pre. induction os as [|o os IH]; intros pre Hpre; csimpl.
  { by rewrite app_nil_r. }
  pose proof (denote_option_spec o (spec_settings pre)) as Hs.
  destruct (denote_option o) as [f|] eqn:Hf; [|by exists [], o, os].
  destruct (option_refusal o) as [e|] eqn:Hr.
  { rewrite Hs. simpl. by exists [], o, os. }
  rewrite (spec_settings_snoc pre o f Hf Hr). csimpl.
  specialize (IH (pre ++ [o])).
  assert (Forall (λ o, option_refusal o = None) (pre ++ [o])) as Hpre'.
  { apply Forall_app. split; [done|by constructor]. }
  specialize (IH Hpre'). destruct (apply_options _ _) as [s|e].
  - rewrite <- (assoc_L (++)) in IH. destruct IH as [-> Hos]. split; [done|by constructor].
  - destruct IH as (os1 & o' & os2 & -> & H1 & H2). exists (o :: os1), o', os2.
    split; [done|]. split; [by constructor|done].
Qed.

Lemma last_set_spec {A} (f : setting_option → option A) (d : A) os (P : A → Prop) :
  P d → (∀ o a, o ∈ os → f o = Some a → P a) → P (last_set f d os).
Proof.
  intros Hd Ho. unfold last_set. destruct (last (omap f os)) as [a|] eqn:E; [|done].
  apply last_Some_elem_of, list_elem_of_omap in E as (o & Hin & Hf). by eapply Ho.
Qed.

(** The settings a handler is built from are sound. *)
Record sound_settings (s : settings) : Prop := {
  sound_base : valid_base (basePath s);
  sound_limit : (0 < maxBodyBytes s)%Z;
  sound_origins : Forall (λ p, TrimSpace p ≠ "") (originPatterns s);
  sound_auth : authenticator s = None ∨ isNil (authenticator s) = false }.

Lemma spec_settings_sound os :
  Forall (λ o, option_refusal o = None) os → sound_settings (spec_settings os).
Proof.
  intros Hos. rewrite Forall_forall in Hos. constructor; simpl.
  - apply last_set_spec.
    + exists ["v1"]. split; [done|]. split; [|done]. by repeat constructor.
    + intros o a Ho Ha. specialize (Hos o Ho). destruct o; simplify_eq/=.
      destruct (HasPrefix base "/") eqn:Hp; [|done].
      destruct (Clean_valid base Hp) as [Hc|]; [|done]. by rewrite Hc in Hos.
  - apply last_set_spec; [done|]. intros o a Ho Ha. specialize (Hos o Ho).
    destruct o; simplify_eq/=. destruct (Z.ltb_spec 0 a); done.
  - apply last_set_spec; [done|]. intros o a Ho Ha. specialize (Hos o Ho).
    destruct o as [| | | |ps|]; simplify_eq/=.
    destruct (forallb _ _) eqn:Hall; [|done]. apply Forall_forall. intros p Hp.
    rewrite forallb_forall in Hall. apply list_elem_of_In in Hp. specialize (Hall p Hp).
    by destruct (TrimSpace p).
  - apply last_set_spec; [by left|]. intros o a Ho Ha. specialize (Hos o Ho).
    destruct o as [| | |auth| |]; simplify_eq/=. right. by destruct (isNil a).
Qed.

(** ** Lemmas: credentials *)

Lemma ToLower_ascii_prefix s c rest :
  ToLower s = String c rest → c ≠ byte_of 105 → c ≠ byte_of 107 →
  ∃ a s', s = String a s' ∧ lower a = c ∧ ToLower s' = rest.
Proof.
  intros Hs Hi Hk. destruct s as [|a [|b [|d s]]]; simpl in Hs; [done|..].
  - injection Hs as <- <-. by exists a, "".
  - destruct ((code a =? 196)%N && (code b =? 176)%N); [by injection Hs as <- _; (destruct Hi + destruct Hk)|].
    injection Hs as <- <-. by eexists _, _.
  - destruct ((code a =? 196)%N && (code b =? 176)%N); [by injection Hs as <- _; (destruct Hi + destruct Hk)|].
    destruct ((code a =? 226)%N && (code b =? 132)%N && (code d =? 170)%N); [by injection Hs as <- _; (destruct Hi + destruct Hk)|].
    injection Hs as <- <-. by eexists _, _.
Qed.

(** The seven bytes sliced off the header are there, and spell [bearer] in
    some mixture of cases. *)
Lemma bearer_prefix s :
  HasPrefix (ToLower s) "bearer " = true →
  ∃ scheme, s = scheme +:+ string_drop 7 s ∧ string_map lower scheme = "bearer ".
Proof.
  intros [r Hr]%HasPrefix_spec.
  change ("bearer " +:+ r) with (String "b" (String "e" (String "a" (String "r" (String "e"
    (String "r" (String " " r))))))) in Hr.
  do 7 (apply ToLower_ascii_prefix in Hr as (? & ? & -> & ? & Hr); [|done|done]).
  eexists (String _ (String _ (String _ (String _ (String _ (String _ (String _ ""))))))).
  simpl. split; [by rewrite !app_cons_str, app_nil_l_str|]. by repeat f_equal.
Qed.

Lemma first_subprotocol_spec candidates :
  match first_subprotocol candidates with
  | Some after => ∃ pre c post, candidates = pre ++ c :: post ∧
      TrimSpace c = subprotocol_prefix +:+ after ∧
      Forall (λ c, HasPrefix (TrimSpace c) subprotocol_prefix = false) pre
  | None => Forall (λ c, HasPrefix (TrimSpace c) subprotocol_prefix = false) candidates
  end.
Proof.
  induction candidates as [|c cs IH]; [by constructor|]. cbn [first_subprotocol].
  destruct (CutPrefix (TrimSpace c) subprotocol_prefix) as [after|] eqn:E.
  - exists [], c, cs. split_and!; [done| |done]. by apply CutPrefix_Some.
  - assert (HasPrefix (TrimSpace c) subprotocol_prefix = false) as Hc.
    { unfold HasPrefix. rewrite E. done. }
    destruct (first_subprotocol cs) as [after|].
    + destruct IH as (pre & c' & post & -> & ? & ?). exists (c :: pre), c', post.
      split_and!; [done|done|by constructor].
    + by constructor.
Qed.

(** ** Properties *)

(** C36. The settings of a handler are those its options spell out: the loop
    succeeds exactly when no option must be refused, and else stops at the
    first that must, with its error; on success every setting has the last
    value given to it, or its default, and the result is sound: a normalized base path below the root, a positive limit,
    no blank origin pattern and no nil authenticator. *)
Theorem apply_options_spec os :
  match apply_options default_settings (denote_option <$> os) with
  | Ok s => Forall (λ o, option_refusal o = None) os ∧ s = spec_settings os ∧ sound_settings s
  | Err e => ∃ os1 o os2, os = os1 ++ o :: os2 ∧
      Forall (λ o, option_refusal o = None) os1 ∧ option_refusal o = Some e
  end.
Proof.
  pose proof (apply_options_from [] os (Forall_nil_2 _)) as H.
  change (spec_settings []) with default_settings in H.
  destruct (apply_options _ _) as [s|e]; [|done]. destruct H as [-> Hos].
  split_and!; [done..|]. by apply spec_settings_sound.
Qed.

(** Normalizing the base path is stable: configuring a handler with the
    base path another one ended up with yields that very base path. *)
Theorem WithBasePath_stable os s :
  apply_options default_settings (denote_option <$> os) = Ok s →
  ∀ s', apply_options s' [WithBasePath (basePath s)] =
    Ok (mkSettings (basePath s) (maxBodyBytes s') (originPatterns s') (authenticator s')
          (validate s')).
Proof.
  intros Hs s'. pose proof (apply_options_from [] os (Forall_nil_2 _)) as H.
  change (spec_settings []) with default_settings in H. rewrite Hs in H.
  destruct H as [-> Hos]. pose proof (sound_base _ (spec_settings_sound os Hos)) as Hb.
  change ([] ++ os) with os. set (p := basePath (spec_settings os)) in *.
  pose proof (denote_option_spec (OptBasePath p) s') as Hd. simpl in Hd |- *. rewrite Hd.
  rewrite (Clean_idempotent p Hb).
  destruct Hb as (es & Hne & Hes & ->). rewrite (proj2 (HasPrefix_spec _ _)) by by eexists.
  rewrite bool_decide_false; [done|].
  destruct es as [|e es]; [done|]. apply Forall_cons in Hes as [(He & _) _].
  destruct e as [|c e]; [done|]. by destruct es.
Qed.

(** Where a credential comes from: a bearer token in the [Authorization]
    header, in any case and trimmed, always wins; else the first offered
    subprotocol with the insecure-key prefix; else there is none.  Slicing off
    the scheme never leaves the header. *)
Theorem credentialFromRequest_spec request token source :
  credentialFromRequest request = (token, source) →
  let authorization := header_get (r_Header request) "Authorization" in
  let offered :=
    header_values (r_Header request) "Sec-WebSocket-Protocol" ≫= Split ","%char in
  (source = "authorization" ∧ ∃ scheme rest, authorization = scheme +:+ rest ∧
     string_map lower scheme = "bearer " ∧ token = TrimSpace rest) ∨
  (HasPrefix (ToLower authorization) "bearer " = false ∧
   (source = "websocket_subprotocol" ∧
      (∃ pre c post, offered = pre ++ c :: post ∧
        TrimSpace c = subprotocol_prefix +:+ token ∧
        Forall (λ c, HasPrefix (TrimSpace c) subprotocol_prefix = false) pre) ∨
    source = "none" ∧ token = "" ∧
      Forall (λ c, HasPrefix (TrimSpace c) subprotocol_prefix = false) offered)).
Proof.
  intros Hc authorization offered. unfold credentialFromRequest in Hc.
  fold authorization in Hc. fold offered in Hc.
  destruct (HasPrefix (ToLower authorization) "bearer ") eqn:Hp.
  - left. injection Hc as <- <-. split; [done|].
    destruct (bearer_prefix authorization Hp) as (scheme & Heq & Hl).
    by exists scheme, (string_drop 7 authorization).
  - right. split; [done|]. pose proof (first_subprotocol_spec offered) as Hspec.
    destruct (first_subprotocol offered); injection Hc as <- <-; [by left|by right].
Qed.

(** Authentication: with no authenticator every caller is anonymous;
    otherwise a request is accepted exactly when the authenticator accepts the
    credential of this request, under its request identifier, with a principal
    whose identifier is not blank, and the backend is told that identifier. *)
Theorem authenticate_spec s request requestID caller :
  authenticate s request requestID = Ok caller ↔
    match authenticator s with
    | None => caller = "anonymous"
    | Some auth => ∃ token source, credentialFromRequest request = (token, source) ∧
        dyn_val auth (mkCredential token source requestID) = Ok (mkPrincipal caller) ∧
        TrimSpace caller ≠ ""
    end.
Proof.
  unfold authenticate. destruct (authenticator s) as [auth|]; [|naive_solver].
  destruct (credentialFromRequest request) as [token source].
  destruct (dyn_val auth _) as [[id]|err] eqn:Ha; csimpl.
  - destruct (TrimSpace id) as [|c t] eqn:Ht; simpl; split.
    + done.
    + intros (? & ? & [= <- <-] & Hid & Hne). rewrite Ha in Hid. injection Hid as <-. done.
    + intros [= <-]. exists token, source. rewrite Ha, Ht. done.
    + intros (? & ? & [= <- <-] & Hid & Hne). rewrite Ha in Hid. by injection Hid as <-.
  - split; [done|]. intros (? & ? & [= <- <-] & Hid & _). congruence.
Qed.

(** ** Witnesses *)

Lemma WithBasePath_stable_witness :
  apply_options default_settings [WithBasePath (basePath
    (mkSettings "/openai/v1" defaultMaxBodyBytes [] None true))] =
  Ok (mkSettings "/openai/v1" defaultMaxBodyBytes [] None true).
Proof.
  apply (WithBasePath_stable [OptBasePath "//openai/./x/../v1/"]
    (mkSettings "/openai/v1" defaultMaxBodyBytes [] None true)).
  vm_compute. reflexivity.
Defined.

Definition example_offer : HttpRequest :=
  mkHttpRequest "GET" "/v1/realtime" ""
    {[ "Sec-Websocket-Protocol" := ["realtime, openai-insecure-api-key.k1"] ]} "" false None.

Lemma credentialFromRequest_spec_witness :
  ("websocket_subprotocol" = "authorization" ∧ ∃ scheme rest, "" = scheme +:+ rest ∧
     string_map lower scheme = "bearer " ∧ "k1" = TrimSpace rest) ∨
  (HasPrefix (ToLower "") "bearer " = false ∧
   ("websocket_subprotocol" = "websocket_subprotocol" ∧
      (∃ pre c post, ["realtime"; " openai-insecure-api-key.k1"] = pre ++ c :: post ∧
        TrimSpace c = subprotocol_prefix +:+ "k1" ∧
        Forall (λ c, HasPrefix (TrimSpace c) subprotocol_prefix = false) pre) ∨
    "websocket_subprotocol" = "none" ∧ "k1" = "" ∧
      Forall (λ c, HasPrefix (TrimSpace c) subprotocol_prefix = false)
        ["realtime"; " openai-insecure-api-key.k1"])).
Proof.
  apply (credentialFromRequest_spec example_offer "k1" "websocket_subprotocol").
  vm_compute. reflexivity.
Defined.
