(* ===== verification/ServeMux.v ===== *)
(** The part of Go's [http.ServeMux] that [server.go] uses: parsing a pattern,
    refusing conflicting ones, and finding the handler of a request.

    The routing tree is kept as the list of its leaves: descending to a child
    keeps the leaves below it. *)
From S2P Require Import Prelude GoStrings GoHttp Options.

(** ** Patterns *)

Inductive segment :=
| Lit (s : string)
| Wild (name : string)
| Multi (name : string).

Record pattern := mkPattern {
  p_str : string;
  p_method : string;
  p_host : string;
  p_segments : list segment }.

Inductive pattern_error :=
| ErrMethod | ErrNoSlash | ErrHostBrace | ErrUnclean | ErrBadStart | ErrBadEnd | ErrDollarNotLast
| ErrMultiNotLast | ErrEmptyWildcard | ErrWildcardName (name : string)
| ErrDuplicateWildcard (name : string).

#[export] Instance segment_eq_dec : EqDecision segment.
Proof. solve_decision. Defined.
#[export] Instance pattern_eq_dec : EqDecision pattern.
Proof. solve_decision. Defined.
#[export] Instance pattern_error_eq_dec : EqDecision pattern_error.
Proof. solve_decision. Defined.

(** [url.PathUnescape]; [None] is the [EscapeError]. *)
Fixpoint PathUnescape (s : string) : option string :=
  match s with
  | "" => Some ""
  | String c s1 =>
      if (code c =? 37)%N then
        match s1 with
        | String h (String l s3) =>
            h ← unhex h; l ← unhex l; rest ← PathUnescape s3;
            Some (String (byte_of (16 * h + l)) rest)
        | _ => None
        end
      else String c <$> PathUnescape s1
  end.

Definition pathUnescape (s : string) : string := default s (PathUnescape s).

Definition HasSuffix (s suffix : string) : bool := HasPrefix (String.rev s) (String.rev suffix).

(** [net/http]'s [cleanPath] *)
Definition cleanPath (p : string) : string :=
  if string_empty p then "/" else
  let p := if HasPrefix p "/" then p else "/" +:+ p in
  let np := Clean p in
  if HasSuffix p "/" && negb (bool_decide (np = "/"))
  then np +:+ "/" else np.

Section Parse.
(** Whether a name with bytes beyond ASCII is made of letters and digits, by the
    Unicode tables. *)
Context (unicode_name : string → bool).

Definition name_start (c : ascii) : bool := is_upper c || is_lower c || (code c =? 95)%N.

Definition isValidWildcardName (name : string) : bool :=
  match name with
  | "" => false
  | String c rest =>
      if string_forallb (λ c, code c <? 128)%N name
      then name_start c && string_forallb (λ c, name_start c || is_digit c) rest
      else unicode_name name
  end.

(** [segs] is the rest of the path, split at the slashes. *)
Fixpoint parse_segments (seen : gset string) (segs : list string)
    : result pattern_error (list segment) :=
  match segs with
  | [] => Ok []
  | seg :: rest =>
      if string_empty seg && bool_decide (rest = []) then Ok [Multi ""]
      else
        let '(before, inner, found) := Cut "{"%char seg in
        if negb found then cons (Lit (pathUnescape seg)) <$> parse_segments seen rest
        else if negb (string_empty before) then Err ErrBadStart
        else if negb (HasSuffix seg "}") then Err ErrBadEnd
        else
          let name := TrimSuffix inner "}" in
          if bool_decide (name = "$") then
            if bool_decide (rest = []) then Ok [Lit "/"] else Err ErrDollarNotLast
          else
            let base := TrimSuffix name "..." in
            let multi := negb (bool_decide (base = name)) in
            if multi && negb (bool_decide (rest = [])) then Err ErrMultiNotLast
            else if string_empty base then Err ErrEmptyWildcard
            else if negb (isValidWildcardName base) then Err (ErrWildcardName base)
            else if bool_decide (base ∈ seen) then Err (ErrDuplicateWildcard base)
            else if multi then Ok [Multi base]
            else cons (Wild base) <$> parse_segments ({[base]} ∪ seen) rest
  end.

Definition blank (c : ascii) : bool := (code c =? 32)%N || (code c =? 9)%N.

(** The method before the first blank, when there is one. *)
Fixpoint cut_blank (s : string) : option (string * string) :=
  match s with
  | "" => None
  | String c rest =>
      if blank c then Some ("", rest)
      else '(method, after) ← cut_blank rest; Some (String c method, after)
  end.

Fixpoint trim_blanks (s : string) : string :=
  match s with
  | String c rest => if blank c then trim_blanks rest else s
  | "" => ""
  end.

(** [parsePattern] of a pattern that is not empty. *)
Definition parsePattern (s : string) : result pattern_error pattern :=
  let '(method, rest) :=
    match cut_blank s with
    | Some (method, rest) => (method, trim_blanks rest)
    | None => ("", s)
    end in
  if negb (string_empty method) && negb (string_forallb token_byte method) then Err ErrMethod
  else
    let '(host, after, found) := Cut SLASH rest in
    if negb found then Err ErrNoSlash
    else if Contains host "{" then Err ErrHostBrace
    else
      let path := "/" +:+ after in
      if negb (string_empty method) && negb (bool_decide (method = "CONNECT")) &&
         negb (bool_decide (path = cleanPath path))
      then Err ErrUnclean
      else mkPattern s method host <$> parse_segments ∅ (Split SLASH after).

End Parse.

(** ** Comparing patterns *)

Inductive relationship := Equivalent | MoreGeneral | MoreSpecific | Disjoint | Overlaps.

#[export] Instance relationship_eq_dec : EqDecision relationship.
Proof. solve_decision. Defined.

Definition combineRelationships (r1 r2 : relationship) : relationship :=
  match r1, r2 with
  | Equivalent, _ => r2
  | Disjoint, _ => Disjoint
  | Overlaps, Disjoint => Disjoint
  | Overlaps, _ => Overlaps
  | MoreGeneral, Equivalent => MoreGeneral
  | MoreGeneral, MoreSpecific => Overlaps
  | MoreSpecific, Equivalent => MoreSpecific
  | MoreSpecific, MoreGeneral => Overlaps
  | _, _ => r2
  end.

Definition compareMethods (m1 m2 : string) : relationship :=
  if bool_decide (m1 = m2) then Equivalent
  else if string_empty m1 then MoreGeneral
  else if string_empty m2 then MoreSpecific
  else if bool_decide (m1 = "GET") && bool_decide (m2 = "HEAD") then MoreGeneral
  else if bool_decide (m2 = "GET") && bool_decide (m1 = "HEAD") then MoreSpecific
  else Disjoint.

Definition compareSegments (s1 s2 : segment) : relationship :=
  match s1, s2 with
  | Multi _, Multi _ => Equivalent
  | Multi _, _ => MoreGeneral
  | _, Multi _ => MoreSpecific
  | Wild _, Wild _ => Equivalent
  | Wild _, Lit s => if bool_decide (s = "/") then Disjoint else MoreGeneral
  | Lit s, Wild _ => if bool_decide (s = "/") then Disjoint else MoreSpecific
  | Lit s, Lit t => if bool_decide (s = t) then Equivalent else Disjoint
  end.

Definition ends_multi (segs : list segment) : bool :=
  match last segs with Some (Multi _) => true | _ => false end.

(** The loop over corresponding segments and what comes after it; [multi1] and
    [multi2] tell whether the whole patterns end in a multi wildcard. *)
Fixpoint compare_segments (multi1 multi2 : bool) (rel : relationship) (segs1 segs2 : list segment)
    : relationship :=
  match segs1, segs2 with
  | s1 :: segs1, s2 :: segs2 =>
      let rel := combineRelationships rel (compareSegments s1 s2) in
      if bool_decide (rel = Disjoint) then Disjoint
      else compare_segments multi1 multi2 rel segs1 segs2
  | [], [] => rel
  | [], _ => if multi1 then combineRelationships rel MoreGeneral else Disjoint
  | _, [] => if multi2 then combineRelationships rel MoreSpecific else Disjoint
  end.

Definition comparePaths (segs1 segs2 : list segment) : relationship :=
  let multi1 := ends_multi segs1 in
  let multi2 := ends_multi segs2 in
  if negb (bool_decide (length segs1 = length segs2)) && negb multi1 && negb multi2 then Disjoint
  else compare_segments multi1 multi2 Equivalent segs1 segs2.

Definition comparePathsAndMethods (p1 p2 : pattern) : relationship :=
  let mrel := compareMethods (p_method p1) (p_method p2) in
  if bool_decide (mrel = Disjoint) then Disjoint
  else combineRelationships mrel (comparePaths (p_segments p1) (p_segments p2)).

Definition conflictsWith (p1 p2 : pattern) : bool :=
  bool_decide (p_host p1 = p_host p2) &&
  match comparePathsAndMethods p1 p2 with Equivalent | Overlaps => true | _ => false end.

(** ** The mux *)

(** The key of a child in the routing tree; multi wildcards have a place of
    their own. *)
Definition child_key (s : segment) : option string :=
  match s with Lit s => Some s | Wild _ => Some "" | Multi _ => None end.

(** A second leaf at the same place; it makes the tree panic. *)
Definition same_leaf (p1 p2 : pattern) : bool :=
  bool_decide (p_host p1 = p_host p2) && bool_decide (p_method p1 = p_method p2) &&
  bool_decide (child_key <$> p_segments p1 = child_key <$> p_segments p2) &&
  negb (ends_multi (p_segments p1)).

Section Mux.
Context {H : Type}.

(** [*http.ServeMux]: the leaves in the order of registration. *)
Definition mux := list (pattern * H).

(** [(mux *ServeMux) Handle] with a pattern that parses and a handler that is
    not nil; [None] is the panic. *)
Definition register (pat : pattern) (h : H) (m : mux) : option mux :=
  if existsb (λ e, conflictsWith pat e.1 || same_leaf pat e.1) m then None
  else Some (m ++ [(pat, h)]).

Definition leaf : Type := list segment * (pattern * H).

Definition leaves (host method : string) (m : mux) : list leaf :=
  (λ e, (p_segments e.1, e)) <$>
    List.filter (λ e, bool_decide (p_host e.1 = host) && bool_decide (p_method e.1 = method)) m.

(** [findChild] *)
Definition children (key : string) (ls : list leaf) : list leaf :=
  omap (λ l, match l.1 with
             | s :: segs => if bool_decide (child_key s = Some key) then Some (segs, l.2) else None
             | [] => None
             end) ls.

Definition leaf_here (ls : list leaf) : option (pattern * H) :=
  head (omap (λ l, match l.1 with [] => Some l.2 | _ => None end) ls).
Definition multi_child (ls : list leaf) : option (pattern * H) :=
  last (omap (λ l, match l.1 with Multi _ :: _ => Some l.2 | _ => None end) ls).

(** [(n *routingNode) matchPath], on the path as [firstSegment] cuts it. *)
Fixpoint matchPath (path : list string) (ls : list leaf) : option (pattern * H) :=
  match path with
  | [] => leaf_here ls
  | seg :: rest =>
      match matchPath rest (children seg ls) with
      | Some e => Some e
      | None =>
          match (if bool_decide (seg = "/") then None else matchPath rest (children "" ls)) with
          | Some e => Some e
          | None => multi_child ls
          end
      end
  end.

(** [firstSegment], repeated. *)
Fixpoint path_parts (parts : list string) : list string :=
  match parts with
  | [] => []
  | [part] => if string_empty part then ["/"] else [pathUnescape part]
  | part :: parts => pathUnescape part :: path_parts parts
  end.
Definition path_segments (path : string) : list string :=
  match path with "" => [] | String _ path => path_parts (Split SLASH path) end.

Definition matchMethodAndPath (host method : string) (path : list string) (m : mux)
    : option (pattern * H) :=
  match matchPath path (leaves host method m) with
  | Some e => Some e
  | None =>
      match (if bool_decide (method = "HEAD") then matchPath path (leaves host "GET" m) else None) with
      | Some e => Some e
      | None => matchPath path (leaves host "" m)
      end
  end.

(** [(root *routingNode) match] *)
Definition tree_match (host method path : string) (m : mux) : option (pattern * H) :=
  let path := path_segments path in
  match (if string_empty host then None else matchMethodAndPath host method path m) with
  | Some e => Some e
  | None => matchMethodAndPath "" method path m
  end.

(** ** Finding the handler of a request *)

(** The host without its port. *)
Definition stripHostPort (h : string) : string :=
  let plain s := free_of "["%char s && free_of "]"%char s in
  match CutPrefix h "[" with
  | Some rest =>
      let '(host, after, found) := Cut "]"%char rest in
      match CutPrefix after ":" with
      | Some port =>
          if found && free_of "["%char host && plain port && free_of ":"%char port then host else h
      | None => h
      end
  | None =>
      match Split ":"%char h with
      | [host; port] => if plain host && plain port then host else h
      | _ => h
      end
  end.

(** What the mux reads of a request. *)
Record mux_request := mkMuxRequest {
  RequestURI : string;
  mr_Method : string;
  mr_Host : string;
  URL_Host : string;
  URL_Path : string;
  URL_EscapedPath : string;
  URL_RawQuery : string }.

Inductive mux_answer :=
| Serve (e : pattern * H)
| MovedPermanently (path query : string)
| MethodNotAllowed (allow : gset string)
| MuxNotFound
| MuxBadRequest.

Definition exactMatch (n : option (pattern * H)) (path : string) : bool :=
  match n with
  | None => false
  | Some e =>
      if negb (ends_multi (p_segments e.1)) then true
      else if negb (string_empty path) && negb (HasSuffix path "/") then false
      else bool_decide (length (p_segments e.1) = pred (length (Split SLASH path)))
  end.

(** The path to redirect to, or the match. *)
Definition matchOrRedirect (host method path : string) (url_path : option string) (m : mux)
    : string + option (pattern * H) :=
  let n := tree_match host method path m in
  match url_path with
  | Some url_path =>
      if negb (exactMatch n path) && negb (HasSuffix path "/") &&
         exactMatch (tree_match host method (path +:+ "/") m) (path +:+ "/")
      then inl (cleanPath url_path +:+ "/")
      else inr n
  | None => inr n
  end.

Definition matchingMethodsPath (host : string) (path : list string) (m : mux) : gset string :=
  list_to_set (List.filter
    (λ method, negb (string_empty method) && bool_decide (is_Some (matchPath path (leaves host method m))))
    ((λ e, p_method e.1) <$> m)).

Definition tree_matchingMethods (host path : string) (m : mux) : gset string :=
  let path := path_segments path in
  let methods := (if string_empty host then ∅ else matchingMethodsPath host path m) ∪
                 matchingMethodsPath "" path m in
  if bool_decide ("GET" ∈ methods) then {["HEAD"]} ∪ methods else methods.

Definition matchingMethods (host path : string) (m : mux) : gset string :=
  tree_matchingMethods host path m ∪
  (if HasSuffix path "/" then ∅ else tree_matchingMethods host (path +:+ "/") m).

Definition findHandler (r : mux_request) (m : mux) : mux_answer :=
  let escapedPath := URL_EscapedPath r in
  let missing host path n :=
    match n with
    | Some e => Serve e
    | None =>
        let allowedMethods := matchingMethods host path m in
        if bool_decide (allowedMethods = ∅) then MuxNotFound else MethodNotAllowed allowedMethods
    end in
  if bool_decide (mr_Method r = "CONNECT") then
    match matchOrRedirect (URL_Host r) "CONNECT" escapedPath (Some (URL_Path r)) m with
    | inl path => MovedPermanently path (URL_RawQuery r)
    | inr _ => missing (URL_Host r) escapedPath (tree_match (mr_Host r) "CONNECT" escapedPath m)
    end
  else
    let host := stripHostPort (mr_Host r) in
    let path := cleanPath escapedPath in
    match matchOrRedirect host (mr_Method r) path (Some (URL_Path r)) m with
    | inl path => MovedPermanently path (URL_RawQuery r)
    | inr n =>
        if negb (bool_decide (path = escapedPath)) then MovedPermanently path (URL_RawQuery r)
        else missing host path n
    end.

(** [(mux *ServeMux) ServeHTTP] *)
Definition mux_ServeHTTP (r : mux_request) (m : mux) : mux_answer :=
  if bool_decide (RequestURI r = "*") then MuxBadRequest else findHandler r m.

End Mux.
Arguments mux H : clear implicits.
Arguments leaf H : clear implicits.
Arguments mux_answer H : clear implicits.

(** ** Specification: the patterns that apply to a request *)

Fixpoint path_matches (segs : list segment) (path : list string) : bool :=
  match segs, path with
  | [], [] => true
  | Multi _ :: _, _ :: _ => true
  | Lit s :: segs, seg :: path => bool_decide (s = seg) && path_matches segs path
  | Wild _ :: segs, seg :: path => negb (bool_decide (seg = "/")) && path_matches segs path
  | _, _ => false
  end.

Definition method_applies (p method : string) : bool :=
  string_empty p || bool_decide (p = method) || bool_decide (p = "GET" ∧ method = "HEAD").

Definition applies (host method : string) (path : list string) (p : pattern) : bool :=
  (string_empty (p_host p) || bool_decide (p_host p = host)) &&
  method_applies (p_method p) method && path_matches (p_segments p) path.

(** Of two patterns that apply, the one that is asked first. *)
Definition better (p q : pattern) : Prop :=
  (p_host p ≠ "" ∧ p_host q = "") ∨
  (p_host p = p_host q ∧ comparePathsAndMethods p q = MoreSpecific).

(** A pattern that is no subtree, or whose subtree starts at the path itself. *)
Definition exact (path : string) (p : pattern) : bool :=
  negb (ends_multi (p_segments p)) ||
  HasSuffix path "/" && bool_decide (length (Split SLASH path) = S (length (p_segments p))).

(** What is asked first among the mounted patterns that apply. *)
Definition first_choice {H} (mounted : pattern → H → Prop) (host method path : string)
    (pat : pattern) (h : H) : Prop :=
  mounted pat h ∧ applies host method (path_segments path) pat = true ∧
  ∀ pat' h', mounted pat' h' → applies host method (path_segments path) pat' = true →
    (pat', h') = (pat, h) ∨ better pat pat'.

(** A path that is served exactly with a slash behind it, and not without. *)
Definition lacks_slash {H} (mounted : pattern → H → Prop) (host method path : string) : Prop :=
  HasSuffix path "/" = false ∧
  (∃ pat h, first_choice mounted host method (path +:+ "/") pat h ∧ exact (path +:+ "/") pat = true) ∧
  ¬ ∃ pat h, first_choice mounted host method path pat h ∧ exact path pat = true.

Lemma first_choice_ext {H} (P Q : pattern → H → Prop) host method path pat h :
  (∀ pat h, P pat h ↔ Q pat h) →
  first_choice P host method path pat h ↔ first_choice Q host method path pat h.
Proof. intros Heq. unfold first_choice. by setoid_rewrite Heq. Qed.

Lemma lacks_slash_ext {H} (P Q : pattern → H → Prop) host method path :
  (∀ pat h, P pat h ↔ Q pat h) →
  lacks_slash P host method path ↔ lacks_slash Q host method path.
Proof.
  intros Heq. unfold lacks_slash. by setoid_rewrite (λ path pat h, first_choice_ext P Q host method path pat h Heq).
Qed.

(** A pattern that parses has a multi wildcard at the end only; [no_empty] asks
    for no [//] in it. *)
Fixpoint multi_last (segs : list segment) : bool :=
  match segs with
  | [] => true
  | [_] => true
  | Multi _ :: _ => false
  | _ :: segs => multi_last segs
  end.
Definition no_empty (segs : list segment) : bool :=
  forallb (λ s, negb (bool_decide (s = Lit ""))) segs.
Definition tidy (p : pattern) : Prop :=
  multi_last (p_segments p) = true ∧ no_empty (p_segments p) = true.

Record sound_mux {H} (m : mux H) : Prop := {
  sound_tidy : Forall (λ e, tidy e.1) m;
  sound_compatible : ForallOrdPairs (λ e e', conflictsWith e'.1 e.1 = false) m }.
