(* ===== verification/MuxMatch.v ===== *)
(** The search of the routing tree finds the most specific pattern: [tree_match]
    against the patterns that apply to a request, for the patterns
    [(mux *ServeMux) Handle] lets in. *)
From S2P Require Import Prelude GoStrings Options ServeMux.

(** ** The order of patterns *)

Definition inverse (r : relationship) : relationship :=
  match r with MoreGeneral => MoreSpecific | MoreSpecific => MoreGeneral | _ => r end.

Lemma combine_inverse r s :
  combineRelationships (inverse r) (inverse s) = inverse (combineRelationships r s).
Proof. by destruct r, s. Qed.

Lemma inverse_Disjoint r : inverse r = Disjoint ↔ r = Disjoint.
Proof. by destruct r. Qed.

Lemma compareMethods_inverse m n : compareMethods n m = inverse (compareMethods m n).
Proof.
  unfold compareMethods. destruct (bool_decide_reflect (m = n)) as [->|Hne].
  { by rewrite bool_decide_true. }
  rewrite (bool_decide_false (n = m)) by congruence.
  destruct m, n; try done. csimpl. by repeat case_bool_decide; simplify_eq.
Qed.

Lemma compareSegments_inverse s t : compareSegments t s = inverse (compareSegments s t).
Proof. destruct s, t; simpl; try done; by repeat case_bool_decide; simplify_eq. Qed.

Lemma compare_segments_inverse m1 m2 rel segs1 segs2 :
  compare_segments m2 m1 (inverse rel) segs2 segs1 = inverse (compare_segments m1 m2 rel segs1 segs2).
Proof.
  revert rel segs2. induction segs1 as [|s1 segs1 IH]; intros rel [|s2 segs2]; simpl; try done.
  - destruct m1; [|done]. by rewrite <- combine_inverse.
  - destruct m2; [|done]. by rewrite <- combine_inverse.
  - rewrite compareSegments_inverse, combine_inverse.
    rewrite (bool_decide_ext _ _ (inverse_Disjoint _)). case_bool_decide; [done|]. apply IH.
Qed.

Lemma comparePaths_inverse segs1 segs2 : comparePaths segs2 segs1 = inverse (comparePaths segs1 segs2).
Proof.
  unfold comparePaths.
  rewrite (bool_decide_ext (length segs2 = length segs1) (length segs1 = length segs2)) by done.
  rewrite <- !andb_assoc, (andb_comm (negb (ends_multi segs2))).
  case_match; [done|]. by rewrite <- compare_segments_inverse.
Qed.

Lemma compare_inverse p q : comparePathsAndMethods q p = inverse (comparePathsAndMethods p q).
Proof.
  unfold comparePathsAndMethods. rewrite compareMethods_inverse, comparePaths_inverse, combine_inverse.
  rewrite (bool_decide_ext _ _ (inverse_Disjoint _)). by case_bool_decide.
Qed.

Lemma conflictsWith_sym p q : conflictsWith q p = conflictsWith p q.
Proof.
  unfold conflictsWith. rewrite compare_inverse.
  rewrite (bool_decide_ext (p_host q = p_host p) (p_host p = p_host q)) by done.
  by destruct (comparePathsAndMethods p q).
Qed.

(** [better] is a strict order on patterns with a common request. *)
Lemma better_asym p q : better p q → better q p → False.
Proof.
  intros [[Hp Hq]|[Hh Hc]] [[Hq' Hp']|[Hh' Hc']]; try congruence.
  rewrite compare_inverse, Hc in Hc'. done.
Qed.

(** ** Two patterns with a common path are not disjoint *)

Lemma combine_not_Disjoint r s : r ≠ Disjoint → s ≠ Disjoint → combineRelationships r s ≠ Disjoint.
Proof. by destruct r, s. Qed.

Lemma ends_multi_cons s t segs : ends_multi (s :: t :: segs) = ends_multi (t :: segs).
Proof. done. Qed.

Lemma multi_last_tail s segs : multi_last (s :: segs) = true → multi_last segs = true.
Proof. destruct segs; [done|]. by destruct s. Qed.

Lemma path_matches_cons s segs path :
  multi_last (s :: segs) = true → path_matches (s :: segs) path = true →
  ∃ seg rest, path = seg :: rest ∧
    match s with
    | Multi _ => segs = []
    | Lit l => l = seg ∧ path_matches segs rest = true
    | Wild _ => seg ≠ "/" ∧ path_matches segs rest = true
    end.
Proof.
  intros Hl Hm. destruct path as [|seg rest]; [by destruct s|]. exists seg, rest. split; [done|].
  destruct s; simpl in Hm.
  - by apply andb_true_iff in Hm as [?%bool_decide_eq_true ?].
  - by apply andb_true_iff in Hm as [?%negb_true_iff%bool_decide_eq_false ?].
  - by destruct segs.
Qed.

Lemma path_matches_length segs path :
  multi_last segs = true → path_matches segs path = true →
  length segs ≤ length path ∧ (ends_multi segs = false → length segs = length path).
Proof.
  revert path. induction segs as [|s segs IH]; intros path Hl Hm; [by destruct path|].
  destruct (path_matches_cons _ _ _ Hl Hm) as (seg & rest & -> & Hs).
  apply multi_last_tail in Hl. destruct s as [l|n|n]; simpl.
  3:{ subst. split; [simpl; lia|done]. }
  all: destruct Hs as [_ Hs]; destruct (IH _ Hl Hs) as [Hle Heq]; (split; [lia|]);
    intros He; f_equal; apply Heq; by destruct segs.
Qed.

Lemma compareSegments_common s t segs1 segs2 path :
  multi_last (s :: segs1) = true → multi_last (t :: segs2) = true →
  path_matches (s :: segs1) path = true → path_matches (t :: segs2) path = true →
  compareSegments s t ≠ Disjoint.
Proof.
  intros Hl1 Hl2 Hm1 Hm2. destruct (path_matches_cons _ _ _ Hl1 Hm1) as (seg & rest & -> & H1).
  destruct (path_matches_cons _ _ _ Hl2 Hm2) as (? & ? & [= <- <-] & H2).
  destruct s, t; simpl; try done; case_bool_decide; naive_solver.
Qed.

Lemma multi_or_not s : (∃ n, s = Multi n) ∨ match s with Multi _ => False | _ => True end.
Proof. destruct s; naive_solver. Qed.

Lemma compare_segments_common multi1 multi2 rel segs1 segs2 path :
  rel ≠ Disjoint → multi_last segs1 = true → multi_last segs2 = true →
  (segs1 ≠ [] → multi1 = ends_multi segs1) → (segs2 ≠ [] → multi2 = ends_multi segs2) →
  path_matches segs1 path = true → path_matches segs2 path = true →
  compare_segments multi1 multi2 rel segs1 segs2 ≠ Disjoint.
Proof.
  revert rel segs2 path.
  induction segs1 as [|s1 segs1 IH]; intros rel [|s2 segs2] path Hrel Hl1 Hl2 Hm1 Hm2 Hp1 Hp2;
    [done|by destruct path, s2|by destruct path, s1|]. cbn [compare_segments].
  assert (combineRelationships rel (compareSegments s1 s2) ≠ Disjoint) as Hc
    by (apply combine_not_Disjoint; [done|by eapply compareSegments_common]).
  rewrite bool_decide_false by done.
  destruct (path_matches_cons _ _ _ Hl1 Hp1) as (seg & rest & -> & H1).
  destruct (path_matches_cons _ _ _ Hl2 Hp2) as (? & ? & [= <- <-] & H2).
  destruct (multi_or_not s1) as [[n ->]|Hn1].
  { rewrite Hm1 by done. subst. destruct segs2; [done|]. by apply combine_not_Disjoint. }
  destruct (multi_or_not s2) as [[n ->]|Hn2].
  { rewrite Hm2 by done. subst. destruct segs1; [done|]. by apply combine_not_Disjoint. }
  apply IH with rest; try done; try by eapply multi_last_tail.
  - intros. rewrite Hm1 by done. by destruct segs1.
  - intros. rewrite Hm2 by done. by destruct segs2.
  - destruct s1; naive_solver.
  - destruct s2; naive_solver.
Qed.

Lemma comparePaths_common segs1 segs2 path :
  multi_last segs1 = true → multi_last segs2 = true →
  path_matches segs1 path = true → path_matches segs2 path = true →
  comparePaths segs1 segs2 ≠ Disjoint.
Proof.
  intros Hl1 Hl2 Hp1 Hp2. unfold comparePaths.
  destruct (path_matches_length _ _ Hl1 Hp1) as [_ He1], (path_matches_length _ _ Hl2 Hp2) as [_ He2].
  destruct (ends_multi segs1) eqn:H1, (ends_multi segs2) eqn:H2; rewrite ?andb_false_r.
  4: rewrite bool_decide_true by (rewrite He1, He2 by done; done).
  all: by eapply compare_segments_common.
Qed.

(** ** The search *)

(** What [compare_segments] answers once it has seen a difference in favour of
    the first pattern. *)
Definition not_general (rel : relationship) : Prop := rel ≠ MoreGeneral.
Definition ahead (rel : relationship) : Prop := rel = MoreSpecific ∨ rel = Overlaps ∨ rel = Disjoint.

Lemma ahead_combine r s : ahead r → ahead (combineRelationships r s).
Proof. unfold ahead. intros [->|[->| ->]]; destruct s; naive_solver. Qed.

Lemma ahead_compare m1 m2 rel segs1 segs2 : ahead rel → ahead (compare_segments m1 m2 rel segs1 segs2).
Proof.
  revert rel segs2. induction segs1 as [|s1 segs1 IH]; intros rel [|s2 segs2] Hr; simpl; [done|..].
  - destruct m1; [by apply ahead_combine|]. by right; right.
  - destruct m2; [by apply ahead_combine|]. by right; right.
  - case_bool_decide; [by right; right|]. by apply IH, ahead_combine.
Qed.

(** [segs] is asked before [segs'], or at the same time. *)
Inductive precedes : list segment → list segment → Prop :=
| precedes_nil : precedes [] []
| precedes_step s s' segs segs' :
    compareSegments s s' = Equivalent → precedes segs segs' → precedes (s :: segs) (s' :: segs')
| precedes_ahead s s' segs segs' :
    compareSegments s s' = MoreSpecific → precedes (s :: segs) (s' :: segs').

Lemma precedes_compare m1 m2 segs segs' :
  precedes segs segs' →
  compare_segments m1 m2 Equivalent segs segs' = Equivalent ∨
  ahead (compare_segments m1 m2 Equivalent segs segs').
Proof.
  induction 1 as [|s s' segs segs' Hs _ IH|s s' segs segs' Hs]; [by left|..]; simpl; rewrite Hs; simpl.
  - done.
  - right. apply ahead_compare. by left.
Qed.

Lemma precedes_comparePaths segs segs' : precedes segs segs' → comparePaths segs segs' ≠ MoreGeneral.
Proof.
  intros Hp. unfold comparePaths. case_match; [done|].
  destruct (precedes_compare (ends_multi segs) (ends_multi segs') _ _ Hp) as [->|[->|[->| ->]]]; done.
Qed.

Section Search.
Context {H : Type}.
Implicit Types (ls : list (leaf H)) (e : pattern * H).

Definition tidy_segments (segs : list segment) : Prop :=
  multi_last segs = true ∧ no_empty segs = true.
Definition tidy_leaves ls : Prop := ∀ segs e, (segs, e) ∈ ls → tidy_segments segs.

Lemma tidy_tail s segs : tidy_segments (s :: segs) → tidy_segments segs.
Proof. intros [?%multi_last_tail [_ ?]%andb_true_iff]. by split. Qed.

Lemma children_In key ls segs e :
  (segs, e) ∈ children key ls ↔ ∃ s, (s :: segs, e) ∈ ls ∧ child_key s = Some key.
Proof.
  unfold children. rewrite list_elem_of_omap. split.
  - intros ([[|s segs'] e'] & Hin & Hs); simpl in Hs; [done|]. case_bool_decide; naive_solver.
  - intros (s & Hin & Hk). exists (s :: segs, e). split; [done|]. simpl. by rewrite bool_decide_true.
Qed.

Lemma children_tidy key ls : tidy_leaves ls → tidy_leaves (children key ls).
Proof. intros Ht segs e (s & Hin & _)%children_In. by eapply tidy_tail, Ht. Qed.

Lemma child_key_tidy s segs key :
  tidy_segments (s :: segs) → child_key s = Some key →
  (key ≠ "" ∧ s = Lit key) ∨ (key = "" ∧ ∃ n, s = Wild n).
Proof.
  intros [_ [Hs _]%andb_true_iff]. rewrite negb_true_iff, bool_decide_eq_false in Hs.
  destruct s as [l|n|n]; simpl; intros [= <-]; [|naive_solver]. left. split; congruence.
Qed.

Lemma leaf_here_spec ls :
  match leaf_here ls with
  | Some e => ([], e) ∈ ls
  | None => ∀ e, ([], e) ∉ ls
  end.
Proof.
  unfold leaf_here. destruct (head _) as [e|] eqn:Ho.
  - apply head_Some_elem_of, list_elem_of_omap in Ho as ([[|] e'] & Hin & Heq); naive_solver.
  - apply head_None in Ho. intros e Hin. apply (not_elem_of_nil e). rewrite <- Ho.
    apply list_elem_of_omap. by exists ([], e).
Qed.

Lemma multi_child_spec ls :
  match multi_child ls with
  | Some e => ∃ n segs, (Multi n :: segs, e) ∈ ls
  | None => ∀ n segs e, (Multi n :: segs, e) ∉ ls
  end.
Proof.
  unfold multi_child. destruct (last _) as [e|] eqn:Ho.
  - apply last_Some_elem_of, list_elem_of_omap in Ho as ([[|[]] e'] & Hin & Heq); naive_solver.
  - apply last_None in Ho. intros n segs e Hin. apply (not_elem_of_nil e). rewrite <- Ho.
    apply list_elem_of_omap. by exists (Multi n :: segs, e).
Qed.

(** How a matching pattern starts, in the order of the search. *)
Inductive asked (seg : string) (rest : list string) : segment → list segment → Prop :=
| asked_key s segs :
    child_key s = Some seg → path_matches segs rest = true → asked seg rest s segs
| asked_wild n segs :
    seg ≠ "" → seg ≠ "/" → path_matches segs rest = true → asked seg rest (Wild n) segs
| asked_multi n : asked seg rest (Multi n) [].

Lemma asked_iff seg rest segs :
  tidy_segments segs →
  path_matches segs (seg :: rest) = true ↔ ∃ s segs', segs = s :: segs' ∧ asked seg rest s segs'.
Proof.
  intros Ht. split.
  - intros Hm. destruct segs as [|s segs]; [done|]. exists s, segs. split; [done|].
    destruct (path_matches_cons _ _ _ (proj1 Ht) Hm) as (? & ? & [= <- <-] & Hs).
    destruct s as [l|n|n].
    + destruct Hs as [-> ?]. by apply asked_key.
    + destruct Hs as [? ?]. destruct (decide (seg = "")) as [->|]; [by apply asked_key|by apply asked_wild].
    + subst. apply asked_multi.
  - intros (s & segs' & -> & Ha). destruct Ha as [s segs' Hk Hm|n segs' H1 H2 Hm|n]; simpl.
    + destruct (child_key_tidy _ _ _ Ht Hk) as [[_ ->]|[-> [n ->]]]; simpl; [|done].
      by rewrite bool_decide_true.
    + by rewrite bool_decide_false.
    + done.
Qed.

Lemma precedes_key s s' segs segs' key :
  child_key s = Some key → child_key s' = Some key → tidy_segments (s :: segs) →
  tidy_segments (s' :: segs') → precedes segs segs' → precedes (s :: segs) (s' :: segs').
Proof.
  intros H1 H2 Ht1 Ht2 Hp. apply precedes_step; [|done].
  destruct (child_key_tidy _ _ _ Ht1 H1) as [[? ->]|[? [n ->]]],
    (child_key_tidy _ _ _ Ht2 H2) as [[? ->]|[? [n' ->]]]; try done. simpl. by rewrite bool_decide_true.
Qed.

Definition search_spec (path : list string) ls (found : option (pattern * H)) : Prop :=
  match found with
  | Some e => ∃ segs, (segs, e) ∈ ls ∧ path_matches segs path = true ∧
      ∀ segs' e', (segs', e') ∈ ls → path_matches segs' path = true → precedes segs segs'
  | None => ∀ segs' e', (segs', e') ∈ ls → path_matches segs' path = true → False
  end.

(** Descending to the children that carry the segment itself. *)
Lemma search_key seg rest ls e :
  tidy_leaves ls → search_spec rest (children seg ls) (Some e) → search_spec (seg :: rest) ls (Some e).
Proof.
  intros Ht (segs & (s & Hin & Hk)%children_In & Hm & Hp). exists (s :: segs). split; [done|].
  pose proof (Ht _ _ Hin) as Hs. split.
  { apply asked_iff; [done|]. exists s, segs. split; [done|by apply asked_key]. }
  intros segs' e' Hin' Hm'. pose proof (Ht _ _ Hin') as Hs'.
  apply asked_iff in Hm' as (s' & t & -> & Ha); [|done]. destruct Ha as [s' t Hk' Hm'|n t H1 H2 Hm'|n].
  - eapply precedes_key; try done. eapply Hp; [|done]. apply children_In. by exists s'.
  - apply precedes_ahead. destruct (child_key_tidy _ _ _ Hs Hk) as [[? ->]|[? _]]; [|done].
    simpl. by rewrite bool_decide_false.
  - apply precedes_ahead. by destruct s.
Qed.

(** Descending to the wildcard children. *)
Lemma search_wild seg rest ls e :
  tidy_leaves ls → seg ≠ "/" → search_spec rest (children seg ls) None →
  search_spec rest (children "" ls) (Some e) → search_spec (seg :: rest) ls (Some e).
Proof.
  intros Ht Hseg Hno (segs & (s & Hin & Hk)%children_In & Hm & Hp). exists (s :: segs).
  split; [done|]. pose proof (Ht _ _ Hin) as Hs. split.
  { destruct (child_key_tidy _ _ _ Hs Hk) as [[? _]|[_ [n ->]]]; [done|]. simpl.
    by rewrite bool_decide_false. }
  intros segs' e' Hin' Hm'. pose proof (Ht _ _ Hin') as Hs'.
  apply asked_iff in Hm' as (s' & t & -> & Ha); [|done]. destruct Ha as [s' t Hk' Hm'|n t H1 H2 Hm'|n].
  - destruct (Hno t e'); [|done]. apply children_In. by exists s'.
  - eapply (precedes_key _ (Wild n) _ _ ""); try done. eapply Hp; [|done]. apply children_In.
    by exists (Wild n).
  - apply precedes_ahead. by destruct s.
Qed.

Lemma search_multi seg rest ls :
  tidy_leaves ls → search_spec rest (children seg ls) None →
  (seg = "/" ∨ search_spec rest (children "" ls) None) → search_spec (seg :: rest) ls (multi_child ls).
Proof.
  intros Ht Hno Hwild. pose proof (multi_child_spec ls) as Hc.
  assert (∀ segs' e', (segs', e') ∈ ls → path_matches segs' (seg :: rest) = true → ∃ n, segs' = [Multi n])
    as Honly.
  { intros segs' e' Hin' Hm'. pose proof (Ht _ _ Hin') as Hs'.
    apply asked_iff in Hm' as (s' & t & -> & Ha); [|done].
    destruct Ha as [s' t Hk' Hm'|n t H1 H2 Hm'|n]; [..|by exists n].
    - destruct (Hno t e'); [|done]. apply children_In. by exists s'.
    - destruct Hwild as [?|Hwild]; [done|]. destruct (Hwild t e'); [|done]. apply children_In.
      by exists (Wild n). }
  destruct (multi_child ls) as [e|]; simpl.
  - destruct Hc as (n & segs & Hin). exists (Multi n :: segs). split_and!; [done..|].
    intros segs' e' Hin' Hm'. destruct (Honly _ _ Hin' Hm') as [n' ->].
    destruct segs; [|by destruct (proj1 (Ht _ _ Hin))]. by repeat constructor.
  - intros segs' e' Hin' Hm'. destruct (Honly _ _ Hin' Hm') as [n' ->]. by eapply Hc.
Qed.

Lemma matchPath_spec path ls : tidy_leaves ls → search_spec path ls (matchPath path ls).
Proof.
  revert ls. induction path as [|seg rest IH]; intros ls Ht; simpl.
  { pose proof (leaf_here_spec ls) as Hl. destruct (leaf_here ls) as [e|].
    - exists []. split_and!; [done..|]. intros [|[] ?] e' _ Hm; try done. constructor.
    - intros [|[] ?] e' Hin Hm; try done. by eapply Hl. }
  pose proof (IH _ (children_tidy seg _ Ht)) as H1.
  destruct (matchPath rest (children seg ls)) as [e|]; [by apply search_key|].
  pose proof (IH _ (children_tidy "" _ Ht)) as H2. case_bool_decide as Hseg.
  - apply search_multi; [done..|by left].
  - destruct (matchPath rest (children "" ls)) as [e|]; [by apply search_wild|].
    apply search_multi; [done..|by right].
Qed.

(** ** Methods and hosts *)

Implicit Types (m : mux H).

Lemma leaves_In host method m segs e :
  (segs, e) ∈ leaves host method m ↔
    e ∈ m ∧ segs = p_segments e.1 ∧ p_host e.1 = host ∧ p_method e.1 = method.
Proof.
  unfold leaves. rewrite list_elem_of_fmap. setoid_rewrite list_elem_of_In. setoid_rewrite filter_In.
  setoid_rewrite andb_true_iff. setoid_rewrite bool_decide_eq_true. split.
  - intros (e' & [= -> ->] & ? & ? & ?). done.
  - intros (Hin & -> & ? & ?). by exists e.
Qed.

Lemma leaves_tidy host method m : sound_mux m → tidy_leaves (leaves host method m).
Proof.
  intros [Ht _] segs e (Hin & -> & _)%leaves_In. rewrite Forall_forall in Ht. by apply Ht.
Qed.

(** The leaves of one method. *)
Lemma match_leaves host method path m :
  sound_mux m →
  match matchPath path (leaves host method m) with
  | Some e => e ∈ m ∧ p_host e.1 = host ∧ p_method e.1 = method ∧
      path_matches (p_segments e.1) path = true ∧
      ∀ e', e' ∈ m → p_host e'.1 = host → p_method e'.1 = method →
        path_matches (p_segments e'.1) path = true →
        comparePaths (p_segments e.1) (p_segments e'.1) ≠ MoreGeneral
  | None => ∀ e', e' ∈ m → p_host e'.1 = host → p_method e'.1 = method →
        path_matches (p_segments e'.1) path = true → False
  end.
Proof.
  intros Hs. pose proof (matchPath_spec path _ (leaves_tidy host method m Hs)) as Hm.
  destruct (matchPath _ _) as [e|]; simpl in Hm.
  - destruct Hm as (segs & (Hin & -> & Hh & Hme)%leaves_In & Hm & Hp). split_and!; [done..|].
    intros e' Hin' Hh' Hm' Hpm. apply precedes_comparePaths. eapply (Hp _ e'); [|done].
    by apply leaves_In.
  - intros e' Hin Hh Hme Hpm. eapply (Hm _ e'); [|done]. by apply leaves_In.
Qed.

Lemma compatible_In m e e' :
  sound_mux m → e ∈ m → e' ∈ m → e = e' ∨ conflictsWith e.1 e'.1 = false.
Proof.
  intros [_ Hc] H1 H2. apply list_elem_of_In in H1. apply list_elem_of_In in H2.
  destruct (ForallOrdPairs_In Hc _ _ H1 H2) as [->|[Hf|Hf]]; [by left|right..]; [|done].
  by rewrite conflictsWith_sym.
Qed.

(** Among patterns that share a host and a request, the search and the absence
    of conflicts leave one order. *)
Lemma better_found m e e' path :
  sound_mux m → e ∈ m → e' ∈ m → p_host e.1 = p_host e'.1 →
  path_matches (p_segments e.1) path = true → path_matches (p_segments e'.1) path = true →
  compareMethods (p_method e.1) (p_method e'.1) = MoreSpecific ∨
    (compareMethods (p_method e.1) (p_method e'.1) = Equivalent ∧
     comparePaths (p_segments e.1) (p_segments e'.1) ≠ MoreGeneral) →
  e' = e ∨ better e.1 e'.1.
Proof.
  intros Hs Hin Hin' Hh Hp Hp' Hm. destruct (compatible_In _ _ _ Hs Hin Hin') as [->|Hc]; [by left|].
  right. right. split; [done|].
  pose proof (sound_tidy _ Hs) as Ht. rewrite Forall_forall in Ht.
  pose proof (comparePaths_common _ _ _ (proj1 (Ht _ Hin)) (proj1 (Ht _ Hin')) Hp Hp') as Hd.
  unfold conflictsWith in Hc. rewrite bool_decide_true in Hc by done.
  unfold comparePathsAndMethods in *. destruct Hm as [Hm|[Hm Hg]]; rewrite Hm in Hc |- *;
    rewrite bool_decide_false in Hc by done; rewrite bool_decide_false by done;
    by destruct (comparePaths _ _).
Qed.

Definition in_group (host method : string) (path : list string) (e : pattern * H) : Prop :=
  p_host e.1 = host ∧
  (p_method e.1 = "" ∨ p_method e.1 = method ∨ p_method e.1 = "GET" ∧ method = "HEAD") ∧
  path_matches (p_segments e.1) path = true.

Lemma method_applies_iff p method :
  method_applies p method = true ↔ p = "" ∨ p = method ∨ p = "GET" ∧ method = "HEAD".
Proof.
  unfold method_applies. rewrite !orb_true_iff, !bool_decide_eq_true. destruct p; naive_solver.
Qed.

Lemma match_group host method path m :
  sound_mux m →
  match matchMethodAndPath host method path m with
  | Some e => e ∈ m ∧ in_group host method path e ∧
      ∀ e', e' ∈ m → in_group host method path e' → e' = e ∨ better e.1 e'.1
  | None => ∀ e', e' ∈ m → in_group host method path e' → False
  end.
Proof.
  intros Hs. unfold matchMethodAndPath, in_group.
  pose proof (match_leaves host method path m Hs) as H1.
  destruct (matchPath path (leaves host method m)) as [e|].
  { destruct H1 as (Hin & <- & <- & Hp & Hg). split_and!; [done..|by right; left|done|].
    intros e' Hin' (Hh & Hm & Hp'). eapply better_found; try done.
    destruct (decide (p_method e'.1 = p_method e.1)) as [Heq|Hne].
    - right. split; [|by apply Hg]. unfold compareMethods. by rewrite bool_decide_true.
    - left. destruct Hm as [Hm|[?|[Hm Hm']]]; [|done|].
      + unfold compareMethods. rewrite Hm in *. rewrite bool_decide_false by done.
        by destruct (p_method e.1).
      + by rewrite Hm, Hm'. }
  pose proof (match_leaves host "GET" path m Hs) as H2.
  pose proof (match_leaves host "" path m Hs) as H3.
  assert (∀ e, matchPath path (leaves host "" m) = Some e →
    (∀ e', e' ∈ m → p_host e'.1 = host → p_method e'.1 = "GET" → method = "HEAD" →
       path_matches (p_segments e'.1) path = true → False) →
    e ∈ m ∧ (p_host e.1 = host ∧ (p_method e.1 = "" ∨ p_method e.1 = method ∨
       p_method e.1 = "GET" ∧ method = "HEAD") ∧ path_matches (p_segments e.1) path = true) ∧
    ∀ e', e' ∈ m → p_host e'.1 = host ∧ (p_method e'.1 = "" ∨ p_method e'.1 = method ∨
       p_method e'.1 = "GET" ∧ method = "HEAD") ∧ path_matches (p_segments e'.1) path = true →
      e' = e ∨ better e.1 e'.1) as Hlast.
  { intros e He Hget. rewrite He in H3. destruct H3 as (Hin & Hh & Hm & Hp & Hg).
    split_and!; [done..|by left|done|]. intros e' Hin' (Hh' & [Hm'|[Hm'|[Hm' ?]]] & Hp').
    - eapply better_found; try done; [congruence|]. right. rewrite Hm, Hm'. split; [done|by apply Hg].
    - by destruct (H1 e').
    - by destruct (Hget e'). }
  case_bool_decide as Hhead; [destruct (matchPath path (leaves host "GET" m)) as [e|]|].
  - destruct H2 as (Hin & Hh & Hm & Hp & Hg). split_and!; [done..|by right; right|done|].
    intros e' Hin' (Hh' & [Hm'|[Hm'|[Hm' ?]]] & Hp').
    + eapply better_found; try done; [congruence|]. left. by rewrite Hm, Hm'.
    + by destruct (H1 e').
    + eapply better_found; try done; [congruence|]. right. rewrite Hm, Hm'. split; [done|by apply Hg].
  - destruct (matchPath path (leaves host "" m)) as [e|] eqn:He.
    + apply Hlast; [done|]. intros e' Hin' Hh' Hm' _ Hp'. by eapply H2.
    + intros e' Hin' (Hh' & [Hm'|[Hm'|[Hm' ?]]] & Hp'); [by eapply H3|by eapply H1|by eapply H2].
  - destruct (matchPath path (leaves host "" m)) as [e|] eqn:He.
    + by apply Hlast.
    + intros e' Hin' (Hh' & [Hm'|[Hm'|[Hm' ?]]] & Hp'); [by eapply H3|by eapply H1|done].
Qed.

Definition tree_spec (host method : string) (path : list string) m (found : option (pattern * H)) : Prop :=
  match found with
  | Some e => e ∈ m ∧ applies host method path e.1 = true ∧
      ∀ e', e' ∈ m → applies host method path e'.1 = true → e' = e ∨ better e.1 e'.1
  | None => ∀ e', e' ∈ m → applies host method path e'.1 = true → False
  end.

Lemma applies_group host method path e :
  applies host method path e.1 = true ↔ in_group "" method path e ∨ in_group host method path e.
Proof.
  unfold applies, in_group. rewrite !andb_true_iff, orb_true_iff, bool_decide_eq_true, method_applies_iff.
  destruct (p_host e.1); naive_solver.
Qed.

Lemma tree_spec_groups host method path m found :
  match found with
  | Some e => e ∈ m ∧ (in_group "" method path e ∨ in_group host method path e) ∧
      ∀ e', e' ∈ m → in_group "" method path e' ∨ in_group host method path e' →
        e' = e ∨ better e.1 e'.1
  | None => ∀ e', e' ∈ m → in_group "" method path e' ∨ in_group host method path e' → False
  end → tree_spec host method path m found.
Proof. destruct found; simpl; by setoid_rewrite applies_group. Qed.

Lemma tree_match_spec host method path m :
  sound_mux m → tree_spec host method (path_segments path) m (tree_match host method path m).
Proof.
  intros Hs. apply tree_spec_groups. unfold tree_match. simpl.
  set (path' := path_segments path). clearbody path'. clear path.
  pose proof (match_group "" method path' m Hs) as H2.
  destruct (string_empty host) eqn:Hh.
  { assert (host = "") as -> by by destruct host.
    destruct (matchMethodAndPath "" method path' m) as [e|]; [|naive_solver].
    destruct H2 as (? & ? & H2). split_and!; [done|by left|]. intros e' ? [?|?]; by apply H2. }
  pose proof (match_group host method path' m Hs) as H1.
  destruct (matchMethodAndPath host method path' m) as [e|].
  { destruct H1 as (? & Hg & H1). split_and!; [done|by right|]. intros e' ? [He|?]; [|by apply H1].
    right. left. destruct Hg as [Hg _], He as [He _]. rewrite Hg, He. split; [|done].
    by intros ->. }
  destruct (matchMethodAndPath "" method path' m) as [e|]; [|naive_solver].
  destruct H2 as (? & ? & H2). split_and!; [done|by left|].
  intros e' ? [?|?]; [by apply H2|by destruct (H1 e')].
Qed.

(** The specification determines the entry. *)
Lemma tree_spec_unique host method path m m' found found' :
  (∀ e, e ∈ m ↔ e ∈ m') → tree_spec host method path m found → tree_spec host method path m' found' →
  found = found'.
Proof.
  intros Hm H1 H2. destruct found as [e|], found' as [e'|]; simpl in *; [|..|done].
  - destruct H1 as (Hin & Ha & Hb), H2 as (Hin' & Ha' & Hb').
    destruct (Hb e') as [->|Hb1]; [by apply Hm|done|done|].
    destruct (Hb' e) as [->|Hb2]; [by apply Hm|done|done|].
    by destruct (better_asym _ _ Hb1 Hb2).
  - destruct H1 as (Hin & Ha & _). destruct (H2 e); [by apply Hm|done].
  - destruct H2 as (Hin & Ha & _). destruct (H1 e'); [by apply Hm|done].
Qed.

(** ** The methods of a path *)

(** [e] answers [method] at [path], on this host or on any. *)
Definition answers (host method : string) (path : string) (e : pattern * H) : Prop :=
  (p_host e.1 = "" ∨ p_host e.1 = host) ∧ p_method e.1 ≠ "" ∧
  (p_method e.1 = method ∨ p_method e.1 = "GET" ∧ method = "HEAD") ∧
  path_matches (p_segments e.1) (path_segments path) = true.

Lemma matchingMethodsPath_spec host path m method :
  sound_mux m →
  method ∈ matchingMethodsPath host path m ↔
    ∃ e, e ∈ m ∧ p_host e.1 = host ∧ p_method e.1 = method ∧ method ≠ "" ∧
      path_matches (p_segments e.1) path = true.
Proof.
  intros Hs. unfold matchingMethodsPath. rewrite elem_of_list_to_set, list_elem_of_In, filter_In.
  rewrite <- list_elem_of_In, andb_true_iff, bool_decide_eq_true.
  pose proof (match_leaves host method path m Hs) as Hm. split.
  - intros (_ & Hne & [e He]). rewrite He in Hm. destruct Hm as (? & ? & <- & ? & _).
    exists e. split_and!; try done. by intros He0; rewrite He0 in Hne.
  - intros (e & Hin & Hh & Hme & Hne & Hp). split_and!.
    + apply list_elem_of_fmap. by exists e.
    + by destruct method.
    + destruct (matchPath _ _) as [e'|]; [done|]. by destruct (Hm e).
Qed.

Lemma tree_matchingMethods_spec host path m method :
  sound_mux m →
  method ∈ tree_matchingMethods host path m ↔ ∃ e, e ∈ m ∧ answers host method path e.
Proof.
  intros Hs. unfold tree_matchingMethods, answers.
  set (base := (if string_empty host then ∅ else _) ∪ _).
  assert (∀ a, a ∈ base ↔ ∃ e, e ∈ m ∧ (p_host e.1 = "" ∨ p_host e.1 = host) ∧ p_method e.1 = a ∧
    a ≠ "" ∧ path_matches (p_segments e.1) (path_segments path) = true) as Hbase.
  { intros a. subst base. rewrite elem_of_union, (matchingMethodsPath_spec "") by done.
    destruct (string_empty host) eqn:Hh.
    - assert (host = "") as -> by by destruct host. set_solver.
    - rewrite matchingMethodsPath_spec by done. naive_solver. }
  clearbody base. case_bool_decide as Hget.
  - rewrite elem_of_union, elem_of_singleton, Hbase. apply Hbase in Hget as (e & ? & ? & ? & ? & ?).
    split; [|naive_solver]. intros [->|He]; [|naive_solver].
    exists e. split; [done|]. split_and!; [done|congruence|by right|done].
  - rewrite Hbase. split; [naive_solver|]. intros (e & Hin & Hh & Hne & [Hm|[Hm ->]] & Hp).
    + naive_solver.
    + destruct Hget. apply Hbase. naive_solver.
Qed.

Lemma matchingMethods_spec host path m method :
  sound_mux m →
  method ∈ matchingMethods host path m ↔
    ∃ e, e ∈ m ∧ (answers host method path e ∨
      HasSuffix path "/" = false ∧ answers host method (path +:+ "/") e).
Proof.
  intros Hs. unfold matchingMethods. rewrite elem_of_union, tree_matchingMethods_spec by done.
  destruct (HasSuffix path "/").
  - rewrite elem_of_empty. naive_solver.
  - rewrite tree_matchingMethods_spec by done. naive_solver.
Qed.

Lemma answers_applies host method path e :
  answers host method path e → applies host method (path_segments path) e.1 = true.
Proof.
  intros (Hh & _ & Hm & Hp). apply applies_group. unfold in_group. naive_solver.
Qed.

Lemma answers_iff host method path e :
  answers host method path e ↔
    p_method e.1 ≠ "" ∧ applies host method (path_segments path) e.1 = true.
Proof.
  unfold answers, applies. rewrite !andb_true_iff, orb_true_iff, bool_decide_eq_true, method_applies_iff.
  destruct (p_host e.1); naive_solver.
Qed.

(** ** The answer of the mux *)

(** The search finds the first choice, and decides whether a slash is lacking. *)
Definition entries (m : mux H) (pat : pattern) (h : H) : Prop := (pat, h) ∈ m.

Lemma tree_match_first host method path m pat h :
  sound_mux m →
  tree_match host method path m = Some (pat, h) ↔ first_choice (entries m) host method path pat h.
Proof.
  intros Hs. pose proof (tree_match_spec host method path m Hs) as Ht. split.
  - intros Heq. rewrite Heq in Ht. destruct Ht as (Hin & Ha & Hb). split_and!; [done..|].
    intros pat' h' Hin' Ha'. by apply (Hb (pat', h')).
  - intros (Hin & Ha & Hb). apply (tree_spec_unique host method (path_segments path) m m); [done|done|].
    split_and!; [done..|]. intros [pat' h'] Hin' Ha'. by apply Hb.
Qed.

Lemma exactMatch_first host method path m :
  sound_mux m → path ≠ "" →
  exactMatch (tree_match host method path m) path = true ↔
    ∃ pat h, first_choice (entries m) host method path pat h ∧ exact path pat = true.
Proof.
  intros Hs Hp. setoid_rewrite <- tree_match_first; [|done].
  destruct (tree_match host method path m) as [[pat h]|]; [|naive_solver].
  assert (exactMatch (Some (pat, h)) path = exact path pat) as ->.
  { unfold exactMatch, exact. simpl. destruct (ends_multi _); [|done].
    destruct path as [|c path]; [done|]. cbn [string_empty negb andb orb].
    destruct (HasSuffix _ _); [|done]. cbn [negb andb]. pose proof (Split_not_nil SLASH (String c path)).
    destruct (Split SLASH (String c path)); [done|]. apply bool_decide_ext. simpl. lia. }
  naive_solver.
Qed.

Lemma cleanPath_nonempty path : cleanPath path ≠ "".
Proof.
  unfold cleanPath. destruct (string_empty path); [done|].
  set (p := if HasPrefix path "/" then path else "/" +:+ path).
  assert (HasPrefix p "/" = true) as Hp.
  { subst p. destruct (HasPrefix path "/") eqn:E; [done|]. apply HasPrefix_spec. by eexists. }
  assert (Clean p ≠ "") as Hc.
  { unfold Clean. rewrite Hp. destruct (string_empty p); done. }
  destruct (_ && _); [|done]. by destruct (Clean p).
Qed.

(** Every request but [CONNECT] has one answer, which the mounted patterns
    determine. *)
Lemma mux_answer_spec (request : mux_request) m :
  sound_mux m → mr_Method request ≠ "CONNECT" →
  let host := stripHostPort (mr_Host request) in
  let method := mr_Method request in
  let path := URL_EscapedPath request in
  let clean := cleanPath path in
  match mux_ServeHTTP request m with
  | Serve (pat, h) => RequestURI request ≠ "*" ∧ path = clean ∧
      ¬ lacks_slash (entries m) host method path ∧ first_choice (entries m) host method path pat h
  | MovedPermanently target query => RequestURI request ≠ "*" ∧ query = URL_RawQuery request ∧
      (lacks_slash (entries m) host method clean ∧ target = cleanPath (URL_Path request) +:+ "/" ∨
       ¬ lacks_slash (entries m) host method clean ∧ path ≠ clean ∧ target = clean)
  | MethodNotAllowed allow => RequestURI request ≠ "*" ∧ path = clean ∧
      ¬ lacks_slash (entries m) host method path ∧
      (∀ pat h, entries m pat h → applies host method (path_segments path) pat = true → False) ∧
      allow ≠ ∅ ∧
      ∀ other, other ∈ allow ↔ ∃ pat h, entries m pat h ∧ p_method pat ≠ "" ∧
        (applies host other (path_segments path) pat = true ∨
         HasSuffix path "/" = false ∧ applies host other (path_segments (path +:+ "/")) pat = true)
  | MuxNotFound => RequestURI request ≠ "*" ∧ path = clean ∧
      ¬ lacks_slash (entries m) host method path ∧
      ∀ pat h other, entries m pat h →
        applies host other (path_segments path) pat = true ∨
        HasSuffix path "/" = false ∧ p_method pat ≠ "" ∧
          applies host other (path_segments (path +:+ "/")) pat = true → False
  | MuxBadRequest => RequestURI request = "*"
  end.
Proof.
  intros Hs Hconnect host method path clean. unfold mux_ServeHTTP, findHandler.
  case_bool_decide as Hstar; [done|]. rewrite bool_decide_false by done. fold host method path clean.
  unfold matchOrRedirect.
  assert (negb (exactMatch (tree_match host method clean m) clean) && negb (HasSuffix clean "/") &&
    exactMatch (tree_match host method (clean +:+ "/") m) (clean +:+ "/") = true ↔
    lacks_slash (entries m) host method clean) as Hslash.
  { rewrite !andb_true_iff, !negb_true_iff, <- not_true_iff_false.
    rewrite !exactMatch_first; [unfold lacks_slash; tauto|done| |done|apply cleanPath_nonempty].
    by destruct clean. }
  destruct (_ && _ && _).
  { split_and!; [done..|]. left. split; [by apply Hslash|done]. }
  assert (¬ lacks_slash (entries m) host method clean) as Hno by (rewrite <- Hslash; done).
  case_bool_decide as Hclean; cbn [negb].
  2:{ split_and!; [done..|]. right. split_and!; [done|congruence|done]. }
  rewrite <- Hclean in *. clear Hslash.
  pose proof (tree_match_first host method clean m) as Hfirst.
  pose proof (tree_match_spec host method clean m Hs) as Ht. rewrite Hclean in *.
  destruct (tree_match host method path m) as [[pat h]|].
  { split_and!; [done..|]. by apply Hfirst. }
  pose proof (λ other, matchingMethods_spec host path m other Hs) as Hmm.
  setoid_rewrite answers_iff in Hmm. case_bool_decide as Hempty.
  - split_and!; [done..|]. intros pat h other Hin Ha.
    destruct (decide (p_method pat = "" ∧ applies host other (path_segments path) pat = true)) as [[Hp Ha']|Hn].
    + apply (Ht (pat, h)); [done|]. revert Ha'. unfold applies, method_applies. simpl. by rewrite Hp.
    + apply (not_elem_of_empty (C := gset string) other). rewrite <- Hempty. apply Hmm.
      exists (pat, h). split; [done|]. simpl. destruct Ha as [Ha|(? & ? & ?)]; [left|right; done].
      split; [|done]. intros Hp. by apply Hn.
  - split_and!; [done..| |done|].
    + intros pat h Hin. by apply (Ht (pat, h)).
    + intros other. rewrite Hmm. split.
      * intros ([pat h] & Hin & [[? ?]|(? & ? & ?)]); exists pat, h; split_and!; auto.
      * intros (pat & h & Hin & Hp & [?|[? ?]]); exists (pat, h); (split; [done|]); auto.
Qed.

(** Equal sets of entries make equal muxes. *)
Lemma mux_ServeHTTP_ext m m' request :
  sound_mux m → sound_mux m' → (∀ e, e ∈ m ↔ e ∈ m') →
  mux_ServeHTTP request m = mux_ServeHTTP request m'.
Proof.
  intros Hs Hs' Hm.
  assert (∀ host method path, tree_match host method path m = tree_match host method path m') as Ht.
  { intros host method path. eapply tree_spec_unique; [exact Hm|by apply tree_match_spec..]. }
  assert (∀ host path, matchingMethods host path m = matchingMethods host path m') as Hmm.
  { intros host path. apply leibniz_equiv. intros method. rewrite !matchingMethods_spec by done.
    by setoid_rewrite Hm. }
  unfold mux_ServeHTTP, findHandler, matchOrRedirect.
  rewrite !Ht. destruct (bool_decide (mr_Method request = "CONNECT")).
  - destruct (_ && _ && _); [done|]. by rewrite Hmm.
  - destruct (_ && _ && _); [done|]. by rewrite Hmm.
Qed.

End Search.
