(* ===== verification/Server.v ===== *)
(** The aggregate server: [server.go].

    [New] checks and mounts the handlers on an [http.ServeMux] ([ServeMux.v]);
    [ServeHTTP] asks the mux, and [Shutdown] every handler that has sessions. *)
From S2P Require Import Prelude GoStrings GoHttp Errors Options Services ServeMux MuxMatch.

(** ** Patterns that parse *)

Lemma Contains_app a b sub : Contains (a +:+ b) sub = false → Contains b sub = false.
Proof. induction a as [|c a IH]; [done|]. simpl. intros [_ ?]%orb_false_iff. by apply IH. Qed.

Lemma Cut_app sep s before after : Cut sep s = (before, after, true) → s = before +:+ str1 sep +:+ after.
Proof.
  revert before. induction s as [|c s IH]; intros before; simpl; [done|]. case_bool_decide as E.
  - intros [= <- <-]. by subst.
  - destruct (Cut sep s) as [[b a] f]. intros [= <- -> ->]. by rewrite (IH b).
Qed.

(** Only the last part is empty. *)
Fixpoint filled (parts : list string) : bool :=
  match parts with
  | [] | [_] => true
  | part :: parts => negb (string_empty part) && filled parts
  end.

Lemma Split_filled s :
  (Contains (String SLASH s) "//" = false → filled (Split SLASH s) = true) ∧
  (Contains s "//" = false → filled (tail (Split SLASH s)) = true).
Proof.
  induction s as [|c s [IH1 IH2]]; [done|]. cbn [Split]. case_bool_decide as E.
  - subst. split; [done|]. intros Hc. by apply IH1.
  - assert (Contains (String c s) "//" = false → filled (tail (Split SLASH s)) = true) as H2.
    { cbn [Contains]. intros [_ ?]%orb_false_iff. by apply IH2. }
    destruct (Split SLASH s) as [|part parts]; [done|]. split; [|done].
    cbn [Contains]. intros [_ Hc]%orb_false_iff. destruct parts; [done|]. by apply H2.
Qed.

Lemma pathUnescape_nonempty s : s ≠ "" → pathUnescape s ≠ "".
Proof.
  unfold pathUnescape. destruct s as [|c s]; [done|]. intros _. cbn [PathUnescape].
  destruct (code c =? 37)%N.
  - destruct s as [|h [|l s]]; [done..|]. destruct (unhex h); [|done]. simpl.
    destruct (unhex l); [|done]. simpl. by destruct (PathUnescape s).
  - by destruct (PathUnescape s).
Qed.

Section Server.
Context (unicode_name : string → bool).

Lemma parse_segments_tidy seen parts segs :
  parse_segments unicode_name seen parts = Ok segs → filled parts = true → tidy_segments segs.
Proof.
  revert seen segs. induction parts as [|seg rest IH]; intros seen segs; simpl; [by intros [= <-]|].
  intros Hp Hf.
  assert (filled rest = true ∧ (string_empty seg = true → rest = [])) as [Hrest Hseg].
  { destruct rest; [done|]. apply andb_true_iff in Hf as [Hf ?]. split; [done|].
    intros Hs. by rewrite Hs in Hf. }
  assert (∀ s segs', s ≠ Lit "" → match s with Multi _ => False | _ => True end →
    tidy_segments segs' → tidy_segments (s :: segs')) as Hcons.
  { intros s segs' Hne Hm [H1 H2]. split; [by destruct segs', s|]. simpl. rewrite H2.
    by rewrite bool_decide_false. }
  destruct (string_empty seg && _) eqn:Hlast; [by injection Hp as <-|].
  destruct (Cut _ seg) as [[before inner] found]. destruct found; simpl in Hp.
  - destruct (negb _); [done|]. destruct (negb _); [done|].
    destruct (bool_decide (_ = "$")).
    { case_bool_decide; [|done]. by injection Hp as <-. }
    destruct (negb _ && _); [done|]. destruct (string_empty (TrimSuffix _ _)); [done|].
    destruct (negb _); [done|]. destruct (bool_decide (_ ∈ seen)); [done|].
    destruct (negb _); [by injection Hp as <-|].
    destruct (parse_segments _ _ rest) as [segs'|] eqn:Hr; [|done]. injection Hp as <-.
    apply Hcons; [done..|]. by eapply IH.
  - destruct (parse_segments _ _ rest) as [segs'|] eqn:Hr; [|done]. simplify_eq/=.
    apply Hcons; [|done|by eapply IH]. intros [= He]. revert He. apply pathUnescape_nonempty.
    intros ->. rewrite Hseg in Hlast by done. done.
Qed.

(** A pattern without [//] is tidy. *)
Lemma parsePattern_tidy s p :
  parsePattern unicode_name s = Ok p → Contains s "//" = false → tidy p ∧ p_str p = s.
Proof.
  unfold parsePattern.
  set (mr := match cut_blank s with Some (method, rest) => (method, trim_blanks rest) | None => ("", s) end).
  assert (∃ pre, s = pre +:+ mr.2) as [pre Hpre].
  { subst mr. assert (∀ r, ∃ b, r = b +:+ trim_blanks r) as Htrim.
    { induction r as [|c r [b IH]]; [by exists ""|]. simpl. case_match; [|by exists ""].
      exists (String c b). change (String c r = String c (b +:+ trim_blanks r)). by f_equal. }
    assert (∀ r me re, cut_blank r = Some (me, re) → ∃ b, r = b +:+ re) as Hcut.
    { induction r as [|c r IH]; intros me re; simpl; [done|]. destruct (blank c).
      - intros [= <- <-]. by exists (str1 c).
      - destruct (cut_blank r) as [[me' re']|]; [|done]. intros [= <- <-].
        destruct (IH _ _ eq_refl) as [b Hb]. exists (String c b). change (String c r = String c (b +:+ re')). by f_equal. }
    destruct (cut_blank s) as [[me re]|] eqn:Hc; [|by exists ""]. simpl.
    destruct (Hcut _ _ _ Hc) as [b Hb], (Htrim re) as [b' Hb']. exists (b +:+ b').
    by rewrite app_assoc_str, <- Hb'. }
  destruct mr as [method rest]. simpl in Hpre. destruct (negb _ && negb _); [done|].
  destruct (Cut SLASH rest) as [[host after] found] eqn:Hc. destruct found; [|done]. simpl.
  apply Cut_app in Hc. destruct (Contains host "{"); [done|].
  destruct (negb _ && _ && _); [done|].
  destruct (parse_segments _ _ _) as [segs|] eqn:Hs; [|done]. intros [= <-] Hd. split; [|done].
  eapply parse_segments_tidy; [exact Hs|]. apply Split_filled.
  rewrite Hpre, Hc in Hd. by do 2 apply Contains_app in Hd.
Qed.

(** ** The server *)

(** An application's [http.Handler]: what [Shutdown] answers, for one that has
    it. *)
Record HttpHandler := mkHttpHandler {
  hh_name : string;
  hh_Shutdown : option (option goerror) }.

Record mountedHandler := mkMounted { m_pattern : string; m_handler : interface HttpHandler }.

Record Server := mkServer {
  s_mux : mux (interface HttpHandler);
  s_handlers : list (interface HttpHandler) }.

Inductive server_error :=
| ErrServerNilOption
| ErrEmptyPattern
| ErrNilHandlerFor (p : string)
| ErrInvalidPattern (p : string) (e : pattern_error)
| ErrAlreadyRegistered (p : string)
| ErrConflictingPatterns.

(** [serverConfig] is its list of mounted handlers; [None] is a nil option. *)
Definition ServerOption := option (list mountedHandler → result server_error (list mountedHandler)).

Definition isNilHandler (handler : interface HttpHandler) : bool :=
  match handler with
  | None => true
  | Some value => if nillable (dyn_kind value) then dyn_isnil value else false
  end.

(** A fresh mux has no pattern to conflict with. *)
Definition validatePattern (p : string) : option server_error :=
  match parsePattern unicode_name p with
  | Ok _ => None
  | Err e => Some (ErrInvalidPattern p e)
  end.

Definition WithHandler (p : string) (handler : interface HttpHandler) : ServerOption :=
  Some (λ config,
  if string_empty p then Err ErrEmptyPattern
  else if isNilHandler handler then Err (ErrNilHandlerFor p)
  else match validatePattern p with
       | Some err => Err err
       | None =>
           if existsb (λ existing, bool_decide (m_pattern existing = p)) config
           then Err (ErrAlreadyRegistered p)
           else Ok (config ++ [mkMounted p handler])
       end).

(** [None] is the panic the deferred function turns into an error. *)
Fixpoint handle_all (handlers : list mountedHandler) (m : mux (interface HttpHandler))
    : option (mux (interface HttpHandler)) :=
  match handlers with
  | [] => Some m
  | mounted :: handlers =>
      match parsePattern unicode_name (m_pattern mounted) with
      | Ok pat => m ← register pat (m_handler mounted) m; handle_all handlers m
      | Err _ => None
      end
  end.

Definition buildMux (handlers : list mountedHandler)
    : result server_error (mux (interface HttpHandler)) :=
  match handle_all handlers [] with
  | Some m => Ok m
  | None => Err ErrConflictingPatterns
  end.

Fixpoint apply_server_options (options : list ServerOption) (config : list mountedHandler)
    : result server_error (list mountedHandler) :=
  match options with
  | [] => Ok config
  | None :: _ => Err ErrServerNilOption
  | Some option :: options => config ← option config; apply_server_options options config
  end.

Definition New (options : list ServerOption) : result server_error Server :=
  config ← apply_server_options options [];
  m ← buildMux config;
  Ok (mkServer m (m_handler <$> config)).

Definition ServeMounted (s : Server) (request : mux_request) : mux_answer (interface HttpHandler) :=
  mux_ServeHTTP request (s_mux s).

(** The handlers asked, in order, and the errors they answered. *)
Fixpoint shutdown_all (handlers : list (interface HttpHandler)) : list HttpHandler * list goerror :=
  match handlers with
  | [] => ([], [])
  | handler :: handlers =>
      let '(asked, errs) := shutdown_all handlers in
      match handler with
      | Some shutdowner =>
          match hh_Shutdown (dyn_val shutdowner) with
          | Some (Some err) => (dyn_val shutdowner :: asked, err :: errs)
          | Some None => (dyn_val shutdowner :: asked, errs)
          | None => (asked, errs)
          end
      | None => (asked, errs)
      end
  end.

(** [errors.Join]: nil, or the error that wraps these. *)
Definition errors_Join (errs : list goerror) : option (list goerror) :=
  match errs with [] => None | _ => Some errs end.

Definition Shutdown (s : Server) : list HttpHandler * option (list goerror) :=
  let '(asked, shutdownErrors) := shutdown_all (s_handlers s) in
  (asked, errors_Join shutdownErrors).

(** ** Construction *)

(** The options an application can write. *)
Definition denote_mount (mounted : option mountedHandler) : ServerOption :=
  mounted ← mounted; WithHandler (m_pattern mounted) (m_handler mounted).

Definition parses (mounted : mountedHandler) (pat : pattern) : Prop :=
  parsePattern unicode_name (m_pattern mounted) = Ok pat.

Definition good_mount (mounted : mountedHandler) : Prop :=
  m_pattern mounted ≠ "" ∧ isNilHandler (m_handler mounted) = false ∧
  is_ok (parsePattern unicode_name (m_pattern mounted)) = true.

(** What makes one mounted handler an error. *)
Definition mount_error (mounts : list (option mountedHandler)) (e : server_error) : Prop :=
  match e with
  | ErrServerNilOption => None ∈ mounts
  | ErrEmptyPattern => ∃ h, Some (mkMounted "" h) ∈ mounts
  | ErrNilHandlerFor p => ∃ h, Some (mkMounted p h) ∈ mounts ∧ isNilHandler h = true
  | ErrInvalidPattern p err =>
      (∃ h, Some (mkMounted p h) ∈ mounts) ∧ parsePattern unicode_name p = Err err
  | ErrAlreadyRegistered p =>
      ∃ h h' before after, mounts = before ++ Some (mkMounted p h') :: after ∧
        Some (mkMounted p h) ∈ before
  | ErrConflictingPatterns =>
      ∃ m m' pat pat', Some m ∈ mounts ∧ Some m' ∈ mounts ∧ m_pattern m ≠ m_pattern m' ∧
        parses m pat ∧ parses m' pat' ∧ conflictsWith pat' pat || same_leaf pat' pat = true
  end.

Lemma WithHandler_spec mounted config :
  match WithHandler (m_pattern mounted) (m_handler mounted) with
  | None => False
  | Some option =>
      match option config with
      | Ok config' => config' = config ++ [mounted] ∧ good_mount mounted ∧
          m_pattern mounted ∉ m_pattern <$> config
      | Err ErrEmptyPattern => m_pattern mounted = ""
      | Err (ErrNilHandlerFor p) => p = m_pattern mounted ∧ isNilHandler (m_handler mounted) = true
      | Err (ErrInvalidPattern p e) => p = m_pattern mounted ∧ parsePattern unicode_name p = Err e
      | Err (ErrAlreadyRegistered p) => p = m_pattern mounted ∧ p ∈ m_pattern <$> config
      | Err _ => False
      end
  end.
Proof.
  destruct mounted as [p h]. unfold WithHandler, validatePattern, good_mount. cbn [m_pattern m_handler].
  destruct (string_empty p) eqn:Hp; [by destruct p|].
  destruct (isNilHandler h) eqn:Hh; [done|].
  destruct (parsePattern _ p) as [pat|e] eqn:Hpat; [|done].
  destruct (existsb _ config) eqn:He.
  - split; [done|]. apply existsb_exists in He as (x & Hx%list_elem_of_In & <-%bool_decide_eq_true).
    by apply list_elem_of_fmap_2.
  - split_and!; [done| |done..|].
    + by intros ->.
    + intros (x & -> & Hx)%list_elem_of_fmap. apply not_true_iff_false in He. apply He.
      apply existsb_exists. exists x. split; [by apply list_elem_of_In|]. by apply bool_decide_eq_true.
Qed.

Lemma apply_server_options_spec before mounts config :
  before = Some <$> config → NoDup (m_pattern <$> config) →
  match apply_server_options (denote_mount <$> mounts) config with
  | Ok config' => before ++ mounts = Some <$> config' ∧ NoDup (m_pattern <$> config') ∧
      (Forall good_mount config → Forall good_mount config')
  | Err e => mount_error (before ++ mounts) e ∧ e ≠ ErrConflictingPatterns
  end.
Proof.
  revert before config. induction mounts as [|[mounted|] mounts IH]; intros before config -> Hnd.
  - simpl. by rewrite app_nil_r.
  - cbn [fmap list_fmap apply_server_options denote_mount mbind option_bind].
    pose proof (WithHandler_spec mounted config) as Hw.
    destruct (WithHandler _ _) as [option|]; [|done]. cbn [mbind result_bind].
    assert (Some mounted ∈ (Some <$> config) ++ Some mounted :: mounts) as Hin by set_solver.
    assert (∀ p, p = m_pattern mounted → ∃ h, Some (mkMounted p h) ∈ (Some <$> config) ++ Some mounted :: mounts)
      as Hhas by (intros ? ->; exists (m_handler mounted); by destruct mounted).
    destruct (option config) as [config'|e].
    + destruct Hw as (-> & Hg & Hn).
      specialize (IH (Some <$> config ++ [mounted]) (config ++ [mounted]) eq_refl
        (proj2 (NoDup_fmap_snoc _ _ _) (conj Hnd Hn))).
      rewrite fmap_app, <- app_assoc in IH. cbn [fmap list_fmap app] in IH.
      cbn [mbind result_bind].
      destruct (apply_server_options _ _) as [c|e]; [|done]. destruct IH as (? & ? & Hf).
      split_and!; [done..|]. intros Hc. apply Hf, Forall_app. by split; [|apply Forall_singleton].
    + destruct e as [| |p|p err|p|]; try done; (split; [|done]); simpl.
      * apply Hhas. by rewrite Hw.
      * destruct Hw as [-> Hh]. exists (m_handler mounted). by destruct mounted.
      * destruct Hw as [-> He]. split; [by apply Hhas|done].
      * destruct Hw as [-> (m & Hm & Hmin)%list_elem_of_fmap].
        exists (m_handler m), (m_handler mounted), (Some <$> config), mounts.
        split; [by destruct mounted|]. rewrite Hm. apply list_elem_of_fmap. exists m. by destruct m.
  - simpl. split; [|done]. set_solver.
Qed.

(** Two patterns that can live in one mux. *)
Definition free (p q : pattern) : Prop := conflictsWith q p || same_leaf q p = false.

#[export] Instance free_dec p q : Decision (free p q).
Proof. unfold free. apply _. Defined.

Lemma free_sym p q : free p q → free q p.
Proof.
  unfold free. rewrite !orb_false_iff, (conflictsWith_sym p q). intros [-> Hs]. split; [done|].
  apply not_true_iff_false. apply not_true_iff_false in Hs. intros Hl. apply Hs. clear Hs.
  revert Hl. unfold same_leaf. rewrite !andb_true_iff, !bool_decide_eq_true, !negb_true_iff.
  intros [[[Hh Hm] Hk] He]. split_and!; [done..|]. revert He. unfold ends_multi.
  assert (last (child_key <$> p_segments p) = last (child_key <$> p_segments q)) as Hl by by rewrite Hk.
  rewrite !fmap_last in Hl.
  destruct (last (p_segments p)) as [[]|], (last (p_segments q)) as [[]|]; naive_solver.
Qed.

Lemma ForallOrdPairs_perm {A} (R : A → A → Prop) l l' :
  (∀ x y, R x y → R y x) → l ≡ₚ l' → ForallOrdPairs R l → ForallOrdPairs R l'.
Proof.
  intros Hsym. induction 1 as [|x l l' Hl IH|x y l|]; try done.
  - inversion 1 as [|? ? Hx Hr]; subst. constructor; [by rewrite <- Hl|auto].
  - inversion 1 as [|? ? Hy Hr]; subst. inversion Hr as [|? ? Hx Hr']; subst.
    inversion Hy; subst. repeat constructor; auto.
  - auto.
Qed.

Lemma ForallOrdPairs_app {A} (R : A → A → Prop) l x :
  ForallOrdPairs R (l ++ [x]) ↔ ForallOrdPairs R l ∧ Forall (λ y, R y x) l.
Proof.
  induction l as [|y l IH]; simpl.
  - split; [|by repeat constructor]. intros _. split; constructor.
  - split.
    + inversion 1 as [|? ? Hy Hr]; subst. apply Forall_app in Hy as [Hy Hx].
      apply (Forall_singleton (R y)) in Hx. apply IH in Hr as [? ?]. split; by constructor.
    + intros [Hl Hx]. inversion Hl; subst. inversion Hx; subst. constructor; [|by apply IH].
      apply Forall_app. split; [done|]. by apply (Forall_singleton (R y)).
Qed.

Definition entry (pat : pattern) (mounted : mountedHandler) : pattern * interface HttpHandler :=
  (pat, m_handler mounted).

Lemma handle_all_spec handlers pats m :
  Forall2 parses handlers pats → ForallOrdPairs (λ e e', free e.1 e'.1) m →
  match handle_all handlers m with
  | Some m' => m' = m ++ zip_with entry pats handlers ∧ ForallOrdPairs (λ e e', free e.1 e'.1) m'
  | None => ¬ ForallOrdPairs (λ e e', free e.1 e'.1) (m ++ zip_with entry pats handlers)
  end.
Proof.
  intros Hp. revert m. induction Hp as [|mounted pat handlers pats Hpat Hp IH]; intros m Hm; simpl.
  - by rewrite app_nil_r.
  - unfold parses in Hpat. rewrite Hpat. unfold register.
    change (entry pat mounted :: zip_with entry pats handlers)
      with ([entry pat mounted] ++ zip_with entry pats handlers). rewrite app_assoc.
    destruct (existsb _ m) eqn:He; simpl.
    + intros Hall. apply existsb_exists in He as (e & Hin%list_elem_of_In & He).
      clear IH Hp. revert Hall. generalize (zip_with entry pats handlers). intros l.
      induction l as [|x l IH] using rev_ind.
      * rewrite app_nil_r. intros [_ Hf]%ForallOrdPairs_app. rewrite Forall_forall in Hf.
        specialize (Hf _ Hin). unfold free in Hf. simpl in Hf. congruence.
      * rewrite app_assoc. by intros [? _]%ForallOrdPairs_app.
    + apply IH. apply ForallOrdPairs_app. split; [done|]. apply Forall_forall. intros e Hin.
      unfold free. apply not_true_iff_false. intros Ht. apply not_true_iff_false in He. apply He.
      apply existsb_exists. exists e. split; [by apply list_elem_of_In|done].
Qed.

Lemma good_parses config : Forall good_mount config → ∃ pats, Forall2 parses config pats.
Proof.
  induction 1 as [|mounted config (_ & _ & Hok) _ [pats IH]]; [by exists []|].
  destruct (parsePattern unicode_name (m_pattern mounted)) as [pat|] eqn:Hp; [|done].
  exists (pat :: pats). by constructor.
Qed.

Lemma not_free_pair l :
  ¬ ForallOrdPairs (λ e e' : pattern * interface HttpHandler, free e.1 e'.1) l →
  ∃ i j e e', i < j ∧ l !! i = Some e ∧ l !! j = Some e' ∧ conflictsWith e'.1 e.1 || same_leaf e'.1 e.1 = true.
Proof.
  induction l as [|e l IH]; intros Hn; [destruct Hn; constructor|].
  destruct (decide (Forall (λ e', free e.1 e'.1) l)) as [Hf|Hf].
  - destruct IH as (i & j & a & b & ? & ? & ? & ?); [intros Hl; apply Hn; by constructor|].
    exists (S i), (S j), a, b. split_and!; [lia|done..].
  - apply not_Forall_Exists in Hf; [|apply _]. apply Exists_exists in Hf as (e' & Hin & Hf).
    apply list_elem_of_lookup in Hin as [j Hj]. exists 0, (S j), e, e'. split_and!; [lia|done..|].
    unfold free in Hf. by apply not_false_iff_true in Hf.
Qed.

(** [New], on the options an application can write. *)
Lemma New_spec mounts :
  match New (denote_mount <$> mounts) with
  | Ok s => ∃ config pats, mounts = Some <$> config ∧ Forall good_mount config ∧
      NoDup (m_pattern <$> config) ∧ Forall2 parses config pats ∧
      ForallOrdPairs (λ e e', free e.1 e'.1) (zip_with entry pats config) ∧
      s = mkServer (zip_with entry pats config) (m_handler <$> config)
  | Err e => mount_error mounts e
  end.
Proof.
  unfold New, buildMux. pose proof (apply_server_options_spec [] mounts [] eq_refl (NoDup_nil_2)) as Ha.
  destruct (apply_server_options _ _) as [config|e]; cbn [mbind result_bind]; [|by destruct Ha].
  destruct Ha as (Hm & Hnd & Hg). specialize (Hg (Forall_nil_2 _)). simpl in Hm.
  destruct (good_parses _ Hg) as [pats Hp].
  pose proof (handle_all_spec config pats [] Hp (FOP_nil _)) as Hh.
  destruct (handle_all config []) as [m|]; cbn [mbind result_bind].
  - destruct Hh as [-> Hf]. exists config, pats. done.
  - apply not_free_pair in Hh as (i & j & e & e' & Hij & Hi & Hj & Hc). simpl in Hi, Hj.
    apply lookup_zip_with_Some in Hi as (p & a & -> & Hpi & Hai).
    apply lookup_zip_with_Some in Hj as (q & b & -> & Hqj & Hbj). simpl in *.
    exists a, b, p, q. subst mounts. split_and!; [apply list_elem_of_fmap_2..| | | |done].
    + by eapply list_elem_of_lookup_2.
    + by eapply list_elem_of_lookup_2.
    + intros Heq. assert (i = j); [|lia].
      eapply NoDup_lookup; [exact Hnd|rewrite list_lookup_fmap, Hai; done|].
      by rewrite list_lookup_fmap, Hbj, Heq.
    + eapply Forall2_lookup_lr in Hp; try done.
    + eapply Forall2_lookup_lr in Hp; try done.
Qed.

Definition single_slashes (mounts : list (option mountedHandler)) : Prop :=
  ∀ mounted, Some mounted ∈ mounts → Contains (m_pattern mounted) "//" = false.

Lemma entry_In config pats e :
  Forall2 parses config pats →
  e ∈ zip_with entry pats config ↔
    ∃ mounted, mounted ∈ config ∧ parses mounted e.1 ∧ e.2 = m_handler mounted.
Proof.
  intros Hp. split.
  - intros (i & Hi)%list_elem_of_lookup. apply lookup_zip_with_Some in Hi as (pat & mounted & -> & H1 & H2).
    exists mounted. split; [by eapply list_elem_of_lookup_2|]. split; [|done].
    by eapply Forall2_lookup_lr in Hp; try done.
  - intros (mounted & (i & Hi)%list_elem_of_lookup & Hm & He).
    eapply Forall2_lookup_l in Hp as (pat & Hpat & Hpar); [|exact Hi].
    apply list_elem_of_lookup. exists i. apply lookup_zip_with_Some. exists pat, mounted.
    split; [|done]. unfold parses in *. rewrite Hpar in Hm. injection Hm as ->. by destruct e; simpl in *; subst.
Qed.

Lemma parses_str mounted pat : parses mounted pat → p_str pat = m_pattern mounted.
Proof.
  unfold parses, parsePattern. repeat case_match; try done;
    (destruct (parse_segments _ _ _); [|done]; by intros [= <-]).
Qed.

(** What [New] built. *)
Record built (mounts : list (option mountedHandler)) (s : Server) : Prop := {
  built_mounts : ∃ config, mounts = Some <$> config;
  built_In : ∀ e, e ∈ s_mux s ↔
    ∃ mounted, Some mounted ∈ mounts ∧ parses mounted e.1 ∧ e.2 = m_handler mounted;
  built_free : ForallOrdPairs (λ e e', free e.1 e'.1) (s_mux s);
  built_handlers : s_handlers s = omap (fmap m_handler) mounts }.

Lemma New_built mounts s : New (denote_mount <$> mounts) = Ok s → built mounts s.
Proof.
  intros Hs. pose proof (New_spec mounts) as Hn. rewrite Hs in Hn.
  destruct Hn as (config & pats & -> & Hg & _ & Hp & Hf & ->). split; [by exists config| |done|].
  - intros e. cbn [s_mux]. rewrite (entry_In _ _ _ Hp). split; intros (m & Hin & ?); exists m; (split; [|done]).
    + by apply list_elem_of_fmap_2.
    + by apply list_elem_of_fmap in Hin as (m' & [= ->] & ?).
  - cbn [s_handlers]. clear. induction config; csimpl; by f_equal.
Qed.

Lemma built_sound mounts s : built mounts s → single_slashes mounts → sound_mux (s_mux s).
Proof.
  intros [_ Hin Hf _] Hs. split.
  - apply Forall_forall. intros e (m & Hm & Hp & _)%Hin. unfold parses in Hp.
    by destruct (parsePattern_tidy _ _ Hp (Hs _ Hm)).
  - revert Hf. generalize (s_mux s). induction 1 as [|e l He Hl IH]; constructor; [|done].
    eapply Forall_impl; [exact He|]. intros e' Hfe. by apply orb_false_iff in Hfe as [? _].
Qed.

(** Nothing that makes [New] fail depends on the order of the options. *)
Lemma built_no_error mounts mounts' s e :
  New (denote_mount <$> mounts) = Ok s → mounts ≡ₚ mounts' → mount_error mounts' e → False.
Proof.
  intros Hs Hperm He. pose proof (New_spec mounts) as Hn. rewrite Hs in Hn.
  destruct Hn as (config & pats & Hm & Hg & Hnd & Hp & Hf & _).
  assert (∀ o, o ∈ mounts' → ∃ m, o = Some m ∧ m ∈ config) as Hin.
  { intros o Ho. rewrite <- Hperm, Hm in Ho. apply list_elem_of_fmap in Ho as (m & -> & ?). by exists m. }
  rewrite Forall_forall in Hg. destruct e as [| |p|p err|p|]; simpl in He.
  - by destruct (Hin _ He) as (m & ? & _).
  - destruct He as (h & (m & [= <-] & [H _]%Hg)%Hin). done.
  - destruct He as (h & (m & [= <-] & (_ & H & _)%Hg)%Hin & Hnil). simpl in H. congruence.
  - destruct He as ((h & (m & [= <-] & (_ & _ & H)%Hg)%Hin) & He). simpl in H. by rewrite He in H.
  - destruct He as (h & h' & before & after & -> & Hb).
    assert (NoDup (omap (fmap m_pattern) (before ++ Some (mkMounted p h') :: after))) as Hd.
    { rewrite <- Hperm, Hm. clear -Hnd. assert (omap (fmap m_pattern) (Some <$> config) = m_pattern <$> config)
        as ->; [|done]. clear. induction config; csimpl; by f_equal. }
    rewrite omap_app in Hd. apply NoDup_app in Hd as (_ & Hd & _). apply (Hd p).
    + apply list_elem_of_omap. by exists (Some (mkMounted p h)).
    + csimpl. by left.
  - destruct He as (a & b & p & q & (a' & [= <-] & Ha)%Hin & (b' & [= <-] & Hb)%Hin & Hne & Hpa & Hpb & Hc).
    assert ((p, m_handler a) ∈ zip_with entry pats config) as Hea by (apply entry_In; naive_solver).
    assert ((q, m_handler b) ∈ zip_with entry pats config) as Heb by (apply entry_In; naive_solver).
    apply list_elem_of_In in Hea, Heb.
    destruct (ForallOrdPairs_In Hf _ _ Hea Heb) as [Heq|[Hfr|Hfr%free_sym]].
    + apply Hne. rewrite <- (parses_str _ _ Hpa), <- (parses_str _ _ Hpb). congruence.
    + unfold free in Hfr. simpl in Hfr. congruence.
    + unfold free in Hfr. simpl in Hfr. congruence.
Qed.

(** ** Properties *)

(** The patterns of the options, with their handlers. *)
Definition mounted (mounts : list (option mountedHandler)) (pat : pattern) (h : interface HttpHandler)
    : Prop :=
  ∃ m, Some m ∈ mounts ∧ parses m pat ∧ h = m_handler m.

(** What the mux makes of a request, for a server that [New] built. *)
Lemma ServeMounted_built mounts s request :
  built mounts s → single_slashes mounts → mr_Method request ≠ "CONNECT" →
  let host := stripHostPort (mr_Host request) in
  let method := mr_Method request in
  let path := URL_EscapedPath request in
  let clean := cleanPath path in
  match ServeMounted s request with
  | Serve (pat, h) => path = clean ∧
      ¬ lacks_slash (mounted mounts) host method path ∧ first_choice (mounted mounts) host method path pat h
  | MovedPermanently target query => query = URL_RawQuery request ∧
      (lacks_slash (mounted mounts) host method clean ∧ target = cleanPath (URL_Path request) +:+ "/" ∨
       ¬ lacks_slash (mounted mounts) host method clean ∧ path ≠ clean ∧ target = clean)
  | MethodNotAllowed allow => path = clean ∧
      ¬ lacks_slash (mounted mounts) host method path ∧
      (∀ pat h, mounted mounts pat h → applies host method (path_segments path) pat = true → False) ∧
      allow ≠ ∅ ∧
      ∀ other, other ∈ allow ↔ ∃ pat h, mounted mounts pat h ∧ p_method pat ≠ "" ∧
        (applies host other (path_segments path) pat = true ∨
         HasSuffix path "/" = false ∧ applies host other (path_segments (path +:+ "/")) pat = true)
  | MuxNotFound => path = clean ∧
      ¬ lacks_slash (mounted mounts) host method path ∧
      ∀ pat h other, mounted mounts pat h →
        applies host other (path_segments path) pat = true ∨
        HasSuffix path "/" = false ∧ p_method pat ≠ "" ∧
          applies host other (path_segments (path +:+ "/")) pat = true → False
  | MuxBadRequest => RequestURI request = "*"
  end.
Proof.
  intros Hb Hss Hconnect. cbv zeta.
  pose proof (mux_answer_spec request (s_mux s) (built_sound _ _ Hb Hss) Hconnect) as Hm.
  assert (∀ pat h, entries (s_mux s) pat h ↔ mounted mounts pat h) as Heq
    by (intros pat h; apply (built_In _ _ Hb (pat, h))).
  pose proof (λ host method path, lacks_slash_ext _ _ host method path Heq) as Hl.
  unfold ServeMounted. destruct (mux_ServeHTTP request (s_mux s)) as [[pat h]|target query|allow| |].
  - destruct Hm as (_ & Hc & Hn & Hf). rewrite Hl in Hn. split_and!; [done..|].
    by apply (first_choice_ext _ _ _ _ _ _ _ Heq).
  - destruct Hm as (_ & Hq & Hm). by rewrite !Hl in Hm.
  - destruct Hm as (_ & Hc & Hn & Hm). rewrite Hl in Hn. setoid_rewrite Heq in Hm. done.
  - destruct Hm as (_ & Hc & Hn & Hm). rewrite Hl in Hn. setoid_rewrite Heq in Hm. done.
  - done.
Qed.

(** C14. Dispatch, for mounts without doubled slashes and every method but
    [CONNECT].  A request whose path is not clean is redirected to the clean
    path; one whose path is not served exactly, but is with a slash behind it,
    is redirected there, with its query.  Any other request is handed to the
    handler of the first choice: the mounted pattern that applies and is more
    specific than every other that does.  If none applies, the allowed methods
    are exactly those of the mounted patterns for this path or this path with a
    slash, and it is not found when there are none; the request [*] is bad. *)
Theorem ServeMounted_dispatch mounts s request :
  New (denote_mount <$> mounts) = Ok s → single_slashes mounts → mr_Method request ≠ "CONNECT" →
  let host := stripHostPort (mr_Host request) in
  let method := mr_Method request in
  let path := URL_EscapedPath request in
  let clean := cleanPath path in
  match ServeMounted s request with
  | Serve (pat, h) => path = clean ∧
      ¬ lacks_slash (mounted mounts) host method path ∧ first_choice (mounted mounts) host method path pat h
  | MovedPermanently target query => query = URL_RawQuery request ∧
      (lacks_slash (mounted mounts) host method clean ∧ target = cleanPath (URL_Path request) +:+ "/" ∨
       ¬ lacks_slash (mounted mounts) host method clean ∧ path ≠ clean ∧ target = clean)
  | MethodNotAllowed allow => path = clean ∧
      ¬ lacks_slash (mounted mounts) host method path ∧
      (∀ pat h, mounted mounts pat h → applies host method (path_segments path) pat = true → False) ∧
      allow ≠ ∅ ∧
      ∀ other, other ∈ allow ↔ ∃ pat h, mounted mounts pat h ∧ p_method pat ≠ "" ∧
        (applies host other (path_segments path) pat = true ∨
         HasSuffix path "/" = false ∧ applies host other (path_segments (path +:+ "/")) pat = true)
  | MuxNotFound => path = clean ∧
      ¬ lacks_slash (mounted mounts) host method path ∧
      ∀ pat h other, mounted mounts pat h →
        applies host other (path_segments path) pat = true ∨
        HasSuffix path "/" = false ∧ p_method pat ≠ "" ∧
          applies host other (path_segments (path +:+ "/")) pat = true → False
  | MuxBadRequest => RequestURI request = "*"
  end.
Proof. intros Hn%New_built Hss. by apply ServeMounted_built. Qed.

(** The order of the options does not matter: a permutation of options that
    [New] accepts is accepted, and gives a server that treats every request in
    the same way and shuts the same handlers down. *)
Theorem New_order_irrelevant mounts mounts' s :
  mounts ≡ₚ mounts' → New (denote_mount <$> mounts) = Ok s → single_slashes mounts →
  ∃ s', New (denote_mount <$> mounts') = Ok s' ∧ s_handlers s ≡ₚ s_handlers s' ∧
    ∀ request, ServeMounted s' request = ServeMounted s request.
Proof.
  intros Hperm Hs Hss. pose proof (New_spec mounts') as Hn.
  destruct (New (denote_mount <$> mounts')) as [s'|e] eqn:Hs'; [|by destruct (built_no_error _ _ _ _ Hs Hperm Hn)].
  apply New_built in Hs' as Hb'. apply New_built in Hs as Hb.
  assert (single_slashes mounts') as Hss' by (intros m; rewrite <- Hperm; apply Hss).
  exists s'. split_and!; [done| |].
  - rewrite (built_handlers _ _ Hb), (built_handlers _ _ Hb'). by rewrite Hperm.
  - intros request. apply mux_ServeHTTP_ext; [by eapply built_sound..|].
    intros e. rewrite (built_In _ _ Hb), (built_In _ _ Hb'). by setoid_rewrite Hperm.
Qed.

Definition has_Shutdown (h : HttpHandler) : bool :=
  match hh_Shutdown h with Some _ => true | None => false end.

(** C34. [Shutdown] asks every mounted handler that has sessions, once and in
    the order of the options, whatever the others answer; its error is nil when
    all of theirs are, and wraps theirs in that order otherwise. *)
Theorem Shutdown_asks_all mounts s :
  New (denote_mount <$> mounts) = Ok s →
  let handlers := omap (λ mounted, mounted ← mounted; dyn_val <$> m_handler mounted) mounts in
  let asked := List.filter has_Shutdown handlers in
  let errs := omap (λ h, mjoin (hh_Shutdown h)) asked in
  Shutdown s = (asked, if bool_decide (errs = []) then None else Some errs).
Proof.
  intros Hb%New_built. cbv zeta. unfold Shutdown. rewrite (built_handlers _ _ Hb).
  assert (∀ l, shutdown_all l =
    (List.filter has_Shutdown (omap (fmap dyn_val) l),
     omap (λ h, mjoin (hh_Shutdown h))
       (List.filter has_Shutdown (omap (fmap dyn_val) l)))) as ->.
  { induction l as [|[h|] l IH]; csimpl; [done|rewrite IH|by rewrite IH].
    destruct h as [k n [name [[err|]|]]]; done. }
  assert (omap (fmap dyn_val) (omap (fmap m_handler) mounts) =
    omap (λ mounted : option mountedHandler, mounted ← mounted; dyn_val <$> m_handler mounted) mounts) as ->.
  { clear. induction mounts as [|[m|] mounts IH]; csimpl; [done|rewrite IH|done].
    by destruct (m_handler m). }
  f_equal. by destruct (omap _ (List.filter _ _)).
Qed.

End Server.

(** ** Witnesses *)

(** Two protocol handlers and a catch-all, as an application mounts them. *)
Definition ascii_names : string → bool := λ _, false.
Definition mount (p name : string) (shutdown : option (option goerror)) : option mountedHandler :=
  Some (mkMounted p (ptr (mkHttpHandler name shutdown))).
Definition example_mounts : list (option mountedHandler) :=
  [mount "/" "site" None; mount "/openai/" "openai" (Some (Some (Sentinel "context.Canceled")));
   mount "GET /openai/{name}" "pages" (Some None)].
Definition example_server : Server :=
  match New ascii_names (denote_mount ascii_names <$> example_mounts) with
  | Ok s => s
  | Err _ => mkServer [] []
  end.
Definition example_get : mux_request :=
  mkMuxRequest "/openai/about" "GET" "example.org:8080" "" "/openai/about" "/openai/about" "".

Lemma example_single : single_slashes example_mounts.
Proof. intros m Hm. unfold example_mounts, mount in Hm. set_unfold. naive_solver. Qed.

Lemma ServeMounted_dispatch_witness :
  ∃ pat h, ServeMounted example_server example_get = Serve (pat, h) ∧
    p_str pat = "GET /openai/{name}" ∧
    applies "example.org" "GET" ["openai"; "about"] pat = true ∧
    better pat (mkPattern "/openai/" "" "" [Lit "openai"; Multi ""]).
Proof.
  pose proof (ServeMounted_dispatch ascii_names example_mounts example_server example_get eq_refl
    example_single ltac:(discriminate)) as H.
  destruct (ServeMounted example_server example_get) as [[pat h]|p q|a| |] eqn:E;
    try (exfalso; vm_compute in E; discriminate).
  exists pat, h. assert (p_str pat = "GET /openai/{name}") as Hstr
    by (vm_compute in E; by injection E as <- _).
  destruct H as (_ & _ & _ & Ha & H). split_and!; [done|done|exact Ha|].
  edestruct (H (mkPattern "/openai/" "" "" [Lit "openai"; Multi ""])
    (ptr (mkHttpHandler "openai" (Some (Some (Sentinel "context.Canceled"))))))
    as [[= Heq]|Hb]; [| |by rewrite <- Heq in Hstr|done].
  - eexists. split; [right; left; reflexivity|]. split; reflexivity.
  - reflexivity.
Defined.

Lemma New_order_irrelevant_witness :
  ∃ s', New ascii_names (denote_mount ascii_names <$> reverse example_mounts) = Ok s' ∧
    s_handlers example_server ≡ₚ s_handlers s' ∧
    ∀ request, ServeMounted s' request = ServeMounted example_server request.
Proof.
  apply (New_order_irrelevant ascii_names example_mounts); [by rewrite reverse_Permutation|reflexivity|].
  exact example_single.
Defined.

Lemma Shutdown_asks_all_witness :
  Shutdown example_server =
    ([mkHttpHandler "openai" (Some (Some (Sentinel "context.Canceled")));
      mkHttpHandler "pages" (Some None)], Some [Sentinel "context.Canceled"]).
Proof. exact (Shutdown_asks_all ascii_names example_mounts example_server eq_refl). Defined.
