(* ===== verification/Generator.v ===== *)
(** The generator of the frozen profile: [internal/cmd/openai-gen/main.go].

    It is modelled from the decoded document on.  A Go map is the list of its
    entries in the order the code visits them, which is not specified.
    [GeneratorInput] decodes the document, [GeneratorMain] has the files and flags. *)
From stdpp Require Import sorting.
From S2P Require Import Prelude GoStrings.

(** ** The document, as far as it is decoded *)

Record requestBody := mkRequestBody { rb_Content : list string }.
Record response := mkGenResponse { rs_Content : list string }.

Record operation := mkGenOperation {
  OperationID : string;
  Tags : list string;
  Parameters : list string;  (** the [in] of each *)
  RequestBody : option requestBody;
  Responses : list (string * response) }.

(** [document] is its map of paths, [eventInventory] its version of the SDK and
    its map of surfaces. *)
Definition document : Type := list (string * list (string * operation)).

Record eventSurface := mkEventSurface { es_Client : list string; es_Server : list string }.
Record eventInventory := mkEventInventory {
  SDK : string;
  Surfaces : list (string * eventSurface) }.

Record generatedOperation := mkGenerated {
  g_Method : string;
  g_Path : string;
  g_OperationID : string;
  g_Capability : string;
  g_RequestMedia : list string;
  g_ResponseMedia : list string;
  g_SuccessStatus : Z;
  g_SDKCall : string;
  g_LocalCase : string;
  g_Transports : list string;
  g_SchemaCases : list string;
  g_LiveProfile : string;
  g_LiveReason : string;
  g_HasQuery : bool }.

Record generatedEvent := mkGenEvent {
  ge_Surface : string;
  ge_Direction : string;
  ge_Type : string }.

#[export] Instance generatedOperation_eq_dec : EqDecision generatedOperation.
Proof. solve_decision. Defined.
#[export] Instance generatedEvent_eq_dec : EqDecision generatedEvent.
Proof. solve_decision. Defined.

(** The calls of [fatalf] and the errors of [validateEvidence]. *)
Inductive gen_error :=
| NoOperationId (method path : string)
| NoCapability (path tag : string)
| UnexpectedSize (paths operations : nat)
| UnexpectedEvents (count : nat)
| DuplicateOperation (id : string)
| BadLocalCase (name : string)
| BadSDKCall (id call : string)
| IncompleteEvidence (id : string)
| RawAbsent (id : string)
| DuplicateEvent (key : string).

(** ** Sorting *)

(** [sort.Strings] and [sort.Slice]: on what the generator sorts, entries that
    are not ordered are equal, so that every sort gives one result. *)
Definition string_le (s t : string) : Prop := string_ltb t s = false.
#[export] Instance string_le_dec : RelDecision string_le.
Proof. intros s t. unfold string_le. apply _. Defined.

Definition sort_Strings (l : list string) : list string := merge_sort string_le l.

Definition operation_less (a b : generatedOperation) : bool :=
  if bool_decide (g_Path a = g_Path b) then string_ltb (g_Method a) (g_Method b)
  else string_ltb (g_Path a) (g_Path b).

Definition event_less (a b : generatedEvent) : bool :=
  if negb (bool_decide (ge_Surface a = ge_Surface b)) then string_ltb (ge_Surface a) (ge_Surface b)
  else if negb (bool_decide (ge_Direction a = ge_Direction b))
  then string_ltb (ge_Direction a) (ge_Direction b)
  else string_ltb (ge_Type a) (ge_Type b).

Definition le_of {A} (less : A → A → bool) (a b : A) : Prop := less b a = false.
#[export] Instance le_of_dec {A} (less : A → A → bool) : RelDecision (le_of less).
Proof. intros a b. unfold le_of. apply _. Defined.

(** ** Operations *)

Definition httpMethods : list string := ["get"; "post"; "put"; "patch"; "delete"].

Definition rawOnlyOperations : list string :=
  ["listVoiceConsents"; "createVoiceConsent"; "deleteVoiceConsent"; "getVoiceConsent";
   "updateVoiceConsent"; "createVoice"; "create-realtime-call";
   "create-realtime-translation-client-secret"].

Definition appendUnique (values : list string) (candidate : string) : list string :=
  if bool_decide (candidate ∈ values) then values else values ++ [candidate].

Definition better_status (result : Z) (code : string) : Z :=
  match Atoi code with
  | Some status =>
      if (200 <=? status)%Z && (status <? 300)%Z && ((result =? 0)%Z || (status <? result)%Z)
      then status else result
  | None => result
  end.

Definition successStatus (responses : list (string * response)) : Z :=
  let result := foldl better_status 0%Z responses.*1 in
  if (result =? 0)%Z then 200%Z else result.

Definition capabilityFor (path : string) (tags : list string) : option string :=
  let tag := match tags with tag :: _ => tag | [] => "" end in
  let tagged name := bool_decide (tag = name) in
  if tagged "Responses" then Some "responses"
  else if tagged "Chat" then Some "chat"
  else if tagged "Completions" then Some "completions"
  else if tagged "Conversations" then Some "conversations"
  else if tagged "Embeddings" then Some "embeddings"
  else if tagged "Audio" then Some "audio"
  else if tagged "Images" then Some "images"
  else if tagged "Videos" then Some "videos"
  else if tagged "Moderations" then Some "moderations"
  else if tagged "Models" then Some "models"
  else if tagged "Files" then Some "files"
  else if tagged "Uploads" then Some "uploads"
  else if tagged "Batch" then Some "batches"
  else if tagged "Assistants" then Some "assistants"
  else if tagged "Vector stores" then Some "vector_stores"
  else if tagged "Fine-tuning" then Some "fine_tuning"
  else if tagged "Evals" then Some "evals"
  else if tagged "Realtime" then Some "realtime"
  else if tagged "Skills" then Some "skills"
  else if HasPrefix path "/containers" then Some "containers"
  else if HasPrefix path "/responses" then Some "responses"
  else if HasPrefix path "/chatkit" then Some "chatkit"
  else if HasPrefix path "/content_provenance_checks" then Some "moderations"
  else if HasPrefix path "/organization" || HasPrefix path "/projects" then Some "organization"
  else None.

Definition media_transport (media : string) : string :=
  if bool_decide (media = "multipart/form-data") then "multipart"
  else if bool_decide (media = "text/event-stream") then "sse"
  else if Contains media "json" then "json"
  else "binary".

Definition operationTransports (path : string) (hasQuery : bool) (requestMedia responseMedia : list string)
    : list string :=
  let transports := if Contains path "{" then ["path"] else [] in
  let transports := if hasQuery || Contains path "?" then appendUnique transports "query" else transports in
  foldl (λ transports media, appendUnique transports (media_transport media)) transports
    (requestMedia ++ responseMedia).

Definition liveClassification (id : string) : string * string :=
  if bool_decide (id = "listModels") then ("safe", "scheduled read-only differential")
  else if bool_decide (id = "createEmbedding")
  then ("paid", "manual cost approval required; no live result recorded")
  else if bool_decide (id = "createFile") || bool_decide (id = "deleteFile")
  then ("mutation", "manual disposable-account approval and verified cleanup required; no live result recorded")
  else ("unavailable", "no named bounded live differential is configured").

(** The body of the inner loop for a method of the list. *)
Definition collect_item (path method : string) (operation : operation)
    : result gen_error generatedOperation :=
  if string_empty (OperationID operation) then Err (NoOperationId method path)
  else match capabilityFor path (Tags operation) with
  | None => Err (NoCapability path (default "" (head (Tags operation))))
  | Some capability =>
      let hasQuery := bool_decide ("query" ∈ Parameters operation) in
      let requestMedia := sort_Strings
        (match RequestBody operation with Some body => rb_Content body | None => [] end) in
      let responseMedia := sort_Strings
        (foldl appendUnique [] (Responses operation ≫= λ r, rs_Content r.2)) in
      let '(liveProfile, liveReason) := liveClassification (OperationID operation) in
      Ok (mkGenerated (ToUpper method) path (OperationID operation) capability requestMedia responseMedia
            (successStatus (Responses operation))
            (if bool_decide (OperationID operation ∈ rawOnlyOperations)
             then "raw_sdk_exception" else "resource_helper")
            ("http." +:+ capability +:+ "." +:+ OperationID operation)
            (operationTransports path hasQuery requestMedia responseMedia)
            ["minimal_valid_request"; "valid_success_response"] liveProfile liveReason hasQuery)
  end.

Fixpoint collect_path (path : string) (pathItem : list (string * operation))
    : result gen_error (list generatedOperation) :=
  match pathItem with
  | [] => Ok []
  | (method, operation) :: pathItem =>
      if bool_decide (ToLower method ∈ httpMethods)
      then item ← collect_item path method operation; rest ← collect_path path pathItem; Ok (item :: rest)
      else collect_path path pathItem
  end.

Fixpoint collect_paths (spec : document) : result gen_error (list generatedOperation) :=
  match spec with
  | [] => Ok []
  | (path, pathItem) :: spec =>
      items ← collect_path path pathItem; rest ← collect_paths spec; Ok (items ++ rest)
  end.

Definition collectOperations (spec : document) : result gen_error (list generatedOperation) :=
  result ← collect_paths spec; Ok (merge_sort (le_of operation_less) result).

(** ** Events *)

Definition collectEvents (inventory : eventInventory) : list generatedEvent :=
  merge_sort (le_of event_less) (Surfaces inventory ≫= λ '(surface, events),
    (mkGenEvent surface "client" <$> es_Client events) ++
    (mkGenEvent surface "server" <$> es_Server events)).

(** ** Evidence *)

Definition validProfiles : list string := ["safe"; "paid"; "mutation"; "unavailable"].

(** The loop over the operations; it returns [rawSeen]. *)
Fixpoint check_operations (operationIDs caseNames rawSeen : gset string)
    (operations : list generatedOperation) : result gen_error (gset string) :=
  match operations with
  | [] => Ok rawSeen
  | operation :: operations =>
      if bool_decide (g_OperationID operation ∈ operationIDs)
      then Err (DuplicateOperation (g_OperationID operation))
      else if string_empty (g_LocalCase operation) || bool_decide (g_LocalCase operation ∈ caseNames)
      then Err (BadLocalCase (g_LocalCase operation))
      else if negb (bool_decide (g_SDKCall operation = "resource_helper")) &&
              negb (bool_decide (g_SDKCall operation = "raw_sdk_exception"))
      then Err (BadSDKCall (g_OperationID operation) (g_SDKCall operation))
      else
        let rawSeen := if bool_decide (g_SDKCall operation = "raw_sdk_exception")
                       then {[g_OperationID operation]} ∪ rawSeen else rawSeen in
        if bool_decide (g_Transports operation = []) || bool_decide (g_SchemaCases operation = []) ||
           negb (bool_decide (g_LiveProfile operation ∈ validProfiles))
        then Err (IncompleteEvidence (g_OperationID operation))
        else check_operations ({[g_OperationID operation]} ∪ operationIDs)
               ({[g_LocalCase operation]} ∪ caseNames) rawSeen operations
  end.

Definition gen_event_key (event : generatedEvent) : string :=
  ge_Surface event +:+ "/" +:+ ge_Direction event +:+ "/" +:+ ge_Type event.

Fixpoint check_events (eventKeys : gset string) (events : list generatedEvent) : option gen_error :=
  match events with
  | [] => None
  | event :: events =>
      let key := gen_event_key event in
      if bool_decide (key ∈ eventKeys) then Some (DuplicateEvent key)
      else check_events ({[key]} ∪ eventKeys) events
  end.

(** The error, or nil. *)
Definition validateEvidence (operations : list generatedOperation) (inventory : eventInventory)
    : option gen_error :=
  match check_operations ∅ ∅ ∅ operations with
  | Err e => Some e
  | Ok rawSeen =>
      match List.find (λ id, negb (bool_decide (id ∈ rawSeen))) rawOnlyOperations with
      | Some id => Some (RawAbsent id)
      | None => check_events ∅ (collectEvents inventory)
      end
  end.

(** What [main] checks before it renders: the operations, and then the events;
    [None] is a missing [-events] flag. *)
Definition checked_operations (spec : document) : result gen_error (list generatedOperation) :=
  operations ← collectOperations spec;
  if negb (bool_decide (length spec = 182)) || negb (bool_decide (length operations = 288))
  then Err (UnexpectedSize (length spec) (length operations)) else Ok operations.

Definition check_inventory (operations : list generatedOperation) (events : option eventInventory)
    : result gen_error eventInventory :=
  let inventory := default (mkEventInventory "" []) events in
  let count := length (collectEvents inventory) in
  if bool_decide (is_Some events) && negb (bool_decide (count = 121))
  then Err (UnexpectedEvents count)
  else match validateEvidence operations inventory with
       | Some e => Err e
       | None => Ok inventory
       end.

Definition main_checks (spec : document) (events : option eventInventory)
    : result gen_error (list generatedOperation * eventInventory) :=
  operations ← checked_operations spec;
  inventory ← check_inventory operations events;
  Ok (operations, inventory).
