(* ===== verification/GeneratorOrder.v ===== *)
(** The order of what the generator writes does not depend on the order in which
    Go visits its maps. *)
From stdpp Require Import sorting.
From S2P Require Import Prelude GoStrings Services Generator.

(** ** Lexicographic order of keys *)

Fixpoint lex_ltb (k l : list string) : bool :=
  match k, l with
  | x :: k, y :: l => if bool_decide (x = y) then lex_ltb k l else string_ltb x y
  | [], _ :: _ => true
  | _, [] => false
  end.

Lemma lex_irrefl k : lex_ltb k k = false.
Proof. induction k as [|x k IH]; [done|]. simpl. by rewrite bool_decide_true. Qed.

Lemma lex_total k l : lex_ltb k l = false → k = l ∨ lex_ltb l k = true.
Proof.
  revert l. induction k as [|x k IH]; intros [|y l]; simpl; auto.
  case_bool_decide as E.
  - subst. rewrite bool_decide_true by done. intros [->|?]%IH; auto.
  - rewrite bool_decide_false by congruence. intros [->|?]%string_ltb_total; auto.
Qed.

Lemma lex_trans k l m : lex_ltb k l = true → lex_ltb l m = true → lex_ltb k m = true.
Proof.
  revert l m. induction k as [|x k IH]; intros [|y l] [|z m]; simpl; try done.
  destruct (bool_decide_reflect (x = y)) as [->|Hxy].
  - case_bool_decide; [by apply IH|done].
  - intros H1. destruct (bool_decide_reflect (y = z)) as [->|Hyz].
    + intros _. by rewrite bool_decide_false.
    + intros H2. pose proof (string_ltb_trans _ _ _ H1 H2) as H3.
      rewrite bool_decide_false; [done|]. by apply string_ltb_ne.
Qed.

Lemma lex_asym k l : lex_ltb k l = true → lex_ltb l k = true → False.
Proof. intros H1 H2. pose proof (lex_trans _ _ _ H1 H2). by rewrite lex_irrefl in *. Qed.

Section Keyed.
(** [less] compares keys. *)
Context {A : Type} (less : A → A → bool) (key : A → list string).
Hypothesis less_key : ∀ a b, less a b = lex_ltb (key a) (key b).

Lemma le_of_trans : Transitive (le_of less).
Proof using less_key.
  intros a b c. unfold le_of. rewrite !less_key. intros H1 H2. apply not_true_iff_false. intros H3.
  destruct (lex_total _ _ H1) as [E|E]; [by rewrite E, H3 in H2|].
  rewrite (lex_trans _ _ _ H3 E) in H2. done.
Qed.

Lemma le_of_total : Total (le_of less).
Proof using less_key.
  intros a b. unfold le_of. rewrite !less_key.
  destruct (lex_ltb (key b) (key a)) eqn:H; [|by left]. right. apply not_true_iff_false.
  intros H'. by eapply lex_asym.
Qed.

Lemma le_of_key a b : le_of less a b → le_of less b a → key a = key b.
Proof using less_key.
  unfold le_of. rewrite !less_key. intros H1 [?|H2]%lex_total; [done|congruence].
Qed.

Lemma sorted_le l : StronglySorted (le_of less) (merge_sort (le_of less) l).
Proof using less_key.
  apply StronglySorted_merge_sort; [apply le_of_trans|apply le_of_total].
Qed.

(** With distinct keys there is one sorted list. *)
Lemma sorted_unique l l' :
  NoDup (key <$> l) → l ≡ₚ l' → StronglySorted (le_of less) l → StronglySorted (le_of less) l' → l = l'.
Proof using less_key.
  intros Hnd Hp H1 H2. eapply StronglySorted_unique_strong; [|done..].
  intros x y Hx Hy Hxy Hyx. pose proof (le_of_key _ _ Hxy Hyx) as Hk.
  rewrite <- Hp in Hy. apply list_elem_of_lookup in Hx as [i Hi], Hy as [j Hj].
  assert (i = j) as ->; [|congruence].
  eapply NoDup_lookup; [exact Hnd|by rewrite list_lookup_fmap, Hi|]. by rewrite list_lookup_fmap, Hj, Hk.
Qed.

(** ... and it is strictly sorted. *)
Lemma sorted_strictly l :
  NoDup (key <$> l) → StronglySorted (le_of less) l → StronglySorted (λ a b, less a b = true) l.
Proof using less_key.
  intros Hnd. induction 1 as [|a l Hl IH Ha]; constructor.
  - apply IH. by apply NoDup_cons in Hnd as [_ ?].
  - apply NoDup_cons in Hnd as [Hn _]. rewrite Forall_forall in Ha |- *. intros b Hb.
    specialize (Ha b Hb). unfold le_of in Ha. rewrite less_key in Ha |- *.
    destruct (lex_total _ _ Ha) as [E|?]; [|done]. destruct Hn. rewrite <- E. by apply list_elem_of_fmap_2.
Qed.

End Keyed.

Definition operation_key (a : generatedOperation) : list string := [g_Path a; g_Method a].
Definition event_sort_key (a : generatedEvent) : list string :=
  [ge_Surface a; ge_Direction a; ge_Type a].

Lemma operation_less_key a b : operation_less a b = lex_ltb (operation_key a) (operation_key b).
Proof.
  unfold operation_less. simpl. destruct (bool_decide (g_Path a = g_Path b)); [|done].
  case_bool_decide as E; [|done]. by rewrite E, string_ltb_irrefl.
Qed.

Lemma event_less_key a b : event_less a b = lex_ltb (event_sort_key a) (event_sort_key b).
Proof.
  unfold event_less. simpl. destruct (bool_decide (ge_Surface a = ge_Surface b)); [|done]. simpl.
  destruct (bool_decide (ge_Direction a = ge_Direction b)); [|done]. simpl.
  case_bool_decide as E; [|done]. by rewrite E, string_ltb_irrefl.
Qed.

(** ** Sorted strings *)

Lemma sort_Strings_perm l l' : l ≡ₚ l' → sort_Strings l = sort_Strings l'.
Proof.
  intros Hp. unfold sort_Strings.
  assert (Transitive string_le ∧ Total string_le) as [Ht Htot].
  { unfold string_le. split.
    - intros a b c H1 H2. apply not_true_iff_false. intros H3.
      destruct (string_ltb_total _ _ H1) as [->|E]; [congruence|].
      by rewrite (string_ltb_trans _ _ _ H3 E) in H2.
    - intros a b. unfold string_le. destruct (string_ltb b a) eqn:E; [|by left]. right.
      by apply string_ltb_asymm. }
  eapply StronglySorted_unique_strong; [|by apply StronglySorted_merge_sort..|].
  - unfold string_le. intros x y _ _ H1 H2. destruct (string_ltb_total _ _ H1); congruence.
  - by rewrite !merge_sort_Permutation.
Qed.

(** ** Results up to order *)

(** Both fail, or both answer the same entries in some order. *)
Definition agree {A} (r r' : result gen_error (list A)) : Prop :=
  match r, r' with
  | Ok l, Ok l' => l ≡ₚ l'
  | Err _, Err _ => True
  | _, _ => False
  end.

Lemma agree_refl {A} (r : result gen_error (list A)) : agree r r.
Proof. by destruct r; simpl. Qed.

Lemma agree_trans {A} (r s t : result gen_error (list A)) : agree r s → agree s t → agree r t.
Proof. destruct r, s, t; simpl; try done. by intros -> ->. Qed.

Fixpoint concat_results {A} (rs : list (result gen_error (list A))) : result gen_error (list A) :=
  match rs with
  | [] => Ok []
  | r :: rs => l ← r; rest ← concat_results rs; Ok (l ++ rest)
  end.

Lemma concat_results_perm {A} (rs rs' : list (result gen_error (list A))) :
  rs ≡ₚ rs' → agree (concat_results rs) (concat_results rs').
Proof.
  induction 1 as [|r rs rs' _ IH|r s rs|rs ss ts _ IH1 _ IH2]; simpl; [done|..].
  - destruct r as [l|]; [|done]. simpl.
    destruct (concat_results rs), (concat_results rs'); simpl in *; try done. by rewrite IH.
  - destruct r as [l|], s as [m|]; simpl; try done; destruct (concat_results rs); simpl; try done.
    rewrite !app_assoc. by rewrite (Permutation_app_comm l m).
  - by eapply agree_trans.
Qed.

Lemma concat_results_Forall2 {A} (rs rs' : list (result gen_error (list A))) :
  Forall2 agree rs rs' → agree (concat_results rs) (concat_results rs').
Proof.
  induction 1 as [|r r' rs rs' Hr _ IH]; simpl; [done|].
  destruct r as [l|], r' as [l'|]; simpl in *; try done.
  destruct (concat_results rs), (concat_results rs'); simpl in *; try done. by rewrite Hr, IH.
Qed.

(** The same entries, up to [R] and their order. *)
Definition perm2 {A} (R : A → A → Prop) (l l' : list A) : Prop := ∃ k, l ≡ₚ k ∧ Forall2 R k l'.

Lemma concat_results_perm2 {A B} (R : A → A → Prop) (f : A → result gen_error (list B)) l l' :
  (∀ a a', R a a' → agree (f a) (f a')) → perm2 R l l' →
  agree (concat_results (f <$> l)) (concat_results (f <$> l')).
Proof.
  intros Hf (k & Hp & Hk). eapply agree_trans.
  - apply concat_results_perm. by rewrite Hp.
  - apply concat_results_Forall2. apply Forall2_fmap. eapply Forall2_impl; [exact Hk|]. apply Hf.
Qed.

Lemma collect_path_concat path items :
  collect_path path items = concat_results
    ((λ item, if bool_decide (ToLower item.1 ∈ httpMethods)
              then (λ g, [g]) <$> collect_item path item.1 item.2 else Ok []) <$> items).
Proof.
  induction items as [|[m o] items IH]; [done|]. cbn [collect_path fmap list_fmap concat_results fst snd].
  case_bool_decide; [|rewrite IH; cbn [mbind result_bind]; by destruct (concat_results _)].
  destruct (collect_item path m o); [|done]. cbn. rewrite IH. by destruct (concat_results _).
Qed.

Lemma collect_paths_concat spec :
  collect_paths spec = concat_results ((λ p, collect_path p.1 p.2) <$> spec).
Proof.
  induction spec as [|[path items] spec IH]; [done|].
  cbn [collect_paths fmap list_fmap concat_results fst snd]. by rewrite IH.
Qed.

(** ** Two visits of one document *)

Definition same_response (r r' : string * response) : Prop :=
  r.1 = r'.1 ∧ rs_Content r.2 ≡ₚ rs_Content r'.2.

Record same_operation (o o' : operation) : Prop := {
  same_id : OperationID o = OperationID o';
  same_tags : Tags o = Tags o';
  same_parameters : Parameters o = Parameters o';
  same_body : option_Forall2 (λ b b', rb_Content b ≡ₚ rb_Content b') (RequestBody o) (RequestBody o');
  same_responses : perm2 same_response (Responses o) (Responses o') }.

Definition same_item (i i' : string * operation) : Prop := i.1 = i'.1 ∧ same_operation i.2 i'.2.
Definition same_path (p p' : string * list (string * operation)) : Prop :=
  p.1 = p'.1 ∧ perm2 same_item p.2 p'.2.
Definition same_document (d d' : document) : Prop := perm2 same_path d d'.

Lemma foldl_perm {A B} (f : B → A → B) l l' b :
  (∀ b x y, f (f b x) y = f (f b y) x) → l ≡ₚ l' → foldl f b l = foldl f b l'.
Proof.
  intros Hf Hp. revert b. induction Hp as [|x l l' _ IH|x y l|l m n _ IH1 _ IH2]; intros b; simpl; auto.
  - by rewrite Hf.
  - by rewrite IH1.
Qed.

Lemma better_status_comm r c d :
  better_status (better_status r c) d = better_status (better_status r d) c.
Proof.
  unfold better_status. destruct (Atoi c) as [s|], (Atoi d) as [t|]; try done.
  destruct (200 <=? s)%Z eqn:H1, (s <? 300)%Z eqn:H2, (200 <=? t)%Z eqn:H3, (t <? 300)%Z eqn:H4; simpl; try done.
  destruct (r =? 0)%Z eqn:H5; simpl.
  - destruct (s =? 0)%Z eqn:H6, (t =? 0)%Z eqn:H7; try lia. simpl.
    destruct (t <? s)%Z eqn:H8, (s <? t)%Z eqn:H9; lia.
  - destruct (s <? r)%Z eqn:H6, (t <? r)%Z eqn:H7; simpl; rewrite ?H5, ?H6, ?H7; simpl; try lia.
    + destruct (s =? 0)%Z eqn:H8, (t =? 0)%Z eqn:H9; try lia. simpl.
      destruct (t <? s)%Z eqn:H10, (s <? t)%Z eqn:H11; lia.
    + destruct (s =? 0)%Z eqn:H8; [lia|]. simpl. by destruct (t <? s)%Z eqn:H9; [lia|].
    + destruct (t =? 0)%Z eqn:H8; [lia|]. simpl. by destruct (s <? t)%Z eqn:H9; [lia|].
Qed.

Lemma appendUnique_In acc x y : y ∈ appendUnique acc x ↔ y ∈ acc ∨ y = x.
Proof. unfold appendUnique. case_bool_decide; set_solver. Qed.

Lemma foldl_appendUnique acc l :
  NoDup acc → NoDup (foldl appendUnique acc l) ∧ ∀ x, x ∈ foldl appendUnique acc l ↔ x ∈ acc ∨ x ∈ l.
Proof.
  revert acc. induction l as [|y l IH]; intros acc Hacc; simpl; [split; [done|set_solver]|].
  destruct (IH (appendUnique acc y)) as [Hn Hin].
  - unfold appendUnique. case_bool_decide; [done|]. apply NoDup_app. split; [done|].
    split; [set_solver|apply NoDup_singleton].
  - split; [done|]. intros x. rewrite Hin, appendUnique_In. set_solver.
Qed.

Lemma same_responses_media rs rs' :
  perm2 same_response rs rs' →
  rs.*1 ≡ₚ rs'.*1 ∧ ∀ x, x ∈ (rs ≫= λ r, rs_Content r.2) ↔ x ∈ (rs' ≫= λ r, rs_Content r.2).
Proof.
  intros (k & Hp & Hk). split.
  - rewrite Hp. clear Hp. induction Hk as [|r r' k rs' [Hr _] _ IH]; csimpl; [done|].
    by rewrite Hr, IH.
  - intros x. rewrite Hp. clear Hp. induction Hk as [|r r' k rs' [_ Hr] _ IH]; csimpl; [done|].
    rewrite !elem_of_app, IH. by rewrite Hr.
Qed.

Lemma collect_item_same path m o o' : same_operation o o' → collect_item path m o = collect_item path m o'.
Proof.
  intros [Hid Htags Hpar Hbody Hresp]. unfold collect_item.
  rewrite Hid, Htags, Hpar. destruct (string_empty _); [done|]. destruct (capabilityFor _ _); [|done].
  assert (sort_Strings (match RequestBody o with Some body => rb_Content body | None => [] end) =
    sort_Strings (match RequestBody o' with Some body => rb_Content body | None => [] end)) as ->
    by (destruct Hbody; [by apply sort_Strings_perm|done]).
  destruct (same_responses_media _ _ Hresp) as [Hcodes Hmedia].
  assert (successStatus (Responses o) = successStatus (Responses o')) as ->.
  { unfold successStatus. by rewrite (foldl_perm _ _ _ _ better_status_comm Hcodes). }
  assert (sort_Strings (foldl appendUnique [] (Responses o ≫= λ r, rs_Content r.2)) =
    sort_Strings (foldl appendUnique [] (Responses o' ≫= λ r, rs_Content r.2))) as ->; [|done].
  apply sort_Strings_perm.
  destruct (foldl_appendUnique [] (Responses o ≫= λ r, rs_Content r.2) (NoDup_nil_2)) as [H1 H2].
  destruct (foldl_appendUnique [] (Responses o' ≫= λ r, rs_Content r.2) (NoDup_nil_2)) as [H1' H2'].
  apply NoDup_Permutation; [done..|]. intros x. rewrite H2, H2', Hmedia. done.
Qed.

Lemma collect_paths_same d d' : same_document d d' → agree (collect_paths d) (collect_paths d').
Proof.
  intros Hd. rewrite !collect_paths_concat. eapply concat_results_perm2; [|exact Hd].
  intros [path items] [path' items'] [Heq Hi]. simpl in *. subst path'. rewrite !collect_path_concat.
  eapply concat_results_perm2; [|exact Hi]. intros [m o] [m' o'] [Hm Ho]. simpl in *. subst m'.
  rewrite (collect_item_same _ _ _ _ Ho). apply agree_refl.
Qed.

(** ** What is collected *)

(** The entries of a document that make an operation. *)
Definition listed (d : document) (path method : string) (o : operation) : Prop :=
  ∃ items, (path, items) ∈ d ∧ (method, o) ∈ items ∧ ToLower method ∈ httpMethods.

Lemma collect_path_spec path items :
  match collect_path path items with
  | Ok l => ∀ g, g ∈ l ↔ ∃ m o, (m, o) ∈ items ∧ ToLower m ∈ httpMethods ∧ collect_item path m o = Ok g
  | Err e => ∃ m o, (m, o) ∈ items ∧ ToLower m ∈ httpMethods ∧ collect_item path m o = Err e
  end.
Proof.
  induction items as [|[m o] items IH]; simpl; [set_solver|].
  case_bool_decide as Hm.
  - destruct (collect_item path m o) as [g|e] eqn:Hg; cbn [mbind result_bind]; [|set_solver].
    destruct (collect_path path items) as [l|e]; cbn [mbind result_bind]; [|set_solver].
    intros g'. rewrite elem_of_cons, IH. split.
    + intros [->|(m' & o' & ? & ? & ?)]; [exists m, o|exists m', o']; split_and!; set_solver.
    + intros (m' & o' & [[= -> ->]|Hin]%elem_of_cons & Hm' & Hg'); [left; congruence|right; eauto].
  - destruct (collect_path path items) as [l|e]; [|set_solver].
    intros g. rewrite IH. split; [set_solver|].
    intros (m' & o' & [[= -> ->]|Hin]%elem_of_cons & Hm' & Hg'); [done|eauto].
Qed.

Lemma collect_paths_spec d :
  match collect_paths d with
  | Ok l => ∀ g, g ∈ l ↔ ∃ path m o, listed d path m o ∧ collect_item path m o = Ok g
  | Err e => ∃ path m o, listed d path m o ∧ collect_item path m o = Err e
  end.
Proof.
  unfold listed. induction d as [|[path items] d IH]; simpl; [set_solver|].
  pose proof (collect_path_spec path items) as Hp.
  destruct (collect_path path items) as [l|e]; cbn [mbind result_bind].
  2:{ destruct Hp as (m & o & ? & ? & ?). exists path, m, o. split; [|done]. exists items. set_solver. }
  destruct (collect_paths d) as [rest|e]; cbn [mbind result_bind].
  2:{ destruct IH as (p & m & o & (i & ? & ?) & ?). exists p, m, o. split; [|done]. exists i. set_solver. }
  intros g. rewrite elem_of_app, Hp, IH. split.
  - intros [(m & o & ? & ? & ?)|(p & m & o & (i & ? & ? & ?) & ?)].
    + exists path, m, o. split; [|done]. exists items. set_solver.
    + exists p, m, o. split; [|done]. exists i. set_solver.
  - intros (p & m & o & (i & [[= -> ->]|Hin]%elem_of_cons & ? & ?) & ?); [left; eauto|right].
    exists p, m, o. split; [|done]. by exists i.
Qed.

Lemma collect_item_key path m o g : collect_item path m o = Ok g → operation_key g = [path; ToUpper m].
Proof.
  unfold collect_item. destruct (string_empty _); [done|]. destruct (capabilityFor _ _); [|done].
  destruct (liveClassification _). by intros [= <-].
Qed.

(** The keys of a map are distinct; the method names also up to case. *)
Definition distinct_keys (d : document) : Prop :=
  NoDup d.*1 ∧ ∀ path items, (path, items) ∈ d → NoDup (ToUpper <$> items.*1).

Lemma collect_path_NoDup path items l :
  NoDup (ToUpper <$> items.*1) → collect_path path items = Ok l → NoDup (operation_key <$> l).
Proof.
  revert l. induction items as [|[m o] items IH]; intros l Hn; simpl; [by intros [= <-]; constructor|].
  csimpl in Hn. apply NoDup_cons in Hn as [Hm Hn]. pose proof (collect_path_spec path items) as Hp.
  case_bool_decide; [|by apply IH].
  destruct (collect_item path m o) as [g|] eqn:Hg; [|done].
  destruct (collect_path path items) as [rest|]; [|done]. cbn. intros [= <-]. csimpl.
  apply NoDup_cons. split; [|by apply IH]. intros (g' & Hk & Hin)%list_elem_of_fmap.
  apply Hp in Hin as (m' & o' & Hin & _ & Hg'). apply Hm.
  rewrite (collect_item_key _ _ _ _ Hg), (collect_item_key _ _ _ _ Hg') in Hk. injection Hk as ->.
  apply list_elem_of_fmap_2. apply list_elem_of_fmap. by exists (m', o').
Qed.

Lemma collect_paths_NoDup d l : distinct_keys d → collect_paths d = Ok l → NoDup (operation_key <$> l).
Proof.
  intros [Hd Hi]. revert l. induction d as [|[path items] d IH]; intros l; simpl; [by intros [= <-]; constructor|].
  csimpl in Hd. apply NoDup_cons in Hd as [Hpath Hd].
  pose proof (collect_path_spec path items) as Hp. pose proof (collect_paths_spec d) as Hps.
  destruct (collect_path path items) as [m|] eqn:Hm; [|done].
  destruct (collect_paths d) as [rest|]; [|done]. cbn. intros [= <-]. rewrite fmap_app.
  apply NoDup_app. split_and!.
  - eapply collect_path_NoDup; [|done]. apply (Hi path). by left.
  - intros k (g & -> & Hin)%list_elem_of_fmap (g' & Hk & Hin')%list_elem_of_fmap.
    apply Hp in Hin as (? & ? & ? & ? & Hg%collect_item_key).
    apply Hps in Hin' as (p & m' & o' & (i & Hin & _) & Hg'%collect_item_key).
    rewrite Hg, Hg' in Hk. injection Hk as -> _. apply Hpath. apply list_elem_of_fmap. by exists (p, i).
  - apply IH; [done| |done]. intros p i Hin. apply (Hi p). by right.
Qed.

Lemma capabilityFor_valid path tags c : capabilityFor path tags = Some c → validCapability c = true.
Proof. unfold capabilityFor. repeat case_match; try done; by intros [= <-]. Qed.

Lemma successStatus_range rs : (200 ≤ successStatus rs < 300)%Z.
Proof.
  unfold successStatus. generalize (rs.*1). intros cs.
  assert (∀ r, (r = 0 ∨ 200 ≤ r < 300)%Z →
    (foldl better_status r cs = 0 ∨ 200 ≤ foldl better_status r cs < 300)%Z) as Hall.
  { induction cs as [|c cs IH]; intros r Hr; simpl; [done|]. apply IH. unfold better_status.
    destruct (Atoi c); [|done]. destruct (_ && _ && _) eqn:E; [|done]. right.
    apply andb_true_iff in E as [[?%Z.leb_le ?%Z.ltb_lt]%andb_true_iff _]. lia. }
  destruct (Hall 0%Z (or_introl eq_refl)) as [->|H]; simpl; [lia|].
  destruct (foldl _ _ _ =? 0)%Z eqn:E; lia.
Qed.

Lemma collect_path_all path items l m o :
  collect_path path items = Ok l → (m, o) ∈ items → ToLower m ∈ httpMethods →
  ∃ g, collect_item path m o = Ok g.
Proof.
  revert l. induction items as [|[m' o'] items IH]; intros l; simpl; [by intros _ ?%elem_of_nil|].
  intros Hl [[= -> ->]|Hin]%elem_of_cons Hm.
  - rewrite bool_decide_true in Hl by done. destruct (collect_item path m' o'); [by eauto|done].
  - case_bool_decide; [|by eapply IH]. destruct (collect_item path m' o'); [|done].
    destruct (collect_path path items); [|done]. by eapply IH.
Qed.

Lemma collect_paths_all d l path m o :
  collect_paths d = Ok l → listed d path m o → ∃ g, collect_item path m o = Ok g.
Proof.
  revert l. induction d as [|[p items] d IH]; intros l; simpl; [by intros _ (? & ?%elem_of_nil & _)|].
  intros Hl (i & [[= -> ->]|Hin]%elem_of_cons & Hi & Hm).
  - destruct (collect_path p items) eqn:Hp; [|done]. by eapply collect_path_all.
  - destruct (collect_path p items); [|done]. destruct (collect_paths d); [|done].
    eapply IH; [done|]. by exists i.
Qed.

Lemma collectOperations_same d d' :
  same_document d d' → distinct_keys d →
  match collectOperations d, collectOperations d' with
  | Ok l, Ok l' => l = l'
  | Err _, Err _ => True
  | _, _ => False
  end.
Proof.
  intros Hs Hd. pose proof (collect_paths_same _ _ Hs) as Ha. unfold collectOperations.
  pose proof (λ l, collect_paths_NoDup d l Hd) as Hn.
  destruct (collect_paths d) as [l|], (collect_paths d') as [l'|]; simpl in *; try done.
  eapply sorted_unique; [exact operation_less_key| | |by eapply sorted_le, operation_less_key..].
  - rewrite merge_sort_Permutation. by apply Hn.
  - by rewrite !merge_sort_Permutation.
Qed.

(** Every visit of the surfaces gives one list of events. *)
Lemma collectEvents_same inventory inventory' :
  Surfaces inventory ≡ₚ Surfaces inventory' → collectEvents inventory = collectEvents inventory'.
Proof.
  intros Hp. unfold collectEvents.
  eapply StronglySorted_unique_strong; [|by eapply sorted_le, event_less_key..|].
  - intros [] [] _ _ H1 H2. pose proof (le_of_key _ _ event_less_key _ _ H1 H2) as Hk. by injection Hk as -> -> ->.
  - rewrite !merge_sort_Permutation. by rewrite Hp.
Qed.

Lemma perm2_refl {A} (R : A → A → Prop) l : (∀ a, R a a) → perm2 R l l.
Proof. intros HR. exists l. split; [done|]. induction l; by constructor. Qed.

Lemma same_path_refl p : same_path p p.
Proof.
  split; [done|]. apply perm2_refl. intros i. split; [done|]. split; [done..| |].
  - destruct (RequestBody i.2); by constructor.
  - by apply perm2_refl.
Qed.

Lemma Forall2_perm_l {A B} (R : A → B → Prop) l l' k :
  Forall2 R l k → l ≡ₚ l' → ∃ k', k ≡ₚ k' ∧ Forall2 R l' k'.
Proof.
  intros HF Hp. revert k HF. induction Hp as [|x l l' _ IH|x y l|l1 l2 l3 _ IH1 _ IH2]; intros k HF.
  - by exists k.
  - apply Forall2_cons_inv_l in HF as (b & k1 & Hb & Hk & ->). destruct (IH _ Hk) as (k' & Hpk & Hk').
    exists (b :: k'). split; [by rewrite Hpk|by constructor].
  - apply Forall2_cons_inv_l in HF as (a & k1 & Ha & Hk & ->).
    apply Forall2_cons_inv_l in Hk as (b & k2 & Hb & Hk & ->).
    exists (b :: a :: k2). split; [apply perm_swap|by repeat constructor].
  - destruct (IH1 _ HF) as (k1 & Hp1 & H1). destruct (IH2 _ H1) as (k2 & Hp2 & H2).
    exists k2. split; [by etrans|done].
Qed.

Lemma Forall2_perm_r {A B} (R : A → B → Prop) l k k' :
  Forall2 R l k → k ≡ₚ k' → ∃ l', l ≡ₚ l' ∧ Forall2 R l' k'.
Proof.
  intros HF%Forall2_flip Hp. destruct (Forall2_perm_l _ _ _ _ HF Hp) as (l' & H1 & H2%Forall2_flip).
  by exists l'.
Qed.

Lemma perm2_trans {A} (R : A → A → Prop) l1 l2 l3 :
  (∀ a b c, R a b → R b c → R a c) → perm2 R l1 l2 → perm2 R l2 l3 → perm2 R l1 l3.
Proof.
  intros HR (k1 & Hp1 & H1) (k2 & Hp2 & H2). destruct (Forall2_perm_r _ _ _ _ H1 Hp2) as (k & Hp & Hk).
  exists k. split; [by etrans|]. clear -HR Hk H2. revert k Hk.
  induction H2 as [|b c k2 l3 Hbc _ IH]; intros k Hk.
  - by apply Forall2_nil_inv_r in Hk as ->.
  - apply Forall2_cons_inv_r in Hk as (a & k' & Ha & Hk' & ->). constructor; [by eapply HR|by apply IH].
Qed.

Lemma same_document_length d d' : same_document d d' → length d' = length d.
Proof. intros (k & Hp & HF). rewrite Hp. symmetry. by eapply Forall2_length. Qed.

Lemma same_document_trans d1 d2 d3 : same_document d1 d2 → same_document d2 d3 → same_document d1 d3.
Proof.
  apply perm2_trans. intros p1 p2 p3 [H1 Hi1] [H2 Hi2]. split; [congruence|].
  eapply perm2_trans; [|exact Hi1|exact Hi2].
  intros i1 i2 i3 [Hk1 [? ? ? Hb1 Hr1]] [Hk2 [? ? ? Hb2 Hr2]]. split; [congruence|].
  split; [congruence..| |].
  - destruct (RequestBody i1.2), (RequestBody i2.2), (RequestBody i3.2);
      inversion Hb1; inversion Hb2; subst; constructor. by etrans.
  - eapply perm2_trans; [|exact Hr1|exact Hr2]. intros r1 r2 r3 [? ?] [? ?].
    split; [congruence|by etrans].
Qed.

(** ** Properties *)

(** What the generator collects: exactly the operations of the five methods,
    strictly sorted by path and method, each with a capability of the registry
    and a success status; it fails exactly when one of them has no identifier or
    no capability. *)
Theorem collectOperations_spec d :
  distinct_keys d →
  match collectOperations d with
  | Ok l =>
      StronglySorted (λ a b, operation_less a b = true) l ∧
      (∀ g, g ∈ l ↔ ∃ path m o, listed d path m o ∧ collect_item path m o = Ok g) ∧
      (∀ path m o, listed d path m o → ∃ g, g ∈ l ∧ collect_item path m o = Ok g) ∧
      (∀ g, g ∈ l → g_OperationID g ≠ "" ∧ validCapability (g_Capability g) = true ∧
         (200 ≤ g_SuccessStatus g < 300)%Z)
  | Err _ => ∃ path m o, listed d path m o ∧
      (OperationID o = "" ∨ capabilityFor path (Tags o) = None)
  end.
Proof.
  intros Hd. pose proof (collect_paths_spec d) as Hp. unfold collectOperations.
  pose proof (λ l, collect_paths_NoDup d l Hd) as Hn. pose proof (collect_paths_all d) as Hall.
  destruct (collect_paths d) as [l|e]; cbn [mbind result_bind].
  - assert (∀ g, g ∈ merge_sort (le_of operation_less) l ↔
      ∃ path m o, listed d path m o ∧ collect_item path m o = Ok g) as Hin.
    { intros g. by rewrite merge_sort_Permutation. }
    split_and!; [|exact Hin| |].
    + eapply sorted_strictly; [exact operation_less_key| |by eapply sorted_le, operation_less_key].
      rewrite merge_sort_Permutation. by apply Hn.
    + intros path m o Hl. destruct (Hall _ _ _ _ eq_refl Hl) as [g Hg]. exists g. split; [|done].
      apply Hin. by exists path, m, o.
    + intros g (path & m & o & _ & Hg)%Hin. revert Hg. unfold collect_item.
      destruct (string_empty (OperationID o)) eqn:Hid; [done|].
      destruct (capabilityFor _ _) eqn:Hc; [|done]. destruct (liveClassification _). intros [= <-].
      split_and!; [by intros He; simpl in He; rewrite He in Hid|by eapply capabilityFor_valid|apply successStatus_range..].
  - destruct Hp as (path & m & o & Hl & He). exists path, m, o. split; [done|]. revert He. unfold collect_item.
    destruct (OperationID o) eqn:Hid; [by left|]. simpl.
    destruct (capabilityFor _ _) eqn:Hc; [|by right]. by destruct (liveClassification _).
Qed.

(** C29. The generator is reproducible and complete.  Of a document in which no
    path and, up to case, no method of a path comes twice, any two visits, in
    whatever order Go's maps are walked (paths, methods, media types and
    responses), give the same: the entries of exactly the operations under the
    five methods, strictly sorted by path and method; or both fail, and then some
    operation has no identifier or no capability. *)
Theorem collectOperations_deterministic d d' :
  same_document d d' → distinct_keys d →
  match collectOperations d, collectOperations d' with
  | Ok l, Ok l' => l' = l ∧
      StronglySorted (λ a b, operation_less a b = true) l ∧
      (∀ g, g ∈ l ↔ ∃ path m o, listed d path m o ∧ collect_item path m o = Ok g) ∧
      (∀ path m o, listed d path m o → OperationID o ≠ "" ∧ is_Some (capabilityFor path (Tags o)))
  | Err _, Err _ => ∃ path m o, listed d path m o ∧
      (OperationID o = "" ∨ capabilityFor path (Tags o) = None)
  | _, _ => False
  end.
Proof.
  intros Hs Hd. pose proof (collectOperations_same d d' Hs Hd) as Hsame.
  pose proof (collectOperations_spec d Hd) as Hspec.
  destruct (collectOperations d) as [l|e], (collectOperations d') as [l'|e']; try done.
  destruct Hspec as (Hsorted & Hin & Hall & _). split_and!; [done..|].
  intros path m o Hl. destruct (Hall path m o Hl) as (g & _ & Hg). revert Hg. unfold collect_item.
  destruct (string_empty (OperationID o)) eqn:Hid; [done|]. destruct (capabilityFor _ _) eqn:Hc; [|done].
  intros _. split; [by intros He; rewrite He in Hid|by eexists].
Qed.

(** ** Witnesses *)

(** One document, visited in two orders. *)
Definition example_operation (id : string) : operation :=
  mkGenOperation id ["Models"] ["query"] None
    [("200", mkGenResponse ["application/json"]); ("201", mkGenResponse ["text/plain"])].
Definition example_document : document :=
  [("/models", [("get", example_operation "listModels")]);
   ("/models/{model}", [("get", example_operation "getModel"); ("DELETE", example_operation "deleteModel");
                        ("parameters", example_operation "")])].
Definition example_visit : document :=
  [("/models/{model}", [("parameters", example_operation ""); ("DELETE", example_operation "deleteModel");
                        ("get", example_operation "getModel")]);
   ("/models", [("get", example_operation "listModels")])].

Lemma example_same : same_document example_document example_visit.
Proof.
  exists (reverse example_document). split; [by rewrite reverse_Permutation|].
  constructor; [|constructor; [apply same_path_refl|constructor]].
  split; [done|]. exists (reverse [("get", example_operation "getModel");
    ("DELETE", example_operation "deleteModel"); ("parameters", example_operation "")]).
  split; [by rewrite reverse_Permutation|].
  repeat constructor; by apply perm2_refl.
Qed.

Lemma example_distinct : distinct_keys example_document.
Proof.
  split; [apply (bool_decide_unpack _); by vm_compute|].
  intros path items Hin. unfold example_document in Hin.
  apply elem_of_cons in Hin as [[= -> ->]|[[= -> ->]|?%elem_of_nil]%elem_of_cons]; [..|done];
    apply (bool_decide_unpack _); by vm_compute.
Qed.

Lemma collectOperations_deterministic_witness :
  g_OperationID <$> match collectOperations example_document with Ok l => l | Err _ => [] end =
    ["listModels"; "deleteModel"; "getModel"] ∧
  collectOperations example_document = collectOperations example_visit.
Proof.
  split; [by vm_compute|].
  pose proof (collectOperations_deterministic _ _ example_same example_distinct) as H.
  destruct (collectOperations example_document) as [l|e] eqn:E; [|by vm_compute in E].
  destruct (collectOperations example_visit) as [l'|e]; [|done]. by destruct H as [-> _].
Defined.

Lemma collectOperations_spec_witness :
  StronglySorted (λ a b, operation_less a b = true)
    match collectOperations example_document with Ok l => l | Err _ => [] end.
Proof.
  pose proof (collectOperations_spec _ example_distinct) as H.
  destruct (collectOperations example_document) as [l|e] eqn:E; [by destruct H|by vm_compute in E].
Defined.
