(* ===== verification/SpecData.v ===== *)
(** What the generator decodes of the two inputs the repository has for it:
    [spec/openai/openapi.json] and [spec/openai/realtime-events.json], in the
    order of the files.  The document is cut in two to keep the terms small. *)
From S2P Require Import Prelude Generator.

Definition openapi_1 : document :=
  [("/assistants", [("get", mkGenOperation "listAssistants" ["Assistants"]
        ["query"; "query"; "query"; "query"] None
        [("200", mkGenResponse ["application/json"]); ("429", mkGenResponse [])]);
     ("post", mkGenOperation "createAssistant" ["Assistants"]
        [] (Some (mkRequestBody ["application/json"]))
        [("200", mkGenResponse ["application/json"]); ("429", mkGenResponse [])])]);
   ("/assistants/{assistant_id}", [("get", mkGenOperation "getAssistant" ["Assistants"]
        ["path"] None
        [("200", mkGenResponse ["application/json"]); ("429", mkGenResponse [])]);
     ("post", mkGenOperation "modifyAssistant" ["Assistants"]
        ["path"] (Some (mkRequestBody ["application/json"]))
        [("200", mkGenResponse ["application/json"]); ("429", mkGenResponse [])]);
     ("delete", mkGenOperation "deleteAssistant" ["Assistants"]
        ["path"] None
        [("200", mkGenResponse ["application/json"]); ("429", mkGenResponse [])])]);
   ("/audio/speech", [("post", mkGenOperation "createSpeech" ["Audio"]
        [] (Some (mkRequestBody ["application/json"]))
        [("200", mkGenResponse ["application/octet-stream"; "text/event-stream"]); ("429", mkGenResponse [])])]);
   ("/audio/transcriptions", [("post", mkGenOperation "createTranscription" ["Audio"]
        [] (Some (mkRequestBody ["multipart/form-data"]))
        [("200", mkGenResponse ["application/json"; "text/event-stream"]); ("429", mkGenResponse [])])]);
   ("/audio/translations", [("post", mkGenOperation "createTranslation" ["Audio"]
        [] (Some (mkRequestBody ["multipart/form-data"]))
        [("200", mkGenResponse ["application/json"]); ("429", mkGenResponse [])])]);
   ("/audio/voice_consents", [("post", mkGenOperation "createVoiceConsent" ["Audio"]
        [] (Some (mkRequestBody ["multipart/form-data"]))
        [("200", mkGenResponse ["application/json"])]);
     ("get", mkGenOperation "listVoiceConsents" ["Audio"]
        ["query"; "query"] None
        [("200", mkGenResponse ["application/json"])])]);
   ("/audio/voice_consents/{consent_id}", [("get", mkGenOperation "getVoiceConsent" ["Audio"]
        ["path"] None
        [("200", mkGenResponse ["application/json"])]);
     ("post", mkGenOperation "updateVoiceConsent" ["Audio"]
        ["path"] (Some (mkRequestBody ["application/json"]))
        [("200", mkGenResponse ["application/json"])]);
     ("delete", mkGenOperation "deleteVoiceConsent" ["Audio"]
        ["path"] None
        [("200", mkGenResponse ["application/json"])])]);
   ("/audio/voices", [("post", mkGenOperation "createVoice" ["Audio"]
        [] (Some (mkRequestBody ["multipart/form-data"]))
        [("200", mkGenResponse ["application/json"])])]);
   ("/batches", [("post", mkGenOperation "createBatch" ["Batch"]
        [] (Some (mkRequestBody ["application/json"]))
        [("200", mkGenResponse ["application/json"])]);
     ("get", mkGenOperation "listBatches" ["Batch"]
        ["query"; "query"] None
        [("200", mkGenResponse ["application/json"])])]);
   ("/batches/{batch_id}", [("get", mkGenOperation "retrieveBatch" ["Batch"]
        ["path"] None
        [("200", mkGenResponse ["application/json"])])]);
   ("/batches/{batch_id}/cancel", [("post", mkGenOperation "cancelBatch" ["Batch"]
        ["path"] None
        [("200", mkGenResponse ["application/json"])])]);
   ("/chat/completions", [("get", mkGenOperation "listChatCompletions" ["Chat"]
        ["query"; "query"; "query"; "query"; "query"] None
        [("200", mkGenResponse ["application/json"])]);
     ("post", mkGenOperation "createChatCompletion" ["Chat"]
        [] (Some (mkRequestBody ["application/json"]))
        [("200", mkGenResponse ["application/json"; "text/event-stream"]); ("429", mkGenResponse [])])]);
   ("/chat/completions/{completion_id}", [("get", mkGenOperation "getChatCompletion" ["Chat"]
        ["path"] None
        [("200", mkGenResponse ["application/json"])]);
     ("post", mkGenOperation "updateChatCompletion" ["Chat"]
        ["path"] (Some (mkRequestBody ["application/json"]))
        [("200", mkGenResponse ["application/json"])]);
     ("delete", mkGenOperation "deleteChatCompletion" ["Chat"]
        ["path"] None
        [("200", mkGenResponse ["application/json"])])]);
   ("/chat/completions/{completion_id}/messages", [("get", mkGenOperation "getChatCompletionMessages" ["Chat"]
        ["path"; "query"; "query"; "query"] None
        [("200", mkGenResponse ["application/json"])])]);
   ("/completions", [("post", mkGenOperation "createCompletion" ["Completions"]
        [] (Some (mkRequestBody ["application/json"]))
        [("200", mkGenResponse ["application/json"]); ("429", mkGenResponse [])])]);
   ("/containers", [("get", mkGenOperation "ListContainers" []
        ["query"; "query"; "query"; "query"] None
        [("200", mkGenResponse ["application/json"]); ("429", mkGenResponse [])]);
     ("post", mkGenOperation "CreateContainer" []
        [] (Some (mkRequestBody ["application/json"]))
        [("200", mkGenResponse ["application/json"]); ("429", mkGenResponse [])])]);
   ("/containers/{container_id}", [("get", mkGenOperation "RetrieveContainer" []
        ["path"] None
        [("200", mkGenResponse ["application/json"]); ("429", mkGenResponse [])]);
     ("delete", mkGenOperation "DeleteContainer" []
        ["path"] None
        [("200", mkGenResponse []); ("429", mkGenResponse [])])]);
   ("/containers/{container_id}/files", [("post", mkGenOperation "CreateContainerFile" []
        ["path"] (Some (mkRequestBody ["application/json"; "multipart/form-data"]))
        [("200", mkGenResponse ["application/json"]); ("429", mkGenResponse [])]);
     ("get", mkGenOperation "ListContainerFiles" []
        ["path"; "query"; "query"; "query"] None
        [("200", mkGenResponse ["application/json"]); ("429", mkGenResponse [])])]);
   ("/containers/{container_id}/files/{file_id}", [("get", mkGenOperation "RetrieveContainerFile" []
        ["path"; "path"] None
        [("200", mkGenResponse ["application/json"]); ("429", mkGenResponse [])]);
     ("delete", mkGenOperation "DeleteContainerFile" []
        ["path"; "path"] None
        [("200", mkGenResponse []); ("429", mkGenResponse [])])]);
   ("/containers/{container_id}/files/{file_id}/content", [("get", mkGenOperation "RetrieveContainerFileContent" []
        ["path"; "path"] None
        [("200", mkGenResponse []); ("429", mkGenResponse [])])]);
   ("/conversations/{conversation_id}/items", [("post", mkGenOperation "createConversationItems" ["Conversations"]
        ["path"; "query"] (Some (mkRequestBody ["application/json"]))
        [("200", mkGenResponse ["application/json"]); ("429", mkGenResponse [])]);
     ("get", mkGenOperation "listConversationItems" ["Conversations"]
        ["path"; "query"; "query"; "query"; "query"] None
        [("200", mkGenResponse ["application/json"]); ("429", mkGenResponse [])])]);
   ("/conversations/{conversation_id}/items/{item_id}", [("get", mkGenOperation "getConversationItem" ["Conversations"]
        ["path"; "path"; "query"] None
        [("200", mkGenResponse ["application/json"]); ("429", mkGenResponse [])]);
     ("delete", mkGenOperation "deleteConversationItem" ["Conversations"]
        ["path"; "path"] None
        [("200", mkGenResponse ["application/json"]); ("429", mkGenResponse [])])]);
   ("/embeddings", [("post", mkGenOperation "createEmbedding" ["Embeddings"]
        [] (Some (mkRequestBody ["application/json"]))
        [("200", mkGenResponse ["application/json"]); ("429", mkGenResponse [])])]);
   ("/evals", [("get", mkGenOperation "listEvals" ["Evals"]
        ["query"; "query"; "query"; "query"] None
        [("200", mkGenResponse ["application/json"]); ("429", mkGenResponse [])]);
     ("post", mkGenOperation "createEval" ["Evals"]
        [] (Some (mkRequestBody ["application/json"]))
        [("201", mkGenResponse ["application/json"]); ("429", mkGenResponse [])])]);
   ("/evals/{eval_id}", [("get", mkGenOperation "getEval" ["Evals"]
        ["path"] None
        [("200", mkGenResponse ["application/json"]); ("429", mkGenResponse [])]);
     ("post", mkGenOperation "updateEval" ["Evals"]
        ["path"] (Some (mkRequestBody ["application/json"]))
        [("200", mkGenResponse ["application/json"]); ("429", mkGenResponse [])]);
     ("delete", mkGenOperation "deleteEval" ["Evals"]
        ["path"] None
        [("200", mkGenResponse ["application/json"]); ("404", mkGenResponse ["application/json"]); ("429", mkGenResponse [])])]);
   ("/evals/{eval_id}/runs", [("get", mkGenOperation "getEvalRuns" ["Evals"]
        ["path"; "query"; "query"; "query"; "query"] None
        [("200", mkGenResponse ["application/json"]); ("429", mkGenResponse [])]);
     ("post", mkGenOperation "createEvalRun" ["Evals"]
        ["path"] (Some (mkRequestBody ["application/json"]))
        [("201", mkGenResponse ["application/json"]); ("400", mkGenResponse ["application/json"]); ("429", mkGenResponse [])])]);
   ("/evals/{eval_id}/runs/{run_id}", [("get", mkGenOperation "getEvalRun" ["Evals"]
        ["path"; "path"] None
        [("200", mkGenResponse ["application/json"]); ("429", mkGenResponse [])]);
     ("post", mkGenOperation "cancelEvalRun" ["Evals"]
        ["path"; "path"] None
        [("200", mkGenResponse ["application/json"]); ("429", mkGenResponse [])]);
     ("delete", mkGenOperation "deleteEvalRun" ["Evals"]
        ["path"; "path"] None
        [("200", mkGenResponse ["application/json"]); ("404", mkGenResponse ["application/json"]); ("429", mkGenResponse [])])]);
   ("/evals/{eval_id}/runs/{run_id}/output_items", [("get", mkGenOperation "getEvalRunOutputItems" ["Evals"]
        ["path"; "path"; "query"; "query"; "query"; "query"] None
        [("200", mkGenResponse ["application/json"]); ("429", mkGenResponse [])])]);
   ("/evals/{eval_id}/runs/{run_id}/output_items/{output_item_id}", [("get", mkGenOperation "getEvalRunOutputItem" ["Evals"]
        ["path"; "path"; "path"] None
        [("200", mkGenResponse ["application/json"]); ("429", mkGenResponse [])])]);
   ("/files", [("get", mkGenOperation "listFiles" ["Files"]
        ["query"; "query"; "query"; "query"] None
        [("200", mkGenResponse ["application/json"])]);
     ("post", mkGenOperation "createFile" ["Files"]
        [] (Some (mkRequestBody ["multipart/form-data"]))
        [("200", mkGenResponse ["application/json"])])]);
   ("/files/{file_id}", [("delete", mkGenOperation "deleteFile" ["Files"]
        ["path"] None
        [("200", mkGenResponse ["application/json"])]);
     ("get", mkGenOperation "retrieveFile" ["Files"]
        ["path"] None
        [("200", mkGenResponse ["application/json"])])]);
   ("/files/{file_id}/content", [("get", mkGenOperation "downloadFile" ["Files"]
        ["path"] None
        [("200", mkGenResponse ["application/json"])])]);
   ("/fine_tuning/alpha/graders/run", [("post", mkGenOperation "runGrader" ["Fine-tuning"]
        [] (Some (mkRequestBody ["application/json"]))
        [("200", mkGenResponse ["application/json"])])]);
   ("/fine_tuning/alpha/graders/validate", [("post", mkGenOperation "validateGrader" ["Fine-tuning"]
        [] (Some (mkRequestBody ["application/json"]))
        [("200", mkGenResponse ["application/json"])])]);
   ("/fine_tuning/checkpoints/{fine_tuned_model_checkpoint}/permissions", [("get", mkGenOperation "listFineTuningCheckpointPermissions" ["Fine-tuning"]
        ["path"; "query"; "query"; "query"; "query"] None
        [("200", mkGenResponse ["application/json"])]);
     ("post", mkGenOperation "createFineTuningCheckpointPermission" ["Fine-tuning"]
        ["path"] (Some (mkRequestBody ["application/json"]))
        [("200", mkGenResponse ["application/json"])])]);
   ("/fine_tuning/checkpoints/{fine_tuned_model_checkpoint}/permissions/{permission_id}", [("delete", mkGenOperation "deleteFineTuningCheckpointPermission" ["Fine-tuning"]
        ["path"; "path"] None
        [("200", mkGenResponse ["application/json"])])]);
   ("/fine_tuning/jobs", [("post", mkGenOperation "createFineTuningJob" ["Fine-tuning"]
        [] (Some (mkRequestBody ["application/json"]))
        [("200", mkGenResponse ["application/json"])]);
     ("get", mkGenOperation "listPaginatedFineTuningJobs" ["Fine-tuning"]
        ["query"; "query"; "query"] None
        [("200", mkGenResponse ["application/json"])])]);
   ("/fine_tuning/jobs/{fine_tuning_job_id}", [("get", mkGenOperation "retrieveFineTuningJob" ["Fine-tuning"]
        ["path"] None
        [("200", mkGenResponse ["application/json"])])]);
   ("/fine_tuning/jobs/{fine_tuning_job_id}/cancel", [("post", mkGenOperation "cancelFineTuningJob" ["Fine-tuning"]
        ["path"] None
        [("200", mkGenResponse ["application/json"])])]);
   ("/fine_tuning/jobs/{fine_tuning_job_id}/checkpoints", [("get", mkGenOperation "listFineTuningJobCheckpoints" ["Fine-tuning"]
        ["path"; "query"; "query"] None
        [("200", mkGenResponse ["application/json"])])]);
   ("/fine_tuning/jobs/{fine_tuning_job_id}/events", [("get", mkGenOperation "listFineTuningEvents" ["Fine-tuning"]
        ["path"; "query"; "query"] None
        [("200", mkGenResponse ["application/json"])])]);
   ("/fine_tuning/jobs/{fine_tuning_job_id}/pause", [("post", mkGenOperation "pauseFineTuningJob" ["Fine-tuning"]
        ["path"] None
        [("200", mkGenResponse ["application/json"])])]);
   ("/fine_tuning/jobs/{fine_tuning_job_id}/resume", [("post", mkGenOperation "resumeFineTuningJob" ["Fine-tuning"]
        ["path"] None
        [("200", mkGenResponse ["application/json"])])]);
   ("/images/edits", [("post", mkGenOperation "createImageEdit" ["Images"]
        [] (Some (mkRequestBody ["multipart/form-data"; "application/json"]))
        [("200", mkGenResponse ["application/json"; "text/event-stream"])])]);
   ("/images/generations", [("post", mkGenOperation "createImage" ["Images"]
        [] (Some (mkRequestBody ["application/json"]))
        [("200", mkGenResponse ["application/json"; "text/event-stream"])])]);
   ("/images/variations", [("post", mkGenOperation "createImageVariation" ["Images"]
        [] (Some (mkRequestBody ["multipart/form-data"]))
        [("200", mkGenResponse ["application/json"])])]);
   ("/models", [("get", mkGenOperation "listModels" ["Models"]
        [] None
        [("200", mkGenResponse ["application/json"])])]);
   ("/models/{model}", [("get", mkGenOperation "retrieveModel" ["Models"]
        ["path"] None
        [("200", mkGenResponse ["application/json"])]);
     ("delete", mkGenOperation "deleteModel" ["Models"]
        ["path"] None
        [("200", mkGenResponse ["application/json"])])]);
   ("/moderations", [("post", mkGenOperation "createModeration" ["Moderations"]
        [] (Some (mkRequestBody ["application/json"]))
        [("200", mkGenResponse ["application/json"])])]);
   ("/organization/admin_api_keys", [("get", mkGenOperation "admin-api-keys-list" []
        ["query"; "query"; "query"] None
        [("200", mkGenResponse ["application/json"])]);
     ("post", mkGenOperation "admin-api-keys-create" []
        [] (Some (mkRequestBody ["application/json"]))
        [("200", mkGenResponse ["application/json"])])]);
   ("/organization/admin_api_keys/{key_id}", [("get", mkGenOperation "admin-api-keys-get" []
        ["path"] None
        [("200", mkGenResponse ["application/json"])]);
     ("delete", mkGenOperation "admin-api-keys-delete" []
        ["path"] None
        [("200", mkGenResponse ["application/json"])])]);
   ("/organization/audit_logs", [("get", mkGenOperation "list-audit-logs" ["Audit Logs"]
        ["query"; "query"; "query"; "query"; "query"; "query"; "query"; "query"; "query"; "query"] None
        [("200", mkGenResponse ["application/json"]); ("429", mkGenResponse [])])]);
   ("/organization/certificates", [("get", mkGenOperation "listOrganizationCertificates" ["Certificates"]
        ["query"; "query"; "query"] None
        [("200", mkGenResponse ["application/json"]); ("429", mkGenResponse [])]);
     ("post", mkGenOperation "uploadCertificate" ["Certificates"]
        [] (Some (mkRequestBody ["application/json"]))
        [("200", mkGenResponse ["application/json"]); ("429", mkGenResponse [])])]);
   ("/organization/certificates/activate", [("post", mkGenOperation "activateOrganizationCertificates" ["Certificates"]
        [] (Some (mkRequestBody ["application/json"]))
        [("200", mkGenResponse ["application/json"]); ("429", mkGenResponse [])])]);
   ("/organization/certificates/deactivate", [("post", mkGenOperation "deactivateOrganizationCertificates" ["Certificates"]
        [] (Some (mkRequestBody ["application/json"]))
        [("200", mkGenResponse ["application/json"]); ("429", mkGenResponse [])])]);
   ("/organization/certificates/{certificate_id}", [("get", mkGenOperation "getCertificate" ["Certificates"]
        ["path"; "query"] None
        [("200", mkGenResponse ["application/json"]); ("429", mkGenResponse [])]);
     ("post", mkGenOperation "modifyCertificate" ["Certificates"]
        ["path"] (Some (mkRequestBody ["application/json"]))
        [("200", mkGenResponse ["application/json"]); ("429", mkGenResponse [])]);
     ("delete", mkGenOperation "deleteCertificate" ["Certificates"]
        ["path"] None
        [("200", mkGenResponse ["application/json"]); ("429", mkGenResponse [])])]);
   ("/organization/costs", [("get", mkGenOperation "usage-costs" ["Usage"]
        ["query"; "query"; "query"; "query"; "query"; "query"; "query"; "query"] None
        [("200", mkGenResponse ["application/json"]); ("429", mkGenResponse [])])]);
   ("/organization/data_retention", [("get", mkGenOperation "retrieve-organization-data-retention" ["Data retention"]
        [] None
        [("200", mkGenResponse ["application/json"])]);
     ("post", mkGenOperation "update-organization-data-retention" ["Data retention"]
        [] (Some (mkRequestBody ["application/json"]))
        [("200", mkGenResponse ["application/json"])])]);
   ("/organization/groups", [("get", mkGenOperation "list-groups" ["Groups"]
        ["query"; "query"; "query"] None
        [("200", mkGenResponse ["application/json"]); ("429", mkGenResponse [])]);
     ("post", mkGenOperation "create-group" ["Groups"]
        [] (Some (mkRequestBody ["application/json"]))
        [("200", mkGenResponse ["application/json"]); ("429", mkGenResponse [])])]);
   ("/organization/groups/{group_id}", [("get", mkGenOperation "retrieve-group" ["Groups"]
        ["path"] None
        [("200", mkGenResponse ["application/json"]); ("429", mkGenResponse [])]);
     ("post", mkGenOperation "update-group" ["Groups"]
        ["path"] (Some (mkRequestBody ["application/json"]))
        [("200", mkGenResponse ["application/json"]); ("429", mkGenResponse [])]);
     ("delete", mkGenOperation "delete-group" ["Groups"]
        ["path"] None
        [("200", mkGenResponse ["application/json"]); ("429", mkGenResponse [])])]);
   ("/organization/groups/{group_id}/roles", [("get", mkGenOperation "list-group-role-assignments" ["Group organization role assignments"]
        ["path"; "query"; "query"; "query"] None
        [("200", mkGenResponse ["application/json"]); ("429", mkGenResponse [])]);
     ("post", mkGenOperation "assign-group-role" ["Group organization role assignments"]
        ["path"] (Some (mkRequestBody ["application/json"]))
        [("200", mkGenResponse ["application/json"]); ("429", mkGenResponse [])])]);
   ("/organization/groups/{group_id}/roles/{role_id}", [("get", mkGenOperation "retrieve-group-role" ["Group organization role assignments"]
        ["path"; "path"] None
        [("200", mkGenResponse ["application/json"]); ("429", mkGenResponse [])]);
     ("delete", mkGenOperation "unassign-group-role" ["Group organization role assignments"]
        ["path"; "path"] None
        [("200", mkGenResponse ["application/json"]); ("429", mkGenResponse [])])]);
   ("/organization/groups/{group_id}/users", [("get", mkGenOperation "list-group-users" ["Group users"]
        ["path"; "query"; "query"; "query"] None
        [("200", mkGenResponse ["application/json"]); ("429", mkGenResponse [])]);
     ("post", mkGenOperation "add-group-user" ["Group users"]
        ["path"] (Some (mkRequestBody ["application/json"]))
        [("200", mkGenResponse ["application/json"]); ("429", mkGenResponse [])])]);
   ("/organization/groups/{group_id}/users/{user_id}", [("get", mkGenOperation "retrieve-group-user" ["Group users"]
        ["path"; "path"] None
        [("200", mkGenResponse ["application/json"]); ("429", mkGenResponse [])]);
     ("delete", mkGenOperation "remove-group-user" ["Group users"]
        ["path"; "path"] None
        [("200", mkGenResponse ["application/json"]); ("429", mkGenResponse [])])]);
   ("/organization/invites", [("get", mkGenOperation "list-invites" ["Invites"]
        ["query"; "query"] None
        [("200", mkGenResponse ["application/json"])]);
     ("post", mkGenOperation "inviteUser" ["Invites"]
        [] (Some (mkRequestBody ["application/json"]))
        [("200", mkGenResponse ["application/json"])])]);
   ("/organization/invites/{invite_id}", [("get", mkGenOperation "retrieve-invite" ["Invites"]
        ["path"] None
        [("200", mkGenResponse ["application/json"])]);
     ("delete", mkGenOperation "delete-invite" ["Invites"]
        ["path"] None
        [("200", mkGenResponse ["application/json"])])]);
   ("/organization/projects", [("get", mkGenOperation "list-projects" ["Projects"]
        ["query"; "query"; "query"] None
        [("200", mkGenResponse ["application/json"])]);
     ("post", mkGenOperation "create-project" ["Projects"]
        [] (Some (mkRequestBody ["application/json"]))
        [("200", mkGenResponse ["application/json"])])]);
   ("/organization/projects/{project_id}", [("get", mkGenOperation "retrieve-project" ["Projects"]
        ["path"] None
        [("200", mkGenResponse ["application/json"])]);
     ("post", mkGenOperation "modify-project" ["Projects"]
        ["path"] (Some (mkRequestBody ["application/json"]))
        [("200", mkGenResponse ["application/json"]); ("400", mkGenResponse ["application/json"])])]);
   ("/organization/projects/{project_id}/api_keys", [("get", mkGenOperation "list-project-api-keys" ["Projects"]
        ["path"; "query"; "query"; "query"] None
        [("200", mkGenResponse ["application/json"])])]);
   ("/organization/projects/{project_id}/api_keys/{api_key_id}", [("get", mkGenOperation "retrieve-project-api-key" ["Projects"]
        ["path"; "path"] None
        [("200", mkGenResponse ["application/json"])]);
     ("delete", mkGenOperation "delete-project-api-key" ["Projects"]
        ["path"; "path"] None
        [("200", mkGenResponse ["application/json"]); ("400", mkGenResponse ["application/json"])])]);
   ("/organization/projects/{project_id}/archive", [("post", mkGenOperation "archive-project" ["Projects"]
        ["path"] None
        [("200", mkGenResponse ["application/json"])])]);
   ("/organization/projects/{project_id}/certificates", [("get", mkGenOperation "listProjectCertificates" ["Certificates"]
        ["path"; "query"; "query"; "query"] None
        [("200", mkGenResponse ["application/json"]); ("429", mkGenResponse [])])]);
   ("/organization/projects/{project_id}/certificates/activate", [("post", mkGenOperation "activateProjectCertificates" ["Certificates"]
        ["path"] (Some (mkRequestBody ["application/json"]))
        [("200", mkGenResponse ["application/json"]); ("429", mkGenResponse [])])]);
   ("/organization/projects/{project_id}/certificates/deactivate", [("post", mkGenOperation "deactivateProjectCertificates" ["Certificates"]
        ["path"] (Some (mkRequestBody ["application/json"]))
        [("200", mkGenResponse ["application/json"]); ("429", mkGenResponse [])])]);
   ("/organization/projects/{project_id}/data_retention", [("get", mkGenOperation "retrieve-project-data-retention" ["Data retention"]
        ["path"] None
        [("200", mkGenResponse ["application/json"])]);
     ("post", mkGenOperation "update-project-data-retention" ["Data retention"]
        ["path"] (Some (mkRequestBody ["application/json"]))
        [("200", mkGenResponse ["application/json"])])]);
   ("/organization/projects/{project_id}/groups", [("get", mkGenOperation "list-project-groups" ["Project groups"]
        ["path"; "query"; "query"; "query"] None
        [("200", mkGenResponse ["application/json"]); ("429", mkGenResponse [])]);
     ("post", mkGenOperation "add-project-group" ["Project groups"]
        ["path"] (Some (mkRequestBody ["application/json"]))
        [("200", mkGenResponse ["application/json"]); ("429", mkGenResponse [])])]);
   ("/organization/projects/{project_id}/groups/{group_id}", [("get", mkGenOperation "retrieve-project-group" ["Project groups"]
        ["path"; "path"; "query"] None
        [("200", mkGenResponse ["application/json"]); ("429", mkGenResponse [])]);
     ("delete", mkGenOperation "remove-project-group" ["Project groups"]
        ["path"; "path"] None
        [("200", mkGenResponse ["application/json"]); ("429", mkGenResponse [])])]);
   ("/organization/projects/{project_id}/hosted_tool_permissions", [("get", mkGenOperation "retrieve-project-hosted-tool-permissions" ["Hosted tools"]
        ["path"] None
        [("200", mkGenResponse ["application/json"])]);
     ("post", mkGenOperation "update-project-hosted-tool-permissions" ["Hosted tools"]
        ["path"] (Some (mkRequestBody ["application/json"]))
        [("200", mkGenResponse ["application/json"])])]);
   ("/organization/projects/{project_id}/model_permissions", [("get", mkGenOperation "retrieve-project-model-permissions" ["Projects"]
        ["path"] None
        [("200", mkGenResponse ["application/json"])]);
     ("post", mkGenOperation "update-project-model-permissions" ["Projects"]
        ["path"] (Some (mkRequestBody ["application/json"]))
        [("200", mkGenResponse ["application/json"])]);
     ("delete", mkGenOperation "delete-project-model-permissions" ["Projects"]
        ["path"] None
        [("200", mkGenResponse ["application/json"])])]);
   ("/organization/projects/{project_id}/rate_limits", [("get", mkGenOperation "list-project-rate-limits" ["Projects"]
        ["path"; "query"; "query"; "query"] None
        [("200", mkGenResponse ["application/json"])])]);
   ("/organization/projects/{project_id}/rate_limits/{rate_limit_id}", [("post", mkGenOperation "update-project-rate-limits" ["Projects"]
        ["path"; "path"] (Some (mkRequestBody ["application/json"]))
        [("200", mkGenResponse ["application/json"]); ("400", mkGenResponse ["application/json"])])]);
   ("/organization/projects/{project_id}/service_accounts", [("get", mkGenOperation "list-project-service-accounts" ["Projects"]
        ["path"; "query"; "query"] None
        [("200", mkGenResponse ["application/json"]); ("400", mkGenResponse ["application/json"])]);
     ("post", mkGenOperation "create-project-service-account" ["Projects"]
        ["path"] (Some (mkRequestBody ["application/json"]))
        [("200", mkGenResponse ["application/json"]); ("400", mkGenResponse ["application/json"])])]);
   ("/organization/projects/{project_id}/service_accounts/{service_account_id}", [("get", mkGenOperation "retrieve-project-service-account" ["Projects"]
        ["path"; "path"] None
        [("200", mkGenResponse ["application/json"])]);
     ("post", mkGenOperation "update-project-service-account" ["Projects"]
        ["path"; "path"] (Some (mkRequestBody ["application/json"]))
        [("200", mkGenResponse ["application/json"])]);
     ("delete", mkGenOperation "delete-project-service-account" ["Projects"]
        ["path"; "path"] None
        [("200", mkGenResponse ["application/json"])])]);
   ("/organization/projects/{project_id}/spend_alerts", [("get", mkGenOperation "list-project-spend-alerts" ["Spend alerts"]
        ["path"; "query"; "query"; "query"; "query"] None
        [("200", mkGenResponse ["application/json"])]);
     ("post", mkGenOperation "create-project-spend-alert" ["Spend alerts"]
        ["path"] (Some (mkRequestBody ["application/json"]))
        [("200", mkGenResponse ["application/json"])])]);
   ("/organization/projects/{project_id}/spend_alerts/{alert_id}", [("get", mkGenOperation "retrieve-project-spend-alert" ["Spend alerts"]
        ["path"; "path"] None
        [("200", mkGenResponse ["application/json"])]);
     ("post", mkGenOperation "update-project-spend-alert" ["Spend alerts"]
        ["path"; "path"] (Some (mkRequestBody ["application/json"]))
        [("200", mkGenResponse ["application/json"])]);
     ("delete", mkGenOperation "delete-project-spend-alert" ["Spend alerts"]
        ["path"; "path"] None
        [("200", mkGenResponse ["application/json"])])]);
   ("/organization/projects/{project_id}/users", [("get", mkGenOperation "list-project-users" ["Projects"]
        ["path"; "query"; "query"] None
        [("200", mkGenResponse ["application/json"]); ("400", mkGenResponse ["application/json"])]);
     ("post", mkGenOperation "create-project-user" ["Projects"]
        ["path"] (Some (mkRequestBody ["application/json"]))
        [("200", mkGenResponse ["application/json"]); ("400", mkGenResponse ["application/json"])])]);
   ("/organization/projects/{project_id}/users/{user_id}", [("get", mkGenOperation "retrieve-project-user" ["Projects"]
        ["path"; "path"] None
        [("200", mkGenResponse ["application/json"])]);
     ("post", mkGenOperation "modify-project-user" ["Projects"]
        ["path"; "path"] (Some (mkRequestBody ["application/json"]))
        [("200", mkGenResponse ["application/json"]); ("400", mkGenResponse ["application/json"])]);
     ("delete", mkGenOperation "delete-project-user" ["Projects"]
        ["path"; "path"] None
        [("200", mkGenResponse ["application/json"]); ("400", mkGenResponse ["application/json"])])]);
   ("/organization/roles", [("get", mkGenOperation "list-roles" ["Roles"]
        ["query"; "query"; "query"] None
        [("200", mkGenResponse ["application/json"]); ("429", mkGenResponse [])]);
     ("post", mkGenOperation "create-role" ["Roles"]
        [] (Some (mkRequestBody ["application/json"]))
        [("200", mkGenResponse ["application/json"]); ("429", mkGenResponse [])])]);
   ("/organization/roles/{role_id}", [("get", mkGenOperation "retrieve-role" ["Roles"]
        ["path"] None
        [("200", mkGenResponse ["application/json"]); ("429", mkGenResponse [])]);
     ("post", mkGenOperation "update-role" ["Roles"]
        ["path"] (Some (mkRequestBody ["application/json"]))
        [("200", mkGenResponse ["application/json"]); ("429", mkGenResponse [])]);
     ("delete", mkGenOperation "delete-role" ["Roles"]
        ["path"] None
        [("200", mkGenResponse ["application/json"]); ("429", mkGenResponse [])])]);
   ("/organization/spend_alerts", [("get", mkGenOperation "list-organization-spend-alerts" ["Spend alerts"]
        ["query"; "query"; "query"; "query"] None
        [("200", mkGenResponse ["application/json"])]);
     ("post", mkGenOperation "create-organization-spend-alert" ["Spend alerts"]
        [] (Some (mkRequestBody ["application/json"]))
        [("200", mkGenResponse ["application/json"])])]);
   ("/organization/spend_alerts/{alert_id}", [("get", mkGenOperation "retrieve-organization-spend-alert" ["Spend alerts"]
        ["path"] None
        [("200", mkGenResponse ["application/json"])]);
     ("post", mkGenOperation "update-organization-spend-alert" ["Spend alerts"]
        ["path"] (Some (mkRequestBody ["application/json"]))
        [("200", mkGenResponse ["application/json"])]);
     ("delete", mkGenOperation "delete-organization-spend-alert" ["Spend alerts"]
        ["path"] None
        [("200", mkGenResponse ["application/json"])])])].

Definition openapi_2 : document :=
  [("/organization/usage/audio_speeches", [("get", mkGenOperation "usage-audio-speeches" ["Usage"]
        ["query"; "query"; "query"; "query"; "query"; "query"; "query"; "query"; "query"; "query"] None
        [("200", mkGenResponse ["application/json"]); ("429", mkGenResponse [])])]);
   ("/organization/usage/audio_transcriptions", [("get", mkGenOperation "usage-audio-transcriptions" ["Usage"]
        ["query"; "query"; "query"; "query"; "query"; "query"; "query"; "query"; "query"; "query"] None
        [("200", mkGenResponse ["application/json"]); ("429", mkGenResponse [])])]);
   ("/organization/usage/code_interpreter_sessions", [("get", mkGenOperation "usage-code-interpreter-sessions" ["Usage"]
        ["query"; "query"; "query"; "query"; "query"; "query"; "query"] None
        [("200", mkGenResponse ["application/json"]); ("429", mkGenResponse [])])]);
   ("/organization/usage/completions", [("get", mkGenOperation "usage-completions" ["Usage"]
        ["query"; "query"; "query"; "query"; "query"; "query"; "query"; "query"; "query"; "query"; "query"] None
        [("200", mkGenResponse ["application/json"]); ("429", mkGenResponse [])])]);
   ("/organization/usage/embeddings", [("get", mkGenOperation "usage-embeddings" ["Usage"]
        ["query"; "query"; "query"; "query"; "query"; "query"; "query"; "query"; "query"; "query"] None
        [("200", mkGenResponse ["application/json"]); ("429", mkGenResponse [])])]);
   ("/organization/usage/file_search_calls", [("get", mkGenOperation "usage-file-search-calls" ["Usage"]
        ["query"; "query"; "query"; "query"; "query"; "query"; "query"; "query"; "query"; "query"] None
        [("200", mkGenResponse ["application/json"]); ("429", mkGenResponse [])])]);
   ("/organization/usage/images", [("get", mkGenOperation "usage-images" ["Usage"]
        ["query"; "query"; "query"; "query"; "query"; "query"; "query"; "query"; "query"; "query"; "query"; "query"] None
        [("200", mkGenResponse ["application/json"]); ("429", mkGenResponse [])])]);
   ("/organization/usage/moderations", [("get", mkGenOperation "usage-moderations" ["Usage"]
        ["query"; "query"; "query"; "query"; "query"; "query"; "query"; "query"; "query"; "query"] None
        [("200", mkGenResponse ["application/json"]); ("429", mkGenResponse [])])]);
   ("/organization/usage/vector_stores", [("get", mkGenOperation "usage-vector-stores" ["Usage"]
        ["query"; "query"; "query"; "query"; "query"; "query"; "query"] None
        [("200", mkGenResponse ["application/json"]); ("429", mkGenResponse [])])]);
   ("/organization/usage/web_search_calls", [("get", mkGenOperation "usage-web-search-calls" ["Usage"]
        ["query"; "query"; "query"; "query"; "query"; "query"; "query"; "query"; "query"; "query"; "query"] None
        [("200", mkGenResponse ["application/json"]); ("429", mkGenResponse [])])]);
   ("/organization/users", [("get", mkGenOperation "list-users" ["Users"]
        ["query"; "query"; "query"] None
        [("200", mkGenResponse ["application/json"])])]);
   ("/organization/users/{user_id}", [("get", mkGenOperation "retrieve-user" ["Users"]
        ["path"] None
        [("200", mkGenResponse ["application/json"])]);
     ("post", mkGenOperation "modify-user" ["Users"]
        ["path"] (Some (mkRequestBody ["application/json"]))
        [("200", mkGenResponse ["application/json"])]);
     ("delete", mkGenOperation "delete-user" ["Users"]
        ["path"] None
        [("200", mkGenResponse ["application/json"])])]);
   ("/organization/users/{user_id}/roles", [("get", mkGenOperation "list-user-role-assignments" ["User organization role assignments"]
        ["path"; "query"; "query"; "query"] None
        [("200", mkGenResponse ["application/json"]); ("429", mkGenResponse [])]);
     ("post", mkGenOperation "assign-user-role" ["User organization role assignments"]
        ["path"] (Some (mkRequestBody ["application/json"]))
        [("200", mkGenResponse ["application/json"]); ("429", mkGenResponse [])])]);
   ("/organization/users/{user_id}/roles/{role_id}", [("get", mkGenOperation "retrieve-user-role" ["User organization role assignments"]
        ["path"; "path"] None
        [("200", mkGenResponse ["application/json"]); ("429", mkGenResponse [])]);
     ("delete", mkGenOperation "unassign-user-role" ["User organization role assignments"]
        ["path"; "path"] None
        [("200", mkGenResponse ["application/json"]); ("429", mkGenResponse [])])]);
   ("/projects/{project_id}/groups/{group_id}/roles", [("get", mkGenOperation "list-project-group-role-assignments" ["Project group role assignments"]
        ["path"; "path"; "query"; "query"; "query"] None
        [("200", mkGenResponse ["application/json"]); ("429", mkGenResponse [])]);
     ("post", mkGenOperation "assign-project-group-role" ["Project group role assignments"]
        ["path"; "path"] (Some (mkRequestBody ["application/json"]))
        [("200", mkGenResponse ["application/json"]); ("429", mkGenResponse [])])]);
   ("/projects/{project_id}/groups/{group_id}/roles/{role_id}", [("get", mkGenOperation "retrieve-project-group-role" ["Project group role assignments"]
        ["path"; "path"; "path"] None
        [("200", mkGenResponse ["application/json"]); ("429", mkGenResponse [])]);
     ("delete", mkGenOperation "unassign-project-group-role" ["Project group role assignments"]
        ["path"; "path"; "path"] None
        [("200", mkGenResponse ["application/json"]); ("429", mkGenResponse [])])]);
   ("/projects/{project_id}/roles", [("get", mkGenOperation "list-project-roles" ["Roles"]
        ["path"; "query"; "query"; "query"] None
        [("200", mkGenResponse ["application/json"]); ("429", mkGenResponse [])]);
     ("post", mkGenOperation "create-project-role" ["Roles"]
        ["path"] (Some (mkRequestBody ["application/json"]))
        [("200", mkGenResponse ["application/json"]); ("429", mkGenResponse [])])]);
   ("/projects/{project_id}/roles/{role_id}", [("get", mkGenOperation "retrieve-project-role" ["Roles"]
        ["path"; "path"] None
        [("200", mkGenResponse ["application/json"]); ("429", mkGenResponse [])]);
     ("post", mkGenOperation "update-project-role" ["Roles"]
        ["path"; "path"] (Some (mkRequestBody ["application/json"]))
        [("200", mkGenResponse ["application/json"]); ("429", mkGenResponse [])]);
     ("delete", mkGenOperation "delete-project-role" ["Roles"]
        ["path"; "path"] None
        [("200", mkGenResponse ["application/json"]); ("429", mkGenResponse [])])]);
   ("/projects/{project_id}/users/{user_id}/roles", [("get", mkGenOperation "list-project-user-role-assignments" ["Project user role assignments"]
        ["path"; "path"; "query"; "query"; "query"] None
        [("200", mkGenResponse ["application/json"]); ("429", mkGenResponse [])]);
     ("post", mkGenOperation "assign-project-user-role" ["Project user role assignments"]
        ["path"; "path"] (Some (mkRequestBody ["application/json"]))
        [("200", mkGenResponse ["application/json"]); ("429", mkGenResponse [])])]);
   ("/projects/{project_id}/users/{user_id}/roles/{role_id}", [("get", mkGenOperation "retrieve-project-user-role" ["Project user role assignments"]
        ["path"; "path"; "path"] None
        [("200", mkGenResponse ["application/json"]); ("429", mkGenResponse [])]);
     ("delete", mkGenOperation "unassign-project-user-role" ["Project user role assignments"]
        ["path"; "path"; "path"] None
        [("200", mkGenResponse ["application/json"]); ("429", mkGenResponse [])])]);
   ("/realtime/calls", [("post", mkGenOperation "create-realtime-call" ["Realtime"]
        [] (Some (mkRequestBody ["multipart/form-data"; "application/sdp"]))
        [("201", mkGenResponse ["application/sdp"])])]);
   ("/realtime/calls/{call_id}/accept", [("post", mkGenOperation "accept-realtime-call" ["Realtime"]
        ["path"] (Some (mkRequestBody ["application/json"]))
        [("200", mkGenResponse [])])]);
   ("/realtime/calls/{call_id}/hangup", [("post", mkGenOperation "hangup-realtime-call" ["Realtime"]
        ["path"] None
        [("200", mkGenResponse [])])]);
   ("/realtime/calls/{call_id}/refer", [("post", mkGenOperation "refer-realtime-call" ["Realtime"]
        ["path"] (Some (mkRequestBody ["application/json"]))
        [("200", mkGenResponse [])])]);
   ("/realtime/calls/{call_id}/reject", [("post", mkGenOperation "reject-realtime-call" ["Realtime"]
        ["path"] (Some (mkRequestBody ["application/json"]))
        [("200", mkGenResponse [])])]);
   ("/realtime/client_secrets", [("post", mkGenOperation "create-realtime-client-secret" ["Realtime"]
        [] (Some (mkRequestBody ["application/json"]))
        [("200", mkGenResponse ["application/json"])])]);
   ("/realtime/sessions", [("post", mkGenOperation "create-realtime-session" ["Realtime"]
        [] (Some (mkRequestBody ["application/json"]))
        [("200", mkGenResponse ["application/json"])])]);
   ("/realtime/transcription_sessions", [("post", mkGenOperation "create-realtime-transcription-session" ["Realtime"]
        [] (Some (mkRequestBody ["application/json"]))
        [("200", mkGenResponse ["application/json"])])]);
   ("/realtime/translations/client_secrets", [("post", mkGenOperation "create-realtime-translation-client-secret" ["Realtime"]
        [] (Some (mkRequestBody ["application/json"]))
        [("200", mkGenResponse ["application/json"])])]);
   ("/responses", [("post", mkGenOperation "createResponse" ["Responses"]
        [] (Some (mkRequestBody ["application/json"]))
        [("200", mkGenResponse ["application/json"; "text/event-stream"]); ("429", mkGenResponse [])])]);
   ("/responses/{response_id}", [("get", mkGenOperation "getResponse" ["Responses"]
        ["path"; "query"; "query"; "query"; "query"] None
        [("200", mkGenResponse ["application/json"]); ("429", mkGenResponse [])]);
     ("delete", mkGenOperation "deleteResponse" ["Responses"]
        ["path"] None
        [("200", mkGenResponse []); ("404", mkGenResponse ["application/json"]); ("429", mkGenResponse [])])]);
   ("/responses/{response_id}/cancel", [("post", mkGenOperation "cancelResponse" ["Responses"]
        ["path"] None
        [("200", mkGenResponse ["application/json"]); ("404", mkGenResponse ["application/json"]); ("429", mkGenResponse [])])]);
   ("/responses/{response_id}/input_items", [("get", mkGenOperation "listInputItems" ["Responses"]
        ["path"; "query"; "query"; "query"; "query"] None
        [("200", mkGenResponse ["application/json"]); ("429", mkGenResponse [])])]);
   ("/threads", [("post", mkGenOperation "createThread" ["Assistants"]
        [] (Some (mkRequestBody ["application/json"]))
        [("200", mkGenResponse ["application/json"]); ("429", mkGenResponse [])])]);
   ("/threads/runs", [("post", mkGenOperation "createThreadAndRun" ["Assistants"]
        [] (Some (mkRequestBody ["application/json"]))
        [("200", mkGenResponse ["application/json"]); ("429", mkGenResponse [])])]);
   ("/threads/{thread_id}", [("get", mkGenOperation "getThread" ["Assistants"]
        ["path"] None
        [("200", mkGenResponse ["application/json"]); ("429", mkGenResponse [])]);
     ("post", mkGenOperation "modifyThread" ["Assistants"]
        ["path"] (Some (mkRequestBody ["application/json"]))
        [("200", mkGenResponse ["application/json"]); ("429", mkGenResponse [])]);
     ("delete", mkGenOperation "deleteThread" ["Assistants"]
        ["path"] None
        [("200", mkGenResponse ["application/json"]); ("429", mkGenResponse [])])]);
   ("/threads/{thread_id}/messages", [("get", mkGenOperation "listMessages" ["Assistants"]
        ["path"; "query"; "query"; "query"; "query"; "query"] None
        [("200", mkGenResponse ["application/json"]); ("429", mkGenResponse [])]);
     ("post", mkGenOperation "createMessage" ["Assistants"]
        ["path"] (Some (mkRequestBody ["application/json"]))
        [("200", mkGenResponse ["application/json"]); ("429", mkGenResponse [])])]);
   ("/threads/{thread_id}/messages/{message_id}", [("get", mkGenOperation "getMessage" ["Assistants"]
        ["path"; "path"] None
        [("200", mkGenResponse ["application/json"]); ("429", mkGenResponse [])]);
     ("post", mkGenOperation "modifyMessage" ["Assistants"]
        ["path"; "path"] (Some (mkRequestBody ["application/json"]))
        [("200", mkGenResponse ["application/json"]); ("429", mkGenResponse [])]);
     ("delete", mkGenOperation "deleteMessage" ["Assistants"]
        ["path"; "path"] None
        [("200", mkGenResponse ["application/json"]); ("429", mkGenResponse [])])]);
   ("/threads/{thread_id}/runs", [("get", mkGenOperation "listRuns" ["Assistants"]
        ["path"; "query"; "query"; "query"; "query"] None
        [("200", mkGenResponse ["application/json"]); ("429", mkGenResponse [])]);
     ("post", mkGenOperation "createRun" ["Assistants"]
        ["path"; "query"] (Some (mkRequestBody ["application/json"]))
        [("200", mkGenResponse ["application/json"]); ("429", mkGenResponse [])])]);
   ("/threads/{thread_id}/runs/{run_id}", [("get", mkGenOperation "getRun" ["Assistants"]
        ["path"; "path"] None
        [("200", mkGenResponse ["application/json"]); ("429", mkGenResponse [])]);
     ("post", mkGenOperation "modifyRun" ["Assistants"]
        ["path"; "path"] (Some (mkRequestBody ["application/json"]))
        [("200", mkGenResponse ["application/json"]); ("429", mkGenResponse [])])]);
   ("/threads/{thread_id}/runs/{run_id}/cancel", [("post", mkGenOperation "cancelRun" ["Assistants"]
        ["path"; "path"] None
        [("200", mkGenResponse ["application/json"]); ("429", mkGenResponse [])])]);
   ("/threads/{thread_id}/runs/{run_id}/steps", [("get", mkGenOperation "listRunSteps" ["Assistants"]
        ["path"; "path"; "query"; "query"; "query"; "query"; "query"] None
        [("200", mkGenResponse ["application/json"]); ("429", mkGenResponse [])])]);
   ("/threads/{thread_id}/runs/{run_id}/steps/{step_id}", [("get", mkGenOperation "getRunStep" ["Assistants"]
        ["path"; "path"; "path"; "query"] None
        [("200", mkGenResponse ["application/json"]); ("429", mkGenResponse [])])]);
   ("/threads/{thread_id}/runs/{run_id}/submit_tool_outputs", [("post", mkGenOperation "submitToolOuputsToRun" ["Assistants"]
        ["path"; "path"] (Some (mkRequestBody ["application/json"]))
        [("200", mkGenResponse ["application/json"]); ("429", mkGenResponse [])])]);
   ("/uploads", [("post", mkGenOperation "createUpload" ["Uploads"]
        [] (Some (mkRequestBody ["application/json"]))
        [("200", mkGenResponse ["application/json"])])]);
   ("/uploads/{upload_id}/cancel", [("post", mkGenOperation "cancelUpload" ["Uploads"]
        ["path"] None
        [("200", mkGenResponse ["application/json"])])]);
   ("/uploads/{upload_id}/complete", [("post", mkGenOperation "completeUpload" ["Uploads"]
        ["path"] (Some (mkRequestBody ["application/json"]))
        [("200", mkGenResponse ["application/json"])])]);
   ("/uploads/{upload_id}/parts", [("post", mkGenOperation "addUploadPart" ["Uploads"]
        ["path"] (Some (mkRequestBody ["multipart/form-data"]))
        [("200", mkGenResponse ["application/json"])])]);
   ("/vector_stores", [("get", mkGenOperation "listVectorStores" ["Vector stores"]
        ["query"; "query"; "query"; "query"] None
        [("200", mkGenResponse ["application/json"]); ("429", mkGenResponse [])]);
     ("post", mkGenOperation "createVectorStore" ["Vector stores"]
        [] (Some (mkRequestBody ["application/json"]))
        [("200", mkGenResponse ["application/json"]); ("429", mkGenResponse [])])]);
   ("/vector_stores/{vector_store_id}", [("get", mkGenOperation "getVectorStore" ["Vector stores"]
        ["path"] None
        [("200", mkGenResponse ["application/json"]); ("429", mkGenResponse [])]);
     ("post", mkGenOperation "modifyVectorStore" ["Vector stores"]
        ["path"] (Some (mkRequestBody ["application/json"]))
        [("200", mkGenResponse ["application/json"]); ("429", mkGenResponse [])]);
     ("delete", mkGenOperation "deleteVectorStore" ["Vector stores"]
        ["path"] None
        [("200", mkGenResponse ["application/json"]); ("429", mkGenResponse [])])]);
   ("/vector_stores/{vector_store_id}/file_batches", [("post", mkGenOperation "createVectorStoreFileBatch" ["Vector stores"]
        ["path"] (Some (mkRequestBody ["application/json"]))
        [("200", mkGenResponse ["application/json"]); ("429", mkGenResponse [])])]);
   ("/vector_stores/{vector_store_id}/file_batches/{batch_id}", [("get", mkGenOperation "getVectorStoreFileBatch" ["Vector stores"]
        ["path"; "path"] None
        [("200", mkGenResponse ["application/json"]); ("429", mkGenResponse [])])]);
   ("/vector_stores/{vector_store_id}/file_batches/{batch_id}/cancel", [("post", mkGenOperation "cancelVectorStoreFileBatch" ["Vector stores"]
        ["path"; "path"] None
        [("200", mkGenResponse ["application/json"]); ("429", mkGenResponse [])])]);
   ("/vector_stores/{vector_store_id}/file_batches/{batch_id}/files", [("get", mkGenOperation "listFilesInVectorStoreBatch" ["Vector stores"]
        ["path"; "path"; "query"; "query"; "query"; "query"; "query"] None
        [("200", mkGenResponse ["application/json"]); ("429", mkGenResponse [])])]);
   ("/vector_stores/{vector_store_id}/files", [("get", mkGenOperation "listVectorStoreFiles" ["Vector stores"]
        ["path"; "query"; "query"; "query"; "query"; "query"] None
        [("200", mkGenResponse ["application/json"]); ("429", mkGenResponse [])]);
     ("post", mkGenOperation "createVectorStoreFile" ["Vector stores"]
        ["path"] (Some (mkRequestBody ["application/json"]))
        [("200", mkGenResponse ["application/json"]); ("429", mkGenResponse [])])]);
   ("/vector_stores/{vector_store_id}/files/{file_id}", [("get", mkGenOperation "getVectorStoreFile" ["Vector stores"]
        ["path"; "path"] None
        [("200", mkGenResponse ["application/json"]); ("429", mkGenResponse [])]);
     ("delete", mkGenOperation "deleteVectorStoreFile" ["Vector stores"]
        ["path"; "path"] None
        [("200", mkGenResponse ["application/json"]); ("429", mkGenResponse [])]);
     ("post", mkGenOperation "updateVectorStoreFileAttributes" ["Vector stores"]
        ["path"; "path"] (Some (mkRequestBody ["application/json"]))
        [("200", mkGenResponse ["application/json"]); ("429", mkGenResponse [])])]);
   ("/vector_stores/{vector_store_id}/files/{file_id}/content", [("get", mkGenOperation "retrieveVectorStoreFileContent" ["Vector stores"]
        ["path"; "path"] None
        [("200", mkGenResponse ["application/json"]); ("429", mkGenResponse [])])]);
   ("/vector_stores/{vector_store_id}/search", [("post", mkGenOperation "searchVectorStore" ["Vector stores"]
        ["path"] (Some (mkRequestBody ["application/json"]))
        [("200", mkGenResponse ["application/json"]); ("429", mkGenResponse [])])]);
   ("/conversations", [("post", mkGenOperation "createConversation" ["Conversations"]
        [] (Some (mkRequestBody ["application/json"]))
        [("200", mkGenResponse ["application/json"]); ("429", mkGenResponse [])])]);
   ("/conversations/{conversation_id}", [("get", mkGenOperation "getConversation" ["Conversations"]
        ["path"] None
        [("200", mkGenResponse ["application/json"]); ("429", mkGenResponse [])]);
     ("delete", mkGenOperation "deleteConversation" ["Conversations"]
        ["path"] None
        [("200", mkGenResponse ["application/json"]); ("429", mkGenResponse [])]);
     ("post", mkGenOperation "updateConversation" ["Conversations"]
        ["path"] (Some (mkRequestBody ["application/json"]))
        [("200", mkGenResponse ["application/json"]); ("429", mkGenResponse [])])]);
   ("/organization/spend_limit", [("get", mkGenOperation "Getorganizationspendlimit" []
        [] None
        [("200", mkGenResponse ["application/json"])]);
     ("post", mkGenOperation "Updateorganizationspendlimit" []
        [] (Some (mkRequestBody ["application/json"]))
        [("200", mkGenResponse ["application/json"])]);
     ("delete", mkGenOperation "Deleteorganizationspendlimit" []
        [] None
        [("200", mkGenResponse ["application/json"])])]);
   ("/organization/projects/{project_id}/spend_limit", [("get", mkGenOperation "Getprojectspendlimit" []
        ["path"] None
        [("200", mkGenResponse ["application/json"])]);
     ("delete", mkGenOperation "Deleteprojectspendlimit" []
        ["path"] None
        [("200", mkGenResponse ["application/json"])]);
     ("post", mkGenOperation "Updateprojectspendlimit" []
        ["path"] (Some (mkRequestBody ["application/json"]))
        [("200", mkGenResponse ["application/json"])])]);
   ("/organization/projects/{project_id}/service_accounts/{service_account_id}/api_keys", [("post", mkGenOperation "CreateanAPIkeyforaserviceaccount" []
        ["path"; "path"] (Some (mkRequestBody ["application/json"]))
        [("200", mkGenResponse ["application/json"])])]);
   ("/content_provenance_checks", [("post", mkGenOperation "Createcontentprovenancecheck" []
        [] (Some (mkRequestBody ["multipart/form-data"]))
        [("200", mkGenResponse ["application/json"]); ("429", mkGenResponse [])])]);
   ("/videos", [("post", mkGenOperation "createVideo" ["Videos"]
        [] (Some (mkRequestBody ["multipart/form-data"; "application/json"]))
        [("200", mkGenResponse ["application/json"])]);
     ("get", mkGenOperation "ListVideos" ["Videos"]
        ["query"; "query"; "query"] None
        [("200", mkGenResponse ["application/json"])])]);
   ("/videos/characters", [("post", mkGenOperation "CreateVideoCharacter" ["Videos"]
        [] (Some (mkRequestBody ["multipart/form-data"]))
        [("200", mkGenResponse ["application/json"])])]);
   ("/videos/characters/{character_id}", [("get", mkGenOperation "GetVideoCharacter" ["Videos"]
        ["path"] None
        [("200", mkGenResponse ["application/json"])])]);
   ("/videos/edits", [("post", mkGenOperation "CreateVideoEdit" ["Videos"]
        [] (Some (mkRequestBody ["multipart/form-data"; "application/json"]))
        [("200", mkGenResponse ["application/json"])])]);
   ("/videos/extensions", [("post", mkGenOperation "CreateVideoExtend" ["Videos"]
        [] (Some (mkRequestBody ["multipart/form-data"; "application/json"]))
        [("200", mkGenResponse ["application/json"])])]);
   ("/videos/{video_id}", [("get", mkGenOperation "GetVideo" ["Videos"]
        ["path"] None
        [("200", mkGenResponse ["application/json"])]);
     ("delete", mkGenOperation "DeleteVideo" ["Videos"]
        ["path"] None
        [("200", mkGenResponse ["application/json"])])]);
   ("/videos/{video_id}/content", [("get", mkGenOperation "RetrieveVideoContent" ["Videos"]
        ["path"; "query"] None
        [("200", mkGenResponse ["video/mp4"; "image/webp"; "application/json"])])]);
   ("/videos/{video_id}/remix", [("post", mkGenOperation "CreateVideoRemix" ["Videos"]
        ["path"] (Some (mkRequestBody ["multipart/form-data"; "application/json"]))
        [("200", mkGenResponse ["application/json"])])]);
   ("/responses/input_tokens", [("post", mkGenOperation "Getinputtokencounts" []
        [] (Some (mkRequestBody ["application/json"]))
        [("200", mkGenResponse ["application/json"]); ("429", mkGenResponse [])])]);
   ("/responses/compact", [("post", mkGenOperation "Compactconversation" []
        [] (Some (mkRequestBody ["application/json"]))
        [("200", mkGenResponse ["application/json"]); ("429", mkGenResponse [])])]);
   ("/skills", [("post", mkGenOperation "CreateSkill" ["Skills"]
        [] (Some (mkRequestBody ["multipart/form-data"; "application/json"]))
        [("200", mkGenResponse ["application/json"]); ("429", mkGenResponse [])]);
     ("get", mkGenOperation "ListSkills" ["Skills"]
        ["query"; "query"; "query"] None
        [("200", mkGenResponse ["application/json"]); ("429", mkGenResponse [])])]);
   ("/skills/{skill_id}", [("delete", mkGenOperation "DeleteSkill" ["Skills"]
        ["path"] None
        [("200", mkGenResponse ["application/json"]); ("429", mkGenResponse [])]);
     ("get", mkGenOperation "GetSkill" ["Skills"]
        ["path"] None
        [("200", mkGenResponse ["application/json"]); ("429", mkGenResponse [])]);
     ("post", mkGenOperation "UpdateSkillDefaultVersion" ["Skills"]
        ["path"] (Some (mkRequestBody ["application/json"]))
        [("200", mkGenResponse ["application/json"]); ("429", mkGenResponse [])])]);
   ("/skills/{skill_id}/content", [("get", mkGenOperation "GetSkillContent" ["Skills"]
        ["path"] None
        [("200", mkGenResponse ["application/zip"; "application/json"]); ("429", mkGenResponse [])])]);
   ("/skills/{skill_id}/versions", [("post", mkGenOperation "CreateSkillVersion" ["Skills"]
        ["path"] (Some (mkRequestBody ["multipart/form-data"; "application/json"]))
        [("200", mkGenResponse ["application/json"]); ("429", mkGenResponse [])]);
     ("get", mkGenOperation "ListSkillVersions" ["Skills"]
        ["path"; "query"; "query"; "query"] None
        [("200", mkGenResponse ["application/json"]); ("429", mkGenResponse [])])]);
   ("/skills/{skill_id}/versions/{version}", [("get", mkGenOperation "GetSkillVersion" ["Skills"]
        ["path"; "path"] None
        [("200", mkGenResponse ["application/json"]); ("429", mkGenResponse [])]);
     ("delete", mkGenOperation "DeleteSkillVersion" ["Skills"]
        ["path"; "path"] None
        [("200", mkGenResponse ["application/json"]); ("429", mkGenResponse [])])]);
   ("/skills/{skill_id}/versions/{version}/content", [("get", mkGenOperation "GetSkillVersionContent" ["Skills"]
        ["path"; "path"] None
        [("200", mkGenResponse ["application/zip"; "application/json"]); ("429", mkGenResponse [])])]);
   ("/chatkit/sessions/{session_id}/cancel", [("post", mkGenOperation "CancelChatSessionMethod" []
        ["path"] None
        [("200", mkGenResponse ["application/json"])])]);
   ("/chatkit/sessions", [("post", mkGenOperation "CreateChatSessionMethod" []
        [] (Some (mkRequestBody ["application/json"]))
        [("200", mkGenResponse ["application/json"])])]);
   ("/chatkit/threads/{thread_id}/items", [("get", mkGenOperation "ListThreadItemsMethod" []
        ["path"; "query"; "query"; "query"; "query"] None
        [("200", mkGenResponse ["application/json"])])]);
   ("/chatkit/threads/{thread_id}", [("get", mkGenOperation "GetThreadMethod" []
        ["path"] None
        [("200", mkGenResponse ["application/json"])]);
     ("delete", mkGenOperation "DeleteThreadMethod" []
        ["path"] None
        [("200", mkGenResponse ["application/json"])])]);
   ("/chatkit/threads", [("get", mkGenOperation "ListThreadsMethod" []
        ["query"; "query"; "query"; "query"; "query"] None
        [("200", mkGenResponse ["application/json"])])]);
   ("/responses?beta=true", [("post", mkGenOperation "beta_createResponse" ["Responses"]
        ["header"] (Some (mkRequestBody ["application/json"]))
        [("200", mkGenResponse ["application/json"; "text/event-stream"]); ("429", mkGenResponse [])])]);
   ("/responses/{response_id}?beta=true", [("get", mkGenOperation "beta_getResponse" ["Responses"]
        ["path"; "query"; "query"; "query"; "query"; "header"] None
        [("200", mkGenResponse ["application/json"]); ("429", mkGenResponse [])]);
     ("delete", mkGenOperation "beta_deleteResponse" ["Responses"]
        ["path"; "header"] None
        [("200", mkGenResponse []); ("404", mkGenResponse ["application/json"]); ("429", mkGenResponse [])])]);
   ("/responses/{response_id}/cancel?beta=true", [("post", mkGenOperation "beta_cancelResponse" ["Responses"]
        ["path"; "header"] None
        [("200", mkGenResponse ["application/json"]); ("404", mkGenResponse ["application/json"]); ("429", mkGenResponse [])])]);
   ("/responses/compact?beta=true", [("post", mkGenOperation "beta_Compactconversation" []
        ["header"] (Some (mkRequestBody ["application/json"]))
        [("200", mkGenResponse ["application/json"]); ("429", mkGenResponse [])])]);
   ("/responses/{response_id}/input_items?beta=true", [("get", mkGenOperation "beta_listInputItems" ["Responses"]
        ["path"; "query"; "query"; "query"; "query"; "header"] None
        [("200", mkGenResponse ["application/json"]); ("429", mkGenResponse [])])]);
   ("/responses/input_tokens?beta=true", [("post", mkGenOperation "beta_Getinputtokencounts" []
        ["header"] (Some (mkRequestBody ["application/json"]))
        [("200", mkGenResponse ["application/json"]); ("429", mkGenResponse [])])])].

Definition openapi : document := openapi_1 ++ openapi_2.

Definition realtime_events : eventInventory :=
  mkEventInventory "openai-node@7.4.0"
  [("realtime", mkEventSurface
     ["conversation.item.create";
      "conversation.item.delete";
      "conversation.item.retrieve";
      "conversation.item.truncate";
      "input_audio_buffer.append";
      "input_audio_buffer.clear";
      "input_audio_buffer.commit";
      "output_audio_buffer.clear";
      "response.cancel";
      "response.create";
      "session.update"]
     ["conversation.created";
      "conversation.item.added";
      "conversation.item.created";
      "conversation.item.deleted";
      "conversation.item.done";
      "conversation.item.input_audio_transcription.completed";
      "conversation.item.input_audio_transcription.delta";
      "conversation.item.input_audio_transcription.failed";
      "conversation.item.input_audio_transcription.segment";
      "conversation.item.retrieved";
      "conversation.item.truncated";
      "error";
      "input_audio_buffer.cleared";
      "input_audio_buffer.committed";
      "input_audio_buffer.dtmf_event_received";
      "input_audio_buffer.speech_started";
      "input_audio_buffer.speech_stopped";
      "input_audio_buffer.timeout_triggered";
      "mcp_list_tools.completed";
      "mcp_list_tools.failed";
      "mcp_list_tools.in_progress";
      "output_audio_buffer.cleared";
      "output_audio_buffer.started";
      "output_audio_buffer.stopped";
      "rate_limits.updated";
      "response.content_part.added";
      "response.content_part.done";
      "response.created";
      "response.done";
      "response.function_call_arguments.delta";
      "response.function_call_arguments.done";
      "response.mcp_call.completed";
      "response.mcp_call.failed";
      "response.mcp_call.in_progress";
      "response.mcp_call_arguments.delta";
      "response.mcp_call_arguments.done";
      "response.output_audio.delta";
      "response.output_audio.done";
      "response.output_audio_transcript.delta";
      "response.output_audio_transcript.done";
      "response.output_item.added";
      "response.output_item.done";
      "response.output_text.delta";
      "response.output_text.done";
      "session.created";
      "session.updated"]);
   ("realtime_translation", mkEventSurface
     ["session.close";
      "session.input_audio_buffer.append";
      "session.update"]
     ["error";
      "session.closed";
      "session.created";
      "session.input_transcript.delta";
      "session.output_audio.delta";
      "session.output_transcript.delta";
      "session.updated"]);
   ("responses_websocket", mkEventSurface
     ["response.create"]
     ["error";
      "response.audio.delta";
      "response.audio.done";
      "response.audio.transcript.delta";
      "response.audio.transcript.done";
      "response.code_interpreter_call.completed";
      "response.code_interpreter_call.in_progress";
      "response.code_interpreter_call.interpreting";
      "response.code_interpreter_call_code.delta";
      "response.code_interpreter_call_code.done";
      "response.completed";
      "response.content_part.added";
      "response.content_part.done";
      "response.created";
      "response.custom_tool_call_input.delta";
      "response.custom_tool_call_input.done";
      "response.failed";
      "response.file_search_call.completed";
      "response.file_search_call.in_progress";
      "response.file_search_call.searching";
      "response.function_call_arguments.delta";
      "response.function_call_arguments.done";
      "response.image_generation_call.completed";
      "response.image_generation_call.generating";
      "response.image_generation_call.in_progress";
      "response.image_generation_call.partial_image";
      "response.in_progress";
      "response.incomplete";
      "response.mcp_call.completed";
      "response.mcp_call.failed";
      "response.mcp_call.in_progress";
      "response.mcp_call_arguments.delta";
      "response.mcp_call_arguments.done";
      "response.mcp_list_tools.completed";
      "response.mcp_list_tools.failed";
      "response.mcp_list_tools.in_progress";
      "response.output_item.added";
      "response.output_item.done";
      "response.output_text.annotation.added";
      "response.output_text.delta";
      "response.output_text.done";
      "response.queued";
      "response.reasoning_summary_part.added";
      "response.reasoning_summary_part.done";
      "response.reasoning_summary_text.delta";
      "response.reasoning_summary_text.done";
      "response.reasoning_text.delta";
      "response.reasoning_text.done";
      "response.refusal.delta";
      "response.refusal.done";
      "response.web_search_call.completed";
      "response.web_search_call.in_progress";
      "response.web_search_call.searching"])].
