(* ===== verification/GeneratorEvidence.v ===== *)
(** The evidence the generator demands, and the checked-in tables: what
    [validateEvidence] accepts, and that the frozen document passes and makes
    the tables of [profile.gen.go]. *)
From stdpp Require Import sorting.
From S2P Require Import Prelude GoStrings Services ProfileData Generator GeneratorOrder SpecData.

(** ** The evidence of one operation *)

Definition complete (o : generatedOperation) : Prop :=
  g_LocalCase o ≠ "" ∧ g_SDKCall o ∈ ["resource_helper"; "raw_sdk_exception"] ∧
  g_Transports o ≠ [] ∧ g_SchemaCases o ≠ [] ∧ g_LiveProfile o ∈ validProfiles.

Definition fresh_evidence (operationIDs caseNames : gset string) (ops : list generatedOperation) : Prop :=
  NoDup (g_OperationID <$> ops) ∧ Forall (λ o, g_OperationID o ∉ operationIDs) ops ∧
  NoDup (g_LocalCase <$> ops) ∧ Forall (λ o, g_LocalCase o ∉ caseNames) ops ∧ Forall complete ops.

Lemma fresh_cons ids cases o ops :
  fresh_evidence ids cases (o :: ops) ↔
    g_OperationID o ∉ ids ∧ g_LocalCase o ∉ cases ∧ complete o ∧
    fresh_evidence ({[g_OperationID o]} ∪ ids) ({[g_LocalCase o]} ∪ cases) ops.
Proof.
  unfold fresh_evidence. csimpl. rewrite !NoDup_cons, !Forall_cons, !Forall_forall.
  setoid_rewrite not_elem_of_union. setoid_rewrite not_elem_of_singleton.
  rewrite !list_elem_of_fmap. naive_solver.
Qed.

(** The tests of the loop, as one. *)
Lemma complete_tests o :
  complete o ↔
    string_empty (g_LocalCase o) = false ∧
    negb (bool_decide (g_SDKCall o = "resource_helper")) &&
      negb (bool_decide (g_SDKCall o = "raw_sdk_exception")) = false ∧
    bool_decide (g_Transports o = []) || bool_decide (g_SchemaCases o = []) ||
      negb (bool_decide (g_LiveProfile o ∈ validProfiles)) = false.
Proof.
  unfold complete. rewrite andb_false_iff, !orb_false_iff, !negb_false_iff, !bool_decide_eq_true,
    !bool_decide_eq_false, !elem_of_cons, elem_of_nil.
  destruct (g_LocalCase o); naive_solver.
Qed.

Lemma check_operations_spec operationIDs caseNames rawSeen ops :
  match check_operations operationIDs caseNames rawSeen ops with
  | Ok raw => fresh_evidence operationIDs caseNames ops ∧
      ∀ id, id ∈ raw ↔ id ∈ rawSeen ∨
        ∃ o, o ∈ ops ∧ g_OperationID o = id ∧ g_SDKCall o = "raw_sdk_exception"
  | Err _ => ¬ fresh_evidence operationIDs caseNames ops
  end.
Proof.
  revert operationIDs caseNames rawSeen. induction ops as [|o ops IH]; intros ids cases raw; simpl.
  { split; [by repeat constructor|set_solver]. }
  pose proof (fresh_cons ids cases o ops) as Hcons. pose proof (complete_tests o) as Hc.
  destruct (bool_decide_reflect (g_OperationID o ∈ ids)) as [Hid|Hid]; [by intros (? & _)%Hcons|].
  destruct (string_empty (g_LocalCase o)); simpl; [by intros (_ & _ & (? & _)%Hc & _)%Hcons|].
  destruct (bool_decide_reflect (g_LocalCase o ∈ cases)) as [Hcase|Hcase]; [by intros (_ & ? & _)%Hcons|].
  destruct (negb _ && negb (bool_decide (_ = "raw_sdk_exception"))); [by intros (_ & _ & (_ & ? & _)%Hc & _)%Hcons|].
  destruct (_ || _ || _); [by intros (_ & _ & (_ & _ & ?)%Hc & _)%Hcons|].
  specialize (IH ({[g_OperationID o]} ∪ ids) ({[g_LocalCase o]} ∪ cases)
    (if bool_decide (g_SDKCall o = "raw_sdk_exception") then {[g_OperationID o]} ∪ raw else raw)).
  destruct (check_operations _ _ _ ops) as [raw'|e]; [|by intros (_ & _ & _ & ?)%Hcons].
  destruct IH as [IH Hraw]. split; [by apply Hcons; split_and!; [..|by apply Hc|]|]. intros id. rewrite Hraw.
  setoid_rewrite elem_of_cons.
  case_bool_decide; rewrite ?elem_of_union, ?elem_of_singleton; naive_solver.
Qed.

Lemma check_events_spec keys events :
  check_events keys events = None ↔
    NoDup (gen_event_key <$> events) ∧ Forall (λ e, gen_event_key e ∉ keys) events.
Proof.
  revert keys. induction events as [|e events IH]; intros keys; csimpl.
  { split; [|done]. intros _. by repeat constructor. }
  rewrite NoDup_cons, Forall_cons. case_bool_decide as Hk; [naive_solver|]. rewrite IH.
  rewrite !Forall_forall. setoid_rewrite not_elem_of_union. setoid_rewrite not_elem_of_singleton.
  rewrite list_elem_of_fmap. naive_solver.
Qed.

Lemma validateEvidence_iff ops inventory :
  validateEvidence ops inventory = None ↔
    NoDup (g_OperationID <$> ops) ∧ NoDup (g_LocalCase <$> ops) ∧ Forall complete ops ∧
    (∀ id, id ∈ rawOnlyOperations →
       ∃ o, o ∈ ops ∧ g_OperationID o = id ∧ g_SDKCall o = "raw_sdk_exception") ∧
    NoDup (gen_event_key <$> collectEvents inventory).
Proof.
  unfold validateEvidence. pose proof (check_operations_spec ∅ ∅ ∅ ops) as Hc.
  destruct (check_operations ∅ ∅ ∅ ops) as [raw|e].
  - destruct Hc as [(H1 & _ & H2 & _ & H3) Hraw]. destruct (List.find _ _) as [id|] eqn:Hf.
    + split; [done|]. intros (_ & _ & _ & Hr & _).
      apply List.find_some in Hf as [Hin Hn%negb_true_iff%bool_decide_eq_false].
      destruct Hn. apply Hraw. right. apply Hr. by apply list_elem_of_In.
    + rewrite check_events_spec. split.
      * intros [He _]. split_and!; try done. intros id Hid%list_elem_of_In.
        pose proof (List.find_none _ _ Hf _ Hid) as Hn%negb_false_iff%bool_decide_eq_true.
        apply Hraw in Hn as [?%elem_of_empty|]; done.
      * intros (_ & _ & _ & _ & He). split; [done|]. apply Forall_forall. set_solver.
  - split; [done|]. intros (H1 & H2 & H3 & _). destruct Hc. unfold fresh_evidence.
    split_and!; try done; apply Forall_forall; set_solver.
Qed.

(** ** What a collected operation has *)

Lemma collected_item path m o g :
  collect_item path m o = Ok g →
  g_LocalCase g = "http." +:+ g_Capability g +:+ "." +:+ g_OperationID g ∧
  free_of "."%char (g_Capability g) = true ∧
  g_SDKCall g = (if bool_decide (g_OperationID g ∈ rawOnlyOperations)
                 then "raw_sdk_exception" else "resource_helper") ∧
  g_SchemaCases g ≠ [] ∧ g_LiveProfile g ∈ validProfiles.
Proof.
  unfold collect_item. destruct (string_empty _); [done|].
  destruct (capabilityFor path (Tags o)) as [c|] eqn:Hc; [|done].
  destruct (liveClassification (OperationID o)) as [p r] eqn:Hl. intros [= <-]. cbn.
  split_and!; try done.
  - revert Hc. unfold capabilityFor. repeat case_match; try done; by intros [= <-].
  - revert Hl. unfold liveClassification. repeat case_match; intros [= <- _]; unfold validProfiles; set_solver.
Qed.

(** A local case is never empty, and determined by the identifier and back. *)
Lemma collected_cases ops :
  Forall (λ g, ∃ path m o, collect_item path m o = Ok g) ops → NoDup (g_OperationID <$> ops) →
  NoDup (g_LocalCase <$> ops).
Proof.
  induction 1 as [|g ops (path & m & o & Hg) Hops IH]; csimpl; [constructor|].
  rewrite !NoDup_cons. intros [Hid Hnd]. split; [|by apply IH]. intros (g' & Hc & Hin)%list_elem_of_fmap.
  rewrite Forall_forall in Hops. destruct (Hops _ Hin) as (path' & m' & o' & Hg').
  destruct (collected_item _ _ _ _ Hg) as (Hl & Hf & _), (collected_item _ _ _ _ Hg') as (Hl' & Hf' & _).
  rewrite Hl, Hl' in Hc. apply (f_equal (string_drop 5)) in Hc. simpl in Hc.
  assert (Cut "."%char (g_Capability g +:+ "." +:+ g_OperationID g) =
    Cut "."%char (g_Capability g' +:+ "." +:+ g_OperationID g')) as Heq by by f_equal.
  change ("." +:+ g_OperationID g) with (String "."%char (g_OperationID g)) in Heq.
  change ("." +:+ g_OperationID g') with (String "."%char (g_OperationID g')) in Heq.
  rewrite !Cut_free in Heq by done. injection Heq as _ Heq. apply Hid. rewrite Heq.
  by apply list_elem_of_fmap_2.
Qed.

(** ** The evidence of what is collected *)

Definition evidence (ops : list generatedOperation) (inventory : eventInventory) : Prop :=
  NoDup (g_OperationID <$> ops) ∧ Forall (λ g, g_Transports g ≠ []) ops ∧
  Forall (λ id, id ∈ g_OperationID <$> ops) rawOnlyOperations ∧
  NoDup (gen_event_key <$> collectEvents inventory).

Lemma collected_evidence d ops inventory :
  collectOperations d = Ok ops → validateEvidence ops inventory = None ↔ evidence ops inventory.
Proof.
  intros Hops.
  assert (Forall (λ g, ∃ path m o, collect_item path m o = Ok g) ops) as Hall.
  { unfold collectOperations in Hops. pose proof (collect_paths_spec d) as Hp.
    destruct (collect_paths d) as [l|]; [|done]. injection Hops as <-. apply Forall_forall.
    intros g. rewrite merge_sort_Permutation. intros (p & m & o & _ & Hg)%Hp. by exists p, m, o. }
  rewrite validateEvidence_iff. unfold evidence.
  pose proof (collected_cases _ Hall) as Hcases. rewrite Forall_forall in Hall.
  assert (∀ g, g ∈ ops → complete g ↔ g_Transports g ≠ []) as Hcomp.
  { intros g (path & m & o & Hg)%Hall. apply collected_item in Hg as (Hl & _ & Hs & Hsc & Hlp).
    unfold complete. rewrite Hl, Hs. split; [tauto|]. intros Ht. split_and!; try done.
    case_bool_decide; set_solver. }
  assert (∀ id, id ∈ rawOnlyOperations →
    (∃ o, o ∈ ops ∧ g_OperationID o = id ∧ g_SDKCall o = "raw_sdk_exception") ↔ id ∈ g_OperationID <$> ops) as Hraw.
  { intros id Hid. rewrite list_elem_of_fmap. split; [naive_solver|]. intros (o & -> & Hin). exists o.
    destruct (Hall _ Hin) as (path & m & o' & Hg). apply collected_item in Hg as (_ & _ & Hs & _).
    by rewrite bool_decide_true in Hs. }
  rewrite !Forall_forall. split.
  - intros (H1 & H2 & H3 & H4 & H5). split_and!; try done.
    + intros g Hg. apply Hcomp; [done|by apply H3].
    + intros id Hid. apply Hraw; [done|by apply H4].
  - intros (H1 & H3 & H4 & H5). split_and!; try done; [by apply Hcases|..].
    + intros g Hg. apply Hcomp; [done|by apply H3].
    + intros id Hid. apply Hraw; [done|by apply H4].
Qed.

(** ** The frozen document *)

Definition frozen_operations : list generatedOperation :=
  match collectOperations openapi with Ok l => l | Err _ => [] end.

Lemma frozen_collected : collectOperations openapi = Ok frozen_operations.
Proof.
  assert (is_ok (collectOperations openapi) = true) as H by (vm_compute; reflexivity).
  unfold frozen_operations. by destruct (collectOperations openapi).
Qed.

#[export] Instance evidence_dec ops inventory : Decision (evidence ops inventory).
Proof.
  unfold evidence. apply _.
Defined.

Lemma frozen_distinct : distinct_keys openapi.
Proof.
  split; [apply (bool_decide_unpack _); vm_compute; exact I|].
  assert (Forall (λ p : string * list (string * operation), NoDup (ToUpper <$> p.2.*1)) openapi) as H
    by (apply (bool_decide_unpack _); vm_compute; exact I).
  rewrite Forall_forall in H. intros path items Hin. exact (H _ Hin).
Qed.

Lemma frozen_evidence : evidence frozen_operations realtime_events.
Proof. apply (bool_decide_unpack _). vm_compute. exact I. Qed.

Definition rendered (g : generatedOperation) : Operation :=
  mkOperation (g_Method g) (g_Path g) (g_OperationID g) (g_Capability g) (g_RequestMedia g)
    (g_ResponseMedia g) (g_SuccessStatus g).
Definition rendered_event (e : generatedEvent) : ProfileEvent :=
  mkProfileEvent (ge_Surface e) (ge_Direction e) (ge_Type e).

Lemma frozen_rendered : rendered <$> frozen_operations = Operations.
Proof. vm_compute. reflexivity. Qed.

Lemma frozen_events : rendered_event <$> collectEvents realtime_events = Events.
Proof. vm_compute. reflexivity. Qed.

(** The frozen inputs pass every check, in whatever order they are visited. *)
Lemma frozen_checks d inventory :
  same_document openapi d → Surfaces realtime_events ≡ₚ Surfaces inventory →
  ∃ ops, main_checks d (Some inventory) = Ok (ops, inventory) ∧
    rendered <$> ops = Operations ∧ rendered_event <$> collectEvents inventory = Events.
Proof.
  intros Hd Hi. pose proof (collectOperations_same _ _ Hd frozen_distinct) as Ho.
  rewrite frozen_collected in Ho. destruct (collectOperations d) as [ops|] eqn:Hops; [|done]. subst ops.
  pose proof (collectEvents_same _ _ Hi) as He.
  exists frozen_operations. split; [|split; [exact frozen_rendered|by rewrite <- He, frozen_events]].
  unfold main_checks, checked_operations, check_inventory. rewrite Hops. cbn [mbind result_bind].
  assert (length d = 182) as ->.
  { destruct Hd as (k & Hp & Hk). apply Forall2_length in Hk. rewrite <- Hk, <- Hp. by vm_compute. }
  assert (length frozen_operations = 288) as ->.
  { rewrite <- (length_fmap rendered), frozen_rendered. by vm_compute. }
  change (default (mkEventInventory "" []) (Some inventory)) with inventory. cbv zeta. rewrite <- He.
  assert (length (collectEvents realtime_events) = 121) as ->.
  { rewrite <- (length_fmap rendered_event), frozen_events. by vm_compute. }
  rewrite !bool_decide_true by (done || by eexists). cbv beta iota delta [negb orb andb mbind result_bind].
  rewrite (proj2 (collected_evidence _ _ inventory Hops)); [done|].
  unfold evidence. rewrite <- He. exact frozen_evidence.
Qed.

(** ** Properties *)

(** For what it collected, the generator demands exactly this: identifiers
    are distinct, every operation has a transport (a path or query parameter, or
    a media type), every raw-only exception is in the document, and no event is
    listed twice.  The rest of its checks cannot fail. *)
Theorem validateEvidence_collected d ops inventory :
  collectOperations d = Ok ops →
  validateEvidence ops inventory = None ↔
    NoDup (g_OperationID <$> ops) ∧ Forall (λ g, g_Transports g ≠ []) ops ∧
    Forall (λ id, id ∈ g_OperationID <$> ops) rawOnlyOperations ∧
    NoDup (gen_event_key <$> collectEvents inventory).
Proof. apply collected_evidence. Qed.

(** The checked-in tables are what the generator makes of the frozen inputs,
    in whatever order it visits their maps: the document passes every check, and
    its operations and events, as they are rendered, are [Operations] and
    [Events], entry by entry. *)
Theorem frozen_profile_generated d inventory :
  same_document openapi d → Surfaces realtime_events ≡ₚ Surfaces inventory →
  ∃ ops, main_checks d (Some inventory) = Ok (ops, inventory) ∧
    rendered <$> ops = Operations ∧ rendered_event <$> collectEvents inventory = Events.
Proof. apply frozen_checks. Qed.

(** ** Witnesses *)

Lemma validateEvidence_collected_witness : validateEvidence frozen_operations realtime_events = None.
Proof. apply (validateEvidence_collected openapi); [exact frozen_collected|exact frozen_evidence]. Defined.

(** The halves of the document, and the surfaces, the other way around. *)
Lemma frozen_profile_generated_witness :
  ∃ ops, main_checks (openapi_2 ++ openapi_1)
      (Some (mkEventInventory "" (reverse (Surfaces realtime_events)))) =
      Ok (ops, mkEventInventory "" (reverse (Surfaces realtime_events))) ∧
    rendered <$> ops = Operations.
Proof.
  destruct (frozen_profile_generated (openapi_2 ++ openapi_1)
    (mkEventInventory "" (reverse (Surfaces realtime_events)))) as (ops & H1 & H2 & _).
  - exists (openapi_2 ++ openapi_1). split; [exact (Permutation_app_comm openapi_1 openapi_2)|].
    generalize (openapi_2 ++ openapi_1). intros l. induction l; constructor; [apply same_path_refl|assumption].
  - exact (symmetry (reverse_Permutation (Surfaces realtime_events))).
  - exists ops. split; [exact H1|exact H2].
Defined.
