(* ===== verification/GeneratorText.v ===== *)
(** What the generator writes: [render], [renderCompatibility] and [yamlList] of
    [internal/cmd/openai-gen/main.go], with readers for both texts.

    [strconv.Quote] consults the Unicode tables for runes beyond ASCII: the
    quotation of a text from such a rune on is a parameter, as are sha256, gzip
    with base64, and go/format. *)
From S2P Require Import Prelude GoStrings GoHttp FloatRound ProfileData Generator GeneratorOrder SpecData GeneratorEvidence.

Definition BACKSLASH : ascii := byte_of 92.

(** [[]byte] text of one ASCII rune inside quotes. *)
Definition quote_ascii (c : ascii) : string :=
  if (code c =? 34)%N || (code c =? 92)%N then String BACKSLASH (str1 c)
  else if in_range 32 126 c then str1 c
  else
    let escape (e : ascii) := String BACKSLASH (str1 e) in
    if (code c =? 7)%N then escape "a"%char
    else if (code c =? 8)%N then escape "b"%char
    else if (code c =? 12)%N then escape "f"%char
    else if (code c =? 10)%N then escape "n"%char
    else if (code c =? 13)%N then escape "r"%char
    else if (code c =? 9)%N then escape "t"%char
    else if (code c =? 11)%N then escape "v"%char
    else String BACKSLASH (String "x"%char (hex2 c)).

(** [fmt.Fprintln] *)
Definition Fprintln (values : list string) : string := Join values " " +:+ str1 LF.

Section Text.
Context (quote_unicode : string → string).

Fixpoint quote_body (s : string) : string :=
  match s with
  | "" => ""
  | String c rest => if (code c <? 128)%N then quote_ascii c +:+ quote_body rest else quote_unicode s
  end.
Definition Quote (s : string) : string := str1 QUOTE +:+ quote_body s +:+ str1 QUOTE.

Definition yamlList (values : list string) : string :=
  let quoted := Quote <$> values in
  "[" +:+ Join quoted ", " +:+ "]".

(** ** The compatibility matrix *)

Definition compatibility_operation (operation : generatedOperation) : string :=
  Fprintln ["  - operation:"; Quote (g_OperationID operation)] +:+
  Fprintln ["    method:"; Quote (g_Method operation)] +:+
  Fprintln ["    path:"; Quote (g_Path operation)] +:+
  Fprintln ["    capability:"; Quote (g_Capability operation)] +:+
  Fprintln ["    route: covered"] +:+
  Fprintln ["    local_semantic: validated_official_sdk"] +:+
  Fprintln ["    local_case:"; Quote (g_LocalCase operation)] +:+
  Fprintln ["    sdk_call:"; g_SDKCall operation] +:+
  Fprintln ["    transports:"; yamlList (g_Transports operation)] +:+
  Fprintln ["    schema_cases:"; yamlList (g_SchemaCases operation)] +:+
  Fprintln ["    live_profile:"; g_LiveProfile operation] +:+
  Fprintln ["    live_reason:"; Quote (g_LiveReason operation)].

(** The map literal from directions to the SDK's side. *)
Definition sdk_side (direction : string) : string :=
  if bool_decide (direction = "client") then "send"
  else if bool_decide (direction = "server") then "listener" else "".

Definition no_live : string := "no bounded live WebSocket differential is configured".

Definition compatibility_event (event : generatedEvent) : string :=
  Fprintln ["  - surface:"; Quote (ge_Surface event)] +:+
  Fprintln ["    direction:"; Quote (ge_Direction event)] +:+
  Fprintln ["    type:"; Quote (ge_Type event)] +:+
  Fprintln ["    capability: realtime"] +:+
  Fprintln ["    route: covered"] +:+
  Fprintln ["    local_semantic: official_sdk_" +:+ sdk_side (ge_Direction event)] +:+
  Fprintln ["    local_case:"; Quote ("websocket." +:+ ge_Surface event +:+ "." +:+ ge_Direction event
                                       +:+ "." +:+ ge_Type event)] +:+
  Fprintln ["    transports: [websocket]"] +:+
  Fprintln ["    schema_cases: [representative_payload, unknown_field_preserved]"] +:+
  Fprintln ["    live_profile: unavailable"] +:+
  Fprintln ["    live_reason: " +:+ str1 QUOTE +:+ no_live +:+ str1 QUOTE].

Definition concat_text {A} (f : A → string) (l : list A) : string := foldr (λ a r, f a +:+ r) "" l.

Definition renderCompatibility (operations : list generatedOperation) (events : eventInventory) : string :=
  Fprintln ["# Code generated by internal/cmd/openai-gen; DO NOT EDIT."] +:+
  Fprintln ["profile: openai-m1"] +:+
  Fprintln ["sdk:"; Quote (SDK events)] +:+
  Fprintln ["http:"] +:+
  concat_text compatibility_operation operations +:+
  Fprintln ["events:"] +:+
  concat_text compatibility_event (collectEvents events).

(** ** The Go source *)

(** [%#v] of a [[]string]; what is empty here is nil. *)
Definition go_strings (values : list string) : string :=
  match values with
  | [] => "[]string(nil)"
  | _ => "[]string{" +:+ Join (Quote <$> values) ", " +:+ "}"
  end.

Definition source_operation (operation : generatedOperation) : string :=
  "{Method:" +:+ Quote (g_Method operation) +:+ ", Path:" +:+ Quote (g_Path operation) +:+
  ", ID:" +:+ Quote (g_OperationID operation) +:+ ", Capability:" +:+ Quote (g_Capability operation) +:+
  ", RequestMedia:" +:+ go_strings (g_RequestMedia operation) +:+
  ", ResponseMedia:" +:+ go_strings (g_ResponseMedia operation) +:+
  ", SuccessStatus:" +:+ Itoa (g_SuccessStatus operation) +:+ "}," +:+ str1 LF.

Definition source_event (event : generatedEvent) : string :=
  "{Surface:" +:+ Quote (ge_Surface event) +:+ ", Direction:" +:+ Quote (ge_Direction event) +:+
  ", Type:" +:+ Quote (ge_Type event) +:+ "}," +:+ str1 LF.

(** The text [render] passes to [format.Source]; [digest] and [compressed] are
    the hexadecimal digest and the packed copy of the document. *)
Definition render_source (digest compressed : string) (pathCount : nat)
    (operations : list generatedOperation) (inventory : eventInventory) : string :=
  Fprintln ["// Code generated by internal/cmd/openai-gen; DO NOT EDIT."] +:+
  Fprintln ["package profile"] +:+
  Fprintln [] +:+
  "const SpecPathCount = " +:+ Itoa (Z.of_nat pathCount) +:+ str1 LF +:+
  "const SpecOperationCount = " +:+ Itoa (Z.of_nat (length operations)) +:+ str1 LF +:+
  "const SpecSHA256 = " +:+ Quote digest +:+ str1 LF +:+
  "const compressedSpecBase64 = " +:+ Quote compressed +:+ str1 LF +:+ str1 LF +:+
  Fprintln ["var Operations = []Operation{"] +:+
  concat_text source_operation operations +:+
  Fprintln ["}"] +:+
  Fprintln [] +:+
  Fprintln ["var Events = []Event{"] +:+
  concat_text source_event (collectEvents inventory) +:+
  Fprintln ["}"].

(** [render], given the library functions it goes through; an [error] of the
    compressor or the formatter ends it. *)
Definition render (sha256_hex : string → string) (gzip_base64 : string → result string string)
    (format_Source : string → result string string) (raw : string) (pathCount : nat)
    (operations : list generatedOperation) (inventory : eventInventory) : result string string :=
  compressed ← gzip_base64 raw;
  format_Source (render_source (sha256_hex raw) compressed pathCount operations inventory).

End Text.

(** ** Readers *)

(** A Go or YAML double-quoted string: its value and what follows. *)
Fixpoint unquote_body (s : string) : option (string * string) :=
  match s with
  | "" => None
  | String c s =>
      if (code c =? 34)%N then Some ("", s)
      else if (code c =? 92)%N then
        match s with
        | "" => None
        | String e s =>
            let simple (b : N) := '(v, rest) ← unquote_body s; Some (String (byte_of b) v, rest) in
            if (code e =? 97)%N then simple 7%N
            else if (code e =? 98)%N then simple 8%N
            else if (code e =? 102)%N then simple 12%N
            else if (code e =? 110)%N then simple 10%N
            else if (code e =? 114)%N then simple 13%N
            else if (code e =? 116)%N then simple 9%N
            else if (code e =? 118)%N then simple 11%N
            else if (code e =? 34)%N || (code e =? 92)%N then simple (code e)
            else if (code e =? 120)%N then
              match s with
              | String h (String l s) =>
                  h ← unhex h; l ← unhex l; '(v, rest) ← unquote_body s;
                  Some (String (byte_of (16 * h + l)) v, rest)
              | _ => None
              end
            else None
        end
      else '(v, rest) ← unquote_body s; Some (String c v, rest)
  end.
Definition unquote (s : string) : option (string * string) :=
  match s with String c s => if (code c =? 34)%N then unquote_body s else None | "" => None end.

Definition is_ascii (s : string) : bool := string_forallb (λ c, (code c <? 128)%N) s.

Lemma unquote_ascii c k :
  (code c <? 128)%N = true →
  unquote_body (quote_ascii c +:+ k) = '(v, rest) ← unquote_body k; Some (String c v, rest).
Proof. destruct c as [[] [] [] [] [] [] [] []]; intros H; try discriminate H; reflexivity. Qed.

Lemma unquote_Quote quote_unicode s rest :
  is_ascii s = true → unquote (Quote quote_unicode s +:+ rest) = Some (s, rest).
Proof.
  unfold Quote. rewrite !app_assoc_str. change (unquote (str1 QUOTE +:+ ?x)) with (unquote_body x).
  unfold is_ascii. induction s as [|c s IH]; [done|].
  cbn [string_forallb quote_body]. rewrite andb_true_iff. intros [Hc Hs]. rewrite Hc, app_assoc_str.
  rewrite unquote_ascii by done. by rewrite IH.
Qed.

Definition lit (p s : string) : option string := CutPrefix s p.

Fixpoint read_items (fuel : nat) (close s : string) : option (list string * string) :=
  match fuel with
  | O => None
  | S fuel =>
      '(value, s) ← unquote s;
      match lit ", " s with
      | Some s => '(values, s) ← read_items fuel close s; Some (value :: values, s)
      | None => s ← lit close s; Some ([value], s)
      end
  end.

Definition read_flow (s : string) : option (list string * string) :=
  match lit "[]" s with
  | Some s => Some ([], s)
  | None => s ← lit "[" s; read_items (String.length s) "]" s
  end.

Definition read_go_strings (s : string) : option (list string * string) :=
  match lit "[]string(nil)" s with
  | Some s => Some ([], s)
  | None => s ← lit "[]string{" s; read_items (String.length s) "}" s
  end.

(** The rest of a line. *)
Definition read_line (s : string) : option (string * string) :=
  let '(line, s, found) := Cut LF s in if found then Some (line, s) else None.

(** [name: value] lines of the matrix. *)
Definition read_field (name s : string) : option (string * string) :=
  s ← lit name s; s ← lit " " s; '(value, s) ← unquote s; s ← lit (str1 LF) s; Some (value, s).
Definition read_list_field (name s : string) : option (list string * string) :=
  s ← lit name s; s ← lit " " s; '(value, s) ← read_flow s; s ← lit (str1 LF) s; Some (value, s).
Definition read_word_field (name s : string) : option (string * string) :=
  s ← lit name s; s ← lit " " s; read_line s.
Definition skip_line (s : string) : option string := snd <$> read_line s.

Fixpoint read_many {A} (fuel : nat) (read : string → option (A * string)) (s : string) : list A * string :=
  match fuel with
  | O => ([], s)
  | S fuel =>
      match read s with
      | Some (a, s) => let '(l, s) := read_many fuel read s in (a :: l, s)
      | None => ([], s)
      end
  end.

(** What the matrix records of an operation. *)
Record matrix_entry := mkEntry {
  me_operation : string; me_method : string; me_path : string; me_capability : string;
  me_local_case : string; me_sdk_call : string; me_transports : list string;
  me_schema_cases : list string; me_live_profile : string; me_live_reason : string }.

Definition entry_of (g : generatedOperation) : matrix_entry :=
  mkEntry (g_OperationID g) (g_Method g) (g_Path g) (g_Capability g) (g_LocalCase g) (g_SDKCall g)
    (g_Transports g) (g_SchemaCases g) (g_LiveProfile g) (g_LiveReason g).

Definition read_operation (s : string) : option (matrix_entry * string) :=
  '(id, s) ← read_field "  - operation:" s;
  '(method, s) ← read_field "    method:" s;
  '(path, s) ← read_field "    path:" s;
  '(capability, s) ← read_field "    capability:" s;
  s ← skip_line s; s ← skip_line s;
  '(localCase, s) ← read_field "    local_case:" s;
  '(sdkCall, s) ← read_word_field "    sdk_call:" s;
  '(transports, s) ← read_list_field "    transports:" s;
  '(schemaCases, s) ← read_list_field "    schema_cases:" s;
  '(liveProfile, s) ← read_word_field "    live_profile:" s;
  '(liveReason, s) ← read_field "    live_reason:" s;
  Some (mkEntry id method path capability localCase sdkCall transports schemaCases liveProfile liveReason, s).

Definition read_event (s : string) : option (generatedEvent * string) :=
  '(surface, s) ← read_field "  - surface:" s;
  '(direction, s) ← read_field "    direction:" s;
  '(type, s) ← read_field "    type:" s;
  s ← skip_line s; s ← skip_line s; s ← skip_line s; s ← skip_line s;
  s ← skip_line s; s ← skip_line s; s ← skip_line s; s ← skip_line s;
  Some (mkGenEvent surface direction type, s).

(** The matrix: the SDK, the operations and the events, with nothing left over. *)
Definition read_matrix (s : string) : option (string * list matrix_entry * list generatedEvent) :=
  let fuel := String.length s in
  s ← skip_line s; s ← skip_line s;
  '(sdk, s) ← read_field "sdk:" s;
  s ← lit "http:" s; s ← lit (str1 LF) s;
  let '(operations, s) := read_many fuel read_operation s in
  s ← lit "events:" s; s ← lit (str1 LF) s;
  let '(events, s) := read_many fuel read_event s in
  if string_empty s then Some (sdk, operations, events) else None.

(** A line of the Go tables. *)
Definition read_source_operation (s : string) : option (Operation * string) :=
  s ← lit "{Method:" s; '(method, s) ← unquote s;
  s ← lit ", Path:" s; '(path, s) ← unquote s;
  s ← lit ", ID:" s; '(id, s) ← unquote s;
  s ← lit ", Capability:" s; '(capability, s) ← unquote s;
  s ← lit ", RequestMedia:" s; '(requestMedia, s) ← read_go_strings s;
  s ← lit ", ResponseMedia:" s; '(responseMedia, s) ← read_go_strings s;
  s ← lit ", SuccessStatus:" s;
  let '(digits, s, found) := Cut "}"%char s in
  if negb found then None
  else status ← Atoi digits; s ← lit "," s; s ← lit (str1 LF) s;
       Some (mkOperation method path id capability requestMedia responseMedia status, s).

Definition read_source_event (s : string) : option (ProfileEvent * string) :=
  s ← lit "{Surface:" s; '(surface, s) ← unquote s;
  s ← lit ", Direction:" s; '(direction, s) ← unquote s;
  s ← lit ", Type:" s; '(type, s) ← unquote s;
  s ← lit "}," s; s ← lit (str1 LF) s;
  Some (mkProfileEvent surface direction type, s).

(** The two tables of the Go source, with nothing left over. *)
Definition read_source (s : string) : option (list Operation * list ProfileEvent) :=
  let fuel := String.length s in
  s ← skip_line s; s ← skip_line s; s ← lit (str1 LF) s;
  s ← skip_line s; s ← skip_line s; s ← skip_line s; s ← skip_line s; s ← lit (str1 LF) s;
  s ← lit "var Operations = []Operation{" s; s ← lit (str1 LF) s;
  let '(operations, s) := read_many fuel read_source_operation s in
  s ← lit "}" s; s ← lit (str1 LF) s; s ← lit (str1 LF) s;
  s ← lit "var Events = []Event{" s; s ← lit (str1 LF) s;
  let '(events, s) := read_many fuel read_source_event s in
  s ← lit "}" s; s ← lit (str1 LF) s;
  if string_empty s then Some (operations, events) else None.

(** ** The readers read what is written *)

Lemma lit_app p s : lit p (p +:+ s) = Some s.
Proof. apply CutPrefix_app. Qed.

Section Reads.
Context (quote_unicode : string → string).
Abbreviation Quote := (Quote quote_unicode).

Lemma read_items_Join fuel close values rest :
  values ≠ [] → Forall (λ v, is_ascii v = true) values → length values ≤ fuel →
  (∀ r, CutPrefix (close +:+ r) ", " = None) →
  read_items fuel close (Join (Quote <$> values) ", " +:+ close +:+ rest) = Some (values, rest).
Proof.
  intros Hne Hv Hf Hc. revert fuel Hne Hf. induction Hv as [|v values Hv Hvs IH]; intros fuel Hne Hf; [done|].
  destruct fuel as [|fuel]; [simpl in Hf; lia|]. cbn [read_items]. destruct values as [|w values].
  - cbn [fmap list_fmap Join]. rewrite unquote_Quote by done. cbn [mbind option_bind].
    unfold lit at 1. by rewrite Hc, lit_app.
  - rewrite fmap_cons, Join_cons by done. rewrite !app_assoc_str, unquote_Quote by done.
    cbn [mbind option_bind]. rewrite lit_app, IH; [done|done|simpl in *; lia].
Qed.

Lemma Join_length values : length values ≤ String.length (Join (Quote <$> values) ", ").
Proof.
  induction values as [|v values IH]; [done|]. destruct values as [|w values]; [simpl; rewrite length_app_str; simpl; lia|].
  rewrite fmap_cons, Join_cons by done. rewrite !length_app_str. simpl in *. lia.
Qed.

Lemma read_flow_yamlList values rest :
  Forall (λ v, is_ascii v = true) values →
  read_flow (yamlList quote_unicode values +:+ rest) = Some (values, rest).
Proof.
  intros Hv. unfold yamlList, read_flow. rewrite !app_assoc_str. destruct values as [|v values]; [done|].
  assert (lit "[]" ("[" +:+ Join (Quote <$> v :: values) ", " +:+ "]" +:+ rest) = None) as ->.
  { rewrite fmap_cons. unfold Quote at 1. by destruct (Quote <$> values). }
  rewrite lit_app. cbn [mbind option_bind]. apply read_items_Join; [done|done| |done].
  rewrite !length_app_str. pose proof (Join_length (v :: values)). lia.
Qed.
Lemma read_field_line name v rest :
  is_ascii v = true → read_field name (Fprintln [name; Quote v] +:+ rest) = Some (v, rest).
Proof.
  intros Hv. unfold read_field, Fprintln. cbn [Join]. rewrite !app_assoc_str, lit_app.
  cbn [mbind option_bind]. rewrite lit_app. cbn [mbind option_bind]. rewrite unquote_Quote by done.
  cbn [mbind option_bind]. by rewrite lit_app.
Qed.

Lemma read_list_field_line name values rest :
  Forall (λ v, is_ascii v = true) values →
  read_list_field name (Fprintln [name; yamlList quote_unicode values] +:+ rest) = Some (values, rest).
Proof.
  intros Hv. unfold read_list_field, Fprintln. cbn [Join]. rewrite !app_assoc_str, lit_app.
  cbn [mbind option_bind]. rewrite lit_app. cbn [mbind option_bind].
  rewrite read_flow_yamlList by done. cbn [mbind option_bind]. by rewrite lit_app.
Qed.

Lemma read_line_app line rest : free_of LF line = true → read_line (line +:+ str1 LF +:+ rest) = Some (line, rest).
Proof.
  intros Hl. unfold read_line. change (str1 LF +:+ rest) with (String LF rest). by rewrite Cut_free.
Qed.

Lemma read_word_field_line name v rest :
  free_of LF v = true → read_word_field name (Fprintln [name; v] +:+ rest) = Some (v, rest).
Proof.
  intros Hv. unfold read_word_field, Fprintln. cbn [Join]. rewrite !app_assoc_str, lit_app.
  cbn [mbind option_bind]. rewrite lit_app. cbn [mbind option_bind]. by apply read_line_app.
Qed.

Lemma skip_line_line line rest :
  free_of LF line = true → skip_line (Fprintln [line] +:+ rest) = Some rest.
Proof.
  intros Hl. unfold skip_line, Fprintln. cbn [Join]. rewrite !app_assoc_str. by rewrite read_line_app.
Qed.

Lemma read_many_text {A B} (f : A → string) (g : A → B) read l rest fuel :
  Forall (λ a, ∀ r, read (f a +:+ r) = Some (g a, r)) l → read rest = None → length l ≤ fuel →
  read_many fuel read (concat_text f l +:+ rest) = (g <$> l, rest).
Proof.
  intros Hl Hr. revert fuel. induction Hl as [|a l Ha _ IH]; intros fuel Hf; unfold concat_text; cbn [foldr].
  - rewrite app_nil_l_str. destruct fuel; [done|]. cbn [read_many]. by rewrite Hr.
  - destruct fuel as [|fuel]; [simpl in Hf; lia|]. cbn [read_many]. rewrite app_assoc_str, Ha.
    fold (concat_text f l). rewrite IH; [done|simpl in Hf; lia].
Qed.

Lemma concat_text_length {A} (f : A → string) l :
  (∀ a, f a ≠ "") → length l ≤ String.length (concat_text f l).
Proof.
  intros Hf. unfold concat_text. induction l as [|a l IH]; [done|]. cbn [foldr length].
  rewrite length_app_str. destruct (f a) eqn:E; [by apply Hf in E|]. simpl. lia.
Qed.

(** What the readers ask of an operation: ASCII text, and words that end with
    their line. *)
Definition plain_operation (g : generatedOperation) : Prop :=
  Forall (λ v, is_ascii v = true)
    (g_OperationID g :: g_Method g :: g_Path g :: g_Capability g :: g_LocalCase g :: g_LiveReason g ::
     g_Transports g ++ g_SchemaCases g ++ g_RequestMedia g ++ g_ResponseMedia g) ∧
  free_of LF (g_SDKCall g) = true ∧ free_of LF (g_LiveProfile g) = true.
Definition plain_event (e : generatedEvent) : Prop :=
  is_ascii (ge_Surface e) = true ∧ is_ascii (ge_Direction e) = true ∧ is_ascii (ge_Type e) = true.

Lemma read_operation_text g rest :
  plain_operation g → read_operation (compatibility_operation quote_unicode g +:+ rest) = Some (entry_of g, rest).
Proof.
  intros [Ha [Hs Hp]]. repeat (apply Forall_cons in Ha as [? Ha]).
  apply Forall_app in Ha as [Ht Ha]. apply Forall_app in Ha as [Hsc _].
  unfold read_operation, compatibility_operation. rewrite !app_assoc_str.
  do 4 (rewrite read_field_line by done; cbn [mbind option_bind]).
  do 2 (rewrite skip_line_line by done; cbn [mbind option_bind]).
  rewrite read_field_line by done; cbn [mbind option_bind].
  rewrite read_word_field_line by done; cbn [mbind option_bind].
  do 2 (rewrite read_list_field_line by done; cbn [mbind option_bind]).
  rewrite read_word_field_line by done; cbn [mbind option_bind].
  by rewrite read_field_line.
Qed.

Lemma Quote_no_LF s : is_ascii s = true → free_of LF (Quote s) = true.
Proof.
  intros Hs. unfold Quote, GeneratorText.Quote, free_of. rewrite !string_forallb_app. apply andb_true_iff.
  split; [done|]. apply andb_true_iff. split; [|done]. revert Hs. unfold is_ascii.
  induction s as [|c s IH]; [done|]. cbn [string_forallb quote_body]. intros [Hc Hs]%andb_true_iff.
  rewrite Hc, string_forallb_app. apply andb_true_iff. split; [|by apply IH].
  by destruct c as [[] [] [] [] [] [] [] []].
Qed.

Lemma is_ascii_app s t : is_ascii (s +:+ t) = is_ascii s && is_ascii t.
Proof. apply string_forallb_app. Qed.

Lemma skip_field_line name v rest :
  free_of LF name = true → is_ascii v = true → skip_line (Fprintln [name; Quote v] +:+ rest) = Some rest.
Proof.
  intros Hn Hv. replace (Fprintln [name; Quote v]) with (Fprintln [name +:+ " " +:+ Quote v]) by done.
  apply skip_line_line. unfold free_of in *. rewrite !string_forallb_app, Hn. simpl. by apply Quote_no_LF.
Qed.

Lemma read_event_text e rest :
  plain_event e → read_event (compatibility_event quote_unicode e +:+ rest) = Some (e, rest).
Proof.
  intros (Hs & Hd & Ht). unfold read_event, compatibility_event. rewrite !app_assoc_str.
  do 3 (rewrite read_field_line by done; cbn [mbind option_bind]).
  do 2 (rewrite skip_line_line by done; cbn [mbind option_bind]).
  rewrite skip_line_line by (unfold sdk_side; by repeat case_bool_decide). cbn [mbind option_bind].
  rewrite skip_field_line by (try done; rewrite !is_ascii_app, Hs, Hd, Ht; done). cbn [mbind option_bind].
  do 4 (rewrite skip_line_line by done; cbn [mbind option_bind]).
  by destruct e.
Qed.

Lemma compatibility_operation_nonempty g : compatibility_operation quote_unicode g ≠ "".
Proof. done. Qed.
Lemma compatibility_event_nonempty e : compatibility_event quote_unicode e ≠ "".
Proof. done. Qed.

Lemma renderCompatibility_read operations inventory :
  Forall plain_operation operations → Forall plain_event (collectEvents inventory) →
  is_ascii (SDK inventory) = true →
  read_matrix (renderCompatibility quote_unicode operations inventory) =
    Some (SDK inventory, entry_of <$> operations, collectEvents inventory).
Proof.
  intros Ho He Hs. unfold read_matrix, renderCompatibility.
  match goal with |- context [String.length ?text] => set (fuel := String.length text) end.
  assert (length operations ≤ fuel ∧ length (collectEvents inventory) ≤ fuel) as [Hf1 Hf2].
  { subst fuel. rewrite !length_app_str.
    pose proof (concat_text_length _ operations compatibility_operation_nonempty).
    pose proof (concat_text_length _ (collectEvents inventory) compatibility_event_nonempty). lia. }
  clearbody fuel. rewrite <- (app_nil_r_str (concat_text _ (collectEvents inventory))).
  do 2 (rewrite skip_line_line by done; cbn [mbind option_bind]).
  rewrite read_field_line by done; cbn [mbind option_bind].
  unfold Fprintln. cbn [Join]. rewrite !app_assoc_str.
  do 2 (rewrite lit_app; cbn [mbind option_bind]).
  rewrite (read_many_text _ entry_of _ operations); [|eapply Forall_impl; [exact Ho|]|done|done].
  2:{ intros g Hg r. by apply read_operation_text. }
  do 2 (rewrite lit_app; cbn [mbind option_bind]).
  rewrite (read_many_text _ id _ (collectEvents inventory)); [|eapply Forall_impl; [exact He|]|done|done].
  2:{ intros e Hpe r. by apply read_event_text. }
  simpl. by rewrite list_fmap_id.
Qed.
(** ** The Go tables *)

Lemma read_go_strings_text values rest :
  Forall (λ v, is_ascii v = true) values →
  read_go_strings (go_strings quote_unicode values +:+ rest) = Some (values, rest).
Proof.
  intros Hv. unfold go_strings, read_go_strings. destruct values as [|v values]; [by rewrite lit_app|].
  rewrite !app_assoc_str.
  assert (lit "[]string(nil)" ("[]string{" +:+ Join (Quote <$> v :: values) ", " +:+ "}" +:+ rest) = None)
    as -> by done.
  rewrite lit_app. cbn [mbind option_bind]. apply read_items_Join; [done|done| |done].
  rewrite !length_app_str. pose proof (Join_length (v :: values)). lia.
Qed.

Lemma Atoi_status n : (200 ≤ n < 300)%Z → Atoi (Itoa n) = Some n ∧ free_of "}"%char (Itoa n) = true.
Proof.
  intros Hn.
  assert (forallb (λ k, let n := (200 + Z.of_nat k)%Z in
    bool_decide (Atoi (Itoa n) = Some n) && free_of "}"%char (Itoa n)) (seq 0 100) = true) as H by by vm_compute.
  rewrite forallb_forall in H. specialize (H (Z.to_nat (n - 200))). cbv zeta in H.
  rewrite andb_true_iff, bool_decide_eq_true in H.
  replace (200 + Z.of_nat (Z.to_nat (n - 200)))%Z with n in H by lia. apply H. apply in_seq. lia.
Qed.

Lemma read_source_operation_text g rest :
  plain_operation g → (200 ≤ g_SuccessStatus g < 300)%Z →
  read_source_operation (source_operation quote_unicode g +:+ rest) = Some (rendered g, rest).
Proof.
  intros [Ha _] Hn. repeat (apply Forall_cons in Ha as [? Ha]).
  apply Forall_app in Ha as [_ Ha]. apply Forall_app in Ha as [_ Ha]. apply Forall_app in Ha as [Hrq Hrs].
  destruct (Atoi_status _ Hn) as [Hat Hfree].
  unfold read_source_operation, source_operation. rewrite !app_assoc_str.
  do 4 (rewrite lit_app; cbn [mbind option_bind]; rewrite unquote_Quote by done; cbn [mbind option_bind]).
  do 2 (rewrite lit_app; cbn [mbind option_bind]; rewrite read_go_strings_text by done; cbn [mbind option_bind]).
  rewrite lit_app. cbn [mbind option_bind].
  change ("}," +:+ ?x) with (String "}"%char ("," +:+ x)). rewrite Cut_free by done. cbn [negb].
  rewrite Hat. cbn [mbind option_bind]. by do 2 (rewrite lit_app; cbn [mbind option_bind]).
Qed.

Lemma read_source_event_text e rest :
  plain_event e → read_source_event (source_event quote_unicode e +:+ rest) = Some (rendered_event e, rest).
Proof.
  intros (Hs & Hd & Ht). unfold read_source_event, source_event. rewrite !app_assoc_str.
  do 3 (rewrite lit_app; cbn [mbind option_bind]; rewrite unquote_Quote by done; cbn [mbind option_bind]).
  by do 2 (rewrite lit_app; cbn [mbind option_bind]).
Qed.

Lemma skip_const prefix value rest :
  free_of LF prefix = true → free_of LF value = true →
  skip_line (prefix +:+ value +:+ str1 LF +:+ rest) = Some rest.
Proof.
  intros Hp Hv. unfold skip_line. rewrite <- (app_assoc_str prefix), read_line_app; [done|].
  unfold free_of in *. by rewrite string_forallb_app, Hp.
Qed.

Lemma Itoa_no_LF n : (0 ≤ n)%Z → free_of LF (Itoa n) = true.
Proof.
  intros Hn. destruct (decide (n = 0)%Z) as [->|Hne]; [done|].
  destruct (Itoa_digits n ltac:(lia)) as (d & r & -> & Hd & _ & Hr & _). unfold free_of, digits in *.
  assert (∀ c, is_digit c = true → negb (bool_decide (c = LF)) = true) as Hdigit
    by (intros c; by destruct (bool_decide_reflect (c = LF)) as [->|]).
  cbn [string_forallb]. rewrite Hdigit by done. cbn [andb]. eapply string_forallb_impl; [exact Hdigit|exact Hr].
Qed.

Lemma render_source_read digest compressed pathCount operations inventory :
  Forall plain_operation operations → Forall (λ g, 200 ≤ g_SuccessStatus g < 300)%Z operations →
  Forall plain_event (collectEvents inventory) → is_ascii digest = true → is_ascii compressed = true →
  read_source (render_source quote_unicode digest compressed pathCount operations inventory) =
    Some (rendered <$> operations, rendered_event <$> collectEvents inventory).
Proof.
  intros Ho Hst He Hd Hc. unfold read_source, render_source.
  match goal with |- context [String.length ?text] => set (fuel := String.length text) end.
  assert (length operations ≤ fuel ∧ length (collectEvents inventory) ≤ fuel) as [Hf1 Hf2].
  { subst fuel. rewrite !length_app_str.
    pose proof (concat_text_length (source_operation quote_unicode) operations ltac:(done)).
    pose proof (concat_text_length (source_event quote_unicode) (collectEvents inventory) ltac:(done)). lia. }
  clearbody fuel.
  do 2 (rewrite skip_line_line by done; cbn [mbind option_bind]).
  unfold Fprintln. cbn [Join]. rewrite ?app_assoc_str, ?app_nil_l_str.
  rewrite (lit_app (str1 LF)). cbn [mbind option_bind].
  do 2 (rewrite skip_const by (done || apply Itoa_no_LF; lia); cbn [mbind option_bind]).
  do 2 (rewrite skip_const by (done || by apply Quote_no_LF); cbn [mbind option_bind]).
  do 3 (rewrite lit_app; cbn [mbind option_bind]).
  rewrite (read_many_text _ rendered _ operations); [| |done|done].
  2:{ rewrite Forall_forall in Ho, Hst. apply Forall_forall. intros g Hg r.
    apply read_source_operation_text; auto. }
  do 5 (rewrite lit_app; cbn [mbind option_bind]).
  rewrite (read_many_text _ rendered_event _ (collectEvents inventory)); [|eapply Forall_impl; [exact He|]|done|done].
  2:{ intros e Hpe r. by apply read_source_event_text. }
  rewrite lit_app. cbn [mbind option_bind]. done.
Qed.
End Reads.

(** ** Properties *)

(** C35. The compatibility matrix says what it was made from: it reads back, by
    YAML's rules for the forms it uses, as the version of the SDK, the operations
    with their evidence, and the events, in order and with nothing left over. *)
Theorem renderCompatibility_round_trip quote_unicode operations inventory :
  Forall plain_operation operations → Forall plain_event (collectEvents inventory) →
  is_ascii (SDK inventory) = true →
  read_matrix (renderCompatibility quote_unicode operations inventory) =
    Some (SDK inventory, entry_of <$> operations, collectEvents inventory).
Proof. apply renderCompatibility_read. Qed.

(** The Go source the generator hands to the formatter declares exactly the
    tables of the operations and events it was given, whatever the digest and
    the packed document are. *)
Theorem render_source_round_trip quote_unicode digest compressed pathCount operations inventory :
  Forall plain_operation operations → Forall (λ g, 200 ≤ g_SuccessStatus g < 300)%Z operations →
  Forall plain_event (collectEvents inventory) → is_ascii digest = true → is_ascii compressed = true →
  read_source (render_source quote_unicode digest compressed pathCount operations inventory) =
    Some (rendered <$> operations, rendered_event <$> collectEvents inventory).
Proof. apply render_source_read. Qed.

(** ** Witnesses *)

#[export] Instance plain_operation_dec g : Decision (plain_operation g).
Proof. unfold plain_operation. apply _. Defined.
#[export] Instance plain_event_dec e : Decision (plain_event e).
Proof. unfold plain_event. apply _. Defined.

Lemma frozen_plain :
  Forall plain_operation frozen_operations ∧ Forall plain_event (collectEvents realtime_events) ∧
  Forall (λ g, 200 ≤ g_SuccessStatus g < 300)%Z frozen_operations.
Proof. apply (bool_decide_unpack _). vm_compute. exact I. Qed.

Lemma renderCompatibility_round_trip_witness :
  read_matrix (renderCompatibility (λ _, "") frozen_operations realtime_events) =
    Some (SDK realtime_events, entry_of <$> frozen_operations, collectEvents realtime_events).
Proof.
  apply renderCompatibility_round_trip; [exact (proj1 frozen_plain)|exact (proj1 (proj2 frozen_plain))|].
  reflexivity.
Defined.

Lemma render_source_round_trip_witness :
  read_source (render_source (λ _, "") "542299d3" "H4sIAAAA" 182 frozen_operations realtime_events) =
    Some (Operations, Events).
Proof.
  rewrite <- frozen_rendered, <- frozen_events.
  apply render_source_round_trip; [exact (proj1 frozen_plain)|exact (proj2 (proj2 frozen_plain))|
    exact (proj1 (proj2 frozen_plain))|reflexivity|reflexivity].
Defined.
