(* ===== verification/GeneratorInput.v ===== *)
(** What [internal/cmd/openai-gen/main.go] decodes: [json.Unmarshal] of the
    OpenAPI document and of the event inventory into the generator's types.

    [json.Unmarshal] decodes a value into what is there.  A field that occurs
    twice is decoded twice, the second time into the result of the first: a
    string that meets [null] keeps its value, a map keeps its entries, a slice
    its array, a pointer its target.  So a decoder is a function of the old
    value.  A value of the wrong type anywhere makes the whole call fail. *)
From S2P Require Import Prelude GoStrings JsonString Json Any JsonRound DecodeSound JsonIndent.
From S2P Require Import Generator GeneratorOrder SpecData GeneratorEvidence.

(** ** Decoders *)

Definition decoder (A : Type) : Type := A → json → option A.

Definition decode_string : decoder string := λ old v,
  match v with JString s => Some s | JNull => Some old | _ => None end.

(** [json.RawMessage] takes any value; the generator does not look at it. *)
Definition decode_raw : decoder () := λ _ _, Some ().

(** A map: every entry is decoded into a fresh element. *)
Definition decode_entries {A} (dec : decoder A) (zero : A) (entries : list (string * A))
    (members : list (string * json)) : option (list (string * A)) :=
  foldl (λ acc member, m ← acc; a ← dec zero member.2; Some (map_set member.1 a m))
    (Some entries) members.

Definition decode_map {A} (dec : decoder A) (zero : A) : decoder (list (string * A)) := λ old v,
  match v with
  | JNull => Some []
  | JObject members => decode_entries dec zero old members
  | _ => None
  end.

(** A slice with the array behind it: elements are decoded into those that are
    there already, and what is behind the new length stays. *)
Record Slice (A : Type) := mkSlice { sl_array : list A; sl_len : nat }.
Arguments mkSlice {A} _ _.
Arguments sl_array {A} _.
Arguments sl_len {A} _.

Definition nil_slice {A} : Slice A := mkSlice [] 0.
Definition sl_elements {A} (s : Slice A) : list A := take (sl_len s) (sl_array s).

Fixpoint decode_elements {A} (dec : decoder A) (zero : A) (array : list A) (elements : list json)
    : option (list A) :=
  match elements with
  | [] => Some array
  | v :: elements =>
      a ← dec (default zero (head array)) v;
      rest ← decode_elements dec zero (tail array) elements;
      Some (a :: rest)
  end.

Definition decode_slice {A} (dec : decoder A) (zero : A) : decoder (Slice A) := λ old v,
  match v with
  | JNull | JArray [] => Some nil_slice
  | JArray elements =>
      array ← decode_elements dec zero (sl_array old) elements;
      Some (mkSlice array (length elements))
  | _ => None
  end.

(** A pointer is set to a new target unless it has one. *)
Definition decode_pointer {A} (dec : decoder A) (zero : A) : decoder (option A) := λ old v,
  match v with
  | JNull => Some None
  | _ => Some <$> dec (default zero old) v
  end.

(** A struct by its fields; a key selects a field in any case, others are skipped. *)
Definition decode_struct {A} (fields : list (string * decoder A)) : decoder A := λ old v,
  match v with
  | JNull => Some old
  | JObject members =>
      foldl (λ acc member, a ← acc;
        match List.find (λ field, EqualFold member.1 field.1) fields with
        | Some field => field.2 a member.2
        | None => Some a
        end) (Some old) members
  | _ => None
  end.

(** ** The generator's types *)

(** The common form of [requestBody] and [response]: their media types. *)
Definition media_map : Type := list (string * ()).
Definition decode_content : decoder media_map :=
  decode_struct [("content", decode_map decode_raw ())].

Definition decode_parameter : decoder string := decode_struct [("in", decode_string)].

Record operation_fields := mkFields {
  of_OperationID : string;
  of_Tags : Slice string;
  of_Parameters : Slice string;
  of_RequestBody : option media_map;
  of_Responses : list (string * media_map) }.

Definition zero_operation : operation_fields := mkFields "" nil_slice nil_slice None [].

Definition decode_operation : decoder operation_fields := decode_struct
  [("operationId", λ o v, s ← decode_string (of_OperationID o) v;
      Some (mkFields s (of_Tags o) (of_Parameters o) (of_RequestBody o) (of_Responses o)));
   ("tags", λ o v, s ← decode_slice decode_string "" (of_Tags o) v;
      Some (mkFields (of_OperationID o) s (of_Parameters o) (of_RequestBody o) (of_Responses o)));
   ("parameters", λ o v, s ← decode_slice decode_parameter "" (of_Parameters o) v;
      Some (mkFields (of_OperationID o) (of_Tags o) s (of_RequestBody o) (of_Responses o)));
   ("requestBody", λ o v, b ← decode_pointer decode_content [] (of_RequestBody o) v;
      Some (mkFields (of_OperationID o) (of_Tags o) (of_Parameters o) b (of_Responses o)));
   ("responses", λ o v, r ← decode_map decode_content [] (of_Responses o) v;
      Some (mkFields (of_OperationID o) (of_Tags o) (of_Parameters o) (of_RequestBody o) r))].

(** The fields as [Generator] has them. *)
Definition operation_of (o : operation_fields) : operation :=
  mkGenOperation (of_OperationID o) (sl_elements (of_Tags o)) (sl_elements (of_Parameters o))
    ((λ m, mkRequestBody m.*1) <$> of_RequestBody o)
    ((λ r : string * media_map, (r.1, mkGenResponse r.2.*1)) <$> of_Responses o).

Definition document_fields : Type := list (string * list (string * operation_fields)).

Definition decode_document_fields : decoder document_fields :=
  decode_struct [("paths", decode_map (decode_map decode_operation zero_operation) [])].

Definition document_of (d : document_fields) : document :=
  (λ p : string * list (string * operation_fields),
     (p.1, (λ i : string * operation_fields, (i.1, operation_of i.2)) <$> p.2)) <$> d.

(** [json.Unmarshal(raw, &spec)] *)
Definition unmarshal_document (raw : string) : option document :=
  v ← parse raw; document_of <$> decode_document_fields [] v.

Record surface_fields := mkSurfaceFields { sf_Client : Slice string; sf_Server : Slice string }.

Definition decode_surface : decoder surface_fields := decode_struct
  [("client", λ s v, c ← decode_slice decode_string "" (sf_Client s) v;
      Some (mkSurfaceFields c (sf_Server s)));
   ("server", λ s v, c ← decode_slice decode_string "" (sf_Server s) v;
      Some (mkSurfaceFields (sf_Client s) c))].

Record inventory_fields := mkInventoryFields {
  if_SDK : string;
  if_Surfaces : list (string * surface_fields) }.

Definition decode_inventory : decoder inventory_fields := decode_struct
  [("sdk", λ i v, s ← decode_string (if_SDK i) v; Some (mkInventoryFields s (if_Surfaces i)));
   ("surfaces", λ i v,
      m ← decode_map decode_surface (mkSurfaceFields nil_slice nil_slice) (if_Surfaces i) v;
      Some (mkInventoryFields (if_SDK i) m))].

Definition inventory_of (i : inventory_fields) : eventInventory :=
  mkEventInventory (if_SDK i)
    ((λ s : string * surface_fields,
        (s.1, mkEventSurface (sl_elements (sf_Client s.2)) (sl_elements (sf_Server s.2)))) <$> if_Surfaces i).

(** [json.Unmarshal(eventData, &events)] *)
Definition unmarshal_events (raw : string) : option eventInventory :=
  v ← parse raw; inventory_of <$> decode_inventory (mkInventoryFields "" []) v.

(** ** The frozen event inventory *)

(** [spec/openai/realtime-events.json] *)
Definition realtime_events_json : string := quoted "{
  'sdk': 'openai-node@7.4.0',
  'surfaces': {
    'realtime': {
      'client': [
        'conversation.item.create', 'conversation.item.delete', 'conversation.item.retrieve', 'conversation.item.truncate',
        'input_audio_buffer.append', 'input_audio_buffer.clear', 'input_audio_buffer.commit', 'output_audio_buffer.clear',
        'response.cancel', 'response.create', 'session.update'
      ],
      'server': [
        'conversation.created', 'conversation.item.added', 'conversation.item.created', 'conversation.item.deleted',
        'conversation.item.done', 'conversation.item.input_audio_transcription.completed',
        'conversation.item.input_audio_transcription.delta', 'conversation.item.input_audio_transcription.failed',
        'conversation.item.input_audio_transcription.segment', 'conversation.item.retrieved', 'conversation.item.truncated',
        'error', 'input_audio_buffer.cleared', 'input_audio_buffer.committed', 'input_audio_buffer.dtmf_event_received',
        'input_audio_buffer.speech_started', 'input_audio_buffer.speech_stopped', 'input_audio_buffer.timeout_triggered',
        'mcp_list_tools.completed', 'mcp_list_tools.failed', 'mcp_list_tools.in_progress', 'output_audio_buffer.cleared',
        'output_audio_buffer.started', 'output_audio_buffer.stopped', 'rate_limits.updated', 'response.content_part.added',
        'response.content_part.done', 'response.created', 'response.done', 'response.function_call_arguments.delta',
        'response.function_call_arguments.done', 'response.mcp_call.completed', 'response.mcp_call.failed',
        'response.mcp_call.in_progress', 'response.mcp_call_arguments.delta', 'response.mcp_call_arguments.done',
        'response.output_audio.delta', 'response.output_audio.done', 'response.output_audio_transcript.delta',
        'response.output_audio_transcript.done', 'response.output_item.added', 'response.output_item.done',
        'response.output_text.delta', 'response.output_text.done', 'session.created', 'session.updated'
      ]
    },
    'realtime_translation': {
      'client': ['session.close', 'session.input_audio_buffer.append', 'session.update'],
      'server': ['error', 'session.closed', 'session.created', 'session.input_transcript.delta', 'session.output_audio.delta', 'session.output_transcript.delta', 'session.updated']
    },
    'responses_websocket': {
      'client': ['response.create'],
      'server': [
        'error', 'response.audio.delta', 'response.audio.done', 'response.audio.transcript.delta',
        'response.audio.transcript.done', 'response.code_interpreter_call.completed',
        'response.code_interpreter_call.in_progress', 'response.code_interpreter_call.interpreting',
        'response.code_interpreter_call_code.delta', 'response.code_interpreter_call_code.done', 'response.completed',
        'response.content_part.added', 'response.content_part.done', 'response.created',
        'response.custom_tool_call_input.delta', 'response.custom_tool_call_input.done', 'response.failed',
        'response.file_search_call.completed', 'response.file_search_call.in_progress', 'response.file_search_call.searching',
        'response.function_call_arguments.delta', 'response.function_call_arguments.done',
        'response.image_generation_call.completed', 'response.image_generation_call.generating',
        'response.image_generation_call.in_progress', 'response.image_generation_call.partial_image',
        'response.in_progress', 'response.incomplete', 'response.mcp_call.completed', 'response.mcp_call.failed',
        'response.mcp_call.in_progress', 'response.mcp_call_arguments.delta', 'response.mcp_call_arguments.done',
        'response.mcp_list_tools.completed', 'response.mcp_list_tools.failed', 'response.mcp_list_tools.in_progress',
        'response.output_item.added', 'response.output_item.done', 'response.output_text.annotation.added',
        'response.output_text.delta', 'response.output_text.done', 'response.queued',
        'response.reasoning_summary_part.added', 'response.reasoning_summary_part.done',
        'response.reasoning_summary_text.delta', 'response.reasoning_summary_text.done', 'response.reasoning_text.delta',
        'response.reasoning_text.done', 'response.refusal.delta', 'response.refusal.done',
        'response.web_search_call.completed', 'response.web_search_call.in_progress', 'response.web_search_call.searching'
      ]
    }
  }
}
".

Lemma realtime_events_decode : unmarshal_events realtime_events_json = Some realtime_events.
Proof. vm_compute. reflexivity. Qed.

(** ** The inputs as JSON *)

Definition strings_json (l : list string) : json := JArray (JString <$> l).

Definition content_json (media : list string) : json :=
  JObject [("content", JObject ((λ k : string * (), (k.1, JObject [])) <$> ((., ()) <$> media)))].

Definition operation_json (o : operation) : json :=
  JObject
    [("operationId", JString (OperationID o)); ("tags", strings_json (Tags o));
     ("parameters", JArray ((λ p, JObject [("in", JString p)]) <$> Parameters o));
     ("requestBody", match RequestBody o with
                     | Some body => content_json (rb_Content body)
                     | None => JNull
                     end);
     ("responses", JObject ((λ r : string * response, (r.1, content_json (rs_Content r.2)))
        <$> Responses o))].

Definition path_json (items : list (string * operation)) : json :=
  JObject ((λ i : string * operation, (i.1, operation_json i.2)) <$> items).

Definition document_json (d : document) : json :=
  JObject [("paths", JObject ((λ p : string * list (string * operation), (p.1, path_json p.2)) <$> d))].

Definition surface_json (s : eventSurface) : json :=
  JObject [("client", strings_json (es_Client s)); ("server", strings_json (es_Server s))].

Definition inventory_json (i : eventInventory) : json :=
  JObject [("sdk", JString (SDK i));
           ("surfaces", JObject ((λ s : string * eventSurface, (s.1, surface_json s.2)) <$> Surfaces i))].

(** The keys of every map are distinct. *)
Definition distinct_body (body : option requestBody) : Prop :=
  match body with Some b => NoDup (rb_Content b) | None => True end.

Definition distinct_operation (o : operation) : Prop :=
  distinct_body (RequestBody o) ∧ NoDup (Responses o).*1 ∧
  Forall (λ r : string * response, NoDup (rs_Content r.2)) (Responses o).

Definition distinct_document (d : document) : Prop :=
  NoDup d.*1 ∧
  Forall (λ p : string * list (string * operation),
    NoDup p.2.*1 ∧ Forall (λ i : string * operation, distinct_operation i.2) p.2) d.

#[export] Instance distinct_body_dec body : Decision (distinct_body body).
Proof. destruct body; apply _. Defined.
#[export] Instance distinct_operation_dec o : Decision (distinct_operation o).
Proof. unfold distinct_operation. apply _. Defined.
#[export] Instance distinct_document_dec d : Decision (distinct_document d).
Proof. unfold distinct_document. apply _. Defined.

(** ** Lemmas *)

Lemma decode_elements_each {A B} (dec : decoder A) (zero : A) (f : B → json) (g : B → A) l :
  (∀ b, dec zero (f b) = Some (g b)) → decode_elements dec zero [] (f <$> l) = Some (g <$> l).
Proof. intros Hf. induction l as [|b l IH]; [done|]. csimpl. rewrite Hf. csimpl. by rewrite IH. Qed.

Lemma decode_slice_each {A B} (dec : decoder A) (zero : A) (f : B → json) (g : B → A) l :
  (∀ b, dec zero (f b) = Some (g b)) →
  ∃ s, decode_slice dec zero nil_slice (JArray (f <$> l)) = Some s ∧ sl_elements s = g <$> l.
Proof.
  intros Hf. destruct l as [|b l]; [by exists nil_slice|].
  exists (mkSlice (g <$> b :: l) (length (f <$> b :: l))). split.
  - pose proof (decode_elements_each dec zero f g (b :: l) Hf) as He.
    unfold decode_slice, nil_slice. cbn [sl_array]. change (f <$> b :: l) with (f b :: (f <$> l)) in *.
    by rewrite He.
  - unfold sl_elements. cbn [sl_len sl_array]. rewrite length_fmap, <- (length_fmap g). apply take_ge. done.
Qed.

Lemma decode_strings l :
  ∃ s, decode_slice decode_string "" nil_slice (strings_json l) = Some s ∧ sl_elements s = l.
Proof.
  destruct (decode_slice_each decode_string "" JString id l) as (s & H1 & H2); [done|].
  exists s. split; [exact H1|]. by rewrite list_fmap_id in H2.
Qed.

Lemma decode_entries_fresh {A B} (dec : decoder A) (zero : A) (f : B → json) (R : B → A → Prop) l entries :
  NoDup l.*1 → (∀ k, k ∈ l.*1 → k ∉ entries.*1) → sorted_map entries →
  Forall (λ kb, ∃ a, dec zero (f kb.2) = Some a ∧ R kb.2 a) l →
  ∃ m added, decode_entries dec zero entries ((λ kb : string * B, (kb.1, f kb.2)) <$> l) = Some m ∧
    m ≡ₚ added ++ entries ∧ Forall2 (λ kb ka, kb.1 = ka.1 ∧ R kb.2 ka.2) l added.
Proof.
  revert entries. induction l as [|[k b] l IH]; intros entries Hnd Hout Hs Hdec.
  { exists entries, []. by split_and!. }
  csimpl in Hnd. apply NoDup_cons in Hnd as [Hk Hnd].
  apply Forall_cons in Hdec as [(a & Ha & HR) Hdec]. simpl in Ha, HR.
  assert (map_set k a entries ≡ₚ (k, a) :: entries) as Hp.
  { rewrite map_set_Permutation by done. rewrite map_delete_id; [done|].
    apply Hout. csimpl. by left. }
  destruct (IH (map_set k a entries)) as (m & added & Hm & Hmp & Hadd); [done| |by apply map_set_sorted|done|].
  { intros k' Hk'. rewrite Hp. csimpl. rewrite not_elem_of_cons. split; [by intros ->|].
    apply Hout. csimpl. by right. }
  exists m, ((k, a) :: added). split_and!.
  - unfold decode_entries in *. csimpl. by rewrite Ha.
  - rewrite Hmp, Hp. simpl. by rewrite <- Permutation_middle.
  - by constructor.
Qed.

Lemma decode_map_perm {A B} (dec : decoder A) (zero : A) (f : B → json) (h : A → B) (R : B → B → Prop) l :
  NoDup l.*1 → Forall (λ kb, ∃ a, dec zero (f kb.2) = Some a ∧ R kb.2 (h a)) l →
  ∃ m, decode_map dec zero [] (JObject ((λ kb : string * B, (kb.1, f kb.2)) <$> l)) = Some m ∧
    perm2 (λ kb kb', kb.1 = kb'.1 ∧ R kb.2 kb'.2) l ((λ ka : string * A, (ka.1, h ka.2)) <$> m).
Proof.
  intros Hnd Hdec.
  destruct (decode_entries_fresh dec zero f (λ b a, R b (h a)) l []) as (m & added & Hm & Hp & Hadd);
    [done|set_solver|constructor|done|].
  exists m. split; [exact Hm|]. rewrite app_nil_r in Hp. unfold perm2.
  apply (Forall2_perm_r _ l ((λ ka : string * A, (ka.1, h ka.2)) <$> added)); [|by rewrite Hp].
  by apply Forall2_fmap_r.
Qed.

(** Runs [decode_struct] on members with known keys. *)
Ltac decode_fields :=
  cbn [decode_struct foldl List.find fst snd];
  repeat match goal with
  | |- context [EqualFold ?s ?t] =>
      let v := eval vm_compute in (EqualFold s t) in change (EqualFold s t) with v
  end;
  cbv beta iota.

Lemma perm2_keys {B} (R : B → B → Prop) (l l' : list (string * B)) :
  perm2 (λ kb kb', kb.1 = kb'.1 ∧ R kb.2 kb'.2) l l' → l.*1 ≡ₚ l'.*1.
Proof.
  intros (k & -> & HF). induction HF as [|a b k l' [Hk _] _ IH]; [done|]. csimpl. by rewrite Hk, IH.
Qed.

Lemma keys_map {A B} (h : A → B) (m : list (string * A)) :
  ((λ ka : string * A, (ka.1, h ka.2)) <$> m).*1 = m.*1.
Proof. by rewrite <- list_fmap_compose. Qed.

Lemma decode_content_media media :
  NoDup media → ∃ m, decode_content [] (content_json media) = Some m ∧ media ≡ₚ m.*1.
Proof.
  intros Hnd.
  assert (((., ()) <$> media).*1 = media) as Hkeys by by rewrite <- list_fmap_compose, list_fmap_id.
  destruct (decode_map_perm decode_raw () (λ _, JObject []) id (λ _ _, True) ((., ()) <$> media))
    as (m & Hm & Hp).
  { by rewrite Hkeys. }
  { apply Forall_forall. intros. by exists (). }
  exists m. split; [unfold decode_content, content_json; decode_fields; exact Hm|].
  apply (perm2_keys (λ _ _, True)) in Hp. rewrite keys_map in Hp. by rewrite Hkeys in Hp.
Qed.

Lemma decode_parameters l :
  ∃ s, decode_slice decode_parameter "" nil_slice (JArray ((λ p, JObject [("in", JString p)]) <$> l)) = Some s ∧
    sl_elements s = l.
Proof.
  destruct (decode_slice_each decode_parameter "" (λ p, JObject [("in", JString p)]) id l)
    as (s & H1 & H2); [done|].
  exists s. split; [exact H1|]. by rewrite list_fmap_id in H2.
Qed.

Lemma decode_operation_members id tags parameters body responses :
  decode_operation zero_operation (JObject
    [("operationId", JString id); ("tags", tags); ("parameters", parameters); ("requestBody", body);
     ("responses", responses)]) =
  (t ← decode_slice decode_string "" nil_slice tags;
   p ← decode_slice decode_parameter "" nil_slice parameters;
   b ← decode_pointer decode_content [] None body;
   r ← decode_map decode_content [] [] responses;
   Some (mkFields id t p b r)).
Proof.
  unfold decode_operation. decode_fields. csimpl.
  destruct (decode_slice decode_string _ _ _); [|done]. csimpl.
  destruct (decode_slice decode_parameter _ _ _); [|done]. csimpl.
  destruct (decode_pointer _ _ _ _); [|done]. csimpl.
  by destruct (decode_map _ _ _ _).
Qed.

Lemma decode_operation_json o :
  distinct_operation o →
  ∃ f, decode_operation zero_operation (operation_json o) = Some f ∧ same_operation o (operation_of f).
Proof.
  intros (Hbody & Hkeys & Hresp). unfold operation_json. rewrite decode_operation_members.
  destruct (decode_strings (Tags o)) as (t & -> & Ht).
  destruct (decode_parameters (Parameters o)) as (p & -> & Hp).
  destruct (decode_map_perm decode_content [] (λ r, content_json (rs_Content r))
    (λ m : media_map, mkGenResponse m.*1) (λ r r', rs_Content r ≡ₚ rs_Content r') (Responses o))
    as (m & -> & Hm); [done| |].
  { eapply Forall_impl; [exact Hresp|]. intros [k r] Hr. by apply decode_content_media. }
  assert (∃ b, decode_pointer decode_content [] None
      match RequestBody o with Some body => content_json (rb_Content body) | None => JNull end = Some b ∧
    option_Forall2 (λ b b', rb_Content b ≡ₚ rb_Content b') (RequestBody o)
      ((λ m, mkRequestBody m.*1) <$> b)) as (b & -> & Hb).
  { destruct (RequestBody o) as [body|]; [|exists None; by repeat constructor].
    destruct (decode_content_media (rb_Content body) Hbody) as (c & Hc & Hcp).
    exists (Some c). split; [|by constructor].
    unfold decode_pointer, content_json in *. cbn [default]. by rewrite Hc. }
  csimpl. eexists. split; [done|]. by split; simpl.
Qed.

Lemma decode_path_json items :
  NoDup items.*1 → Forall (λ i : string * operation, distinct_operation i.2) items →
  ∃ m, decode_map decode_operation zero_operation [] (path_json items) = Some m ∧
    perm2 same_item items ((λ i : string * operation_fields, (i.1, operation_of i.2)) <$> m).
Proof.
  intros Hnd Hall. apply (decode_map_perm decode_operation zero_operation operation_json operation_of
    same_operation); [done|].
  eapply Forall_impl; [exact Hall|]. intros [k o] Ho. by apply decode_operation_json.
Qed.

Lemma decode_document_json d :
  distinct_document d →
  ∃ f, decode_document_fields [] (document_json d) = Some f ∧ same_document d (document_of f).
Proof.
  intros [Hnd Hall].
  destruct (decode_map_perm (decode_map decode_operation zero_operation) [] path_json
    (fmap (λ i : string * operation_fields, (i.1, operation_of i.2))) (perm2 same_item) d)
    as (f & Hf & Hp); [done| |].
  { eapply Forall_impl; [exact Hall|]. intros [k items] [H1 H2]. by apply decode_path_json. }
  exists f. split; [|exact Hp].
  unfold decode_document_fields, document_json. decode_fields. exact Hf.
Qed.

Lemma decode_surface_json s :
  ∃ f, decode_surface (mkSurfaceFields nil_slice nil_slice) (surface_json s) = Some f ∧
    mkEventSurface (sl_elements (sf_Client f)) (sl_elements (sf_Server f)) = s.
Proof.
  destruct (decode_strings (es_Client s)) as (c & Hc & Hce).
  destruct (decode_strings (es_Server s)) as (v & Hv & Hve).
  exists (mkSurfaceFields c v). split; [|destruct s; simpl in *; by subst].
  unfold decode_surface, surface_json.
  generalize dependent (strings_json (es_Client s)). generalize dependent (strings_json (es_Server s)).
  intros server Hv client Hc. decode_fields. csimpl. rewrite Hc. csimpl. by rewrite Hv.
Qed.

Lemma perm2_eq {B} (l l' : list (string * B)) :
  perm2 (λ kb kb', kb.1 = kb'.1 ∧ kb.2 = kb'.2) l l' → l ≡ₚ l'.
Proof.
  intros (k & -> & HF). induction HF as [|[] [] k l' [Hk Hv] _ IH]; [done|]. simpl in *. subst. by rewrite IH.
Qed.

Lemma decode_inventory_json i :
  NoDup (Surfaces i).*1 →
  ∃ f, decode_inventory (mkInventoryFields "" []) (inventory_json i) = Some f ∧
    SDK (inventory_of f) = SDK i ∧ Surfaces i ≡ₚ Surfaces (inventory_of f).
Proof.
  intros Hnd.
  destruct (decode_map_perm decode_surface (mkSurfaceFields nil_slice nil_slice) surface_json
    (λ f, mkEventSurface (sl_elements (sf_Client f)) (sl_elements (sf_Server f))) eq (Surfaces i))
    as (m & Hm & Hp); [done| |].
  { apply Forall_forall. intros [k s] _. destruct (decode_surface_json s) as (f & Hf & Hs).
    exists f. by split. }
  exists (mkInventoryFields (SDK i) m). split.
  - unfold decode_inventory, inventory_json. revert Hm.
    generalize (JObject ((λ s : string * eventSurface, (s.1, surface_json s.2)) <$> Surfaces i)).
    intros surfaces Hm. decode_fields. csimpl. by rewrite Hm.
  - split; [done|]. by apply perm2_eq.
Qed.

(** The texts are nested far less than the decoder allows. *)
Lemma nesting_members (ms : list (string * json)) depth :
  Forall (λ kv, json_nesting kv.2 ≤ depth) ms → json_nesting (JObject ms) ≤ S depth.
Proof.
  intros H. cbn [json_nesting]. apply le_n_S, list_max_le, Forall_forall. intros n.
  rewrite list_elem_of_In, in_map_iff. intros (kv & <- & Hkv%list_elem_of_In).
  rewrite Forall_forall in H. by apply H.
Qed.

Lemma nesting_object {A} (f : A → json) (l : list (string * A)) depth :
  (∀ a, json_nesting (f a) ≤ depth) →
  json_nesting (JObject ((λ ka : string * A, (ka.1, f ka.2)) <$> l)) ≤ S depth.
Proof.
  intros Hf. apply nesting_members, Forall_fmap, Forall_forall. intros x _. apply Hf.
Qed.

Lemma nesting_array {A} (f : A → json) (l : list A) depth :
  (∀ a, json_nesting (f a) ≤ depth) → json_nesting (JArray (f <$> l)) ≤ S depth.
Proof.
  intros Hf. cbn [json_nesting]. apply le_n_S, list_max_le, Forall_forall. intros n.
  rewrite list_elem_of_In, in_map_iff. intros (v & <- & (a & -> & _)%list_elem_of_In%list_elem_of_fmap).
  apply Hf.
Qed.

Lemma nesting_content media : json_nesting (content_json media) ≤ 3.
Proof.
  apply nesting_members, Forall_singleton. apply (nesting_object (λ _ : (), JObject [])).
  intros _. simpl. lia.
Qed.

Lemma nesting_string_list l : json_nesting (strings_json l) ≤ 1.
Proof. apply (nesting_array JString). intros a. simpl. lia. Qed.

Lemma nesting_operation o : json_nesting (operation_json o) ≤ 5.
Proof.
  apply nesting_members. rewrite !Forall_cons, Forall_nil. split_and!; cbn [snd]; [..|done].
  - simpl. lia.
  - pose proof (nesting_string_list (Tags o)). lia.
  - etransitivity; [apply (nesting_array (λ p, JObject [("in", JString p)]) _ 1)|lia]. intros a. simpl. lia.
  - destruct (RequestBody o) as [b|]; [|simpl; lia]. pose proof (nesting_content (rb_Content b)). lia.
  - apply (nesting_object (λ r, content_json (rs_Content r))). intros r. apply nesting_content.
Qed.

Lemma nesting_document d : json_nesting (document_json d) ≤ 8.
Proof.
  apply nesting_members, Forall_singleton. cbn [snd].
  apply (nesting_object path_json). intros items. apply (nesting_object operation_json).
  apply nesting_operation.
Qed.

Lemma nesting_inventory i : json_nesting (inventory_json i) ≤ 4.
Proof.
  apply nesting_members. rewrite !Forall_cons, Forall_nil. split_and!; cbn [snd]; [simpl; lia| |done].
  apply (nesting_object surface_json). intros s. apply nesting_members.
  rewrite !Forall_cons, Forall_nil. split_and!; cbn [snd]; [apply nesting_string_list..|done].
Qed.

Lemma parse_input v w :
  indentable v = true → json_nesting v ≤ 8 → blank_text w = true → delimits w = true →
  parse (indent 0 v +:+ w) = Some v.
Proof.
  intros Hi Hn. apply parse_indented; [done|]. etransitivity; [exact Hn|].
  apply (Nat.leb_le 8). by vm_compute.
Qed.

(** ** What is decoded is well formed *)

(** A decoder keeps a property of the value it decodes into. *)
Definition keeps {A} (P : A → Prop) (dec : decoder A) : Prop :=
  ∀ old v a, P old → dec old v = Some a → P a.

Lemma keeps_struct {A} (P : A → Prop) (fields : list (string * decoder A)) :
  Forall (λ field, keeps P field.2) fields → keeps P (decode_struct fields).
Proof.
  intros Hf old v a Hold Hdec. destruct v as [| | | | |members]; try done; simpl in Hdec; [by simplify_eq|].
  assert (∀ members acc, (∀ x, acc = Some x → P x) → ∀ x,
    foldl (λ acc member, a ← acc;
        match List.find (λ field : string * decoder A, EqualFold member.1 field.1) fields with
        | Some field => field.2 a member.2
        | None => Some a
        end) acc (members : list (string * json)) = Some x → P x) as Hfold.
  { clear members Hdec. induction members as [|[k v] members IH]; intros acc Hacc x; [apply Hacc|].
    cbn [foldl]. apply IH. intros y. destruct acc as [b|]; [|done]. csimpl.
    destruct (List.find _ fields) as [field|] eqn:Hfind; [|by intros [= <-]; apply Hacc].
    apply List.find_some in Hfind as [Hin%list_elem_of_In _]. rewrite Forall_forall in Hf.
    apply (Hf _ Hin). by apply Hacc. }
  eapply Hfold; [|exact Hdec]. by intros x [= <-].
Qed.

(** A map of values that satisfy [P]. *)
Definition good_map {A} (P : A → Prop) (m : list (string * A)) : Prop :=
  sorted_map m ∧ Forall (λ ka, P ka.2) m.

Lemma keeps_map {A} (P : A → Prop) (dec : decoder A) (zero : A) :
  keeps P dec → P zero → keeps (good_map P) (decode_map dec zero).
Proof.
  intros Hdec Hzero old v m Hold Hm. destruct v as [| | | | |members]; try done; simpl in Hm.
  { simplify_eq. split; constructor. }
  assert (∀ members acc, (∀ x, acc = Some x → good_map P x) → ∀ x,
    foldl (λ acc member, m ← acc; a ← dec zero member.2; Some (map_set member.1 a m)) acc
      (members : list (string * json)) = Some x → good_map P x) as Hfold.
  { clear members Hm. induction members as [|[k v] members IH]; intros acc Hacc x; [apply Hacc|].
    cbn [foldl]. apply IH. intros y. destruct acc as [b|]; [|done]. csimpl.
    destruct (dec zero v) as [a|] eqn:Ha; [|done]. intros [= <-].
    destruct (Hacc _ eq_refl) as [Hs HP]. split; [by apply map_set_sorted|].
    rewrite Forall_forall in HP. apply Forall_forall. intros ka [->|Hin]%map_set_In; [|by apply HP].
    by eapply Hdec. }
  eapply Hfold; [|exact Hm]. by intros x [= <-].
Qed.

Lemma keeps_pointer {A} (P : A → Prop) (dec : decoder A) (zero : A) :
  keeps P dec → P zero →
  keeps (λ o, match o with Some a => P a | None => True end) (decode_pointer dec zero).
Proof.
  intros Hdec Hzero old v o Hold. unfold decode_pointer.
  assert (P (default zero old)) as Hd by by destruct old.
  destruct v; [by intros [= <-]|..]; (destruct (dec _ _) as [a|] eqn:Ha; [|done]);
    intros [= <-]; by eapply Hdec.
Qed.

Definition good_content : media_map → Prop := good_map (λ _, True).

Record good_operation (o : operation_fields) : Prop := {
  good_body : match of_RequestBody o with Some m => good_content m | None => True end;
  good_responses : good_map good_content (of_Responses o) }.

Lemma keeps_content : keeps good_content decode_content.
Proof.
  apply keeps_struct, Forall_singleton. by apply keeps_map.
Qed.

Lemma good_content_nil : good_content [].
Proof. split; constructor. Qed.

Lemma keeps_operation : keeps good_operation decode_operation.
Proof.
  apply keeps_struct. rewrite !Forall_cons, Forall_nil. split_and!; [..|done];
    intros old v o [Hb Hr]; cbn [snd].
  - destruct (decode_string _ _); [|done]. intros [= <-]. by split.
  - destruct (decode_slice _ _ _ _); [|done]. intros [= <-]. by split.
  - destruct (decode_slice _ _ _ _); [|done]. intros [= <-]. by split.
  - destruct (decode_pointer _ _ _ _) as [b|] eqn:Hp; [|done]. intros [= <-]. split; [|done].
    exact (keeps_pointer _ _ _ keeps_content good_content_nil _ _ _ Hb Hp).
  - destruct (decode_map _ _ _ _) as [r|] eqn:Hm; [|done]. intros [= <-]. split; [done|].
    exact (keeps_map _ _ _ keeps_content good_content_nil _ _ _ Hr Hm).
Qed.

Lemma good_operation_distinct f : good_operation f → distinct_operation (operation_of f).
Proof.
  intros [Hb [Hr HR]]. split_and!; simpl.
  - destruct (of_RequestBody f) as [m|]; [|done]. by apply sorted_NoDup, Hb.
  - rewrite (keys_map (λ m : media_map, mkGenResponse m.*1)). by apply sorted_NoDup.
  - apply Forall_fmap. eapply Forall_impl; [exact HR|]. intros [k m] Hm. by apply sorted_NoDup, Hm.
Qed.

Lemma unmarshal_document_distinct raw d : unmarshal_document raw = Some d → distinct_document d.
Proof.
  unfold unmarshal_document. destruct (parse raw) as [v|]; [|done]. csimpl.
  destruct (decode_document_fields [] v) as [f|] eqn:Hf; [|done]. intros [= <-].
  assert (good_map (good_map good_operation) f) as [Hs HP].
  { eapply (keeps_struct (good_map (good_map good_operation))); [|split; constructor|exact Hf].
    apply Forall_singleton. apply keeps_map; [apply keeps_map; [apply keeps_operation|]|split; constructor].
    split; [done|]. split; constructor. }
  split.
  - unfold document_of. rewrite (keys_map (fmap (λ i : string * operation_fields, (i.1, operation_of i.2)))).
    by apply sorted_NoDup.
  - apply Forall_fmap. eapply Forall_impl; [exact HP|]. intros [k items] [Hi Ho]. simpl. split.
    + rewrite (keys_map operation_of). by apply sorted_NoDup.
    + apply Forall_fmap. eapply Forall_impl; [exact Ho|]. intros [m o]. apply good_operation_distinct.
Qed.

(** ** What a decoder promises the generator

    [json.Unmarshal] as the generator sees it: the maps it is given are visited
    in some order. *)
Class Decodes (decode_document : string → result string document)
    (decode_events : string → result string eventInventory) : Prop := {
  decodes_document raw :
    match unmarshal_document raw with
    | Some d => ∃ d', decode_document raw = Ok d' ∧ same_document d d'
    | None => ∃ e, decode_document raw = Err e
    end;
  decodes_events raw :
    match unmarshal_events raw with
    | Some i => ∃ i', decode_events raw = Ok i' ∧ SDK i = SDK i' ∧ Surfaces i ≡ₚ Surfaces i'
    | None => ∃ e, decode_events raw = Err e
    end }.

Definition from_unmarshal {A} (unmarshal : string → option A) (raw : string) : result string A :=
  match unmarshal raw with Some a => Ok a | None => Err "" end.

#[export] Instance unmarshal_decodes :
  Decodes (from_unmarshal unmarshal_document) (from_unmarshal unmarshal_events).
Proof.
  split; intros raw; unfold from_unmarshal.
  - destruct (unmarshal_document raw) as [d|]; [|by eexists]. exists d. split; [done|].
    apply perm2_refl, same_path_refl.
  - destruct (unmarshal_events raw) as [i|]; [|by eexists]. by exists i.
Qed.

(** ** Properties *)

(** C40. The inputs are read as they are meant: a document, whatever its maps
    hold and in whatever order, decodes from its JSON text to the same document,
    and an inventory to the same inventory; the checked-in inventory is the text
    of [realtime_events]; and whatever a text holds, repeated members included,
    the maps that are decoded have distinct keys. *)
Theorem inputs_round_trip w :
  blank_text w = true → delimits w = true →
  (∀ d, distinct_document d → indentable (document_json d) = true →
   ∃ d', unmarshal_document (indent 0 (document_json d) +:+ w) = Some d' ∧ same_document d d') ∧
  (∀ i, NoDup (Surfaces i).*1 → indentable (inventory_json i) = true →
   ∃ i', unmarshal_events (indent 0 (inventory_json i) +:+ w) = Some i' ∧
     SDK i' = SDK i ∧ Surfaces i ≡ₚ Surfaces i') ∧
  unmarshal_events realtime_events_json = Some realtime_events ∧
  (∀ raw d, unmarshal_document raw = Some d → distinct_document d).
Proof.
  intros Hw Hdel. split_and!.
  - intros d Hd Hi. destruct (decode_document_json d Hd) as (f & Hf & Hs).
    exists (document_of f). split; [|done]. unfold unmarshal_document.
    rewrite parse_input by (done || apply nesting_document). unfold mbind, option_bind. by rewrite Hf.
  - intros i Hn Hi. destruct (decode_inventory_json i Hn) as (f & Hf & Hsdk & Hs).
    exists (inventory_of f). split; [|done]. unfold unmarshal_events.
    rewrite parse_input; [|done| |done..].
    + unfold mbind, option_bind. by rewrite Hf.
    + pose proof (nesting_inventory i). lia.
  - exact realtime_events_decode.
  - apply unmarshal_document_distinct.
Qed.

(** ** Witnesses *)

Lemma frozen_distinct_maps : distinct_document openapi.
Proof. apply (bool_decide_unpack _). vm_compute. exact I. Qed.

Lemma frozen_indentable : indentable (document_json openapi) = true.
Proof. vm_compute. reflexivity. Qed.

Lemma inputs_round_trip_witness :
  (∃ d', unmarshal_document (indent 0 (document_json openapi) +:+ str1 LF) = Some d' ∧
    same_document openapi d') ∧
  (∃ i', unmarshal_events (indent 0 (inventory_json realtime_events) +:+ str1 LF) = Some i' ∧
    SDK i' = SDK realtime_events ∧ Surfaces realtime_events ≡ₚ Surfaces i').
Proof.
  destruct (inputs_round_trip (str1 LF) eq_refl eq_refl) as (Hd & Hi & _). split.
  - exact (Hd openapi frozen_distinct_maps frozen_indentable).
  - apply Hi; [apply (bool_decide_unpack _); vm_compute; exact I|vm_compute; reflexivity].
Defined.
