(* ===== verification/GeneratorMain.v ===== *)
(** The generator as a program: [main] of [internal/cmd/openai-gen/main.go], with
    its flags, the files it reads and writes, and the manifest.

    What the operating system answers is an argument of the file operations.
    [json.Unmarshal] is a parameter that [GeneratorInput.Decodes] determines up to
    the order in which maps are visited; the library functions of [GeneratorText]
    are parameters as well. *)
From S2P Require Import Prelude GoStrings JsonString Json JsonRound DecodeSound JsonIndent Options.
From S2P Require Import ProfileData Generator GeneratorOrder SpecData GeneratorEvidence GeneratorText.
From S2P Require Import GeneratorInput.

(** ** The manifest *)

(** A nil slice is [null]; the generator's empty slices are nil. *)
Definition json_strings (l : list string) : json :=
  match l with [] => JNull | _ => JArray (List.map JString l) end.

(** The fields of [generatedOperation] in their order; [HasQuery] is left out. *)
Definition manifest_operation (g : generatedOperation) : json :=
  JObject
    [("Method", JString (g_Method g)); ("Path", JString (g_Path g));
     ("OperationID", JString (g_OperationID g)); ("Capability", JString (g_Capability g));
     ("RequestMedia", json_strings (g_RequestMedia g));
     ("ResponseMedia", json_strings (g_ResponseMedia g));
     ("SuccessStatus", JNumber (Itoa (g_SuccessStatus g))); ("SDKCall", JString (g_SDKCall g));
     ("LocalCase", JString (g_LocalCase g)); ("Transports", json_strings (g_Transports g));
     ("SchemaCases", json_strings (g_SchemaCases g)); ("LiveProfile", JString (g_LiveProfile g));
     ("LiveReason", JString (g_LiveReason g))].

(** [json.MarshalIndent(operations)] and the newline behind it. *)
Definition manifest (operations : list generatedOperation) : string :=
  indent 0 (match operations with [] => JNull | _ => JArray (List.map manifest_operation operations) end)
    +:+ str1 LF.

(** ** Files *)

(** [filepath.Dir] *)
Fixpoint dir_part (s : string) : string :=
  match s with
  | "" => ""
  | String c rest =>
      if bool_decide (c = SLASH) || negb (free_of SLASH rest) then String c (dir_part rest) else ""
  end.
Definition Dir (path : string) : string := Clean (dir_part path).

Record Disk := mkDisk { files : gmap string string; directories : list string }.

(** What the system answers: whether a file can be read, whether a directory can
    be made, and how a write fails, [Some partial] leaving part of the data. *)
Record OS := mkOS {
  os_read : string → bool;
  os_mkdir : string → bool;
  os_write : string → option (option string) }.

(** [os.Exit(1)] after [fatalf]. *)
Inductive fatal :=
| FatalFlags
| FatalReadSpec
| FatalDecodeSpec (e : string)
| FatalReadEvents
| FatalDecodeEvents (e : string)
| FatalGenerator (e : gen_error)
| FatalRender (e : string)
| FatalMkdir (path : string)
| FatalWrite (path : string)
| FatalEventsRequired.

Definition G (A : Type) : Type := Disk → result fatal A * Disk.

#[export] Instance G_ret : MRet G := λ A a d, (Ok a, d).
#[export] Instance G_bind : MBind G := λ A B f m d,
  match m d with (Ok a, d') => f a d' | (Err e, d') => (Err e, d') end.

Definition fatalf {A} (e : fatal) : G A := λ d, (Err e, d).
Definition orFatal {E A} (f : E → fatal) (r : result E A) : G A :=
  match r with Ok a => mret a | Err e => fatalf (f e) end.

Definition ReadFile (os : OS) (path : string) (e : fatal) : G string := λ d,
  match (if os_read os path then files d !! path else None) with
  | Some data => (Ok data, d)
  | None => (Err e, d)
  end.

Definition MkdirAll (os : OS) (path : string) : G () := λ d,
  if os_mkdir os path then (Ok (), mkDisk (files d) (directories d ++ [path]))
  else (Err (FatalMkdir path), d).

Definition WriteFile (os : OS) (path data : string) : G () := λ d,
  match os_write os path with
  | None => (Ok (), mkDisk (<[path := data]> (files d)) (directories d))
  | Some None => (Err (FatalWrite path), d)
  | Some (Some partial) => (Err (FatalWrite path), mkDisk (<[path := partial]> (files d)) (directories d))
  end.

(** ** main *)

Record Flags := mkFlags {
  specPath : string;
  outputPath : string;
  manifestPath : string;
  eventsPath : string;
  compatibilityPath : string }.

Section Main.
Context (quote_unicode : string → string).
Context (sha256_hex : string → string) (gzip_base64 : string → result string string).
Context (format_Source : string → result string string).
Context (decode_document : string → result string document).
Context (decode_events : string → result string eventInventory).

Definition read_events (os : OS) (flags : Flags) : G (option eventInventory) :=
  if string_empty (eventsPath flags) then mret None
  else eventData ← ReadFile os (eventsPath flags) FatalReadEvents;
       events ← orFatal FatalDecodeEvents (decode_events eventData);
       mret (Some events).

Definition write_output (os : OS) (path data : string) : G () :=
  MkdirAll os (Dir path);; WriteFile os path data.

Definition main (os : OS) (flags : Flags) : G () :=
  if string_empty (specPath flags) || string_empty (outputPath flags) then fatalf FatalFlags else
  raw ← ReadFile os (specPath flags) FatalReadSpec;
  spec ← orFatal FatalDecodeSpec (decode_document raw);
  operations ← orFatal FatalGenerator (checked_operations spec);
  events ← read_events os flags;
  inventory ← orFatal FatalGenerator (check_inventory operations events);
  generated ← orFatal FatalRender (render quote_unicode sha256_hex gzip_base64 format_Source raw
    (length spec) operations inventory);
  write_output os (outputPath flags) generated;;
  (if string_empty (manifestPath flags) then mret ()
   else write_output os (manifestPath flags) (manifest operations));;
  (if string_empty (compatibilityPath flags) then mret ()
   else if string_empty (eventsPath flags) then fatalf FatalEventsRequired
   else write_output os (compatibilityPath flags) (renderCompatibility quote_unicode operations inventory)).

(** The files of a complete run, in the order they are written. *)
Definition outputs (flags : Flags) (operations : list generatedOperation) (inventory : eventInventory)
    (generated : string) : list (string * string) :=
  (outputPath flags, generated) ::
  (if string_empty (manifestPath flags) then [] else [(manifestPath flags, manifest operations)]) ++
  (if string_empty (compatibilityPath flags) then []
   else [(compatibilityPath flags, renderCompatibility quote_unicode operations inventory)]).

Definition write_all (fs : gmap string string) (l : list (string * string)) : gmap string string :=
  foldl (λ fs kv, <[kv.1 := kv.2]> fs) fs l.

(** ** Lemmas *)

(** A computation that only reads. *)
Definition reads_only {A} (m : G A) : Prop := ∀ d, (m d).2 = d.

Lemma reads_only_bind {A B} (m : G A) (f : A → G B) :
  reads_only m → (∀ a, reads_only (f a)) → reads_only (m ≫= f).
Proof.
  intros Hm Hf d. unfold mbind, G_bind. specialize (Hm d). destruct (m d) as [[a|e] d']; simpl in *; subst; [|done].
  apply Hf.
Qed.

Lemma reads_only_ret {A} (a : A) : reads_only (mret a).
Proof. done. Qed.
Lemma reads_only_fatalf {A} e : reads_only (@fatalf A e).
Proof. done. Qed.
Lemma reads_only_orFatal {E A} f (r : result E A) : reads_only (orFatal f r).
Proof. by destruct r. Qed.
Lemma reads_only_ReadFile os path e : reads_only (ReadFile os path e).
Proof. intros d. unfold ReadFile. by destruct (if os_read os path then _ else _). Qed.

#[local] Hint Resolve reads_only_ret reads_only_fatalf reads_only_orFatal reads_only_ReadFile : reads.

(** For the proofs: what [main] does before its first write, and what it writes
    after. *)
Definition prepare (os : OS) (flags : Flags) : G (list generatedOperation * eventInventory * string) :=
  if string_empty (specPath flags) || string_empty (outputPath flags) then fatalf FatalFlags else
  raw ← ReadFile os (specPath flags) FatalReadSpec;
  spec ← orFatal FatalDecodeSpec (decode_document raw);
  operations ← orFatal FatalGenerator (checked_operations spec);
  events ← read_events os flags;
  inventory ← orFatal FatalGenerator (check_inventory operations events);
  generated ← orFatal FatalRender (render quote_unicode sha256_hex gzip_base64 format_Source raw
    (length spec) operations inventory);
  mret (operations, inventory, generated).

Definition write_results (os : OS) (flags : Flags) (operations : list generatedOperation)
    (inventory : eventInventory) (generated : string) : G () :=
  write_output os (outputPath flags) generated;;
  (if string_empty (manifestPath flags) then mret ()
   else write_output os (manifestPath flags) (manifest operations));;
  (if string_empty (compatibilityPath flags) then mret ()
   else if string_empty (eventsPath flags) then fatalf FatalEventsRequired
   else write_output os (compatibilityPath flags) (renderCompatibility quote_unicode operations inventory)).

Lemma main_prepare os flags d :
  main os flags d = ('(operations, inventory, generated) ← prepare os flags;
                     write_results os flags operations inventory generated) d.
Proof.
  unfold main, prepare, write_results, mbind, G_bind. destruct (_ || _); [done|].
  by repeat first [done | case_match; simplify_eq/=].
Qed.

Lemma prepare_reads os flags : reads_only (prepare os flags).
Proof.
  unfold prepare, read_events.
  repeat first [case_match | apply reads_only_bind; [|intros ?] | solve [auto with reads]].
Qed.

(** Running a bind whose first part is known. *)
Lemma G_bind_Ok {A B} (m : G A) (f : A → G B) d a d' : m d = (Ok a, d') → (m ≫= f) d = f a d'.
Proof. unfold mbind, G_bind. by intros ->. Qed.
Lemma G_bind_Err {A B} (m : G A) (f : A → G B) d e d' : m d = (Err e, d') → (m ≫= f) d = (Err e, d').
Proof. unfold mbind, G_bind. by intros ->. Qed.

Lemma G_bind_inv {A B} (m : G A) (f : A → G B) d b d' :
  (m ≫= f) d = (Ok b, d') → ∃ a d1, m d = (Ok a, d1) ∧ f a d1 = (Ok b, d').
Proof. unfold mbind, G_bind. destruct (m d) as [[a|e] d1]; [by exists a, d1|done]. Qed.

Lemma orFatal_inv {E A} f (r : result E A) d a d' : orFatal f r d = (Ok a, d') → r = Ok a ∧ d' = d.
Proof. destruct r; by intros [= <- <-]. Qed.

Lemma ReadFile_inv os path e d data d' :
  ReadFile os path e d = (Ok data, d') → files d !! path = Some data ∧ d' = d.
Proof.
  unfold ReadFile. destruct (os_read os path); [|done].
  destruct (files d !! path); [by intros [= <- <-]|done].
Qed.

(** What [prepare] has checked when it succeeds. *)
Lemma prepare_inv os flags d operations inventory generated d' :
  prepare os flags d = (Ok (operations, inventory, generated), d') →
  d' = d ∧ outputPath flags ≠ "" ∧ ∃ raw spec events,
    files d !! specPath flags = Some raw ∧ decode_document raw = Ok spec ∧
    (if string_empty (eventsPath flags) then events = None else
     ∃ data inv, files d !! eventsPath flags = Some data ∧ decode_events data = Ok inv ∧ events = Some inv) ∧
    main_checks spec events = Ok (operations, inventory) ∧
    render quote_unicode sha256_hex gzip_base64 format_Source raw (length spec) operations inventory
      = Ok generated.
Proof.
  unfold prepare. destruct (string_empty (specPath flags) || string_empty (outputPath flags)) eqn:Hf; [done|].
  apply orb_false_iff in Hf as [_ Hout].
  intros (raw & d1 & (Hraw & ->)%ReadFile_inv & H)%G_bind_inv.
  apply G_bind_inv in H as (spec & d1 & (Hspec & ->)%orFatal_inv & H).
  apply G_bind_inv in H as (ops & d1 & (Hops & ->)%orFatal_inv & H).
  apply G_bind_inv in H as (events & d1 & Hev & H).
  apply G_bind_inv in H as (inv & d2 & (Hinv & ->)%orFatal_inv & H).
  apply G_bind_inv in H as (gen & d2 & (Hgen & ->)%orFatal_inv & [= <- <- <- <-]).
  assert (d1 = d ∧ (if string_empty (eventsPath flags) then events = None else
     ∃ data inv, files d !! eventsPath flags = Some data ∧ decode_events data = Ok inv ∧ events = Some inv))
    as [-> Hevents].
  { unfold read_events in Hev. destruct (string_empty (eventsPath flags)); [by injection Hev as <- <-|].
    apply G_bind_inv in Hev as (data & d2 & (Hdata & ->)%ReadFile_inv & Hev).
    apply G_bind_inv in Hev as (inv' & d2 & (Hi & ->)%orFatal_inv & [= <- <-]).
    split; [done|]. by exists data, inv'. }
  split; [done|]. split; [intros He; by rewrite He in Hout|].
  exists raw, spec, events. split_and!; [done..| |done].
  unfold main_checks. rewrite Hops. cbn [mbind result_bind]. by rewrite Hinv.
Qed.

(** Writing one file: it has the data, or what a failed write left of them. *)
Lemma write_output_spec os path data d :
  (write_output os path data d).1 = Ok () ∧ files (write_output os path data d).2 = <[path := data]> (files d) ∨
  (∃ e, (write_output os path data d).1 = Err e ∧ (e = FatalMkdir (Dir path) ∨ e = FatalWrite path)) ∧
    ∀ p, p ≠ path → files (write_output os path data d).2 !! p = files d !! p.
Proof.
  unfold write_output, MkdirAll, WriteFile, mbind, G_bind.
  destruct (os_mkdir os (Dir path)); [|right; simpl; naive_solver].
  destruct (os_write os path) as [[partial|]|]; simpl; [right|right|by left].
  - split; [by eexists; split; [|right]|]. intros p Hp. by rewrite lookup_insert_ne.
  - split; [|done]. by eexists; split; [|right].
Qed.

(** A run, once everything is prepared. *)
Lemma main_prepared os flags d operations inventory generated :
  prepare os flags d = (Ok (operations, inventory, generated), d) →
  main os flags d =
    (write_output os (outputPath flags) generated;;
     (if string_empty (manifestPath flags) then mret ()
      else write_output os (manifestPath flags) (manifest operations));;
     (if string_empty (compatibilityPath flags) then mret ()
      else if string_empty (eventsPath flags) then fatalf FatalEventsRequired
      else write_output os (compatibilityPath flags)
        (renderCompatibility quote_unicode operations inventory))) d.
Proof. intros H. rewrite main_prepare. by rewrite (G_bind_Ok _ _ _ _ _ H). Qed.

(** A step that is left out, or writes one of the files. *)
Definition writes_at_most (path : string) (m : G ()) : Prop :=
  ∀ d p, p ≠ path → files (m d).2 !! p = files d !! p.

Lemma writes_output os path data : writes_at_most path (write_output os path data).
Proof.
  intros d p Hp. destruct (write_output_spec os path data d) as [[_ ->]|[_ H]]; [|by apply H].
  by rewrite lookup_insert_ne.
Qed.

Lemma writes_bind (m k : G ()) d p :
  files (m d).2 !! p = files d !! p → (∀ d', files (k d').2 !! p = files d' !! p) →
  files ((m;; k) d).2 !! p = files d !! p.
Proof.
  intros Hm Hk. unfold mbind, G_bind. destruct (m d) as [[[]|e] d']; simpl in *; [|done]. by rewrite Hk.
Qed.

(** On a disk that answers, everything that was prepared is written. *)
Lemma write_output_fine os path data d :
  (∀ path, os_mkdir os path = true ∧ os_write os path = None) →
  ∃ d2, write_output os path data d = (Ok (), d2) ∧ files d2 = <[path := data]> (files d).
Proof.
  intros Hos. destruct (Hos path) as [_ H2], (Hos (Dir path)) as [H1 _].
  unfold write_output, MkdirAll, WriteFile, mbind, G_bind. rewrite H1, H2. by eexists.
Qed.

Lemma main_fine os flags d operations inventory generated :
  prepare os flags d = (Ok (operations, inventory, generated), d) → eventsPath flags ≠ "" →
  (∀ path, os_mkdir os path = true ∧ os_write os path = None) →
  (main os flags d).1 = Ok () ∧
  files (main os flags d).2 = write_all (files d) (outputs flags operations inventory generated).
Proof.
  intros Hp He Hos. rewrite (main_prepared _ _ _ _ _ _ Hp).
  destruct (write_output_fine os (outputPath flags) generated d Hos) as (d1 & Hd1 & Hf1).
  rewrite (G_bind_Ok _ _ _ _ _ Hd1).
  assert (string_empty (eventsPath flags) = false) as -> by by destruct (eventsPath flags).
  assert (∀ path data d1, ∃ d2,
    (if string_empty path then mret () else write_output os path data) d1 = (Ok (), d2) ∧
    files d2 = write_all (files d1) (if string_empty path then [] else [(path, data)])) as Hopt.
  { intros path data d2. destruct (string_empty path); [by exists d2|]. by apply write_output_fine. }
  destruct (Hopt (manifestPath flags) (manifest operations) d1) as (d2 & Hd2 & Hf2).
  rewrite (G_bind_Ok _ _ _ _ _ Hd2).
  destruct (Hopt (compatibilityPath flags) (renderCompatibility quote_unicode operations inventory) d2)
    as (d3 & Hd3 & Hf3).
  rewrite Hd3. split; [done|]. simpl. rewrite Hf3, Hf2, Hf1. unfold outputs, write_all. simpl.
  by rewrite foldl_app.
Qed.

(** Decoding and checking the frozen inputs. *)
Lemma prepare_frozen os flags d raw `{!Decodes decode_document decode_events} :
  specPath flags ≠ "" → outputPath flags ≠ "" → eventsPath flags ≠ "" →
  (∀ path, os_read os path = true) →
  files d !! specPath flags = Some raw →
  (∃ spec, unmarshal_document raw = Some spec ∧ same_document openapi spec) →
  files d !! eventsPath flags = Some realtime_events_json →
  ∃ operations inventory,
    rendered <$> operations = Operations ∧ rendered_event <$> collectEvents inventory = Events ∧
    prepare os flags d =
      orFatal FatalRender (generated ← render quote_unicode sha256_hex gzip_base64 format_Source raw
        182 operations inventory; Ok (operations, inventory, generated)) d.
Proof.
  intros Hspec Hout Hev Hos Hraw (spec & Hdec & Hsame) Hevents.
  pose proof (decodes_document raw) as Hd. rewrite Hdec in Hd. destruct Hd as (spec' & Hd & Hsame').
  pose proof (decodes_events realtime_events_json) as Hi. rewrite realtime_events_decode in Hi.
  destruct Hi as (inventory & Hi & _ & Hsurf).
  pose proof (same_document_trans _ _ _ Hsame Hsame') as Hopen.
  destruct (frozen_checks spec' inventory Hopen Hsurf) as (ops & Hchecks & Hr & He).
  exists ops, inventory. split; [done|]. split; [done|]. unfold prepare.
  assert (string_empty (specPath flags) || string_empty (outputPath flags) = false) as ->.
  { by destruct (specPath flags), (outputPath flags). }
  assert (∀ path data e, files d !! path = Some data → ReadFile os path e d = (Ok data, d)) as Hread.
  { intros path data e H. unfold ReadFile. by rewrite Hos, H. }
  rewrite (G_bind_Ok _ _ _ _ _ (Hread _ _ _ Hraw)), Hd.
  erewrite (G_bind_Ok (orFatal _ _)) by reflexivity.
  unfold main_checks in Hchecks. destruct (checked_operations spec') as [ops'|] eqn:Hops; [|done].
  erewrite (G_bind_Ok (orFatal _ _)) by reflexivity.
  cbn [mbind result_bind] in Hchecks.
  destruct (check_inventory ops' (Some inventory)) as [inv'|] eqn:Hinv; [|done].
  injection Hchecks as -> ->.
  assert (read_events os flags d = (Ok (Some inventory), d)) as Hre.
  { unfold read_events. assert (string_empty (eventsPath flags) = false) as -> by by destruct (eventsPath flags).
    rewrite (G_bind_Ok _ _ _ _ _ (Hread _ _ _ Hevents)), Hi. reflexivity. }
  rewrite (G_bind_Ok _ _ _ _ _ Hre), Hinv. erewrite (G_bind_Ok (orFatal _ _)) by reflexivity.
  rewrite (same_document_length _ _ Hopen).
  change (length openapi) with 182.
  destruct (render _ _ _ _ _ _ _ _) as [generated|]; reflexivity.
Qed.

(** ** Properties *)

(** Which errors a run ends with once something may have been written. *)
Definition write_error (flags : Flags) (e : fatal) : Prop :=
  (∃ path, path ∈ [outputPath flags; manifestPath flags; compatibilityPath flags] ∧
     (e = FatalMkdir (Dir path) ∨ e = FatalWrite path)) ∨
  e = FatalEventsRequired ∧ eventsPath flags = "" ∧ compatibilityPath flags ≠ "".

Lemma write_all_lookup fs l path text :
  NoDup l.*1 → (path, text) ∈ l → write_all fs l !! path = Some text.
Proof.
  unfold write_all. revert fs. induction l as [|[p t] l IH]; intros fs Hnd Hin;
    [by apply elem_of_nil in Hin|].
  csimpl in *. apply NoDup_cons in Hnd as [Hp Hnd]. apply elem_of_cons in Hin as [[= -> ->]|Hin]; [|by apply IH].
  clear IH Hnd. assert (∀ fs : gmap string string, fs !! p = Some t →
    foldl (λ fs kv, <[kv.1 := kv.2]> fs) fs l !! p = Some t) as Hkeep; [|by apply Hkeep, lookup_insert_eq].
  induction l as [|[q u] l IH]; intros fs' Hfs; [done|]. csimpl in *. apply not_elem_of_cons in Hp as [Hq Hp].
  apply IH; [done|]. by rewrite lookup_insert_ne.
Qed.

(** The run after everything was prepared: what it may end with. *)
Lemma main_prepared_result os flags d operations inventory generated :
  prepare os flags d = (Ok (operations, inventory, generated), d) →
  match main os flags d with
  | (Ok _, d') => files d' = write_all (files d) (outputs flags operations inventory generated)
  | (Err e, _) => write_error flags e
  end.
Proof.
  intros Hp. rewrite (main_prepared _ _ _ _ _ _ Hp).
  assert (∀ path data d1, match write_output os path data d1 with
    | (Ok _, d2) => files d2 = <[path := data]> (files d1)
    | (Err e, _) => path ∈ [outputPath flags; manifestPath flags; compatibilityPath flags] → write_error flags e
    end) as Hw.
  { intros path data d1. destruct (write_output_spec os path data d1) as [[H1 H2]|[(e & H1 & He) _]];
      destruct (write_output os path data d1) as [[[]|e'] d2]; simplify_eq/=; try done.
    intros Hin. left. by exists path. }
  unfold mbind at 1, G_bind at 1. pose proof (Hw (outputPath flags) generated d) as H1.
  destruct (write_output os (outputPath flags) generated d) as [[[]|e] d1]; [|apply H1; set_solver].
  unfold mbind, G_bind, outputs, write_all. cbn [foldl fst snd]. rewrite foldl_app, <- H1.
  pose proof (Hw (manifestPath flags) (manifest operations) d1) as H2.
  pose proof (λ d2, Hw (compatibilityPath flags) (renderCompatibility quote_unicode operations inventory) d2) as H3.
  assert (∀ d2, match (if string_empty (compatibilityPath flags) then mret ()
      else if string_empty (eventsPath flags) then fatalf FatalEventsRequired
      else write_output os (compatibilityPath flags) (renderCompatibility quote_unicode operations inventory)) d2 with
    | (Ok _, d') => files d' = foldl (λ fs kv, <[kv.1 := kv.2]> fs) (files d2)
        (if string_empty (compatibilityPath flags) then []
         else [(compatibilityPath flags, renderCompatibility quote_unicode operations inventory)])
    | (Err e, _) => write_error flags e
    end) as Hlast.
  { intros d2. destruct (string_empty (compatibilityPath flags)) eqn:Hc; [done|].
    destruct (string_empty (eventsPath flags)) eqn:He.
    - right. split_and!; [done| |by intros H; rewrite H in Hc]. by destruct (eventsPath flags).
    - specialize (H3 d2). destruct (write_output _ _ _ d2) as [[[]|e] d3]; [done|apply H3; set_solver]. }
  destruct (string_empty (manifestPath flags)); [by apply Hlast|].
  destruct (write_output os (manifestPath flags) _ d1) as [[[]|e] d2]; [|apply H2; set_solver].
  cbn [foldl fst snd]. rewrite <- H2. apply Hlast.
Qed.

(** C20. The generator touches the disk only after its checks: if a run changes
    anything, the document and the inventory were read and decoded, every check
    of them passed, and the source was rendered and formatted.  A run that fails
    otherwise than by writing, or by the flag that is checked last, leaves the
    disk as it was; no file but the requested ones is ever touched; and a run
    that ends well has written the requested files, in order, so that each has
    exactly its text when they are different files. *)
Theorem main_writes os flags d :
  let '(r, d') := main os flags d in
  let passed operations inventory generated := ∃ raw spec events,
    files d !! specPath flags = Some raw ∧ decode_document raw = Ok spec ∧
    (if string_empty (eventsPath flags) then events = None else
     ∃ data inv, files d !! eventsPath flags = Some data ∧ decode_events data = Ok inv ∧ events = Some inv) ∧
    main_checks spec events = Ok (operations, inventory) ∧
    render quote_unicode sha256_hex gzip_base64 format_Source raw (length spec) operations inventory
      = Ok generated in
  (d' ≠ d → ∃ operations inventory generated, passed operations inventory generated) ∧
  (∀ path, path ≠ outputPath flags → path ≠ manifestPath flags → path ≠ compatibilityPath flags →
     files d' !! path = files d !! path) ∧
  match r with
  | Ok _ => ∃ operations inventory generated, passed operations inventory generated ∧
      files d' = write_all (files d) (outputs flags operations inventory generated) ∧
      (NoDup (outputs flags operations inventory generated).*1 →
       ∀ path text, (path, text) ∈ outputs flags operations inventory generated →
         files d' !! path = Some text)
  | Err e => d' = d ∨ write_error flags e
  end.
Proof.
  pose proof (prepare_reads os flags d) as Hread.
  destruct (prepare os flags d) as [[[[operations inventory] generated]|e] d1] eqn:Hp; simpl in Hread; subst d1.
  2:{ assert (main os flags d = (Err e, d)) as -> by (rewrite main_prepare; by erewrite G_bind_Err).
      split_and!; [done|done|by left]. }
  pose proof (main_prepared_result _ _ _ _ _ _ Hp) as Hres. rewrite (main_prepared _ _ _ _ _ _ Hp) in Hres |- *.
  destruct (prepare_inv _ _ _ _ _ _ _ Hp) as (_ & _ & raw & spec & events & Hchecks).
  match goal with |- context [?m d] => destruct (m d) as [r d'] eqn:Hrun end.
  split_and!.
  - intros _. exists operations, inventory, generated. by exists raw, spec, events.
  - intros path H1 H2 H3. change d' with (r, d').2. rewrite <- Hrun.
    apply writes_bind; [by apply writes_output|]. intros d2. apply writes_bind.
    + destruct (string_empty (manifestPath flags)); [done|by apply writes_output].
    + intros d3. destruct (string_empty (compatibilityPath flags)); [done|].
      destruct (string_empty (eventsPath flags)); [done|by apply writes_output].
  - destruct r as [[]|e]; [|by right]. exists operations, inventory, generated.
    split; [by exists raw, spec, events|]. split; [done|]. rewrite Hres. intros Hnd path text.
    by apply write_all_lookup.
Qed.

(** The flags are not all checked first: with [-compatibility] and without
    [-events] the generator writes the Go tables, without a single event, and
    the manifest, over what was there, and only then reports the missing flag. *)
Theorem late_flag_check os flags d operations inventory generated :
  prepare os flags d = (Ok (operations, inventory, generated), d) →
  eventsPath flags = "" → compatibilityPath flags ≠ "" →
  (∀ path, os_mkdir os path = true ∧ os_write os path = None) →
  (main os flags d).1 = Err FatalEventsRequired ∧
  files (main os flags d).2 = write_all (files d)
    ((outputPath flags, generated) ::
     (if string_empty (manifestPath flags) then [] else [(manifestPath flags, manifest operations)])) ∧
  collectEvents inventory = [].
Proof.
  intros Hp He Hc Hos. rewrite (main_prepared _ _ _ _ _ _ Hp).
  pose proof (λ path data d1, write_output_fine os path data d1 Hos) as Hw.
  destruct (Hw (outputPath flags) generated d) as (d1 & Hd1 & Hf1).
  rewrite (G_bind_Ok _ _ _ _ _ Hd1). assert (string_empty (compatibilityPath flags) = false) as ->
    by by destruct (compatibilityPath flags). rewrite He. split_and!.
  - destruct (string_empty (manifestPath flags)); [done|].
    destruct (Hw (manifestPath flags) (manifest operations) d1) as (d2 & Hd2 & _).
    by rewrite (G_bind_Ok _ _ _ _ _ Hd2).
  - destruct (string_empty (manifestPath flags)); [done|].
    destruct (Hw (manifestPath flags) (manifest operations) d1) as (d2 & Hd2 & Hf2).
    rewrite (G_bind_Ok _ _ _ _ _ Hd2). simpl. congruence.
  - destruct (prepare_inv _ _ _ _ _ _ _ Hp) as (_ & _ & raw & spec & events & _ & _ & Hev & Hm & _).
    rewrite He in Hev. simpl in Hev. subst events.
    unfold main_checks, check_inventory in Hm. destruct (checked_operations spec) as [ops|]; [|done].
    cbn [mbind result_bind default] in Hm. destruct (bool_decide (is_Some None) && _); [done|].
    destruct (validateEvidence _ _); [done|]. by injection Hm as <- <-.
Qed.

(** C21. Regeneration reproduces the checked-in profile: run on the pinned
    document and event inventory, as files, whatever order it visits the decoded
    maps in, the generator renders the Go source of exactly the checked-in
    operations and events; if the formatter accepts this source, the run ends
    well and writes what the formatter made of it, and every other file that was
    asked for, and nothing else; if not, the run fails and writes nothing. *)
Theorem generate_frozen os flags d raw compressed `{!Decodes decode_document decode_events} :
  specPath flags ≠ "" → outputPath flags ≠ "" → eventsPath flags ≠ "" →
  (∀ path, os_read os path = true ∧ os_mkdir os path = true ∧ os_write os path = None) →
  files d !! specPath flags = Some raw →
  (∃ spec, unmarshal_document raw = Some spec ∧ same_document openapi spec) →
  files d !! eventsPath flags = Some realtime_events_json →
  gzip_base64 raw = Ok compressed →
  ∃ operations inventory,
    rendered <$> operations = Operations ∧ rendered_event <$> collectEvents inventory = Events ∧
    match format_Source (render_source quote_unicode (sha256_hex raw) compressed 182 operations inventory) with
    | Ok generated => (main os flags d).1 = Ok () ∧
        files (main os flags d).2 = write_all (files d) (outputs flags operations inventory generated)
    | Err _ => ∃ e, main os flags d = (Err (FatalRender e), d)
    end.
Proof.
  intros Hspec Hout Hev Hos Hraw Hdec Hevents Hgzip.
  destruct (prepare_frozen os flags d raw) as (ops & inv & Hr & He & Hp); [done..|apply Hos|done|done|done|].
  unfold render in Hp. rewrite Hgzip in Hp. cbn [mbind result_bind] in Hp.
  exists ops, inv. split; [done|]. split; [done|].
  destruct (format_Source _) as [generated|err] eqn:Hgen.
  - apply main_fine; [done|done|apply Hos].
  - eexists. rewrite main_prepare. erewrite G_bind_Err; [reflexivity|]. rewrite Hp. reflexivity.
Qed.

End Main.

(** ** The manifest reads back *)

Definition read_strings (v : json) : option (list string) :=
  match v with
  | JNull => Some []
  | JArray es => mapM (λ e, match e with JString s => Some s | _ => None end) es
  | _ => None
  end.

Definition read_manifest_operation (v : json) : option generatedOperation :=
  match v with
  | JObject [("Method", JString method); ("Path", JString path); ("OperationID", JString id);
      ("Capability", JString capability); ("RequestMedia", requestMedia); ("ResponseMedia", responseMedia);
      ("SuccessStatus", JNumber status); ("SDKCall", JString call); ("LocalCase", JString case);
      ("Transports", transports); ("SchemaCases", cases); ("LiveProfile", JString profile);
      ("LiveReason", JString reason)] =>
      requestMedia ← read_strings requestMedia; responseMedia ← read_strings responseMedia;
      status ← Atoi status; transports ← read_strings transports; cases ← read_strings cases;
      Some (mkGenerated method path id capability requestMedia responseMedia status call case transports
        cases profile reason false)
  | _ => None
  end.

Definition read_manifest (text : string) : option (list generatedOperation) :=
  match parse text with
  | Some JNull => Some []
  | Some (JArray es) => mapM read_manifest_operation es
  | _ => None
  end.

(** What a JSON string can hold. *)
Definition encodable_operation (g : generatedOperation) : Prop :=
  Forall (λ s, valid_utf8 s = true)
    ([g_Method g; g_Path g; g_OperationID g; g_Capability g; g_SDKCall g; g_LocalCase g; g_LiveProfile g;
      g_LiveReason g] ++ g_RequestMedia g ++ g_ResponseMedia g ++ g_Transports g ++ g_SchemaCases g) ∧
  (200 ≤ g_SuccessStatus g < 300)%Z.

Definition without_HasQuery (g : generatedOperation) : generatedOperation :=
  mkGenerated (g_Method g) (g_Path g) (g_OperationID g) (g_Capability g) (g_RequestMedia g)
    (g_ResponseMedia g) (g_SuccessStatus g) (g_SDKCall g) (g_LocalCase g) (g_Transports g)
    (g_SchemaCases g) (g_LiveProfile g) (g_LiveReason g) false.

Lemma read_json_strings l : read_strings (json_strings l) = Some l.
Proof.
  destruct l as [|s l]; [done|]. unfold json_strings, read_strings.
  generalize (s :: l). clear. induction l as [|s l IH]; [done|]. simpl. by rewrite IH.
Qed.

Lemma indentable_strings l : Forall (λ s, valid_utf8 s = true) l → indentable (json_strings l) = true.
Proof.
  intros H. destruct H as [|s l Hs Hl]; [done|]. simpl. rewrite Hs. simpl.
  induction Hl as [|s' l Hs' _ IH]; [done|]. simpl. by rewrite Hs'.
Qed.

Lemma nesting_strings l : json_nesting (json_strings l) ≤ 1.
Proof.
  destruct l as [|s l]; [simpl; lia|]. unfold json_strings. generalize (s :: l). clear. intros l.
  simpl. apply le_n_S, list_max_le, Forall_forall. intros n. rewrite list_elem_of_In, in_map_iff.
  intros (v & <- & (s & <- & _)%in_map_iff). done.
Qed.

Lemma number_status n : (200 ≤ n < 300)%Z → parse_number (Itoa n) = Some (Itoa n, "").
Proof.
  intros Hn.
  assert (forallb (λ k, bool_decide (parse_number (Itoa (200 + Z.of_nat k)) =
    Some (Itoa (200 + Z.of_nat k), ""))) (seq 0 100) = true) as H by by vm_compute.
  rewrite forallb_forall in H. specialize (H (Z.to_nat (n - 200))).
  replace (200 + Z.of_nat (Z.to_nat (n - 200)))%Z with n in H by lia.
  apply bool_decide_eq_true in H; [done|]. apply in_seq. lia.
Qed.

Lemma manifest_operation_ok g :
  encodable_operation g →
  indentable (manifest_operation g) = true ∧ json_nesting (manifest_operation g) ≤ 2 ∧
  read_manifest_operation (manifest_operation g) = Some (without_HasQuery g).
Proof.
  intros [Hs Hn]. rewrite !Forall_app in Hs. destruct Hs as (Ht & Hrq & Hrs & Htr & Hsc).
  repeat (apply Forall_cons in Ht as [? Ht]). split_and!.
  - unfold manifest_operation. cbn [indentable forallb fst snd].
    rewrite !indentable_strings, number_status by done. rewrite bool_decide_true by done.
    repeat match goal with H : valid_utf8 _ = true |- _ => rewrite H; clear H end. done.
  - pose proof (nesting_strings (g_RequestMedia g)). pose proof (nesting_strings (g_ResponseMedia g)).
    pose proof (nesting_strings (g_Transports g)). pose proof (nesting_strings (g_SchemaCases g)).
    unfold manifest_operation. cbn [json_nesting List.map fst snd list_max foldr]. lia.
  - unfold manifest_operation, read_manifest_operation. rewrite !read_json_strings.
    destruct (Atoi_status _ Hn) as [-> _]. done.
Qed.

(** The manifest the SDK suites read back says what the generator
    collected: decoding it gives the operations, in order, but for the field
    that is excluded from it. *)
Theorem manifest_round_trip operations :
  Forall encodable_operation operations →
  read_manifest (manifest operations) = Some (without_HasQuery <$> operations).
Proof.
  intros Ho. unfold read_manifest, manifest. rewrite parse_indented; [| | |done|done].
  - destruct operations as [|g operations]; [done|]. revert Ho. generalize (g :: operations). clear.
    induction 1 as [|g l Hg _ IH]; [done|]. cbn [List.map mapM]. destruct (manifest_operation_ok g Hg) as (_ & _ & ->).
    simpl. by rewrite IH.
  - destruct operations as [|g operations]; [done|]. cbn [indentable]. apply forallb_forall.
    intros v (x & <- & Hx%list_elem_of_In)%in_map_iff. rewrite Forall_forall in Ho.
    by apply manifest_operation_ok, Ho.
  - destruct operations as [|g operations]; [simpl; lia|]. etransitivity; [|apply (Nat.leb_le 3); by vm_compute].
    cbn [json_nesting]. apply le_n_S, list_max_le, Forall_forall. intros n. rewrite list_elem_of_In, in_map_iff.
    intros (v & <- & (x & <- & Hx%list_elem_of_In)%in_map_iff). rewrite Forall_forall in Ho.
    by apply manifest_operation_ok, Ho.
Qed.

(** ** Witnesses *)

(** A run over the frozen document, with [-compatibility] but no [-events]. *)
Definition example_flags : Flags := mkFlags "openapi.json" "profile.gen.go" "" "" "compatibility.yaml".
Definition example_os : OS := mkOS (λ _, true) (λ _, true) (λ _, None).
Definition example_disk : Disk := mkDisk {[ "openapi.json" := "{}" ]} [].

Lemma frozen_checked : checked_operations openapi = Ok frozen_operations.
Proof.
  unfold checked_operations. rewrite frozen_collected.
  assert (length openapi = 182) as Hp by by vm_compute.
  assert (length frozen_operations = 288) as Ho.
  { rewrite <- (length_fmap rendered), frozen_rendered. by vm_compute. }
  unfold mbind, result_bind. rewrite Hp, Ho. done.
Qed.

Lemma frozen_without_events :
  check_inventory frozen_operations None = Ok (mkEventInventory "" []).
Proof.
  unfold check_inventory. rewrite bool_decide_false by (by intros []). unfold default, andb.
  rewrite (proj2 (collected_evidence _ _ (mkEventInventory "" []) frozen_collected)); [done|].
  destruct frozen_evidence as (H1 & H2 & H3 & _). split_and!; [exact H1|exact H2|exact H3|constructor].
Qed.

Definition example_prepare : G (list generatedOperation * eventInventory * string) :=
  prepare (λ _, "") (λ _, "digest") (λ _, Ok "packed") (λ _, Ok "package profile")
    (λ _, Ok openapi) (λ _, Err "") example_os example_flags.

Lemma example_prepared :
  example_prepare example_disk =
    (Ok (frozen_operations, mkEventInventory "" [], "package profile"), example_disk).
Proof.
  unfold example_prepare, prepare.
  change (string_empty (specPath example_flags) || string_empty (outputPath example_flags)) with false.
  cbv beta iota.
  erewrite (G_bind_Ok (ReadFile _ _ _)) by reflexivity.
  erewrite (G_bind_Ok (orFatal _ (Ok openapi))) by reflexivity.
  rewrite frozen_checked. erewrite (G_bind_Ok (orFatal _ (Ok frozen_operations))) by reflexivity.
  erewrite (G_bind_Ok (read_events _ _ _)) by reflexivity.
  rewrite frozen_without_events. erewrite (G_bind_Ok (orFatal _ (Ok (mkEventInventory _ _)))) by reflexivity.
  erewrite G_bind_Ok by reflexivity. reflexivity.
Qed.

Lemma late_flag_check_witness :
  (main (λ _, "") (λ _, "digest") (λ _, Ok "packed") (λ _, Ok "package profile")
    (λ _, Ok openapi) (λ _, Err "") example_os example_flags example_disk).1 = Err FatalEventsRequired.
Proof.
  apply (late_flag_check (λ _, "") (λ _, "digest") (λ _, Ok "packed") (λ _, Ok "package profile")
    (λ _, Ok openapi) (λ _, Err "") example_os example_flags example_disk frozen_operations
    (mkEventInventory "" []) "package profile" example_prepared eq_refl ltac:(discriminate)
    (λ _, conj eq_refl eq_refl)).
Defined.

#[export] Instance encodable_operation_dec g : Decision (encodable_operation g).
Proof. unfold encodable_operation. apply _. Defined.

Lemma frozen_encodable : Forall encodable_operation frozen_operations.
Proof. apply (bool_decide_unpack _). vm_compute. exact I. Qed.

Lemma manifest_round_trip_witness :
  read_manifest (manifest frozen_operations) = Some (without_HasQuery <$> frozen_operations).
Proof. apply manifest_round_trip. exact frozen_encodable. Defined.

(** The frozen inputs on a disk, and every output asked for. *)
Definition frozen_flags : Flags :=
  mkFlags "openapi.json" "profile.gen.go" "manifest.json" "realtime-events.json" "compatibility.yaml".
Definition frozen_text : string := indent 0 (document_json openapi) +:+ str1 LF.
Definition frozen_disk : Disk :=
  mkDisk (<["openapi.json" := frozen_text]> {[ "realtime-events.json" := realtime_events_json ]}) [].

Lemma frozen_text_decodes :
  ∃ spec, unmarshal_document frozen_text = Some spec ∧ same_document openapi spec.
Proof.
  destruct (decode_document_json openapi frozen_distinct_maps) as (f & Hf & Hs).
  exists (document_of f). split; [|exact Hs]. unfold unmarshal_document, frozen_text.
  rewrite (parse_input (document_json openapi) (str1 LF) frozen_indentable (nesting_document openapi)
    eq_refl eq_refl).
  unfold mbind, option_bind. rewrite Hf. reflexivity.
Qed.

(** A formatter that refuses what does not begin as generated code. *)
Definition example_format (source : string) : result string string :=
  if HasPrefix source "// Code generated" then Ok source else Err "expected 'package'".
Definition example_generate : Flags → Disk → result fatal () * Disk :=
  main (λ _, "") (λ _, "digest") (λ _, Ok "packed") example_format (from_unmarshal unmarshal_document)
    (from_unmarshal unmarshal_events) example_os.

Lemma generate_frozen_witness :
  ∃ operations inventory,
    rendered <$> operations = Operations ∧ rendered_event <$> collectEvents inventory = Events ∧
    (example_generate frozen_flags frozen_disk).1 = Ok () ∧
    files (example_generate frozen_flags frozen_disk).2 =
      write_all (files frozen_disk) (outputs (λ _, "") frozen_flags operations inventory
        (render_source (λ _, "") "digest" "packed" 182 operations inventory)).
Proof.
  destruct (generate_frozen (λ _, "") (λ _, "digest") (λ _, Ok "packed") example_format
    (from_unmarshal unmarshal_document) (from_unmarshal unmarshal_events) example_os frozen_flags
    frozen_disk frozen_text "packed") as (operations & inventory & H1 & H2 & H).
  - discriminate.
  - discriminate.
  - discriminate.
  - intros path. split; [reflexivity|split; reflexivity].
  - exact (lookup_insert_eq _ _ _).
  - exact frozen_text_decodes.
  - unfold frozen_disk. cbn [files eventsPath frozen_flags].
    rewrite lookup_insert_ne by discriminate. exact (lookup_singleton_eq _ _).
  - reflexivity.
  - exists operations, inventory. split; [exact H1|]. split; [exact H2|].
    set (source := render_source _ _ _ _ _ _) in *.
    assert (example_format source = Ok source) as Hf by reflexivity.
    rewrite Hf in H. exact H.
Defined.
