(* ===== verification/WsHandler.v ===== *)
(** The WebSocket handler: [ServeHTTP], its two loops, and the close reasons of
    [openai/internal/websocket/handler.go].

    [github.com/coder/websocket] is outside the repository: whether [Accept]
    upgrades the connection, the answer it writes when it does not, and what
    [CloseStatus] reads from an error are the fields of [WsCollaborators]; what a connection delivers and what its writes
    answer are inputs of the loops.  Registration is the step of [WsRegistry];
    its result is an argument here. *)
From S2P Require Import Prelude GoStrings GoHttp Errors Services Backend JsonString World.
From S2P Require Import Json WsCodec ProfileData Profile RestHandler.

(** [Accept] of a request, with the subprotocols and origins offered: [None]
    when it upgrades the connection; when it fails, the response it has written
    itself, as what it does to the writer. *)
Record WsCollaborators := mkWsCollaborators {
  Accept : HttpRequest → list string → list string → option (ResponseWriter → ResponseWriter);
  CloseStatus : goerror → Z }.

Record WsHandler := mkWsHandler {
  ws_services : Services HandleFunc SessionBackend;
  ws_collaborators : WsCollaborators;
  ws_config : Config }.

(** ** Errors *)

(** [errors.Is(err, target)] for a sentinel; [None] is the panic of [Unwrap] on
    a nil [*backend.Error]. *)
Fixpoint errors_is (target : string) (err : goerror) : option bool :=
  match err with
  | Sentinel name => Some (bool_decide (name = target))
  | ProtocolFailure _ => Some false
  | BackendErr None => None
  | BackendErr (Some (mkError _ _ _ _ _ None)) => Some false
  | BackendErr (Some (mkError _ _ _ _ _ (Some cause))) => errors_is target cause
  | Opaque _ wrapped =>
      (fix go (ws : list goerror) : option bool :=
         match ws with
         | [] => Some false
         | w :: ws => found ← errors_is target w; if (found : bool) then Some true else go ws
         end) wrapped
  end.

(** [errors.As(err, &protocol)] *)
Fixpoint as_protocol (err : goerror) : option (option string) :=
  match err with
  | ProtocolFailure message => Some (Some message)
  | Sentinel _ => Some None
  | BackendErr None => None
  | BackendErr (Some (mkError _ _ _ _ _ None)) => Some None
  | BackendErr (Some (mkError _ _ _ _ _ (Some cause))) => as_protocol cause
  | Opaque _ wrapped =>
      (fix go (ws : list goerror) : option (option string) :=
         match ws with
         | [] => Some None
         | w :: ws => found ← as_protocol w;
             match found with Some m => Some (Some m) | None => go ws end
         end) wrapped
  end.

Definition context_Canceled : string := "context.Canceled".

Definition StatusNormalClosure : Z := 1000.
Definition StatusPolicyViolation : Z := 1008.
Definition StatusInternalError : Z := 1011.

Definition truncateReason (reason : string) : string :=
  if (120 <? len reason)%Z then string_take 120 reason else reason.

(** A nil error is [None]; the result [None] is a panic. *)
Definition closeReason (closeStatus : goerror → Z) (err : option goerror) : option (Z * string) :=
  match err with
  | None => Some (StatusNormalClosure, "OK")
  | Some err =>
      canceled ← errors_is context_Canceled err;
      if (canceled : bool) then Some (StatusNormalClosure, "OK")
      else protocol ← as_protocol err;
           match protocol with
           | Some message => Some (StatusPolicyViolation, truncateReason message)
           | None =>
               let status := closeStatus err in
               if negb (status =? -1)%Z then Some (status, "peer closed")
               else Some (StatusInternalError, "backend session failed")
           end
  end.

Definition isNilSession (session : interface Session) : bool :=
  match session with
  | None => true
  | Some value => if nillable (dyn_kind value) then dyn_isnil value else false
  end.

(** ** The loops *)

Definition eventAllowed (surface : SessionSurface) (direction eventType : string) : bool :=
  if bool_decide (surface = SessionRealtime)
  then EventAllowed "realtime" direction eventType ||
       EventAllowed "realtime_translation" direction eventType
  else if bool_decide (surface = SessionResponsesSocket)
  then EventAllowed "responses_websocket" direction eventType
  else false.

(** What [connection.Read] yields: an error, or a text or binary message. *)
Inductive read_result :=
| ReadError (err : goerror)
| ReadFrame (text : bool) (data : string).

(** How a loop ends: it returns, it waits for more input, or it panics. *)
Inductive loop_end :=
| LoopReturned (err : option goerror)
| LoopWaiting
| LoopPanicked.

(** [readLoop]: the events it hands to the session, after those in [seen]. *)
Fixpoint readLoop (session : Session) (surface : SessionSurface) (seen : list Event)
    (reads : list read_result) : list Event * loop_end :=
  match reads with
  | [] => ([], LoopWaiting)
  | ReadError err :: _ => ([], LoopReturned (Some err))
  | ReadFrame false _ :: _ =>
      ([], LoopReturned (Some (protocolError "binary frames are not supported")))
  | ReadFrame true data :: reads =>
      match decodeEvent data with
      | Err err => ([], LoopReturned (Some err))
      | Ok event =>
          if negb (eventAllowed surface "client" (ev_Type event)) then
            ([], LoopReturned (Some (protocolError
              "event type is outside the active compatibility profile")))
          else match ses_Handle session seen event with
          | Some err => ([event], LoopReturned (Some err))
          | None =>
              let '(events, e) := readLoop session surface (seen ++ [event]) reads in
              (event :: events, e)
          end
      end
  end.

(** [writeLoop]: the messages it passes to [connection.Write], after those in
    [sent]; [write] is what the connection answers, [ctx_err] is [ctx.Err()]. *)
Fixpoint writeLoop (write : list string → string → option goerror) (ctx_err : goerror)
    (surface : SessionSurface) (sent : list string) (tape : list selection)
    : list string * loop_end :=
  match tape with
  | [] => ([], LoopWaiting)
  | SelDone :: _ => ([], LoopReturned (Some ctx_err))
  | SelClosed :: _ => ([], LoopReturned None)
  | SelEvent event :: tape =>
      if negb (eventAllowed surface "server" (ev_Type event)) then
        ([], LoopReturned (Some (protocolError
          "backend event type is outside the active compatibility profile")))
      else match encodeEvent event with
      | None => ([], LoopPanicked)
      | Some (Err err) => ([], LoopReturned (Some err))
      | Some (Ok data) =>
          match write sent data with
          | Some err => ([data], LoopReturned (Some err))
          | None =>
              let '(messages, e) := writeLoop write ctx_err surface (sent ++ [data]) tape in
              (data :: messages, e)
          end
      end
  end.

(** The two loops run concurrently.  One run of a session: the error the first
    of them to return has returned, the events handled and the messages written
    by then; the other one is anywhere in its own sequence. *)
Inductive session_run (session : Session) (surface : SessionSurface)
    (write : list string → string → option goerror) (ctx_err : goerror)
    (reads : list read_result) (tape : list selection) :
    option goerror → list Event → list string → Prop :=
| read_first err handled written :
    readLoop session surface [] reads = (handled, LoopReturned err) →
    written `prefix_of` (writeLoop write ctx_err surface [] tape).1 →
    session_run session surface write ctx_err reads tape err handled written
| write_first err handled written :
    writeLoop write ctx_err surface [] tape = (written, LoopReturned err) →
    handled `prefix_of` (readLoop session surface [] reads).1 →
    session_run session surface write ctx_err reads tape err handled written.

(** ** ServeHTTP *)

(** [writeHTTPError]: the members of the two maps in key order. *)
Definition writeHTTPError (requestID : string) (status : Z) (errorType message : string) : M () :=
  modify_header (header_set "Content-Type" "application/json");;
  modify_header (header_set "X-Request-Id" requestID);;
  WriteHeader status;;
  _ ← Write (marshal_object [("error", marshal_object
    [ ("code", marshal_nil); ("message", marshal_string message); ("param", marshal_nil);
      ("type", marshal_string errorType) ])] +:+ str1 LF);
  mret ().

Definition closeSession : M () := act ActCloseSession.

(** [closeAll]; [closed] tells whether [closeOnce] has run. *)
Definition closeAll (closed : bool) (code : Z) (reason : string) : M () :=
  if closed then mret ()
  else act ActCancel;; closeSession;; act (ActCloseConnection code reason).

(** What follows the first value of [errorsChannel]; the deferred [closeAll]
    finds its work done, unless [closeReason] panicked. *)
Definition finish_session (h : WsHandler) (err : option goerror) : M () :=
  match closeReason (CloseStatus (ws_collaborators h)) err with
  | Some (code, reason) =>
      closeAll false code reason;; closeAll true StatusNormalClosure "OK"
  | None => closeAll false StatusNormalClosure "OK";; panic
  end.

Definition ws_surface (h : WsHandler) (request : HttpRequest) : SessionSurface :=
  if bool_decide (r_Path request = BasePath (ws_config h) +:+ "/responses")
  then SessionResponsesSocket else SessionRealtime.

(** The last value of every query parameter that has one. *)
Definition ws_parameters (request : HttpRequest) : gmap string string :=
  omap last (url_query request).

Definition session_request (h : WsHandler) (request : HttpRequest) (requestID callerID : string)
    : SessionRequest :=
  mkSessionRequest (ws_surface h request) (mkMetadata requestID callerID "openai" ∅)
    (ws_parameters request).

(** [registered] is the result of [register]; [first] the error the first loop
    of the session returns, or [None] while both still run. *)
Definition ServeWebSocket (h : WsHandler) (request : HttpRequest) (registered : N * bool)
    (first : option (option goerror)) : M () :=
  let requestID := request_id request in
  match registered with
  | (_, false) =>
      act ActCancel;;
      writeHTTPError requestID 503 "service_unavailable_error" "The handler is shutting down."
  | (sessionID, true) =>
  deferred (act (ActUnregister sessionID)) (deferred (act ActCancel) (
  act ActAuthenticate;;
  match Authenticate (ws_config h) request requestID with
  | Err _ => writeHTTPError requestID 401 "authentication_error"
      "Invalid authentication credentials."
  | Ok callerID =>
  match SessionFor (ws_services h) (ws_surface h request) with
  | (_, false) => writeHTTPError requestID 501 "unsupported_error"
      "The requested WebSocket capability is not configured."
  | (None, true) => panic
  | (Some sessionBackend, true) =>
  let open := session_request h request requestID callerID in
  act (ActOpenSession open);;
  match dyn_val sessionBackend open with
  | (session, Some _) =>
      (if isNilSession session then mret () else closeSession);;
      writeHTTPError requestID 500 "server_error" "Could not open the backend session."
  | (session, None) =>
  if isNilSession session then
    writeHTTPError requestID 500 "server_error" "Could not open the backend session."
  else
  act (ActAccept ["realtime"] (OriginPatterns (ws_config h)));;
  match Accept (ws_collaborators h) request ["realtime"] (OriginPatterns (ws_config h)) with
  | Some answer => with_rw (λ rw, ((), answer rw));; closeSession
  | None =>
  act (ActSetReadLimit (MaxBodyBytes (ws_config h)));;
  match first with
  | None => blocked
  | Some err => finish_session h err
  end
  end
  end
  end
  end))
  end.

(** ** Lemmas *)

Definition ws_error_body (errorType message : string) : string :=
  marshal_object [("error", marshal_object
    [ ("code", marshal_nil); ("message", marshal_string message); ("param", marshal_nil);
      ("type", marshal_string errorType) ])] +:+ str1 LF.

Definition ws_error_header (requestID : string) (h : Header) : Header :=
  header_set "X-Request-Id" requestID (header_set "Content-Type" "application/json" h).

Definition ws_error_rw (requestID : string) (status : Z) (errorType message : string)
    (rw : ResponseWriter) : ResponseWriter :=
  (write_rw (ws_error_body errorType message)
    (commit status (with_header (ws_error_header requestID) rw))).2.

Lemma writeHTTPError_spec requestID status errorType message w :
  rw_status (w_rw w) = None → (200 ≤ status ≤ 599)%Z →
  writeHTTPError requestID status errorType message w =
    Return () (mkWorld (ws_error_rw requestID status errorType message (w_rw w)) (w_trace w)).
Proof.
  intros Hst Hr. unfold writeHTTPError, ws_error_rw, ws_error_body, ws_error_header.
  unfold mbind, M_bind, modify_header, Write, with_rw. cbn [w_rw w_trace].
  rewrite WriteHeader_final; [|done|lia|].
  2:{ apply not_true_is_false. rewrite informational_spec. lia. }
  cbn [w_rw w_trace]. unfold with_header. cbn. by destruct (write_rw _ _).
Qed.

Lemma ws_error_rw_spec requestID status errorType message rw :
  (400 ≤ status ≤ 599)%Z →
  let rw' := ws_error_rw requestID status errorType message rw in
  rw_status rw' = Some status ∧
  header_get (rw_sent rw') "X-Request-Id" = requestID ∧
  (takes_all rw → rw_body rw' = rw_body rw +:+ ws_error_body errorType message).
Proof.
  intros Hs. simpl. unfold ws_error_rw.
  destruct (write_rw_committed (ws_error_body errorType message)
    (commit status (with_header (ws_error_header requestID) rw)) status eq_refl)
    as (f & t & r & rw' & Hw & _ & _ & _ & H1 & H2 & _).
  rewrite Hw. cbn [snd]. rewrite H1, H2. split_and!; [done|apply header_get_set|].
  intros [Hc Hd]. rewrite (write_rw_unlimited _ _ status) in Hw; [by injection Hw as _ <-|done|..].
  - unfold bodyAllowed. lia.
  - done.
  - apply exceeds_undeclared. etransitivity; [|exact Hd]. apply declared_length_values.
    unfold ws_error_header. simpl. by rewrite !header_values_set_ne by (by vm_compute).
Qed.

(** How many sessions the request opens: one, if the backend hands one out. *)
Definition opened_sessions (h : WsHandler) (request : HttpRequest) : nat :=
  match Authenticate (ws_config h) request (request_id request) with
  | Err _ => 0
  | Ok callerID =>
      match SessionFor (ws_services h) (ws_surface h request) with
      | (Some sessionBackend, true) =>
          if isNilSession (dyn_val sessionBackend
               (session_request h request (request_id request) callerID)).1 then 0 else 1
      | _ => 0
      end
  end.

(** A session was opened, the connection is upgraded and both loops run. *)
Definition upgraded (h : WsHandler) (request : HttpRequest) : Prop :=
  ∃ callerID sessionBackend session,
    Authenticate (ws_config h) request (request_id request) = Ok callerID ∧
    SessionFor (ws_services h) (ws_surface h request) = (Some sessionBackend, true) ∧
    dyn_val sessionBackend (session_request h request (request_id request) callerID)
      = (session, None) ∧
    isNilSession session = false ∧
    Accept (ws_collaborators h) request ["realtime"] (OriginPatterns (ws_config h)) = None.

(** Why a request is not upgraded, with the answer it gets. *)
Inductive ws_refused (h : WsHandler) (request : HttpRequest) : Z → string → string → Prop :=
| ws_refused_auth err :
    Authenticate (ws_config h) request (request_id request) = Err err →
    ws_refused h request 401 "authentication_error" "Invalid authentication credentials."
| ws_refused_surface callerID value :
    Authenticate (ws_config h) request (request_id request) = Ok callerID →
    SessionFor (ws_services h) (ws_surface h request) = (value, false) →
    ws_refused h request 501 "unsupported_error"
      "The requested WebSocket capability is not configured."
| ws_refused_open callerID sessionBackend session err :
    Authenticate (ws_config h) request (request_id request) = Ok callerID →
    SessionFor (ws_services h) (ws_surface h request) = (Some sessionBackend, true) →
    dyn_val sessionBackend (session_request h request (request_id request) callerID)
      = (session, err) →
    is_Some err ∨ isNilSession session = true →
    ws_refused h request 500 "server_error" "Could not open the backend session.".

(** Evaluation of a request that is registered, along the facts in reach. *)
Ltac ws_run :=
  unfold ServeWebSocket; rewrite !deferred_act;
  repeat match goal with
  | H : Authenticate _ _ _ = _ |- _ => rewrite H; clear H
  | H : SessionFor _ _ = _ |- _ => rewrite H; clear H
  end;
  unfold mbind, M_bind, act; cbn [w_rw w_trace].

Lemma ws_run_refused h request id first w status errorType message :
  rw_status (w_rw w) = None → ws_refused h request status errorType message →
  ∃ mid, ServeWebSocket h request (id, true) first w =
      Return () (mkWorld (ws_error_rw (request_id request) status errorType message (w_rw w))
        (w_trace w ++ ActAuthenticate :: mid ++ [ActCancel; ActUnregister id])) ∧
    (mid = [] ∧ opened_sessions h request = 0 ∨
     ∃ open, mid = [ActOpenSession open] ∧ opened_sessions h request = 0 ∨
             mid = [ActOpenSession open; ActCloseSession] ∧ opened_sessions h request = 1).
Proof.
  intros Hst Href.
  destruct Href as [err Ha|c v Ha Hs|c sb session err Ha Hs Ho Hfail]; unfold opened_sessions;
    rewrite ?Ha, ?Hs; cbv beta iota.
  - exists []. split; [|by left]. ws_run. rewrite writeHTTPError_spec by (done || lia).
    cbn [w_rw w_trace]. by rewrite <- !(assoc_L (++)).
  - exists []. split; [|left; by destruct v]. ws_run. destruct v as [sb|];
      rewrite writeHTTPError_spec by (done || lia); cbn [w_rw w_trace];
      by rewrite <- !(assoc_L (++)).
  - rewrite Ho. cbn [fst]. destruct (isNilSession session) eqn:Hn.
    + exists [ActOpenSession (session_request h request (request_id request) c)].
      split; [|right; eexists; by left]. ws_run. rewrite Ho. cbv beta iota. rewrite Hn.
      destruct err; unfold mret, M_ret;
        rewrite writeHTTPError_spec by (done || lia); cbn [w_rw w_trace];
        by rewrite <- !(assoc_L (++)).
    + destruct Hfail as [[e ->]|?]; [|done].
      exists [ActOpenSession (session_request h request (request_id request) c); ActCloseSession].
      split; [|right; eexists; by right]. ws_run. rewrite Ho. cbv beta iota. rewrite Hn.
      unfold closeSession, act. cbn [w_rw w_trace].
      rewrite writeHTTPError_spec by (done || lia). cbn [w_rw w_trace].
      by rewrite <- !(assoc_L (++)).
Qed.

(** The accepted case: what follows the handshake. *)
Lemma ws_run_opened h request id first w c sb session :
  Authenticate (ws_config h) request (request_id request) = Ok c →
  SessionFor (ws_services h) (ws_surface h request) = (Some sb, true) →
  dyn_val sb (session_request h request (request_id request) c) = (session, None) →
  isNilSession session = false →
  let prefix := w_trace w ++ [ActAuthenticate;
    ActOpenSession (session_request h request (request_id request) c);
    ActAccept ["realtime"] (OriginPatterns (ws_config h))] in
  let closing code reason := [ActCancel; ActCloseSession; ActCloseConnection code reason] in
  let limit := ActSetReadLimit (MaxBodyBytes (ws_config h)) in
  ServeWebSocket h request (id, true) first w =
    match Accept (ws_collaborators h) request ["realtime"] (OriginPatterns (ws_config h)) with
    | None =>
      match first with
      | None => Blocked (mkWorld (w_rw w) (prefix ++ [limit]))
      | Some err =>
          match closeReason (CloseStatus (ws_collaborators h)) err with
          | Some (code, reason) => Return () (mkWorld (w_rw w)
              (prefix ++ limit :: closing code reason ++ [ActCancel; ActUnregister id]))
          | None => Panic (mkWorld (w_rw w)
              (prefix ++ limit :: closing 1000%Z "OK" ++ [ActCancel; ActUnregister id]))
          end
      end
    | Some answer => Return () (mkWorld (answer (w_rw w))
           (prefix ++ [ActCloseSession; ActCancel; ActUnregister id]))
    end.
Proof.
  intros Ha Hs Ho Hn. ws_run. rewrite Ho. cbv beta iota. rewrite Hn.
  destruct (Accept _ _ _ _) as [answer|].
  2:{ destruct first as [err|]; unfold blocked; cbn [w_rw w_trace];
      [|by rewrite <- !(assoc_L (++))].
    unfold finish_session.
    destruct (closeReason (CloseStatus (ws_collaborators h)) err) as [[code reason]|];
      unfold closeAll, closeSession, mbind, M_bind, act, mret, M_ret, panic; cbn;
      by rewrite <- !(assoc_L (++)). }
  cbn. by rewrite <- !(assoc_L (++)).
Qed.

(** Every registered request is refused, or opens a session. *)
Lemma ws_cases h request `{!LookupsUsable (ws_services h)} :
  (∃ status errorType message, ws_refused h request status errorType message) ∨
  (∃ c sb session,
     Authenticate (ws_config h) request (request_id request) = Ok c ∧
     SessionFor (ws_services h) (ws_surface h request) = (Some sb, true) ∧
     dyn_val sb (session_request h request (request_id request) c) = (session, None) ∧
     isNilSession session = false).
Proof.
  destruct (Authenticate (ws_config h) request (request_id request)) as [c|err] eqn:Ha.
  2:{ left. do 3 eexists. by eapply ws_refused_auth. }
  destruct (SessionFor (ws_services h) (ws_surface h request)) as [v []] eqn:Hs.
  2:{ left. do 3 eexists. by eapply ws_refused_surface. }
  destruct (SessionFor_object _ _ _ Hs) as [sb ->].
  destruct (dyn_val sb (session_request h request (request_id request) c)) as [session err] eqn:Ho.
  destruct err as [e|].
  { left. do 3 eexists. eapply ws_refused_open; [done..|]. left. by eexists. }
  destruct (isNilSession session) eqn:Hn.
  { left. do 3 eexists. eapply ws_refused_open; [done..|]. by right. }
  right. by exists c, sb, session.
Qed.

(** A session in the trace was opened for an authenticated caller. *)
Lemma opened_authenticated h request registered first w open `{!LookupsUsable (ws_services h)} :
  rw_status (w_rw w) = None → w_trace w = [] →
  ActOpenSession open ∈ w_trace (world_of (ServeWebSocket h request registered first w)) →
  ∃ c, Authenticate (ws_config h) request (request_id request) = Ok c ∧
    open = session_request h request (request_id request) c.
Proof.
  intros Hst Hw. destruct registered as [id [|]].
  2:{ unfold ServeWebSocket. erewrite M_bind_Return by reflexivity.
      rewrite writeHTTPError_spec by (done || lia). cbn [world_of w_trace]. rewrite Hw. set_solver. }
  destruct (Authenticate (ws_config h) request (request_id request)) as [c|err] eqn:Ha.
  2:{ ws_run. rewrite writeHTTPError_spec by (done || lia). cbn [world_of w_trace].
      rewrite Hw. set_solver. }
  intros Hin. exists c. split; [done|]. revert Hin.
  destruct (SessionFor (ws_services h) (ws_surface h request)) as [v []] eqn:Hs.
  2:{ ws_run. destruct v; rewrite writeHTTPError_spec by (done || lia);
        cbn [world_of w_trace]; rewrite Hw; set_solver. }
  destruct (SessionFor_object _ _ _ Hs) as [sb ->].
  destruct (dyn_val sb (session_request h request (request_id request) c))
    as [session [err|]] eqn:Ho; [|destruct (isNilSession session) eqn:Hn].
  - ws_run. rewrite Ho. cbv beta iota. destruct (isNilSession session);
      unfold mret, M_ret, closeSession, act; cbn [w_rw w_trace];
      rewrite writeHTTPError_spec by (done || lia); cbn [world_of w_trace]; rewrite Hw; set_solver.
  - ws_run. rewrite Ho. cbv beta iota. rewrite Hn. rewrite writeHTTPError_spec by (done || lia).
    cbn [world_of w_trace]; rewrite Hw; set_solver.
  - rewrite (ws_run_opened h request id first w c sb session Ha Hs Ho Hn), Hw. cbv zeta.
    destruct (Accept _ _ _ _); [cbn [world_of w_trace]; set_solver|].
    destruct first as [err|]; [|cbn [world_of w_trace]; set_solver].
    destruct (closeReason _ err) as [[]|]; cbn [world_of w_trace]; set_solver.
Qed.

(** ** Properties: the connection *)

(** What a registered request does, as a whole: it goes on until a loop ends,
    or ends and leaves. *)
Definition is_blocked {A} (o : outcome A) : bool :=
  match o with Blocked _ => true | _ => false end.

Lemma ws_script h request id first w `{!LookupsUsable (ws_services h)} :
  rw_status (w_rw w) = None → w_trace w = [] →
  let o := ServeWebSocket h request (id, true) first w in
  if is_blocked o then
    first = None ∧ upgraded h request ∧
    count is_close_session (w_trace (world_of o)) = 0 ∧
    count is_unregister (w_trace (world_of o)) = 0 ∧
    ∀ err, w_trace (world_of o) `prefix_of`
      w_trace (world_of (ServeWebSocket h request (id, true) (Some err) w))
  else ∃ before,
    w_trace (world_of o) = before ++ [ActCancel; ActUnregister id] ∧
    count is_unregister before = 0 ∧
    count is_open_session before ≤ 1 ∧
    count is_close_session before = opened_sessions h request ∧
    (upgraded h request → count is_close_connection before = 1).
Proof.
  intros Hst Hw.
  destruct (ws_cases h request) as [(s & et & m & Href)|(c & sb & session & Ha & Hs & Ho & Hn)].
  - destruct (ws_run_refused h request id first w s et m Hst Href) as (mid & -> & Hmid).
    cbn [is_blocked world_of w_trace]. rewrite Hw. exists (ActAuthenticate :: mid). split; [done|].
    assert (¬ upgraded h request) as Hnu.
    { intros (c' & sb' & session' & Ha & Hs & Ho & Hn & _).
      destruct Href as [err Ha'|c1 v Ha' Hs'|c1 sb1 se err Ha' Hs' Ho' Hfail];
        [congruence|congruence|].
      rewrite Ha' in Ha. injection Ha as ->. rewrite Hs' in Hs. injection Hs as ->.
      rewrite Ho' in Ho. injection Ho as -> ->. destruct Hfail as [[? ?]|?]; congruence. }
    destruct Hmid as [[-> ->]|[open [[-> ->]|[-> ->]]]]; split_and!; try done; vm_compute; lia.
  - assert (opened_sessions h request = 1) as Hone.
    { unfold opened_sessions. rewrite Ha, Hs, Ho. cbn [fst]. by rewrite Hn. }
    pose proof (λ f, ws_run_opened h request id f w c sb session Ha Hs Ho Hn) as Hrun.
    cbv zeta in Hrun. rewrite Hrun, Hw.
    set (opening := [ActAuthenticate;
      ActOpenSession (session_request h request (request_id request) c);
      ActAccept ["realtime"] (OriginPatterns (ws_config h))]).
    change ([] ++ opening) with opening.
    destruct (Accept (ws_collaborators h) request ["realtime"] (OriginPatterns (ws_config h)))
      as [answer|] eqn:Hacc.
    2:{ assert (upgraded h request) as Hup by by exists c, sb, session.
      destruct first as [err|].
      2:{ cbn [is_blocked world_of w_trace]. split_and!; [done..|]. intros err. rewrite Hrun, Hw.
          destruct (closeReason _ err) as [[code reason]|]; cbn [world_of w_trace];
            apply prefix_app, prefix_cons, prefix_nil. }
      destruct (closeReason _ err) as [[code reason]|]; rewrite Hone; cbn [is_blocked world_of w_trace].
      * exists (opening ++
          [ActSetReadLimit (MaxBodyBytes (ws_config h)); ActCancel; ActCloseSession; ActCloseConnection code reason]).
        split; [by rewrite <- !(assoc_L (++))|]. split_and!; [done| |done|done]. vm_compute. lia.
      * exists (opening ++
          [ActSetReadLimit (MaxBodyBytes (ws_config h)); ActCancel; ActCloseSession; ActCloseConnection 1000 "OK"]).
        split; [by rewrite <- !(assoc_L (++))|]. split_and!; [done| |done|done]. vm_compute. lia. }
    rewrite Hone. cbn [is_blocked world_of w_trace].
    exists (opening ++ [ActCloseSession]).
    split; [by rewrite <- !(assoc_L (++))|]. split_and!; [done| |done|].
    { vm_compute. lia. }
    intros (c' & sb' & session' & _ & _ & _ & _ & Hacc'). congruence.
Qed.

(** C11. Resources of a WebSocket request: whatever the callbacks, the peer
    and the session do, a registered request opens at most one session and
    closes the session it was handed exactly once on every path on which it
    ends, an upgraded connection is closed exactly once, and the last two
    things it does are to cancel its context and to leave the registry; it
    stays only while both loops of an upgraded connection run. *)
Theorem ServeWebSocket_closes h request id first w `{!LookupsUsable (ws_services h)} :
  rw_status (w_rw w) = None → w_trace w = [] →
  match ServeWebSocket h request (id, true) first w with
  | Return _ w' | Panic w' => ∃ before,
      w_trace w' = before ++ [ActCancel; ActUnregister id] ∧
      count is_unregister before = 0 ∧
      count is_open_session before ≤ 1 ∧
      count is_close_session before = opened_sessions h request ∧
      (upgraded h request → count is_close_connection before = 1)
  | Blocked w' => first = None ∧ upgraded h request ∧ count is_close_session (w_trace w') = 0
  end.
Proof.
  intros Hst Hw. pose proof (ws_script h request id first w Hst Hw) as Hs. revert Hs. cbv zeta.
  by destruct (ServeWebSocket _ _ _ _ _); [..|intros (? & ? & ? & _)].
Qed.

(** C31. Every request has one of four ends.  While the registry is shutting
    down it is answered 503; a registered request that fails before the
    handshake is answered once, with the status of the first step that failed,
    and in both cases under its request identifier and without a handshake.
    Otherwise the caller is authenticated, the surface configured, and a
    session was opened for exactly this request: if the handshake fails, the
    answer is the one the library has written (the handler adds neither a
    header nor a body) and the session is closed; else the connection is
    upgraded and read within the configured limit. *)
Theorem ServeWebSocket_refuses h request registered first w `{!LookupsUsable (ws_services h)} :
  rw_status (w_rw w) = None → w_trace w = [] →
  let o := ServeWebSocket h request registered first w in
  let accept := ActAccept ["realtime"] (OriginPatterns (ws_config h)) in
  let answered status errorType message := ∃ w', o = Return () w' ∧
    rw_status (w_rw w') = Some status ∧
    header_get (rw_sent (w_rw w')) "X-Request-Id" = request_id request ∧
    (takes_all (w_rw w) →
     rw_body (w_rw w') = rw_body (w_rw w) +:+ ws_error_body errorType message) ∧
    Forall (λ a, a ≠ accept) (w_trace w') in
  if registered.2 then
    (∃ status errorType message, ws_refused h request status errorType message ∧
       answered status errorType message) ∨
    (∃ c sb session,
       Authenticate (ws_config h) request (request_id request) = Ok c ∧
       SessionFor (ws_services h) (ws_surface h request) = (Some sb, true) ∧
       dyn_val sb (session_request h request (request_id request) c) = (session, None) ∧
       isNilSession session = false ∧
       let opening := [ActAuthenticate;
         ActOpenSession (session_request h request (request_id request) c); accept] in
       match Accept (ws_collaborators h) request ["realtime"] (OriginPatterns (ws_config h)) with
       | Some answer => o = Return () (mkWorld (answer (w_rw w))
           (opening ++ [ActCloseSession; ActCancel; ActUnregister registered.1]))
       | None => w_rw (world_of o) = w_rw w ∧
           opening ++ [ActSetReadLimit (MaxBodyBytes (ws_config h))] `prefix_of`
             w_trace (world_of o)
       end)
  else answered 503%Z "service_unavailable_error" "The handler is shutting down.".
Proof.
  intros Hst Hw o accept answered. destruct registered as [id [|]]; cbn [fst snd].
  - destruct (ws_cases h request) as [(s & et & m & Href)|(c & sb & session & Ha & Hs & Ho & Hn)].
    { left. exists s, et, m. split; [done|].
      destruct (ws_run_refused h request id first w s et m Hst Href) as (mid & Hrun & Hmid).
      destruct (ws_error_rw_spec (request_id request) s et m (w_rw w)) as (H1 & H2 & H3);
        [destruct Href; lia|].
      exists (mkWorld (ws_error_rw (request_id request) s et m (w_rw w))
        (w_trace w ++ ActAuthenticate :: mid ++ [ActCancel; ActUnregister id])).
      split; [exact Hrun|]. cbn [w_rw w_trace]. split_and!; [done..|]. rewrite Hw.
      destruct Hmid as [[-> _]|[open [[-> _]|[-> _]]]]; by repeat constructor. }
    right. exists c, sb, session. split_and!; [done..|]. subst o. cbv zeta.
    pose proof (ws_run_opened h request id first w c sb session Ha Hs Ho Hn) as Hrun.
    cbv zeta in Hrun. rewrite Hrun, Hw. clear Hrun. destruct (Accept _ _ _ _) as [answer|]; [done|].
    destruct first as [err|]; [|done].
    destruct (closeReason _ err) as [[code reason]|]; (split; [done|]);
      cbn [world_of w_trace]; apply prefix_app, prefix_cons, prefix_nil.
  - destruct (ws_error_rw_spec (request_id request) 503 "service_unavailable_error"
      "The handler is shutting down." (w_rw w)) as (H1 & H2 & H3); [lia|].
    eexists. split.
    { unfold o, ServeWebSocket. erewrite M_bind_Return by reflexivity.
      rewrite writeHTTPError_spec by (done || lia). reflexivity. }
    cbn [w_rw w_trace]. split_and!; [done..|]. rewrite Hw. by repeat constructor.
Qed.

(** ** Properties: the frames *)

(** An accepted frame of the client, with the event it carries. *)
Definition client_frame (surface : SessionSurface) (event : Event) (frame : read_result) : Prop :=
  ∃ data, frame = ReadFrame true data ∧ decodeEvent data = Ok event ∧
    eventAllowed surface "client" (ev_Type event) = true.

(** A message that encodes an event of the backend. *)
Definition server_message (surface : SessionSurface) (message : string) (item : selection) : Prop :=
  ∃ event, item = SelEvent event ∧ encodeEvent event = Some (Ok message) ∧
    eventAllowed surface "server" (ev_Type event) = true.

(** A message that must not be answered by anything but the end. *)
Definition bad_frame (surface : SessionSurface) (frame : read_result) : Prop :=
  match frame with
  | ReadError _ => False
  | ReadFrame text data => text = false ∨
      match decodeEvent data with
      | Ok event => eventAllowed surface "client" (ev_Type event) = false
      | Err _ => True
      end
  end.

Lemma readLoop_frames session surface seen reads events e :
  readLoop session surface seen reads = (events, e) →
  Forall2 (client_frame surface) events (take (length events) reads).
Proof.
  revert seen events e. induction reads as [|r reads IH]; intros seen events e Hr; simpl in Hr.
  { injection Hr as <- <-. constructor. }
  destruct r as [err|[] data]; try (injection Hr as <- <-; constructor).
  destruct (decodeEvent data) as [event|err] eqn:Hd; [|injection Hr as <- <-; constructor].
  destruct (eventAllowed surface "client" (ev_Type event)) eqn:Ha; simpl in Hr;
    [|injection Hr as <- <-; constructor].
  assert (client_frame surface event (ReadFrame true data)) as Hc by by exists data.
  destruct (ses_Handle session seen event) as [err|].
  - injection Hr as <- <-. by repeat constructor.
  - destruct (readLoop session surface (seen ++ [event]) reads) as [events' e'] eqn:Hrec.
    injection Hr as <- <-. constructor; [done|]. by eapply IH.
Qed.

Lemma decodeEvent_err data err : decodeEvent data = Err err → ∃ m, err = ProtocolFailure m.
Proof. unfold decodeEvent. intros H. repeat case_match; simplify_eq; by eexists. Qed.

Lemma readLoop_bad session surface seen events frames bad rest :
  Forall2 (client_frame surface) events frames → bad_frame surface bad →
  (∀ pre event post, events = pre ++ event :: post → ses_Handle session (seen ++ pre) event = None) →
  ∃ message, readLoop session surface seen (frames ++ bad :: rest) =
    (events, LoopReturned (Some (ProtocolFailure message))).
Proof.
  intros Hf Hbad. revert seen. induction Hf as [|event frame events frames Hc _ IH];
    intros seen Hok; simpl.
  - destruct bad as [err|[] data]; simpl in Hbad; [done| |by eexists].
    destruct Hbad as [?|Hbad]; [done|].
    destruct (decodeEvent data) as [event|err] eqn:Hd.
    + rewrite Hbad. by eexists.
    + destruct (decodeEvent_err _ _ Hd) as [m ->]. by eexists.
  - destruct Hc as (data & -> & -> & ->). cbn [negb].
    pose proof (Hok [] event events eq_refl) as Hnone. rewrite app_nil_r in Hnone. rewrite Hnone.
    destruct (IH (seen ++ [event])) as [m ->]; [|by exists m].
    intros pre event' post ->. rewrite <- (assoc_L (++)). by apply (Hok (event :: pre) event' post).
Qed.

Lemma writeLoop_messages write ctx_err surface sent tape messages e :
  writeLoop write ctx_err surface sent tape = (messages, e) →
  Forall2 (server_message surface) messages (take (length messages) tape).
Proof.
  revert sent messages e. induction tape as [|item tape IH]; intros sent messages e Hw; simpl in Hw.
  { injection Hw as <- <-. constructor. }
  destruct item as [|event|]; try (injection Hw as <- <-; constructor).
  destruct (eventAllowed surface "server" (ev_Type event)) eqn:Ha; simpl in Hw;
    [|injection Hw as <- <-; constructor].
  destruct (encodeEvent event) as [[data|err]|] eqn:Henc; try (injection Hw as <- <-; constructor).
  assert (server_message surface data (SelEvent event)) as Hs by by exists event.
  destruct (write sent data) as [err|].
  - injection Hw as <- <-. by repeat constructor.
  - destruct (writeLoop write ctx_err surface (sent ++ [data]) tape) as [ms e'] eqn:Hrec.
    injection Hw as <- <-. constructor; [done|]. by eapply IH.
Qed.

Lemma Forall2_prefix_take {A B} (R : A → B → Prop) l k xs :
  Forall2 R l (take (length l) xs) → k `prefix_of` l → Forall2 R k (take (length k) xs).
Proof.
  intros HR [t ->]. rewrite length_app in HR. apply Forall2_app_inv_l in HR as (x1 & x2 & H1 & _ & Heq).
  pose proof (Forall2_length _ _ _ H1) as Hlen.
  assert (take (length k) xs = x1) as ->; [|done].
  apply (f_equal (take (length k))) in Heq. rewrite take_take, Nat.min_l in Heq by lia.
  rewrite Heq, Hlen. by rewrite take_app_length.
Qed.

(** C3. In every run of a session, whatever the interleaving: the session is
    given exactly the first frames of the client, in order, each a text frame
    that decodes to an event the profile allows in that direction; and the
    client is sent exactly the encodings of the first events of the backend, in
    order, each allowed in the other direction.  Nothing else crosses. *)
Theorem session_run_gated session surface write ctx_err reads tape err handled written :
  session_run session surface write ctx_err reads tape err handled written →
  Forall2 (client_frame surface) handled (take (length handled) reads) ∧
  Forall2 (server_message surface) written (take (length written) tape).
Proof.
  destruct 1 as [err handled written Hr Hw|err handled written Hw Hr].
  - split; [by eapply readLoop_frames|].
    destruct (writeLoop write ctx_err surface [] tape) as [ms e] eqn:E.
    eapply Forall2_prefix_take; [|exact Hw]. by eapply writeLoop_messages.
  - split; [|by eapply writeLoop_messages].
    destruct (readLoop session surface [] reads) as [evs e] eqn:E.
    eapply Forall2_prefix_take; [|exact Hr]. by eapply readLoop_frames.
Qed.

(** A protocol violation ends the connection: after frames the session
    handled, a binary frame, text that is not a JSON event, or an event outside
    the profile is not handed to the session, whatever follows is not read, and
    the connection is closed as a policy violation with its own reason. *)
Theorem violation_closes session surface closeStatus events frames bad rest :
  Forall2 (client_frame surface) events frames → bad_frame surface bad →
  (∀ pre event post, events = pre ++ event :: post → ses_Handle session pre event = None) →
  ∃ message, readLoop session surface [] (frames ++ bad :: rest) =
      (events, LoopReturned (Some (ProtocolFailure message))) ∧
    closeReason closeStatus (Some (ProtocolFailure message)) =
      Some (StatusPolicyViolation, truncateReason message).
Proof.
  intros Hf Hbad Hok. destruct (readLoop_bad session surface [] events frames bad rest Hf Hbad Hok)
    as [m Hm]. by exists m.
Qed.

(** The profile decides what may cross: on each surface, an event type is
    allowed in a direction exactly when the frozen inventory lists it there
    (the realtime surface serves the translation events too), and nothing is
    allowed on any other surface. *)
Theorem eventAllowed_spec surface direction eventType :
  free_of (byte_of 0) direction = true →
  eventAllowed surface direction eventType = true ↔
    ∃ name, mkProfileEvent name direction eventType ∈ Events ∧
      (surface = SessionRealtime ∧ (name = "realtime" ∨ name = "realtime_translation") ∨
       surface = SessionResponsesSocket ∧ name = "responses_websocket").
Proof.
  intros Hd. unfold eventAllowed.
  destruct (bool_decide_reflect (surface = SessionRealtime)) as [->|Hne].
  - rewrite orb_true_iff, !EventAllowed_In by done. split.
    + intros [H|H]; eexists; (split; [exact H|]); auto.
    + intros (name & Hin & [[_ [->| ->]]|[? _]]); [by left|by right|done].
  - destruct (bool_decide_reflect (surface = SessionResponsesSocket)) as [->|Hne'].
    + rewrite EventAllowed_In by done. split.
      * intros H. eexists. split; [exact H|]. auto.
      * by intros (name & Hin & [[? _]|[_ ->]]).
    + split; [done|]. by intros (name & _ & [[? _]|[? _]]).
Qed.

(** How a connection is closed: normally when a loop ends without an
    error or by cancellation; as a policy violation, with the message of the
    failure, when the protocol was violated; otherwise with the status of the
    peer, or as an internal error.  The reason never exceeds 120 bytes, and
    discloses nothing of an error that is not a protocol failure. *)
Theorem closeReason_spec closeStatus err code reason :
  closeReason closeStatus err = Some (code, reason) →
  (len reason ≤ 120)%Z ∧
  match err with
  | None => code = StatusNormalClosure ∧ reason = "OK"
  | Some e =>
      errors_is context_Canceled e = Some true ∧ code = StatusNormalClosure ∧ reason = "OK" ∨
      errors_is context_Canceled e = Some false ∧
        ((∃ message, as_protocol e = Some (Some message) ∧ code = StatusPolicyViolation ∧
            reason = string_take 120 message) ∨
         as_protocol e = Some None ∧
           (closeStatus e ≠ -1 ∧ code = closeStatus e ∧ reason = "peer closed" ∨
            closeStatus e = -1 ∧ code = StatusInternalError ∧
              reason = "backend session failed")%Z)
  end.
Proof.
  assert (len "OK" ≤ 120)%Z as Hok by by apply Z.leb_le.
  unfold closeReason. destruct err as [e|]; [|by intros [= <- <-]].
  destruct (errors_is context_Canceled e) as [[]|]; csimpl; [intros [= <- <-]; by auto| |done].
  destruct (as_protocol e) as [[m|]|]; csimpl; [| |done].
  - intros [= <- <-].
    assert (truncateReason m = string_take 120 m) as ->.
    { unfold truncateReason, len. destruct (Z.ltb_spec 120 (Z.of_nat (String.length m)));
        [done|]. by rewrite string_take_ge by lia. }
    split; [|right; split; [done|]; left; by exists m].
    unfold len. rewrite length_take_str. lia.
  - destruct (Z.eqb_spec (closeStatus e) (-1)) as [Heq|Hne]; simpl; intros [= <- <-];
      (split; [by apply Z.leb_le|right; split; [done|]; right; auto]).
Qed.

(** A backend event whose payload is the JSON document [null] crashes the
    write loop: decoding leaves the map nil, and the discriminator is assigned
    to it. *)
Theorem null_payload_panics write ctx_err surface sent tape event :
  eventAllowed surface "server" (ev_Type event) = true →
  TrimSpace (ev_Type event) ≠ "" → parse (ev_Data event) = Some JNull →
  writeLoop write ctx_err surface sent (SelEvent event :: tape) = ([], LoopPanicked).
Proof.
  intros Ha Ht Hp. simpl. rewrite Ha. cbn [negb]. unfold encodeEvent, unmarshal_map. rewrite Hp.
  destruct (TrimSpace (ev_Type event)) as [|c t]; [done|]. simpl.
  destruct (ev_Data event) eqn:Hd; [|done]. discriminate Hp.
Qed.

(** ** Witnesses *)

Definition example_session : Session := mkSession (λ _ _, None).
Definition example_refusal (rw : ResponseWriter) : ResponseWriter :=
  (write_rw "request Origin is not authorized" (commit 403 rw)).2.
Definition example_ws (accept : bool) : WsHandler :=
  mkWsHandler
    (mkServices None ∅ {[ SessionRealtime := ptr (λ _, (ptr example_session, None)) ]})
    (mkWsCollaborators (λ _ _ _, if accept then None else Some example_refusal) (λ _, -1)%Z)
    (mkConfig "/v1" 1024 [] true (λ _ _, Ok "caller")).
Definition example_upgrade (path : string) : HttpRequest :=
  mkHttpRequest "GET" path "model=test" ∅ "" false (Some "abcdefghijkl").

#[export] Instance example_ws_usable accept : LookupsUsable (ws_services (example_ws accept)).
Proof.
  constructor; [by intros c h [=]|]. intros x b. unfold SessionFor. simpl.
  destruct (decide (x = SessionRealtime)) as [->|Hne].
  - rewrite lookup_singleton_eq. by intros [= <-].
  - rewrite lookup_singleton_ne by done. by intros [=].
Qed.

Lemma ServeWebSocket_closes_witness :
  match ServeWebSocket (example_ws true) (example_upgrade "/v1/realtime") (7%N, true)
          (Some None) (fresh_world true None) with
  | Return _ w' | Panic w' => ∃ before,
      w_trace w' = before ++ [ActCancel; ActUnregister 7] ∧
      count is_unregister before = 0 ∧
      count is_open_session before ≤ 1 ∧
      count is_close_session before = 1 ∧
      (upgraded (example_ws true) (example_upgrade "/v1/realtime") →
       count is_close_connection before = 1)
  | Blocked w' => Some (@None goerror) = None ∧
      upgraded (example_ws true) (example_upgrade "/v1/realtime") ∧
      count is_close_session (w_trace w') = 0
  end.
Proof.
  apply (ServeWebSocket_closes (example_ws true) (example_upgrade "/v1/realtime") 7 (Some None)
    (fresh_world true None)); reflexivity.
Defined.

Lemma ServeWebSocket_refuses_witness :
  ∃ w', ServeWebSocket (example_ws false) (example_upgrade "/v1/realtime") (7%N, true) None
      (fresh_world true None) = Return () w' ∧
    rw_status (w_rw w') = Some 403%Z ∧ count is_close_session (w_trace w') = 1.
Proof.
  destruct (ServeWebSocket_refuses (example_ws false) (example_upgrade "/v1/realtime") (7%N, true)
    None (fresh_world true None))
    as [(s & et & m & Href & _)|(c & sb & session & Ha & Hs & Ho & Hn & H)];
    [reflexivity..| |].
  - destruct Href as [err Ha|c v Ha Hs|c sb session err Ha Hs Ho Hfail].
    + discriminate Ha.
    + vm_compute in Hs. discriminate Hs.
    + vm_compute in Hs. injection Hs as <-. injection Ho as <- <-.
      destruct Hfail as [[? Hf]|Hf]; discriminate Hf.
  - eexists. split; [exact H|]. split; reflexivity.
Defined.

Definition example_event : Event :=
  mkEvent "session.update" "" (quoted "{'type':'session.update'}").
Definition example_reads : list read_result :=
  [ReadFrame true (quoted "{'type':'session.update'}"); ReadFrame false "binary"].

Lemma session_run_gated_witness :
  Forall2 (client_frame SessionRealtime) [example_event] (take 1 example_reads) ∧
  Forall2 (server_message SessionRealtime) [] (take 0 [SelClosed]).
Proof.
  apply (session_run_gated example_session SessionRealtime (λ _ _, None) (Sentinel context_Canceled)
    example_reads [SelClosed] (Some (protocolError "binary frames are not supported"))
    [example_event] []).
  apply read_first; [vm_compute; reflexivity|apply prefix_nil].
Defined.

Lemma violation_closes_witness :
  ∃ message, readLoop example_session SessionRealtime [] ([] ++ ReadFrame true "not-json" :: []) =
      ([], LoopReturned (Some (ProtocolFailure message))) ∧
    closeReason (λ _, -1)%Z (Some (ProtocolFailure message)) =
      Some (StatusPolicyViolation, truncateReason message).
Proof.
  apply (violation_closes example_session SessionRealtime (λ _, -1)%Z [] []
    (ReadFrame true "not-json") []).
  - constructor.
  - right. vm_compute. exact I.
  - by intros [] ? ? [=].
Defined.

Lemma eventAllowed_spec_witness :
  eventAllowed SessionRealtime "client" "session.update" = true ↔
    ∃ name, mkProfileEvent name "client" "session.update" ∈ Events ∧
      (SessionRealtime = SessionRealtime ∧ (name = "realtime" ∨ name = "realtime_translation") ∨
       SessionRealtime = SessionResponsesSocket ∧ name = "responses_websocket").
Proof. apply (eventAllowed_spec SessionRealtime "client" "session.update"). reflexivity. Defined.

Lemma closeReason_spec_witness :
  (len "binary frames are not supported" ≤ 120)%Z ∧
  (errors_is context_Canceled (protocolError "binary frames are not supported") = Some true ∧
     StatusPolicyViolation = StatusNormalClosure ∧ "binary frames are not supported" = "OK" ∨
   errors_is context_Canceled (protocolError "binary frames are not supported") = Some false ∧
     ((∃ message, as_protocol (protocolError "binary frames are not supported")
           = Some (Some message) ∧ StatusPolicyViolation = StatusPolicyViolation ∧
         "binary frames are not supported" = string_take 120 message) ∨
      as_protocol (protocolError "binary frames are not supported") = Some None ∧
        (-1 ≠ -1 ∧ StatusPolicyViolation = -1 ∧
           "binary frames are not supported" = "peer closed" ∨
         -1 = -1 ∧ StatusPolicyViolation = StatusInternalError ∧
           "binary frames are not supported" = "backend session failed")%Z)).
Proof.
  apply (closeReason_spec (λ _, -1)%Z (Some (protocolError "binary frames are not supported"))
    StatusPolicyViolation "binary frames are not supported").
  vm_compute. reflexivity.
Defined.

Lemma null_payload_panics_witness :
  writeLoop (λ _ _, None) (Sentinel context_Canceled) SessionRealtime []
    [SelEvent (mkEvent "session.updated" "" "null")] = ([], LoopPanicked).
Proof.
  apply (null_payload_panics (λ _ _, None) (Sentinel context_Canceled) SessionRealtime []
    [] (mkEvent "session.updated" "" "null")); vm_compute; congruence.
Defined.
