(* ===== verification/WsSession.v ===== *)
(** One accepted session at run time: the three goroutines of
    [openai/internal/websocket/handler.go] after the handshake.

    [WsHandler] says what each loop does with what it is given, and what the
    handler does with the first result.  Here the handler, [readLoop] and
    [writeLoop] are three programs that take their steps in any order and share
    the channel [errorsChannel], the context and the connection.  What the peer
    sends, what the backend's [Handle] and the connection's [Write] answer, when
    the two-second timer fires and when somebody else cancels the context is
    left open.  Of [github.com/coder/websocket] the rules use what its
    documentation says of a closed connection: its reads and writes fail.

    A goroutine's state is its program counter with the variables it has at that
    point; the histories say what it was given and what it did. *)
From S2P Require Import Prelude GoStrings GoHttp Errors Services Backend JsonString World.
From S2P Require Import Json WsCodec ProfileData Profile RestHandler WsHandler.

(** ** The goroutine of [readLoop] *)

Inductive reader_pc :=
| Reading                                  (* connection.Read(ctx) *)
| Decoded (event : Event)                  (* about to call session.Handle *)
| Handling (event : Event)                 (* inside session.Handle *)
| ReadSending (err : option goerror)       (* errorsChannel <- *)
| ReadGone (err : option goerror).

Record read_side := mkReadSide {
  rs_pc : reader_pc;
  rs_reads : list read_result;
  rs_answers : list (option goerror);
  rs_handled : list Event }.

(** From [Read] to the call of [Handle], or to the [return]. *)
Definition after_read (surface : SessionSurface) (frame : read_result) : reader_pc :=
  match frame with
  | ReadError err => ReadSending (Some err)
  | ReadFrame false _ => ReadSending (Some (protocolError "binary frames are not supported"))
  | ReadFrame true data =>
      match decodeEvent data with
      | Err err => ReadSending (Some err)
      | Ok event =>
          if negb (eventAllowed surface "client" (ev_Type event)) then
            ReadSending (Some (protocolError
              "event type is outside the active compatibility profile"))
          else Decoded event
      end
  end.

Definition after_Handle (answer : option goerror) : reader_pc :=
  match answer with Some err => ReadSending (Some err) | None => Reading end.

(** [closed]: the connection has been closed. *)
Inductive read_step (surface : SessionSurface) (closed : bool) : read_side → read_side → Prop :=
| read_frame frame reads answers handled :
    (closed = true → ∃ err, frame = ReadError err) →
    read_step surface closed (mkReadSide Reading reads answers handled)
      (mkReadSide (after_read surface frame) (reads ++ [frame]) answers handled)
| read_call event reads answers handled :
    read_step surface closed (mkReadSide (Decoded event) reads answers handled)
      (mkReadSide (Handling event) reads answers (handled ++ [event]))
| read_answer event reads answers handled answer :
    read_step surface closed (mkReadSide (Handling event) reads answers handled)
      (mkReadSide (after_Handle answer) reads (answers ++ [answer]) handled).

(** ** The goroutine of [writeLoop] *)

Inductive writer_pc :=
| Selecting                                (* select *)
| Writing (data : string)                  (* connection.Write(ctx, data) *)
| WriteSending (err : option goerror)      (* errorsChannel <- *)
| WriteGone (err : option goerror)
| WriteCrashed.                            (* a panic nobody recovers *)

Record write_side := mkWriteSide {
  ws_pc : writer_pc;
  ws_tape : list selection;
  ws_answers : list (option goerror);
  ws_written : list string }.

(** From the [select] to the call of [Write], or to the [return]. *)
Definition after_select (surface : SessionSurface) (ctx_err : goerror) (item : selection)
    : writer_pc :=
  match item with
  | SelDone => WriteSending (Some ctx_err)
  | SelClosed => WriteSending None
  | SelEvent event =>
      if negb (eventAllowed surface "server" (ev_Type event)) then
        WriteSending (Some (protocolError
          "backend event type is outside the active compatibility profile"))
      else match encodeEvent event with
      | None => WriteCrashed
      | Some (Err err) => WriteSending (Some err)
      | Some (Ok data) => Writing data
      end
  end.

Definition after_Write (answer : option goerror) : writer_pc :=
  match answer with Some err => WriteSending (Some err) | None => Selecting end.

(** The message a program counter passes to [Write]. *)
Definition passed (pc : writer_pc) : list string :=
  match pc with Writing data => [data] | _ => [] end.

Inductive write_step (surface : SessionSurface) (ctx_err : goerror) (closed cancelled : bool)
    : write_side → write_side → Prop :=
| write_select item tape answers written :
    (item = SelDone → cancelled = true) →
    write_step surface ctx_err closed cancelled (mkWriteSide Selecting tape answers written)
      (mkWriteSide (after_select surface ctx_err item) (tape ++ [item]) answers
        (written ++ passed (after_select surface ctx_err item)))
| write_answer data tape answers written answer :
    (closed = true → is_Some answer) →
    write_step surface ctx_err closed cancelled (mkWriteSide (Writing data) tape answers written)
      (mkWriteSide (after_Write answer) tape (answers ++ [answer]) written).

(** ** The goroutine of [ServeHTTP] *)

Inductive handler_pc :=
| Awaiting                                 (* err = <-errorsChannel *)
| Received (err : option goerror)          (* closeReason(err) *)
| Closing (todo : list action) (next : handler_pc)   (* inside closeOnce.Do *)
| Draining                                 (* select with the timer *)
| Deferred (panicking : bool)              (* the deferred closeAll *)
| Finished (panicking : bool).

Record serve_side := mkServeSide {
  sv_pc : handler_pc;
  sv_err : option (option goerror);        (* the variable err, once received *)
  sv_closeOnce : bool;
  sv_log : list action }.

Definition closing (code : Z) (reason : string) : list action :=
  [ActCancel; ActCloseSession; ActCloseConnection code reason].

(** [closeAll(code, reason)], then [next]. *)
Definition enter_closeAll (closeOnce : bool) (code : Z) (reason : string) (next : handler_pc)
    : handler_pc :=
  if closeOnce then next else Closing (closing code reason) next.

(** The handler's own steps; the first list is the channel it receives from. *)
Inductive serve_step (closeStatus : goerror → Z)
    : list (option goerror) * serve_side → list (option goerror) * serve_side → Prop :=
| serve_receive err chan first once log :
    serve_step closeStatus (err :: chan, mkServeSide Awaiting first once log)
      (chan, mkServeSide (Received err) (Some err) once log)
| serve_close err chan first once log code reason :
    closeReason closeStatus err = Some (code, reason) →
    serve_step closeStatus (chan, mkServeSide (Received err) first once log)
      (chan, mkServeSide (enter_closeAll once code reason Draining) first true log)
| serve_panic err chan first once log :
    closeReason closeStatus err = None →
    serve_step closeStatus (chan, mkServeSide (Received err) first once log)
      (chan, mkServeSide (Deferred true) first once log)
| serve_act a todo next chan first once log :
    serve_step closeStatus (chan, mkServeSide (Closing (a :: todo) next) first once log)
      (chan, mkServeSide (Closing todo next) first once (log ++ [a]))
| serve_closed next chan first once log :
    serve_step closeStatus (chan, mkServeSide (Closing [] next) first once log)
      (chan, mkServeSide next first once log)
| serve_drain err chan first once log :
    serve_step closeStatus (err :: chan, mkServeSide Draining first once log)
      (chan, mkServeSide (Deferred false) first once log)
| serve_timer chan first once log :
    serve_step closeStatus (chan, mkServeSide Draining first once log)
      (chan, mkServeSide (Deferred false) first once log)
| serve_deferred panicking chan first once log :
    serve_step closeStatus (chan, mkServeSide (Deferred panicking) first once log)
      (chan, mkServeSide (enter_closeAll once StatusNormalClosure "OK" (Finished panicking))
        first true log).

(** ** The session *)

Record live_session := mkLive {
  lv_serve : serve_side;
  lv_read : read_side;
  lv_write : write_side;
  lv_errorsChannel : list (option goerror);
  lv_cancelled : bool }.                   (* by somebody else: Shutdown, the server *)

Definition errors_capacity : nat := 2.

Definition opened : live_session :=
  mkLive (mkServeSide Awaiting None false []) (mkReadSide Reading [] [] [])
    (mkWriteSide Selecting [] [] []) [] false.

Definition is_cancel (a : action) : bool := match a with ActCancel => true | _ => false end.

Definition connection_closed (s : live_session) : bool :=
  existsb is_close_connection (sv_log (lv_serve s)).
Definition session_closed (s : live_session) : bool :=
  existsb is_close_session (sv_log (lv_serve s)).
Definition ctx_cancelled (s : live_session) : bool :=
  lv_cancelled s || existsb is_cancel (sv_log (lv_serve s)).

(** A panic outside the goroutine of a request ends the process. *)
Definition crashed (s : live_session) : Prop := ws_pc (lv_write s) = WriteCrashed.

Inductive live_step (surface : SessionSurface) (closeStatus : goerror → Z) (ctx_err : goerror)
    : live_session → live_session → Prop :=
| live_serve s chan serve :
    ¬ crashed s →
    serve_step closeStatus (lv_errorsChannel s, lv_serve s) (chan, serve) →
    live_step surface closeStatus ctx_err s
      (mkLive serve (lv_read s) (lv_write s) chan (lv_cancelled s))
| live_read s read :
    ¬ crashed s →
    read_step surface (connection_closed s) (lv_read s) read →
    live_step surface closeStatus ctx_err s
      (mkLive (lv_serve s) read (lv_write s) (lv_errorsChannel s) (lv_cancelled s))
| live_write s write :
    ¬ crashed s →
    write_step surface ctx_err (connection_closed s) (ctx_cancelled s) (lv_write s) write →
    live_step surface closeStatus ctx_err s
      (mkLive (lv_serve s) (lv_read s) write (lv_errorsChannel s) (lv_cancelled s))
| live_read_sends s err reads answers handled :
    ¬ crashed s →
    lv_read s = mkReadSide (ReadSending err) reads answers handled →
    length (lv_errorsChannel s) < errors_capacity →
    live_step surface closeStatus ctx_err s
      (mkLive (lv_serve s) (mkReadSide (ReadGone err) reads answers handled) (lv_write s)
        (lv_errorsChannel s ++ [err]) (lv_cancelled s))
| live_write_sends s err tape answers written :
    ¬ crashed s →
    lv_write s = mkWriteSide (WriteSending err) tape answers written →
    length (lv_errorsChannel s) < errors_capacity →
    live_step surface closeStatus ctx_err s
      (mkLive (lv_serve s) (lv_read s) (mkWriteSide (WriteGone err) tape answers written)
        (lv_errorsChannel s ++ [err]) (lv_cancelled s))
| live_cancelled s :
    ¬ crashed s → lv_cancelled s = false →
    live_step surface closeStatus ctx_err s
      (mkLive (lv_serve s) (lv_read s) (lv_write s) (lv_errorsChannel s) true).

Abbreviation live_steps surface closeStatus ctx_err := (rtc (live_step surface closeStatus ctx_err)).

#[export] Instance crashed_dec s : Decision (crashed s).
Proof. unfold crashed. by destruct (ws_pc (lv_write s)); [right..|left]. Defined.
(** ** The same steps as a function *)

(** Who goes on, and what the peer, the backend or the connection answers. *)
Inductive choice :=
| Serve (timer : bool)
| Read (frame : read_result) | Call | HandleAnswer (answer : option goerror)
| Select (item : selection) | WriteAnswer (answer : option goerror)
| ReadSend | WriteSend | Cancel.

Definition serve_next (closeStatus : goerror → Z) (timer : bool) (chan : list (option goerror))
    (v : serve_side) : option (list (option goerror) * serve_side) :=
  let '(mkServeSide pc first once log) := v in
  match pc, chan with
  | Awaiting, err :: chan => Some (chan, mkServeSide (Received err) (Some err) once log)
  | Received err, _ =>
      match closeReason closeStatus err with
      | Some (code, reason) =>
          Some (chan, mkServeSide (enter_closeAll once code reason Draining) first true log)
      | None => Some (chan, mkServeSide (Deferred true) first once log)
      end
  | Closing (a :: todo) next, _ => Some (chan, mkServeSide (Closing todo next) first once (log ++ [a]))
  | Closing [] next, _ => Some (chan, mkServeSide next first once log)
  | Draining, _ =>
      if timer then Some (chan, mkServeSide (Deferred false) first once log)
      else match chan with
           | _ :: chan => Some (chan, mkServeSide (Deferred false) first once log)
           | [] => None
           end
  | Deferred panicking, _ =>
      Some (chan, mkServeSide (enter_closeAll once StatusNormalClosure "OK" (Finished panicking))
        first true log)
  | _, _ => None
  end.

Definition read_next (surface : SessionSurface) (closed : bool) (c : choice) (r : read_side)
    : option read_side :=
  let '(mkReadSide pc reads answers handled) := r in
  match pc, c with
  | Reading, Read frame =>
      if match frame with ReadError _ => false | ReadFrame _ _ => closed end then None
      else Some (mkReadSide (after_read surface frame) (reads ++ [frame]) answers handled)
  | Decoded event, Call => Some (mkReadSide (Handling event) reads answers (handled ++ [event]))
  | Handling event, HandleAnswer answer =>
      Some (mkReadSide (after_Handle answer) reads (answers ++ [answer]) handled)
  | _, _ => None
  end.

Definition write_next (surface : SessionSurface) (ctx_err : goerror) (closed cancelled : bool)
    (c : choice) (w : write_side) : option write_side :=
  let '(mkWriteSide pc tape answers written) := w in
  match pc, c with
  | Selecting, Select item =>
      if match item with SelDone => negb cancelled | _ => false end then None
      else Some (mkWriteSide (after_select surface ctx_err item) (tape ++ [item]) answers
             (written ++ passed (after_select surface ctx_err item)))
  | Writing data, WriteAnswer answer =>
      if match answer with Some _ => false | None => closed end then None
      else Some (mkWriteSide (after_Write answer) tape (answers ++ [answer]) written)
  | _, _ => None
  end.

Definition live_next (surface : SessionSurface) (closeStatus : goerror → Z) (ctx_err : goerror)
    (c : choice) (s : live_session) : option live_session :=
  let '(mkLive serve read write chan cancelled) := s in
  if bool_decide (crashed s) then None
  else match c with
  | Serve timer =>
      '(chan, serve) ← serve_next closeStatus timer chan serve;
      Some (mkLive serve read write chan cancelled)
  | Read _ | Call | HandleAnswer _ =>
      read ← read_next surface (connection_closed s) c read;
      Some (mkLive serve read write chan cancelled)
  | Select _ | WriteAnswer _ =>
      write ← write_next surface ctx_err (connection_closed s) (ctx_cancelled s) c write;
      Some (mkLive serve read write chan cancelled)
  | ReadSend =>
      match read with
      | mkReadSide (ReadSending err) reads answers handled =>
          if length chan <? errors_capacity then
            Some (mkLive serve (mkReadSide (ReadGone err) reads answers handled) write
              (chan ++ [err]) cancelled)
          else None
      | _ => None
      end
  | WriteSend =>
      match write with
      | mkWriteSide (WriteSending err) tape answers written =>
          if length chan <? errors_capacity then
            Some (mkLive serve read (mkWriteSide (WriteGone err) tape answers written)
              (chan ++ [err]) cancelled)
          else None
      | _ => None
      end
  | Cancel => if cancelled then None else Some (mkLive serve read write chan true)
  end.

Fixpoint live_run (surface : SessionSurface) (closeStatus : goerror → Z) (ctx_err : goerror)
    (choices : list choice) (s : live_session) : option live_session :=
  match choices with
  | [] => Some s
  | c :: choices => s ← live_next surface closeStatus ctx_err c s;
      live_run surface closeStatus ctx_err choices s
  end.

(** ** Vocabulary of the properties *)

Definition reader_gone (r : read_side) : bool :=
  match rs_pc r with ReadGone _ => true | _ => false end.
Definition writer_gone (w : write_side) : bool :=
  match ws_pc w with WriteGone _ => true | _ => false end.
Definition handler_gone (v : serve_side) : bool :=
  match sv_pc v with Finished _ => true | _ => false end.
Definition all_gone (s : live_session) : bool :=
  handler_gone (lv_serve s) && reader_gone (lv_read s) && writer_gone (lv_write s).

(** A loop is past its [return]. *)
Definition loop_ended (s : live_session) : Prop :=
  (∃ err, rs_pc (lv_read s) = ReadSending err ∨ rs_pc (lv_read s) = ReadGone err) ∨
  (∃ err, ws_pc (lv_write s) = WriteSending err ∨ ws_pc (lv_write s) = WriteGone err).

(** The event whose [Handle] is about to be called. *)
Definition decoded (r : read_side) : list Event :=
  match rs_pc r with Decoded event => [event] | _ => [] end.

(** 1 when the loop may still take an event. *)
Definition selecting (w : write_side) : nat :=
  match ws_pc w with Selecting => 1 | _ => 0 end.

(** ** The collaborators as they answered *)

Definition session_of (answers : list (option goerror)) : Session :=
  mkSession (λ seen _, default None (answers !! length seen)).
Definition write_of (answers : list (option goerror)) : list string → string → option goerror :=
  λ sent _, default None (answers !! length sent).

(** ** Lemmas: the function is the relation *)

Lemma serve_next_step closeStatus chan v chan' v' :
  serve_step closeStatus (chan, v) (chan', v') ↔
  ∃ timer, serve_next closeStatus timer chan v = Some (chan', v').
Proof.
  split.
  - inversion 1; subst; simpl;
      try (exists false; simpl; by rewrite ?H1); try (exists true; done); by exists false.
  - intros [timer Hn]. destruct v as [pc first once log]. simpl in Hn.
    destruct pc as [|err|[|a todo] next| |p|p], chan; split_matches; simplify_eq/=; by constructor.
Qed.

Lemma read_next_step surface closed r r' :
  read_step surface closed r r' ↔ ∃ c, read_next surface closed c r = Some r'.
Proof.
  split.
  - destruct 1 as [frame reads answers handled Hf| |].
    + exists (Read frame). simpl. destruct frame as [|text data]; [done|]. destruct closed; [|done].
      by destruct Hf as [? [=]].
    + by exists Call.
    + by exists (HandleAnswer answer).
  - intros [c Hn]. destruct r as [[] reads answers handled], c; simpl in Hn; try done.
    + destruct frame as [err|text data]; [|destruct closed; [done|]]; injection Hn as <-.
      * apply (read_frame _ _ (ReadError err)). by eexists.
      * by apply (read_frame _ _ (ReadFrame text data)).
    + injection Hn as <-. constructor.
    + injection Hn as <-. constructor.
Qed.

Lemma write_next_step surface ctx_err closed cancelled w w' :
  write_step surface ctx_err closed cancelled w w' ↔
  ∃ c, write_next surface ctx_err closed cancelled c w = Some w'.
Proof.
  split.
  - destruct 1 as [item tape answers written Hf|data tape answers written answer Hf].
    + exists (Select item). simpl. destruct item; try done. by rewrite Hf.
    + exists (WriteAnswer answer). simpl. destruct answer; [done|]. destruct closed; [|done].
      by destruct Hf as [? [=]].
  - intros [c Hn]. destruct w as [[] tape answers written], c; simpl in Hn; try done.
    + assert (item = SelDone → cancelled = true) as Hd by by intros ->; destruct cancelled.
      replace w' with (mkWriteSide (after_select surface ctx_err item) (tape ++ [item]) answers
        (written ++ passed (after_select surface ctx_err item))) by (split_matches; congruence).
      by constructor.
    + assert (closed = true → is_Some answer) as Hd by (intros ->; destruct answer; naive_solver).
      replace w' with (mkWriteSide (after_Write answer) tape (answers ++ [answer]) written)
        by (destruct answer, closed; naive_solver).
      by constructor.
Qed.

Lemma live_next_sound surface closeStatus ctx_err c s s' :
  live_next surface closeStatus ctx_err c s = Some s' →
  live_step surface closeStatus ctx_err s s'.
Proof.
  destruct s as [serve read write chan cancelled]. cbn [live_next].
  set (s := mkLive serve read write chan cancelled).
  destruct (bool_decide_reflect (crashed s)) as [|Hcr]; [done|].
  assert (∀ read', read_next surface (connection_closed s) c read = Some read' →
    live_step surface closeStatus ctx_err s (mkLive serve read' write chan cancelled)) as Hread.
  { intros read' Hn. apply (live_read _ _ _ s); [done|]. apply read_next_step. by exists c. }
  assert (∀ write', write_next surface ctx_err (connection_closed s) (ctx_cancelled s) c write
      = Some write' →
    live_step surface closeStatus ctx_err s (mkLive serve read write' chan cancelled)) as Hwrite.
  { intros write' Hn. apply (live_write _ _ _ s); [done|]. apply write_next_step. by exists c. }
  destruct c as [timer|frame| |answer|item|answer| | |].
  - destruct (serve_next _ _ _ _) as [[chan' serve']|] eqn:Hn; [|done]. intros [= <-].
    apply (live_serve _ _ _ s); [done|]. apply serve_next_step. by exists timer.
  - destruct (read_next _ _ _ _); [|done]. intros [= <-]. by apply Hread.
  - destruct (read_next _ _ _ _); [|done]. intros [= <-]. by apply Hread.
  - destruct (read_next _ _ _ _); [|done]. intros [= <-]. by apply Hread.
  - destruct (write_next _ _ _ _ _ _); [|done]. intros [= <-]. by apply Hwrite.
  - destruct (write_next _ _ _ _ _ _); [|done]. intros [= <-]. by apply Hwrite.
  - destruct read as [[| | |err|] reads answers handled]; try done.
    destruct (Nat.ltb_spec (length chan) errors_capacity); [|done]. intros [= <-].
    by apply (live_read_sends _ _ _ s).
  - destruct write as [[| |err| |] tape answers written]; try done.
    destruct (Nat.ltb_spec (length chan) errors_capacity); [|done]. intros [= <-].
    by apply (live_write_sends _ _ _ s).
  - destruct cancelled; [done|]. intros [= <-]. by apply (live_cancelled _ _ _ s).
Qed.

Lemma live_next_complete surface closeStatus ctx_err s s' :
  live_step surface closeStatus ctx_err s s' →
  ∃ c, live_next surface closeStatus ctx_err c s = Some s'.
Proof.
  intros Hstep.
  destruct Hstep as [s chan serve Hcr Hs|s read Hcr Hs|s write Hcr Hs|
    s err reads answers handled Hcr Hs Hlen|s err tape answers written Hcr Hs Hlen|s Hcr Hn];
    apply (bool_decide_eq_false_2 _) in Hcr; destruct s as [serve0 read0 write0 chan0 cancelled0];
    cbn [lv_serve lv_read lv_write lv_errorsChannel lv_cancelled] in *.
  - apply serve_next_step in Hs as [timer Hs]. exists (Serve timer). cbn [live_next].
    by rewrite Hcr, Hs.
  - apply read_next_step in Hs as [c Hs].
    exists c. cbn [live_next]. rewrite Hcr. destruct read0 as [[] ? ? ?], c; try done; by rewrite Hs.
  - apply write_next_step in Hs as [c Hs].
    exists c. cbn [live_next]. rewrite Hcr. destruct write0 as [[] ? ? ?], c; try done; by rewrite Hs.
  - exists ReadSend. cbn [live_next]. rewrite Hcr, Hs. by destruct (Nat.ltb_spec (length chan0) errors_capacity); [|lia].
  - exists WriteSend. cbn [live_next]. rewrite Hcr, Hs. by destruct (Nat.ltb_spec (length chan0) errors_capacity); [|lia].
  - exists Cancel. cbn [live_next]. by rewrite Hcr, Hn.
Qed.

Lemma live_run_sound surface closeStatus ctx_err choices s s' :
  live_run surface closeStatus ctx_err choices s = Some s' →
  live_steps surface closeStatus ctx_err s s'.
Proof.
  revert s. induction choices as [|c choices IH]; intros s; simpl; [by intros [= ->]|].
  destruct (live_next surface closeStatus ctx_err c s) as [s1|] eqn:Hn; [|done]. intros Hr.
  eapply rtc_l; [by eapply live_next_sound|]. by apply IH.
Qed.

(** ** Lemmas: the loops, one step further *)

Lemma answers_snoc_old (answers : list (option goerror)) answer n :
  n < length answers → (answers ++ [answer]) !! n = answers !! n.
Proof. intros. by rewrite lookup_app_l. Qed.

Lemma readLoop_snoc session surface seen reads events frame last :
  readLoop session surface seen reads = (events, LoopWaiting) →
  readLoop session surface (seen ++ events) [frame] = last →
  readLoop session surface seen (reads ++ [frame]) = (events ++ last.1, last.2).
Proof.
  revert seen events. induction reads as [|r reads IH]; intros seen events.
  { intros [= <-] <-. rewrite app_nil_r. by destruct (readLoop session surface seen _). }
  simpl. destruct r as [err|[] data]; [done| |done].
  destruct (decodeEvent data) as [event|]; [|done]. destruct (eventAllowed _ _ _); [|done].
  cbn [negb]. destruct (ses_Handle session seen event); [done|].
  destruct (readLoop session surface (seen ++ [event]) reads) as [evs e] eqn:Hr.
  intros [= <- ->] Hlast. rewrite (IH _ _ Hr); [done|]. rewrite <- (assoc_L (++)). exact Hlast.
Qed.

Lemma writeLoop_snoc write ctx_err surface sent tape messages item last :
  writeLoop write ctx_err surface sent tape = (messages, LoopWaiting) →
  writeLoop write ctx_err surface (sent ++ messages) [item] = last →
  writeLoop write ctx_err surface sent (tape ++ [item]) = (messages ++ last.1, last.2).
Proof.
  revert sent messages. induction tape as [|i tape IH]; intros sent messages.
  { intros [= <-] <-. rewrite app_nil_r. by destruct (writeLoop write ctx_err surface sent _). }
  simpl. destruct i as [|event|]; [done| |done].
  destruct (eventAllowed _ _ _); [|done]. cbn [negb].
  destruct (encodeEvent event) as [[data|]|]; [|done..]. destruct (write sent data); [done|].
  destruct (writeLoop write ctx_err surface (sent ++ [data]) tape) as [ms e] eqn:Hr.
  intros [= <- ->] Hlast. rewrite (IH _ _ Hr); [done|]. rewrite <- (assoc_L (++)). exact Hlast.
Qed.

(** A loop consults its collaborator once for every event it let through. *)
Lemma readLoop_ext session session' surface seen reads events :
  (∀ before event, length before < length seen + length events →
     ses_Handle session before event = ses_Handle session' before event) →
  readLoop session surface seen reads = (events, LoopWaiting) →
  readLoop session' surface seen reads = (events, LoopWaiting).
Proof.
  revert seen events. induction reads as [|r reads IH]; intros seen events Heq; [done|].
  simpl. destruct r as [err|[] data]; [done| |done].
  destruct (decodeEvent data) as [event|]; [|done]. destruct (eventAllowed _ _ _); [|done].
  cbn [negb]. destruct (ses_Handle session seen event) eqn:Ha; [done|].
  destruct (readLoop session surface (seen ++ [event]) reads) as [evs e] eqn:Hr.
  intros [= <- ->]. rewrite <- Heq, Ha by (simpl; lia).
  rewrite (IH (seen ++ [event]) evs); [done| |done].
  intros before ev Hlt. apply Heq. rewrite length_app in Hlt. simpl in *. lia.
Qed.

Lemma writeLoop_ext write write' ctx_err surface sent tape messages :
  (∀ before data, length before < length sent + length messages →
     write before data = write' before data) →
  writeLoop write ctx_err surface sent tape = (messages, LoopWaiting) →
  writeLoop write' ctx_err surface sent tape = (messages, LoopWaiting).
Proof.
  revert sent messages. induction tape as [|i tape IH]; intros sent messages Heq; [done|].
  simpl. destruct i as [|event|]; [done| |done].
  destruct (eventAllowed _ _ _); [|done]. cbn [negb].
  destruct (encodeEvent event) as [[data|]|]; [|done..].
  destruct (write sent data) eqn:Ha; [done|].
  destruct (writeLoop write ctx_err surface (sent ++ [data]) tape) as [ms e] eqn:Hr.
  intros [= <- ->]. rewrite <- Heq, Ha by (simpl; lia).
  rewrite (IH (sent ++ [data]) ms); [done| |done].
  intros before d Hlt. apply Heq. rewrite length_app in Hlt. simpl in *. lia.
Qed.

(** ** Invariants of the goroutines *)

(** [readLoop] has let through the frames of [events] and is at the top of its loop. *)
Definition reads_done (surface : SessionSurface) (answers : list (option goerror))
    (reads : list read_result) (events : list Event) : Prop :=
  readLoop (session_of answers) surface [] reads = (events, LoopWaiting) ∧
  length answers = length events.

Definition writes_done (surface : SessionSurface) (ctx_err : goerror)
    (answers : list (option goerror)) (tape : list selection) (messages : list string) : Prop :=
  writeLoop (write_of answers) ctx_err surface [] tape = (messages, LoopWaiting) ∧
  length answers = length messages.

Inductive read_ok (surface : SessionSurface) : read_side → Prop :=
| read_ok_reading reads answers handled :
    reads_done surface answers reads handled →
    read_ok surface (mkReadSide Reading reads answers handled)
| read_ok_decoded event reads frame answers handled :
    reads_done surface answers reads handled → after_read surface frame = Decoded event →
    read_ok surface (mkReadSide (Decoded event) (reads ++ [frame]) answers handled)
| read_ok_handling event reads frame answers handled :
    reads_done surface answers reads handled → after_read surface frame = Decoded event →
    read_ok surface (mkReadSide (Handling event) (reads ++ [frame]) answers (handled ++ [event]))
| read_ok_ended pc err reads answers handled :
    readLoop (session_of answers) surface [] reads = (handled, LoopReturned err) →
    pc = ReadSending err ∨ pc = ReadGone err →
    read_ok surface (mkReadSide pc reads answers handled).

Inductive write_ok (surface : SessionSurface) (ctx_err : goerror) : write_side → Prop :=
| write_ok_selecting tape answers written :
    writes_done surface ctx_err answers tape written →
    write_ok surface ctx_err (mkWriteSide Selecting tape answers written)
| write_ok_writing data tape item answers written :
    writes_done surface ctx_err answers tape written →
    after_select surface ctx_err item = Writing data →
    write_ok surface ctx_err (mkWriteSide (Writing data) (tape ++ [item]) answers (written ++ [data]))
| write_ok_ended pc err tape answers written :
    writeLoop (write_of answers) ctx_err surface [] tape = (written, LoopReturned err) →
    pc = WriteSending err ∨ pc = WriteGone err →
    write_ok surface ctx_err (mkWriteSide pc tape answers written)
| write_ok_crashed tape answers written :
    writeLoop (write_of answers) ctx_err surface [] tape = (written, LoopPanicked) →
    write_ok surface ctx_err (mkWriteSide WriteCrashed tape answers written).

(** What one more frame, or one more selection, does to a loop. *)
Lemma readLoop_one session surface seen frame :
  readLoop session surface seen [frame] =
    match after_read surface frame with
    | Decoded event => ([event], match ses_Handle session seen event with
                                 | Some err => LoopReturned (Some err)
                                 | None => LoopWaiting
                                 end)
    | ReadSending err => ([], LoopReturned err)
    | _ => ([], LoopWaiting)
    end.
Proof. simpl. unfold after_read. split_matches. Qed.

Lemma writeLoop_one write ctx_err surface sent item :
  writeLoop write ctx_err surface sent [item] =
    match after_select surface ctx_err item with
    | Writing data => ([data], match write sent data with
                               | Some err => LoopReturned (Some err)
                               | None => LoopWaiting
                               end)
    | WriteSending err => ([], LoopReturned err)
    | WriteCrashed => ([], LoopPanicked)
    | _ => ([], LoopWaiting)
    end.
Proof. simpl. unfold after_select. split_matches. Qed.

Lemma after_read_cases surface frame :
  (∃ event, after_read surface frame = Decoded event) ∨
  (∃ err, after_read surface frame = ReadSending err).
Proof. unfold after_read. split_matches; eauto. Qed.

Lemma after_select_cases surface ctx_err item :
  (∃ data, after_select surface ctx_err item = Writing data) ∨
  (∃ err, after_select surface ctx_err item = WriteSending err) ∨
  after_select surface ctx_err item = WriteCrashed.
Proof. unfold after_select. split_matches; eauto. Qed.

Lemma reads_done_answer surface answers reads events frame event answer :
  reads_done surface answers reads events → after_read surface frame = Decoded event →
  readLoop (session_of (answers ++ [answer])) surface [] (reads ++ [frame]) =
    (events ++ [event], match answer with
                        | Some err => LoopReturned (Some err)
                        | None => LoopWaiting
                        end).
Proof.
  intros [Hr Hlen] Ha. eapply readLoop_ext in Hr.
  - rewrite (readLoop_snoc _ _ _ _ _ _ _ Hr eq_refl), readLoop_one, Ha. simpl.
    by rewrite <- Hlen, list_lookup_middle by done.
  - intros before ev Hlt. simpl in *. by rewrite answers_snoc_old by lia.
Qed.

Lemma reads_done_end surface answers reads events frame err :
  reads_done surface answers reads events → after_read surface frame = ReadSending err →
  readLoop (session_of answers) surface [] (reads ++ [frame]) = (events, LoopReturned err).
Proof.
  intros [Hr _] Ha. rewrite (readLoop_snoc _ _ _ _ _ _ _ Hr eq_refl), readLoop_one, Ha. simpl.
  by rewrite app_nil_r.
Qed.

Lemma writes_done_answer surface ctx_err answers tape messages item data answer :
  writes_done surface ctx_err answers tape messages →
  after_select surface ctx_err item = Writing data →
  writeLoop (write_of (answers ++ [answer])) ctx_err surface [] (tape ++ [item]) =
    (messages ++ [data], match answer with
                         | Some err => LoopReturned (Some err)
                         | None => LoopWaiting
                         end).
Proof.
  intros [Hw Hlen] Ha. eapply writeLoop_ext in Hw.
  - rewrite (writeLoop_snoc _ _ _ _ _ _ _ _ Hw eq_refl), writeLoop_one, Ha. unfold write_of. simpl.
    by rewrite <- Hlen, list_lookup_middle by done.
  - intros before d Hlt. unfold write_of. simpl in *. by rewrite answers_snoc_old by lia.
Qed.

Lemma writes_done_end surface ctx_err answers tape messages item :
  writes_done surface ctx_err answers tape messages →
  match after_select surface ctx_err item with
  | WriteSending err =>
      writeLoop (write_of answers) ctx_err surface [] (tape ++ [item]) = (messages, LoopReturned err)
  | WriteCrashed =>
      writeLoop (write_of answers) ctx_err surface [] (tape ++ [item]) = (messages, LoopPanicked)
  | _ => True
  end.
Proof.
  intros [Hw _]. destruct (after_select surface ctx_err item) eqn:Ha; try done;
    rewrite (writeLoop_snoc _ _ _ _ _ _ _ _ Hw eq_refl), writeLoop_one, Ha; simpl;
    by rewrite app_nil_r.
Qed.

Lemma read_ok_step surface closed r r' :
  read_ok surface r → read_step surface closed r r' → read_ok surface r'.
Proof.
  intros Hok Hstep. destruct Hstep as [frame reads answers handled _|event reads answers handled|
    event reads answers handled answer]; inversion Hok; subst; try by naive_solver.
  - destruct (after_read_cases surface frame) as [[event Ha]|[err Ha]]; rewrite Ha.
    + by constructor.
    + eapply read_ok_ended; [by eapply reads_done_end|by left].
  - by constructor.
  - match goal with H : reads_done _ _ _ _, Ha : after_read _ _ = _ |- _ =>
      pose proof (reads_done_answer _ _ _ _ _ _ answer H Ha) as Hnew; destruct H as [_ Hlen] end.
    destruct answer as [err|]; simpl.
    + eapply read_ok_ended; [exact Hnew|by left].
    + constructor. split; [exact Hnew|]. rewrite !length_app. simpl. lia.
Qed.

Lemma write_ok_step surface ctx_err closed cancelled w w' :
  write_ok surface ctx_err w → write_step surface ctx_err closed cancelled w w' →
  write_ok surface ctx_err w'.
Proof.
  intros Hok Hstep. destruct Hstep as [item tape answers written _|data tape answers written answer _];
    inversion Hok; subst; try by naive_solver.
  - match goal with H : writes_done _ _ _ _ _ |- _ =>
      pose proof (writes_done_end _ _ _ _ _ item H) as Hend end.
    destruct (after_select_cases surface ctx_err item) as [[data Ha]|[[err Ha]|Ha]];
      rewrite Ha in Hend |- *; simpl; rewrite ?app_nil_r.
    + by apply write_ok_writing.
    + eapply write_ok_ended; [exact Hend|by left].
    + by apply write_ok_crashed.
  - match goal with H : writes_done _ _ _ _ _, Ha : after_select _ _ _ = _ |- _ =>
      pose proof (writes_done_answer _ _ _ _ _ _ _ answer H Ha) as Hnew; destruct H as [_ Hlen] end.
    destruct answer as [err|]; simpl.
    + eapply write_ok_ended; [exact Hnew|by left].
    + constructor. split; [exact Hnew|]. rewrite !length_app. simpl. lia.
Qed.

(** What the handler has done at each point, from the error it received on. *)
Definition panics (closeStatus : goerror → Z) (err : option goerror) : bool :=
  match closeReason closeStatus err with Some _ => false | None => true end.

Definition closing_of (closeStatus : goerror → Z) (err : option goerror) : list action :=
  match closeReason closeStatus err with
  | Some (code, reason) => closing code reason
  | None => closing StatusNormalClosure "OK"
  end.

Inductive serve_ok (closeStatus : goerror → Z) : serve_side → Prop :=
| serve_ok_awaiting : serve_ok closeStatus (mkServeSide Awaiting None false [])
| serve_ok_received err : serve_ok closeStatus (mkServeSide (Received err) (Some err) false [])
| serve_ok_panicked err :
    panics closeStatus err = true →
    serve_ok closeStatus (mkServeSide (Deferred true) (Some err) false [])
| serve_ok_closing todo err log :
    log ++ todo = closing_of closeStatus err →
    serve_ok closeStatus (mkServeSide
      (Closing todo (if panics closeStatus err then Finished true else Draining)) (Some err) true log)
| serve_ok_draining err :
    panics closeStatus err = false →
    serve_ok closeStatus (mkServeSide Draining (Some err) true (closing_of closeStatus err))
| serve_ok_deferred err :
    panics closeStatus err = false →
    serve_ok closeStatus (mkServeSide (Deferred false) (Some err) true (closing_of closeStatus err))
| serve_ok_finished err :
    serve_ok closeStatus (mkServeSide (Finished (panics closeStatus err)) (Some err) true
      (closing_of closeStatus err)).

Lemma serve_ok_step closeStatus chan v chan' v' :
  serve_ok closeStatus v → serve_step closeStatus (chan, v) (chan', v') → serve_ok closeStatus v'.
Proof.
  assert (∀ err code reason, closing_of closeStatus err = closing code reason →
    serve_ok closeStatus (mkServeSide (Closing (closing code reason)
      (if panics closeStatus err then Finished true else Draining)) (Some err) true [])) as Henter.
  { intros err code reason Heq. by apply serve_ok_closing. }
  intros Hok Hstep. inversion Hstep; subst; inversion Hok; subst; try by constructor.
  - match goal with H : closeReason _ _ = Some _ |- _ => rename H into Hc end.
    specialize (Henter err code reason). unfold closing_of, panics in Henter.
    rewrite Hc in Henter. by apply Henter.
  - apply serve_ok_panicked. unfold panics. by case_match.
  - apply serve_ok_closing. by rewrite <- (assoc_L (++)).
  - rewrite app_nil_r in *. subst. destruct (panics closeStatus err) eqn:Hp; [|by constructor].
    replace (Finished true) with (Finished (panics closeStatus err)) by by rewrite Hp.
    constructor.
  - match goal with H : panics _ _ = true |- _ => rename H into Hp end.
    specialize (Henter err StatusNormalClosure "OK"). rewrite Hp in Henter. apply Henter.
    unfold closing_of, panics in *. by case_match.
  - match goal with H : panics _ _ = false |- _ => rename H into Hp end.
    replace (Finished false) with (Finished (panics closeStatus err)) by by rewrite Hp.
    constructor.
Qed.

(** ** The invariant of a session *)

Definition gone_loops (s : live_session) : nat :=
  (if reader_gone (lv_read s) then 1 else 0) + (if writer_gone (lv_write s) then 1 else 0).

(** The error is what one of the loops returned. *)
Definition returned (s : live_session) (err : option goerror) : Prop :=
  rs_pc (lv_read s) = ReadGone err ∨ ws_pc (lv_write s) = WriteGone err.

Record live_ok (surface : SessionSurface) (closeStatus : goerror → Z) (ctx_err : goerror)
    (s : live_session) : Prop := mkLiveOk {
  ok_read : read_ok surface (lv_read s);
  ok_write : write_ok surface ctx_err (lv_write s);
  ok_serve : serve_ok closeStatus (lv_serve s);
  ok_channel : length (lv_errorsChannel s) ≤ gone_loops s;
  ok_waiting : sv_err (lv_serve s) = None → length (lv_errorsChannel s) = gone_loops s;
  ok_sent : Forall (returned s) (lv_errorsChannel s);
  ok_first : ∀ err, sv_err (lv_serve s) = Some err → returned s err }.

Lemma serve_step_channel closeStatus chan v chan' v' :
  serve_step closeStatus (chan, v) (chan', v') →
  (chan' = chan ∧ sv_err v' = sv_err v) ∨
  (∃ err, chan = err :: chan' ∧
     (sv_err v' = Some err ∧ sv_pc v = Awaiting ∨ sv_err v' = sv_err v ∧ sv_pc v = Draining)).
Proof. inversion 1; subst; simpl; eauto 6. Qed.

Lemma live_ok_opened surface closeStatus ctx_err : live_ok surface closeStatus ctx_err opened.
Proof. split; try done; repeat constructor. Qed.

Lemma read_step_gone surface closed r r' :
  read_step surface closed r r' → reader_gone r = false ∧ reader_gone r' = false.
Proof.
  destruct 1 as [frame| |? ? ? ? [|]]; try done. unfold reader_gone. simpl.
  by destruct (after_read_cases surface frame) as [[? ->]|[? ->]].
Qed.

Lemma write_step_gone surface ctx_err closed cancelled w w' :
  write_step surface ctx_err closed cancelled w w' → writer_gone w = false ∧ writer_gone w' = false.
Proof.
  destruct 1 as [item| ? ? ? ? [|]]; try done. unfold writer_gone. simpl.
  by destruct (after_select_cases surface ctx_err item) as [[? ->]|[[? ->]| ->]].
Qed.

Lemma returned_read s read err :
  returned s err → reader_gone (lv_read s) = false →
  returned (mkLive (lv_serve s) read (lv_write s) (lv_errorsChannel s) (lv_cancelled s)) err.
Proof. intros [H|H] Hg; [|by right]. unfold reader_gone in Hg. by rewrite H in Hg. Qed.

Lemma returned_write s write err :
  returned s err → writer_gone (lv_write s) = false →
  returned (mkLive (lv_serve s) (lv_read s) write (lv_errorsChannel s) (lv_cancelled s)) err.
Proof. intros [H|H] Hg; [by left|]. unfold writer_gone in Hg. by rewrite H in Hg. Qed.

(** A loop sends: it becomes gone, and the channel gets its error. *)
Lemma live_ok_send surface closeStatus ctx_err s read write err :
  live_ok surface closeStatus ctx_err s →
  let s' := mkLive (lv_serve s) read write (lv_errorsChannel s ++ [err]) (lv_cancelled s) in
  read_ok surface read → write_ok surface ctx_err write →
  gone_loops s' = S (gone_loops s) → returned s' err → (∀ e, returned s e → returned s' e) →
  live_ok surface closeStatus ctx_err s'.
Proof.
  intros [] s' Hr Hw Hg He Hmono. split; simpl; try done.
  - rewrite length_app, Hg. simpl. lia.
  - intros Hnone. rewrite length_app, Hg, ok_waiting0 by done. simpl. lia.
  - apply Forall_app. split; [by eapply Forall_impl|by constructor].
  - intros e He'. by apply Hmono, ok_first0.
Qed.

Lemma live_ok_step surface closeStatus ctx_err s s' :
  live_ok surface closeStatus ctx_err s → live_step surface closeStatus ctx_err s s' →
  live_ok surface closeStatus ctx_err s'.
Proof.
  intros Hok Hstep. destruct Hstep as [s chan serve _ Hs|s read _ Hs|s write _ Hs|
    s err reads answers handled _ Hs _|s err tape answers written _ Hs _|s _ _].
  - destruct Hok. pose proof (serve_ok_step _ _ _ _ _ ok_serve0 Hs) as Hserve.
    destruct (serve_step_channel _ _ _ _ _ Hs) as [[-> He]|(err & Hchan & He)].
    + split; simpl; try done; rewrite He; done.
    + rewrite Hchan in *. apply Forall_cons in ok_sent0 as [Herr Hrest]. simpl in ok_channel0.
      destruct He as [[He Hpc]|[He Hpc]]; (split; simpl; [done..|unfold gone_loops in *; simpl in *; lia| |done|]).
      * by rewrite He.
      * intros e. rewrite He. by intros [= <-].
      * inversion ok_serve0 as [Heq|? Heq|? ? Heq|? ? ? ? Heq|? ? Heq|? ? Heq|? Heq];
          rewrite He, <- Heq in *; done.
      * by rewrite He.
  - destruct (read_step_gone _ _ _ _ Hs) as [Hg Hg']. destruct Hok.
    assert (gone_loops (mkLive (lv_serve s) read (lv_write s) (lv_errorsChannel s) (lv_cancelled s))
      = gone_loops s) as Hn by by unfold gone_loops; simpl; rewrite Hg, Hg'.
    split; rewrite ?Hn; simpl; try done.
    + by eapply read_ok_step.
    + eapply Forall_impl; [done|]. intros e He. by apply returned_read.
    + intros e He. apply returned_read; [by apply ok_first0|done].
  - destruct (write_step_gone _ _ _ _ _ _ Hs) as [Hg Hg']. destruct Hok.
    assert (gone_loops (mkLive (lv_serve s) (lv_read s) write (lv_errorsChannel s) (lv_cancelled s))
      = gone_loops s) as Hn by by unfold gone_loops; simpl; rewrite Hg, Hg'.
    split; rewrite ?Hn; simpl; try done.
    + by eapply write_ok_step.
    + eapply Forall_impl; [done|]. intros e He. by apply returned_write.
    + intros e He. apply returned_write; [by apply ok_first0|done].
  - assert (read_ok surface (mkReadSide (ReadGone err) reads answers handled)) as Hr.
    { pose proof (ok_read _ _ _ _ Hok) as Hr. rewrite Hs in Hr. inversion Hr; subst.
      eapply read_ok_ended; [done|]. naive_solver. }
    apply live_ok_send; [done|done|apply Hok| |by left|].
    + unfold gone_loops. by rewrite Hs.
    + intros e [He|He]; [by rewrite Hs in He|by right].
  - assert (write_ok surface ctx_err (mkWriteSide (WriteGone err) tape answers written)) as Hw.
    { pose proof (ok_write _ _ _ _ Hok) as Hw. rewrite Hs in Hw. inversion Hw; subst.
      eapply write_ok_ended; [done|]. naive_solver. }
    apply live_ok_send; [done|apply Hok|done| |by right|].
    + unfold gone_loops. rewrite Hs. unfold writer_gone. simpl. lia.
    + intros e [He|He]; [by left|by rewrite Hs in He].
  - by destruct Hok.
Qed.

Lemma live_ok_steps surface closeStatus ctx_err s s' :
  live_ok surface closeStatus ctx_err s → live_steps surface closeStatus ctx_err s s' →
  live_ok surface closeStatus ctx_err s'.
Proof. intros Hok. induction 1; [done|]. eauto using live_ok_step. Qed.

Lemma live_ok_reachable surface closeStatus ctx_err s :
  live_steps surface closeStatus ctx_err opened s → live_ok surface closeStatus ctx_err s.
Proof. apply live_ok_steps, live_ok_opened. Qed.
