(* ===== verification/WsLive.v ===== *)
(** What the goroutines of a session, the system of [WsSession], come to: they
    implement the run of the two loops and the closing of [ServeHTTP], they close
    everything once and in order, and they end. *)
From S2P Require Import Prelude GoStrings GoHttp Errors Services Backend JsonString World.
From S2P Require Import Json WsCodec ProfileData Profile RestHandler WsHandler WsSession.

(** ** What is left to do *)

Definition reader_work (r : read_side) : nat :=
  match rs_pc r with
  | Decoded _ => 4 | Handling _ => 3 | Reading => 2 | ReadSending _ => 1 | ReadGone _ => 0
  end.

Definition writer_work (w : write_side) : nat :=
  match ws_pc w with
  | Selecting => 3 | Writing _ => 2 | WriteSending _ => 1 | WriteGone _ | WriteCrashed => 0
  end.

Fixpoint handler_work (pc : handler_pc) : nat :=
  match pc with
  | Awaiting => 12
  | Received _ => 11
  | Closing todo next => length todo + 1 + handler_work next
  | Draining => 6
  | Deferred _ => 5
  | Finished _ => 0
  end.

Definition live_work (s : live_session) : nat :=
  handler_work (sv_pc (lv_serve s)) + reader_work (lv_read s) + writer_work (lv_write s)
  + (if lv_cancelled s then 0 else 1).

Lemma serve_step_work closeStatus chan v chan' v' :
  serve_step closeStatus (chan, v) (chan', v') →
  handler_work (sv_pc v') < handler_work (sv_pc v).
Proof.
  inversion 1; subst; simpl; try lia;
    match goal with |- context [enter_closeAll ?once] => destruct once; simpl; lia end.
Qed.

Lemma read_step_work surface r r' :
  read_step surface true r r' → reader_work r' < reader_work r.
Proof.
  destruct 1 as [frame reads answers handled Hf| |? ? ? ? [|]]; unfold reader_work; simpl; try lia.
  destruct Hf as [err ->]; [done|]. simpl. lia.
Qed.

Lemma write_step_work surface ctx_err cancelled w w' :
  write_step surface ctx_err true cancelled w w' → writer_work w' < writer_work w.
Proof.
  destruct 1 as [item|? ? ? ? answer Hf]; unfold writer_work; simpl.
  - destruct (after_select_cases surface ctx_err item) as [[? ->]|[[? ->]| ->]]; lia.
  - destruct Hf as [err ->]; [done|]. simpl. lia.
Qed.

(** Once the connection is closed every step is progress. *)
Lemma live_step_work surface closeStatus ctx_err s s' :
  live_step surface closeStatus ctx_err s s' → connection_closed s = true →
  live_work s' < live_work s.
Proof.
  intros Hstep Hc. unfold live_work. destruct Hstep as [s chan serve _ Hs|s read _ Hs|s write _ Hs|
    s err reads answers handled _ Hs _|s err tape answers written _ Hs _|s _ Hn]; simpl.
  - apply serve_step_work in Hs. lia.
  - rewrite Hc in Hs. apply read_step_work in Hs. lia.
  - rewrite Hc in Hs. apply write_step_work in Hs. lia.
  - rewrite Hs. unfold reader_work. simpl. lia.
  - rewrite Hs. unfold writer_work. simpl. lia.
  - rewrite Hn. lia.
Qed.

Lemma serve_step_log closeStatus chan v chan' v' :
  serve_step closeStatus (chan, v) (chan', v') → sv_log v `prefix_of` sv_log v'.
Proof. inversion 1; subst; simpl; try done. by apply prefix_app_r. Qed.

Lemma live_step_log surface closeStatus ctx_err s s' :
  live_step surface closeStatus ctx_err s s' →
  sv_log (lv_serve s) `prefix_of` sv_log (lv_serve s').
Proof. destruct 1; simpl; try done. by eapply serve_step_log. Qed.

Lemma existsb_prefix {A} (p : A → bool) l k :
  l `prefix_of` k → existsb p l = true → existsb p k = true.
Proof. intros [t ->] H. by rewrite existsb_app, H. Qed.

Lemma connection_closed_step surface closeStatus ctx_err s s' :
  live_step surface closeStatus ctx_err s s' → connection_closed s = true →
  connection_closed s' = true.
Proof. intros Hs. by apply existsb_prefix, (live_step_log _ _ _ _ _ Hs). Qed.

Lemma serve_ok_closed closeStatus v :
  serve_ok closeStatus v → existsb is_close_connection (sv_log v) = true →
  handler_work (sv_pc v) ≤ 7 ∧ ∃ err, sv_err v = Some err.
Proof.
  destruct 1 as [| | |todo err log Hlog| | |]; simpl; try done; intros Hc;
    (split; [|by eexists]); try lia.
  assert (todo = []) as ->.
  { unfold closing_of in Hlog. unfold closing in *.
    destruct (closeReason closeStatus err) as [[]|];
      destruct log as [|a1 [|a2 [|a3 [|? ?]]]]; simpl in *; simplify_eq; done. }
  simpl. destruct (panics closeStatus err); simpl; lia.
Qed.

Lemma live_work_closed surface closeStatus ctx_err s :
  live_ok surface closeStatus ctx_err s → connection_closed s = true → live_work s ≤ 15.
Proof.
  intros Hok Hc. destruct (serve_ok_closed _ _ (ok_serve _ _ _ _ Hok) Hc) as [Hw _].
  unfold live_work, reader_work, writer_work.
  destruct (rs_pc _), (ws_pc _), (lv_cancelled s); lia.
Qed.

(** ** Progress *)

Lemma finished_closed surface closeStatus ctx_err s :
  live_ok surface closeStatus ctx_err s → handler_gone (lv_serve s) = true →
  connection_closed s = true ∧ ctx_cancelled s = true.
Proof.
  intros Hok Hg. pose proof (ok_serve _ _ _ _ Hok) as Hs.
  unfold connection_closed, ctx_cancelled, handler_gone in *.
  inversion Hs as [Heq|? Heq|? ? Heq|? ? ? ? Heq|? ? Heq|? ? Heq|err Heq]; rewrite <- Heq in *;
    try done.
  simpl. unfold closing_of. destruct (closeReason closeStatus err) as [[]|]; simpl;
    by rewrite orb_true_r.
Qed.

Lemma serve_ok_log closeStatus v :
  serve_ok closeStatus v →
  match sv_err v with
  | None => sv_log v = []
  | Some err => sv_log v `prefix_of` closing_of closeStatus err ∧
      (handler_gone v = true → sv_log v = closing_of closeStatus err)
  end.
Proof.
  destruct 1 as [| | |todo err log Hlog| | |]; simpl; try done; (split; [|done]); try apply prefix_nil.
  by exists todo.
Qed.

(** Unless it waits for the first error, the handler can go on by itself. *)
Lemma handler_can_step closeStatus chan v :
  sv_pc v ≠ Awaiting → handler_gone v = false → ∃ v', serve_step closeStatus (chan, v) (chan, v').
Proof.
  destruct v as [pc first once log]. unfold handler_gone. simpl.
  destruct pc as [|err|[|a todo] next| |p|]; try done; intros _ _.
  - destruct (closeReason closeStatus err) as [[code reason]|] eqn:Hc; eexists;
      [by apply serve_close|by apply serve_panic].
  - eexists. apply serve_closed.
  - eexists. apply serve_act.
  - eexists. apply serve_timer.
  - eexists. apply serve_deferred.
Qed.

Lemma reader_can_step surface closeStatus ctx_err s :
  live_ok surface closeStatus ctx_err s → ¬ crashed s → reader_gone (lv_read s) = false →
  connection_closed s = true →
  ∃ s', live_step surface closeStatus ctx_err s s' ∧ lv_serve s' = lv_serve s ∧ ¬ crashed s'.
Proof.
  intros Hok Hcr Hg Hc. destruct (lv_read s) as [pc reads answers handled] eqn:Hr.
  assert (∀ read, read_step surface (connection_closed s) (lv_read s) read → ∃ s',
    live_step surface closeStatus ctx_err s s' ∧ lv_serve s' = lv_serve s ∧ ¬ crashed s') as Hstep.
  { intros read Hs. eexists. split; [by apply live_read|done]. }
  destruct pc as [|event|event|err|err]; [..|done]; rewrite Hr in Hstep.
  - eapply Hstep, (read_frame _ _ (ReadError ctx_err)). intros _. by eexists.
  - eapply Hstep, read_call.
  - eapply Hstep, (read_answer _ _ _ _ _ _ None).
  - eexists. split; [apply (live_read_sends _ _ _ _ _ _ _ _ Hcr Hr)|done].
    pose proof (ok_channel _ _ _ _ Hok) as Hch. unfold gone_loops in Hch. rewrite Hr in Hch.
    unfold errors_capacity. simpl in Hch. destruct (writer_gone _); lia.
Qed.

Lemma writer_can_step surface closeStatus ctx_err s :
  live_ok surface closeStatus ctx_err s → ¬ crashed s → writer_gone (lv_write s) = false →
  ctx_cancelled s = true →
  ∃ s', live_step surface closeStatus ctx_err s s' ∧ lv_serve s' = lv_serve s ∧ ¬ crashed s'.
Proof.
  intros Hok Hcr Hg Hc. destruct (lv_write s) as [pc tape answers written] eqn:Hw.
  assert (∀ write, ws_pc write ≠ WriteCrashed →
    write_step surface ctx_err (connection_closed s) (ctx_cancelled s) (lv_write s) write → ∃ s',
    live_step surface closeStatus ctx_err s s' ∧ lv_serve s' = lv_serve s ∧ ¬ crashed s') as Hstep.
  { intros write Hn Hs. eexists. split; [by apply live_write|done]. }
  destruct pc as [|data|err|err|]; [..|done|]; rewrite Hw in Hstep.
  - eapply Hstep; [|by apply (write_select _ _ _ _ SelDone)]. done.
  - eapply Hstep; [|by apply (write_answer _ _ _ _ _ _ _ _ (Some ctx_err))]. done.
  - eexists. split; [apply (live_write_sends _ _ _ _ _ _ _ _ Hcr Hw)|done].
    pose proof (ok_channel _ _ _ _ Hok) as Hch. unfold gone_loops in Hch. rewrite Hw in Hch.
    unfold errors_capacity. simpl in Hch. destruct (reader_gone _); simpl in Hch; lia.
  - exfalso. apply Hcr. unfold crashed. by rewrite Hw.
Qed.

Lemma received_ended surface closeStatus ctx_err s err :
  live_ok surface closeStatus ctx_err s → sv_err (lv_serve s) = Some err → loop_ended s.
Proof.
  intros Hok He. destruct (ok_first _ _ _ _ Hok _ He) as [H|H]; [left|right]; eauto.
Qed.

Lemma serve_ok_waiting closeStatus v :
  serve_ok closeStatus v →
  match sv_err v with
  | None => v = mkServeSide Awaiting None false []
  | Some _ => sv_pc v ≠ Awaiting
  end.
Proof. by destruct 1. Qed.

(** From a session one of whose loops has ended there is a step that leaves
    less to do. *)
Lemma live_progress surface closeStatus ctx_err s :
  live_ok surface closeStatus ctx_err s → ¬ crashed s → loop_ended s → all_gone s = false →
  ∃ s', live_step surface closeStatus ctx_err s s' ∧ ¬ crashed s' ∧ loop_ended s' ∧
    live_work s' < live_work s.
Proof.
  intros Hok Hcr Hend Hg. destruct (handler_gone (lv_serve s)) eqn:Hhg.
  - destruct (finished_closed _ _ _ _ Hok Hhg) as [Hc Hcc].
    assert (∃ s', live_step surface closeStatus ctx_err s s' ∧ lv_serve s' = lv_serve s ∧
      ¬ crashed s') as (s' & Hs & Hv & Hcr').
    { unfold all_gone in Hg. rewrite Hhg in Hg. apply andb_false_iff in Hg as [Hg|Hg];
        [by apply reader_can_step|by apply writer_can_step]. }
    exists s'. split_and!; [done..| |by eapply live_step_work].
    destruct (serve_ok_closed _ _ (ok_serve _ _ _ _ Hok) Hc) as [_ [err He]].
    eapply received_ended; [by eapply live_ok_step|by rewrite Hv].
  - pose proof (serve_ok_waiting _ _ (ok_serve _ _ _ _ Hok)) as Hpc.
    destruct (sv_err (lv_serve s)) as [err|] eqn:He.
    { destruct (handler_can_step closeStatus (lv_errorsChannel s) _ Hpc Hhg) as [v' Hv].
      eexists. split; [by apply live_serve|]. split_and!; [done..|].
      apply serve_step_work in Hv. unfold live_work. simpl. lia. }
    pose proof (ok_waiting _ _ _ _ Hok He) as Hlen. unfold gone_loops in Hlen.
    destruct (lv_errorsChannel s) as [|err chan] eqn:Hch.
    + destruct Hend as [[err [Hr|Hr]]|[err [Hw|Hw]]].
      * destruct (lv_read s) as [pc reads answers handled] eqn:Hrs. simpl in Hr. subst pc.
        eexists. split; [apply (live_read_sends _ _ _ _ _ _ _ _ Hcr Hrs)|].
        { rewrite Hch. unfold errors_capacity. simpl. lia. }
        split_and!; [done|left; exists err; by right|].
        unfold live_work. rewrite Hrs. unfold reader_work. simpl. lia.
      * unfold reader_gone in Hlen. rewrite Hr in Hlen. done.
      * destruct (lv_write s) as [pc tape answers written] eqn:Hws. simpl in Hw. subst pc.
        eexists. split; [apply (live_write_sends _ _ _ _ _ _ _ _ Hcr Hws)|].
        { rewrite Hch. unfold errors_capacity. simpl. lia. }
        split_and!; [done|right; exists err; by right|].
        unfold live_work. rewrite Hws. unfold writer_work. simpl. lia.
      * unfold writer_gone in Hlen. rewrite Hw in Hlen. simpl in Hlen. lia.
    + eexists. split.
      { apply (live_serve _ _ _ _ chan); [done|]. rewrite Hch, Hpc. apply serve_receive. }
      split_and!; [done..|]. unfold live_work. rewrite Hpc. simpl. lia.
Qed.

Lemma live_finishes surface closeStatus ctx_err s :
  live_ok surface closeStatus ctx_err s → ¬ crashed s → loop_ended s →
  ∃ s', live_steps surface closeStatus ctx_err s s' ∧ all_gone s' = true.
Proof.
  remember (live_work s) as n eqn:Hn. revert s Hn.
  induction n as [n IH] using lt_wf_ind. intros s -> Hok Hcr Hend.
  destruct (all_gone s) eqn:Hg; [by exists s|].
  destruct (live_progress _ _ _ _ Hok Hcr Hend Hg) as (s1 & Hs & Hcr1 & Hend1 & Hlt).
  destruct (IH _ Hlt s1 eq_refl) as (s2 & Hs2 & Hg2); [by eapply live_ok_step|done..|].
  exists s2. split; [by eapply rtc_l|done].
Qed.

#[export] Instance loop_ended_dec s : Decision (loop_ended s).
Proof.
  unfold loop_ended. destruct (rs_pc (lv_read s)); [..|left; eauto|left; eauto];
    (destruct (ws_pc (lv_write s)); [..|left; eauto|left; eauto|]; right; naive_solver).
Defined.


(** Nothing is ever stuck but a session that is over. *)
Lemma live_stuck surface closeStatus ctx_err s :
  live_ok surface closeStatus ctx_err s → (∀ s', ¬ live_step surface closeStatus ctx_err s s') →
  crashed s ∨ all_gone s = true.
Proof.
  intros Hok Hstuck. destruct (decide (crashed s)) as [|Hcr]; [by left|right].
  destruct (all_gone s) eqn:Hg; [done|]. exfalso.
  destruct (decide (loop_ended s)) as [Hend|Hend].
  { destruct (live_progress _ _ _ _ Hok Hcr Hend Hg) as (s' & Hs & _). by eapply Hstuck. }
  assert (∀ read, ¬ read_step surface (connection_closed s) (lv_read s) read) as Hread.
  { intros read Hs. eapply Hstuck, live_read; done. }
  destruct (lv_read s) as [[| | | |] reads answers handled] eqn:Hr.
  - eapply Hread, (read_frame _ _ (ReadError ctx_err)). eauto.
  - eapply Hread, read_call.
  - eapply Hread, (read_answer _ _ _ _ _ _ None).
  - apply Hend. left. rewrite Hr. eauto.
  - apply Hend. left. rewrite Hr. eauto.
Qed.

(** The histories agree with the loops of [WsHandler]. *)
Lemma read_ok_prefix surface r :
  read_ok surface r →
  rs_handled r `prefix_of` (readLoop (session_of (rs_answers r)) surface [] (rs_reads r)).1.
Proof.
  destruct 1 as [reads answers handled [Hr _]|event reads frame answers handled [Hr _] Ha|
    event reads frame answers handled [Hr _] Ha|pc err reads answers handled Hr _]; simpl;
    try by rewrite Hr.
  all: rewrite (readLoop_snoc _ _ _ _ _ _ _ Hr eq_refl), readLoop_one, Ha; simpl.
  - by apply prefix_app_r.
  - done.
Qed.

Lemma write_ok_prefix surface ctx_err w :
  write_ok surface ctx_err w →
  ws_written w `prefix_of` (writeLoop (write_of (ws_answers w)) ctx_err surface [] (ws_tape w)).1.
Proof.
  destruct 1 as [tape answers written [Hw _]|data tape item answers written [Hw _] Ha|
    pc err tape answers written Hw _|tape answers written Hw]; simpl; try by rewrite Hw.
  by rewrite (writeLoop_snoc _ _ _ _ _ _ _ _ Hw eq_refl), writeLoop_one, Ha.
Qed.

Lemma returned_run surface closeStatus ctx_err s err :
  live_ok surface closeStatus ctx_err s → returned s err →
  session_run (session_of (rs_answers (lv_read s))) surface (write_of (ws_answers (lv_write s)))
    ctx_err (rs_reads (lv_read s)) (ws_tape (lv_write s)) err
    (rs_handled (lv_read s)) (ws_written (lv_write s)).
Proof.
  intros Hok [Hr|Hw].
  - apply read_first; [|apply write_ok_prefix, Hok].
    pose proof (ok_read _ _ _ _ Hok) as H. destruct H; try done. simpl in *. naive_solver.
  - apply write_first; [|apply read_ok_prefix, Hok].
    pose proof (ok_write _ _ _ _ Hok) as H. destruct H; try done. simpl in *. naive_solver.
Qed.

Lemma finish_session_closing h err w :
  let closeStatus := CloseStatus (ws_collaborators h) in
  let w' := mkWorld (w_rw w) (w_trace w ++ closing_of closeStatus err) in
  finish_session h err w = if panics closeStatus err then Panic w' else Return () w'.
Proof.
  unfold finish_session, closing_of, panics, closeAll, closeSession, mbind, M_bind, act, mret, M_ret,
    panic. destruct (closeReason _ err) as [[code reason]|]; simpl; by rewrite <- !(assoc_L (++)).
Qed.

(** A cancelled session can be brought to an end. *)
Lemma cancelled_ends surface closeStatus ctx_err s :
  ¬ crashed s → ctx_cancelled s = true →
  ∃ s', live_steps surface closeStatus ctx_err s s' ∧ ¬ crashed s' ∧ loop_ended s'.
Proof.
  intros Hcr Hc. destruct (lv_write s) as [pc tape answers written] eqn:Hw.
  assert (∀ write err, ws_pc write = WriteSending err →
    write_step surface ctx_err (connection_closed s) (ctx_cancelled s) (lv_write s) write →
    ∃ s', live_steps surface closeStatus ctx_err s s' ∧ ¬ crashed s' ∧ loop_ended s') as Hstep.
  { intros write err Hpc Hs. eexists. split; [by apply rtc_once, live_write|].
    split; [unfold crashed; simpl; by rewrite Hpc|]. right. exists err. by left. }
  rewrite Hw in Hstep. destruct pc as [|data|err|err|].
  - eapply Hstep; [|by apply (write_select _ _ _ _ SelDone)]. done.
  - eapply Hstep; [|by apply (write_answer _ _ _ _ _ _ _ _ (Some ctx_err))]. done.
  - exists s. split_and!; [done..|]. right. rewrite Hw. eauto.
  - exists s. split_and!; [done..|]. right. rewrite Hw. eauto.
  - exfalso. apply Hcr. unfold crashed. by rewrite Hw.
Qed.

Lemma nsteps_work surface closeStatus ctx_err n s s' :
  nsteps (live_step surface closeStatus ctx_err) n s s' → connection_closed s = true →
  n + live_work s' ≤ live_work s.
Proof.
  induction 1 as [s|n s1 s2 s3 Hs _ IH]; intros Hc; [lia|].
  pose proof (live_step_work _ _ _ _ _ Hs Hc).
  specialize (IH (connection_closed_step _ _ _ _ _ Hs Hc)). lia.
Qed.

(** After the connection is closed no frame is decoded any more, and a message
    is passed on only by a loop that was about to select. *)
Lemma closed_step surface closeStatus ctx_err s s' :
  live_step surface closeStatus ctx_err s s' → connection_closed s = true →
  rs_handled (lv_read s') ++ decoded (lv_read s') = rs_handled (lv_read s) ++ decoded (lv_read s) ∧
  length (ws_written (lv_write s')) + selecting (lv_write s')
  ≤ length (ws_written (lv_write s)) + selecting (lv_write s).
Proof.
  intros Hstep Hc. destruct Hstep as [s chan serve _ Hs|s read _ Hs|s write _ Hs|
    s err reads answers handled _ Hs _|s err tape answers written _ Hs _|s _ _]; simpl; try done.
  - rewrite Hc in Hs. split; [|done]. destruct Hs as [frame reads answers handled Hf| |]; simpl.
    + destruct Hf as [err ->]; done.
    + by rewrite app_nil_r.
    + by destruct answer.
  - rewrite Hc in Hs. split; [done|].
    destruct Hs as [item tape answers written|data tape answers written answer Hf];
      unfold selecting; simpl.
    + rewrite length_app.
      destruct (after_select_cases surface ctx_err item) as [[? ->]|[[? ->]| ->]]; simpl; lia.
    + destruct Hf as [err ->]; done.
  - by rewrite Hs.
  - by rewrite Hs.
Qed.

Lemma closed_steps surface closeStatus ctx_err s s' :
  live_steps surface closeStatus ctx_err s s' → connection_closed s = true →
  rs_handled (lv_read s') ++ decoded (lv_read s') = rs_handled (lv_read s) ++ decoded (lv_read s) ∧
  length (ws_written (lv_write s')) + selecting (lv_write s')
  ≤ length (ws_written (lv_write s)) + selecting (lv_write s).
Proof.
  induction 1 as [|s1 s2 s3 Hs _ IH]; intros Hc; [done|].
  destruct (closed_step _ _ _ _ _ Hs Hc) as [He Hl].
  destruct (IH (connection_closed_step _ _ _ _ _ Hs Hc)) as [He' Hl'].
  split; [congruence|lia].
Qed.

(** ** Properties *)

(** C9. The goroutines of a session implement its run: in every interleaving,
    once the handler has received an error, what the session was given, what
    the client was sent and that error are those of a run of the two loops
    over what they read so far; and when the handler is through, it has done what
    [finish_session] does with that error, in that order, panic included. *)
Theorem session_refines surface closeStatus ctx_err s err :
  live_steps surface closeStatus ctx_err opened s → sv_err (lv_serve s) = Some err →
  session_run (session_of (rs_answers (lv_read s))) surface (write_of (ws_answers (lv_write s)))
    ctx_err (rs_reads (lv_read s)) (ws_tape (lv_write s)) err
    (rs_handled (lv_read s)) (ws_written (lv_write s)) ∧
  ∀ panicking h w, sv_pc (lv_serve s) = Finished panicking →
    CloseStatus (ws_collaborators h) = closeStatus →
    let w' := mkWorld (w_rw w) (w_trace w ++ sv_log (lv_serve s)) in
    finish_session h err w = if panicking then Panic w' else Return () w'.
Proof.
  intros Hr He. pose proof (live_ok_reachable _ _ _ _ Hr) as Hok. split.
  - eapply returned_run, ok_first; eauto.
  - intros panicking h w Hpc <-. simpl. rewrite finish_session_closing.
    pose proof (ok_serve _ _ _ _ Hok) as Hs. destruct Hs; try done. simpl in *. by simplify_eq.
Qed.

(** C39. What the handler closes: nothing before it has received an error; from
    then on it cancels the context, closes the session and closes the connection,
    in this order and each at most once, with the code and reason of the first
    error, and all three before it returns.  No loop ever waits to send its
    error: the channel has room whenever one is about to. *)
Theorem session_closes surface closeStatus ctx_err s :
  live_steps surface closeStatus ctx_err opened s →
  match sv_err (lv_serve s) with
  | None => sv_log (lv_serve s) = []
  | Some err => returned s err ∧ ∃ code reason,
      default (StatusNormalClosure, "OK") (closeReason closeStatus err) = (code, reason) ∧
      sv_log (lv_serve s) `prefix_of` [ActCancel; ActCloseSession; ActCloseConnection code reason] ∧
      (handler_gone (lv_serve s) = true →
       sv_log (lv_serve s) = [ActCancel; ActCloseSession; ActCloseConnection code reason])
  end ∧
  length (lv_errorsChannel s) ≤ errors_capacity ∧
  ((∃ err, rs_pc (lv_read s) = ReadSending err) ∨ (∃ err, ws_pc (lv_write s) = WriteSending err) →
   length (lv_errorsChannel s) < errors_capacity).
Proof.
  intros Hr. pose proof (live_ok_reachable _ _ _ _ Hr) as Hok. split.
  - pose proof (ok_first _ _ _ _ Hok) as Hfirst.
    pose proof (serve_ok_log _ _ (ok_serve _ _ _ _ Hok)) as Hlog.
    destruct (sv_err (lv_serve s)) as [err|]; [|done]. split; [by apply Hfirst|].
    unfold closing_of in Hlog. destruct (closeReason closeStatus err) as [[code reason]|];
      by eexists _, _.
  - pose proof (ok_channel _ _ _ _ Hok) as Hch.
    unfold gone_loops, reader_gone, writer_gone, errors_capacity in *. split.
    + destruct (rs_pc _), (ws_pc _); simpl in *; lia.
    + intros [[err Hpc]|[err Hpc]]; rewrite Hpc in Hch; simpl in Hch; [destruct (ws_pc _)|destruct (rs_pc _)];
        simpl in *; lia.
Qed.

(** C10. A session whose context is cancelled, or one of whose loops has ended,
    can be brought to its end, with the handler and both loops gone; once the
    connection is closed every run gets there, in at most fifteen steps, whatever
    the peer and the backend answer; and nothing is ever stuck but a session
    that is over.  The exception is a panic in the write loop, which ends the
    process. *)
Theorem session_terminates surface closeStatus ctx_err s :
  live_steps surface closeStatus ctx_err opened s →
  (¬ crashed s → ctx_cancelled s = true ∨ loop_ended s →
   ∃ s', live_steps surface closeStatus ctx_err s s' ∧ all_gone s' = true) ∧
  (connection_closed s = true →
   ∀ n s', nsteps (live_step surface closeStatus ctx_err) n s s' → n ≤ 15) ∧
  ((∀ s', ¬ live_step surface closeStatus ctx_err s s') → crashed s ∨ all_gone s = true).
Proof.
  intros Hr. pose proof (live_ok_reachable _ _ _ _ Hr) as Hok. split_and!.
  - intros Hcr [Hc|Hend]; [|by apply live_finishes].
    destruct (cancelled_ends surface closeStatus ctx_err s Hcr Hc) as (s1 & Hs1 & Hcr1 & Hend1).
    destruct (live_finishes surface closeStatus ctx_err s1) as (s2 & Hs2 & Hg);
      [by eapply live_ok_steps|done..|].
    exists s2. split; [by etrans|done].
  - intros Hc n s' Hn. pose proof (nsteps_work _ _ _ _ _ _ Hn Hc).
    pose proof (live_work_closed _ _ _ _ Hok Hc). lia.
  - by apply live_stuck.
Qed.

(** Once the handler has closed the connection the session is given no
    further event but one already decoded, and at most one more message is tried
    on the connection. *)
Theorem quiet_after_close surface closeStatus ctx_err s s' :
  live_steps surface closeStatus ctx_err s s' → connection_closed s = true →
  rs_handled (lv_read s') `prefix_of` rs_handled (lv_read s) ++ decoded (lv_read s) ∧
  length (ws_written (lv_write s')) ≤ S (length (ws_written (lv_write s))).
Proof.
  intros Hs Hc. destruct (closed_steps _ _ _ _ _ Hs Hc) as [<- Hl]. split; [by apply prefix_app_r|].
  unfold selecting in Hl. destruct (ws_pc (lv_write s)); lia.
Qed.

(** The timer lets the handler return, and with it [Shutdown], while [readLoop]
    is still inside [Handle]; and [Handle] may be called on a session whose
    [Close] has returned: when the backend ends the session while the peer's
    frame has just been decoded. *)
Theorem late_Handle surface closeStatus ctx_err event data :
  decodeEvent data = Ok event → eventAllowed surface "client" (ev_Type event) = true →
  ∃ before after,
    live_steps surface closeStatus ctx_err opened before ∧
    session_closed before = true ∧ rs_handled (lv_read before) = [] ∧
    live_steps surface closeStatus ctx_err before after ∧
    sv_pc (lv_serve after) = Finished false ∧
    rs_pc (lv_read after) = Handling event ∧ rs_handled (lv_read after) = [event].
Proof.
  intros Hd Ha.
  assert (after_read surface (ReadFrame true data) = Decoded event) as Hread.
  { simpl. by rewrite Hd, Ha. }
  assert (∃ before, live_run surface closeStatus ctx_err
    [Read (ReadFrame true data); Select SelClosed; WriteSend; Serve false; Serve false; Serve false;
     Serve false] opened = Some before ∧
    ∃ after, live_run surface closeStatus ctx_err
      [Call; Serve false; Serve false; Serve true; Serve false] before = Some after ∧
    session_closed before = true ∧ rs_handled (lv_read before) = [] ∧
    sv_pc (lv_serve after) = Finished false ∧
    rs_pc (lv_read after) = Handling event ∧ rs_handled (lv_read after) = [event])
    as (before & Hb & after & Hafter & Hrest).
  { eexists. split.
    - cbn -[after_read]. rewrite Hread. cbn. reflexivity.
    - eexists. split; [cbn; reflexivity|]. done. }
  exists before, after. split_and!; try apply Hrest; by eapply live_run_sound.
Qed.

(** ** Witnesses *)

(** The client sends an event and then a binary frame. *)
Definition example_closeStatus : goerror → Z := λ _, (-1)%Z.
Definition example_choices : list choice :=
  [Read (ReadFrame true (quoted "{'type':'session.update'}")); Call; HandleAnswer None;
   Read (ReadFrame false "binary"); ReadSend;
   Serve false; Serve false; Serve false; Serve false; Serve false; Serve false;
   Select SelDone; WriteSend; Serve false; Serve false].
Definition example_end : live_session :=
  default opened (live_run SessionRealtime example_closeStatus (Sentinel context_Canceled)
    example_choices opened).

Lemma example_end_reachable :
  live_steps SessionRealtime example_closeStatus (Sentinel context_Canceled) opened example_end.
Proof. apply (live_run_sound _ _ _ example_choices). vm_compute. reflexivity. Defined.

Lemma session_refines_witness :
  session_run (session_of [None]) SessionRealtime (write_of []) (Sentinel context_Canceled)
    example_reads [SelDone] (Some (protocolError "binary frames are not supported"))
    [example_event] [] ∧
  ∀ panicking h w, sv_pc (lv_serve example_end) = Finished panicking →
    CloseStatus (ws_collaborators h) = example_closeStatus →
    let w' := mkWorld (w_rw w) (w_trace w ++ sv_log (lv_serve example_end)) in
    finish_session h (Some (protocolError "binary frames are not supported")) w =
      if panicking then Panic w' else Return () w'.
Proof.
  apply (session_refines SessionRealtime example_closeStatus (Sentinel context_Canceled) example_end);
    [exact example_end_reachable|vm_compute; reflexivity].
Defined.

Lemma session_closes_witness :
  match sv_err (lv_serve example_end) with
  | None => sv_log (lv_serve example_end) = []
  | Some err => returned example_end err ∧ ∃ code reason,
      default (StatusNormalClosure, "OK") (closeReason example_closeStatus err) = (code, reason) ∧
      sv_log (lv_serve example_end) `prefix_of`
        [ActCancel; ActCloseSession; ActCloseConnection code reason] ∧
      (handler_gone (lv_serve example_end) = true →
       sv_log (lv_serve example_end) = [ActCancel; ActCloseSession; ActCloseConnection code reason])
  end ∧
  length (lv_errorsChannel example_end) ≤ errors_capacity ∧
  ((∃ err, rs_pc (lv_read example_end) = ReadSending err) ∨
   (∃ err, ws_pc (lv_write example_end) = WriteSending err) →
   length (lv_errorsChannel example_end) < errors_capacity).
Proof.
  apply (session_closes SessionRealtime example_closeStatus (Sentinel context_Canceled) example_end).
  exact example_end_reachable.
Defined.

(** The same session when the connection has just been closed. *)
Definition example_closed : live_session :=
  default opened (live_run SessionRealtime example_closeStatus (Sentinel context_Canceled)
    (take 10 example_choices) opened).

Lemma example_closed_reachable :
  live_steps SessionRealtime example_closeStatus (Sentinel context_Canceled) opened example_closed.
Proof. apply (live_run_sound _ _ _ (take 10 example_choices)). vm_compute. reflexivity. Defined.

Lemma session_terminates_witness :
  (∃ s', live_steps SessionRealtime example_closeStatus (Sentinel context_Canceled)
     example_closed s' ∧ all_gone s' = true) ∧
  (∀ n s', nsteps (live_step SessionRealtime example_closeStatus (Sentinel context_Canceled)) n
     example_closed s' → n ≤ 15).
Proof.
  destruct (session_terminates SessionRealtime example_closeStatus (Sentinel context_Canceled)
    example_closed example_closed_reachable) as (Hends & Hbound & _).
  split; [apply Hends; [vm_compute; congruence|left; vm_compute; reflexivity]|].
  apply Hbound. vm_compute. reflexivity.
Defined.

Lemma quiet_after_close_witness :
  rs_handled (lv_read example_end) `prefix_of`
    rs_handled (lv_read example_closed) ++ decoded (lv_read example_closed) ∧
  length (ws_written (lv_write example_end)) ≤ S (length (ws_written (lv_write example_closed))).
Proof.
  apply (quiet_after_close SessionRealtime example_closeStatus (Sentinel context_Canceled)
    example_closed example_end); [|vm_compute; reflexivity].
  apply (live_run_sound _ _ _ (drop 10 example_choices)). vm_compute. reflexivity.
Defined.

Lemma late_Handle_witness :
  ∃ before after,
    live_steps SessionRealtime example_closeStatus (Sentinel context_Canceled) opened before ∧
    session_closed before = true ∧ rs_handled (lv_read before) = [] ∧
    live_steps SessionRealtime example_closeStatus (Sentinel context_Canceled) before after ∧
    sv_pc (lv_serve after) = Finished false ∧
    rs_pc (lv_read after) = Handling example_event ∧ rs_handled (lv_read after) = [example_event].
Proof.
  apply (late_Handle SessionRealtime example_closeStatus (Sentinel context_Canceled) example_event
    (quoted "{'type':'session.update'}")); vm_compute; reflexivity.
Defined.
