(* ===== verification/OpenAI.v ===== *)
(** The OpenAI handler as applications mount it: [NewHandler] and [ServeHTTP]
    of [openai/handler.go].

    The embedded document, the loader and the router are outside the model
    (packed data, and the OpenAPI library): [Loader] holds what [NewHandler] asks
    of them. *)
From S2P Require Import Prelude GoStrings GoHttp Errors Services Backend JsonString World.
From S2P Require Import Json WsCodec RestErrors RestStream ProfileData Profile RestHandler RestAnswer.
From S2P Require Import RouterSpec RestGate WsHandler Options.

(** [profile.SpecJSON], the probe of the OpenAPI library, [loader.LoadFromData],
    and [legacy.NewRouter] with the validation functions that go with its
    routes. *)
Record Loader := mkLoader {
  SpecJSON : result goerror string;
  nativeOpenAPI31Supported : bool;
  LoadFromData : string → result goerror Document;
  NewRouter : Document → result goerror Collaborators }.

Record Handler := mkOpenAIHandler {
  oa_basePath : string;
  oa_rest : handler;
  oa_websocket : WsHandler }.

Inductive handler_error :=
| ErrOption (e : option_error)
| ErrSpec (e : goerror)
| ErrLoad (e : goerror)
| ErrRouter (e : goerror).

Definition map_err {E F A} (f : E → F) (r : result E A) : result F A :=
  match r with Ok a => Ok a | Err e => Err (f e) end.

Definition NewHandler (loader : Loader) (ws : WsCollaborators)
    (services : Services HandleFunc SessionBackend) (options : list Option)
    : result handler_error Handler :=
  settings ← map_err ErrOption (apply_options default_settings options);
  specJSON ← map_err ErrSpec (RouterSpecJSON (SpecJSON loader) (nativeOpenAPI31Supported loader));
  document ← map_err ErrLoad (LoadFromData loader specJSON);
  let document := mkDocument [basePath settings] (doc_Paths document) in
  router ← map_err ErrRouter (NewRouter loader document);
  let config := internal_config settings in
  Ok (mkOpenAIHandler (basePath settings) (RestHandler.New services document router config)
        (mkWsHandler services ws config)).

(** [http.NotFound(writer, request)] *)
Definition header_del (key : string) (h : Header) : Header := delete (CanonicalHeaderKey key) h.

Definition NotFound : M () :=
  modify_header (header_del "Content-Length");;
  modify_header (header_set "Content-Type" "text/plain; charset=utf-8");;
  modify_header (header_set "X-Content-Type-Options" "nosniff");;
  WriteHeader 404;;
  _ ← Write ("404 page not found" +:+ str1 LF);
  mret ().

(** [registered] and [first] are those of [ServeWebSocket]. *)
Definition ServeOpenAI (h : Handler) (request : HttpRequest) (registered : N * bool)
    (first : option (option goerror)) : M () :=
  let path := r_Path request in
  if negb (HasPrefix path (oa_basePath h +:+ "/")) && negb (bool_decide (path = oa_basePath h))
  then NotFound
  else if isWebSocket request &&
          (bool_decide (path = oa_basePath h +:+ "/realtime") ||
           bool_decide (path = oa_basePath h +:+ "/responses"))
  then ServeWebSocket (oa_websocket h) request registered first
  else ServeHTTP (oa_rest h) request.

(** ** Lemmas *)

Lemma NotFound_spec w :
  rw_status (w_rw w) = None →
  ∃ rw, NotFound w = Return () (mkWorld rw (w_trace w)) ∧ rw_status rw = Some 404%Z ∧
    (rw_capacity (w_rw w) = None →
     rw_body rw = rw_body (w_rw w) +:+ "404 page not found" +:+ str1 LF).
Proof.
  intros Hst. unfold NotFound. unfold mbind, M_bind, modify_header, Write, with_rw.
  cbn [w_rw w_trace]. rewrite WriteHeader_final; [|done|lia|done].
  set (data := "404 page not found" +:+ str1 LF). set (w1 := commit _ _).
  destruct (write_rw_committed data w1 404 eq_refl)
    as (f & t & rest & rw & Hw & _ & _ & _ & Hs & _). cbn [w_rw w_trace]. rewrite Hw.
  exists rw. split_and!; [done..|]. intros Hc.
  rewrite (write_rw_unlimited _ _ 404) in Hw; [by injection Hw as _ <-|done..|].
  apply exceeds_undeclared. transitivity (declared_length ∅); [|done].
  apply declared_length_values. simpl.
  rewrite !header_values_set_ne by (by vm_compute).
  unfold header_values, header_del. by rewrite lookup_delete_eq.
Qed.

Lemma NewHandler_Ok loader ws services options h :
  NewHandler loader ws services options = Ok h →
  ∃ s document router, apply_options default_settings options = Ok s ∧
    NewRouter loader document = Ok router ∧ doc_Servers document = [basePath s] ∧
    h = mkOpenAIHandler (basePath s)
          (RestHandler.New services document router (internal_config s))
          (mkWsHandler services ws (internal_config s)).
Proof.
  unfold NewHandler. destruct (apply_options default_settings options) as [s|]; [|done]. simpl.
  destruct (RouterSpecJSON _ _) as [spec|]; [|done]. simpl.
  destruct (LoadFromData loader spec) as [document|]; [|done]. simpl.
  destruct (NewRouter loader _) as [router|] eqn:Hr; [|done]. simpl. intros [= <-].
  exists s, (mkDocument [basePath s] (doc_Paths document)), router. done.
Qed.

(** A request for this handler: its path is the base path or lies below it. *)
Definition below (base path : string) : Prop := path = base ∨ ∃ rest, path = base +:+ "/" +:+ rest.

Lemma below_spec base path :
  below base path ↔
    negb (HasPrefix path (base +:+ "/")) && negb (bool_decide (path = base)) = false.
Proof.
  rewrite andb_false_iff, !negb_false_iff, HasPrefix_spec, bool_decide_eq_true. unfold below.
  setoid_rewrite app_assoc_str. naive_solver.
Qed.

Lemma callers s request requestID id options :
  apply_options default_settings (denote_option <$> options) = Ok s →
  authenticate s request requestID = Ok id →
  TrimSpace id ≠ "".
Proof.
  intros _. unfold authenticate. destruct (authenticator s) as [auth|]; [|by intros [= <-]].
  destruct (credentialFromRequest request). destruct (dyn_val auth _) as [[i]|]; [|done]. csimpl.
  destruct (TrimSpace i) eqn:Ht; [done|]. intros [= <-]. congruence.
Qed.

(** Each handler keeps to its own callbacks. *)
Lemma websocket_calls_nothing call h request registered first w :
  w_trace w = [] →
  ActHandle call ∈ w_trace (world_of (ServeWebSocket h request registered first w)) → False.
Proof.
  intros Hw Hin.
  assert (emits (λ a, is_handle a = false) (ServeWebSocket h request registered first)) as Hemits.
  { unfold ServeWebSocket, writeHTTPError, finish_session, closeAll, closeSession. structural. }
  destruct (Hemits w) as (l & Hl & Hf). rewrite Hl, Hw in Hin. by apply handle_not_in in Hin.
Qed.

Lemma rest_opens_nothing open h request w :
  w_trace w = [] → ActOpenSession open ∈ w_trace (world_of (ServeHTTP h request w)) → False.
Proof.
  intros Hw Hin.
  assert (emits (λ a, is_open_session a = false) (ServeHTTP h request)) as Hemits.
  { unfold ServeHTTP, writeError, writeBackendError, writeError, respond, closeResponse, writeSSE,
      copy_body. structural. by apply emits_sse_loop. }
  destruct (Hemits w) as (l & Hl & Hf). rewrite Hl, Hw in Hin.
  rewrite Forall_forall in Hf. by specialize (Hf _ Hin).
Qed.

(** ** Properties *)

(** Dispatch: a request outside the base path is answered 404 without
    touching any collaborator; an upgrade request for one of the two session
    paths goes to the WebSocket handler, and every other request below the base
    path to the REST handler. *)
Theorem ServeOpenAI_dispatch h request registered first w :
  (¬ below (oa_basePath h) (r_Path request) → rw_status (w_rw w) = None →
   ∃ rw, ServeOpenAI h request registered first w = Return () (mkWorld rw (w_trace w)) ∧
     rw_status rw = Some 404%Z) ∧
  (isWebSocket request = true →
   r_Path request = oa_basePath h +:+ "/realtime" ∨ r_Path request = oa_basePath h +:+ "/responses" →
   ServeOpenAI h request registered first w =
     ServeWebSocket (oa_websocket h) request registered first w) ∧
  (below (oa_basePath h) (r_Path request) →
   isWebSocket request = false ∨
     r_Path request ≠ oa_basePath h +:+ "/realtime" ∧
     r_Path request ≠ oa_basePath h +:+ "/responses" →
   ServeOpenAI h request registered first w = ServeHTTP (oa_rest h) request w).
Proof.
  unfold ServeOpenAI. split_and!.
  - rewrite below_spec, not_false_iff_true. intros Hb Hst. rewrite Hb.
    destruct (NotFound_spec w Hst) as (rw & ? & ? & _). by exists rw.
  - intros Hws Hp. rewrite (proj1 (below_spec _ _)), Hws.
    2:{ destruct Hp as [->| ->]; right; by eexists. }
    destruct Hp as [Hp|Hp]; rewrite (bool_decide_true _ Hp); by rewrite ?orb_true_r.
  - intros Hb%below_spec Hno. rewrite Hb.
    destruct Hno as [->|[H1 H2]]; [done|]. rewrite !bool_decide_false by done.
    by rewrite andb_false_r.
Qed.

(** C2. End to end: whatever options a handler is built from (with a body limit
    below the largest [int64]) and whatever reaches it, a backend is called, or a session opened, only for a caller the
    configured authenticator accepted with the credential of that very request
    and its request identifier (anonymous callers exist only without an
    authenticator), and it is told that caller and that identifier. *)
Theorem authenticated_end_to_end loader ws services options h request registered first w
    `{!LookupsUsable services} :
  NewHandler loader ws services (denote_option <$> options) = Ok h →
  (last_set (λ o, match o with OptMaxBodyBytes l => Some l | _ => None end)
     defaultMaxBodyBytes options < 2 ^ 63 - 1)%Z →
  rw_status (w_rw w) = None → w_trace w = [] →
  ∀ metadata,
    (∃ call, ActHandle call ∈ w_trace (world_of (ServeOpenAI h request registered first w)) ∧
       metadata = req_Metadata call) ∨
    (∃ open, ActOpenSession open ∈ w_trace (world_of (ServeOpenAI h request registered first w)) ∧
       metadata = sr_Metadata open) →
  RequestID metadata = request_id request ∧ TrimSpace (CallerID metadata) ≠ "" ∧
  match last_set (λ o, match o with OptAuthenticator a => Some a | _ => None end) None options with
  | None => CallerID metadata = "anonymous"
  | Some auth => ∃ token source, credentialFromRequest request = (token, source) ∧
      dyn_val auth (mkCredential token source (request_id request)) =
        Ok (mkPrincipal (CallerID metadata))
  end.
Proof.
  intros Hnew Hlim Hst Hw metadata Hin.
  destruct (NewHandler_Ok _ _ _ _ _ Hnew) as (s & doc & router & Hs & _ & _ & ->).
  pose proof (apply_options_from [] options (Forall_nil_2 _)) as Hspec.
  change (spec_settings []) with default_settings in Hspec. rewrite Hs in Hspec.
  destruct Hspec as [-> Hok]. pose proof (sound_limit _ (spec_settings_sound options Hok)) as Hpos.
  change ([] ++ options) with options in *.
  assert (∃ c, authenticate (spec_settings options) request (request_id request) = Ok c ∧
    RequestID metadata = request_id request ∧ CallerID metadata = c) as (c & Ha & -> & ->).
  { unfold ServeOpenAI in Hin.
    destruct (negb _ && negb _).
    { destruct (NotFound_spec w Hst) as (rw & Hnf & _). rewrite Hnf in Hin.
      cbn [world_of w_trace] in Hin.
      rewrite Hw in Hin. destruct Hin as [(x & ?%elem_of_nil & _)|(x & ?%elem_of_nil & _)]; done. }
    destruct (isWebSocket request && _).
    - destruct Hin as [(call & Hin & ->)|(open & Hin & ->)].
      + by apply websocket_calls_nothing in Hin.
      + destruct (opened_authenticated _ _ _ _ _ _ Hst Hw Hin) as (c & Ha & ->). by exists c.
    - destruct Hin as [(call & Hin & ->)|(open & Hin & ->)].
      + assert (sane_limit (RestHandler.New services doc router
          (internal_config (spec_settings options)))) as Hsane.
        { unfold sane_limit. cbn [h_config RestHandler.New internal_config MaxBodyBytes].
          unfold spec_settings in Hpos |- *. cbn [maxBodyBytes] in *. lia. }
        destruct (called_admitted _ _ _ _ Hsane Hst Hw Hin)
          as (c & r & p & o & b & (((((Ha & _) & _) & _) & _) & _) & -> & _). by exists c.
      + by apply rest_opens_nothing in Hin. }
  split; [done|]. split; [by eapply callers|].
  unfold authenticate in Ha. unfold spec_settings in Ha. cbn [authenticator] in Ha.
  destruct (last_set _ None options) as [auth|]; [|by injection Ha].
  destruct (credentialFromRequest request) as [token source]. exists token, source. split; [done|].
  destruct (dyn_val auth _) as [[id]|err]; csimpl in Ha; [|done].
  destruct (string_empty (TrimSpace id)); [done|]. by injection Ha as ->.
Qed.

(** ** Witnesses *)

(** A handler below [/v1] that asks an authenticator for the one token
    [secret]. *)
Definition example_routes : Collaborators :=
  mkCollaborators
    (λ request, if bool_decide (r_Path request = "/v1/models") then Ok (example_route, ∅)
                else Err (Sentinel "routers.ErrPathNotFound"))
    (λ _, None) (λ _ _ _ _, None).
Definition example_loader : Loader :=
  mkLoader (Ok "{}") true (λ _, Ok (mkDocument [] [("/models", [("GET", example_operation)])]))
    (λ _, Ok example_routes).
Definition example_sockets : WsCollaborators := mkWsCollaborators (λ _ _ _, None) (λ _, -1)%Z.
Definition example_authenticator : AuthenticateFunc := λ credential,
  if bool_decide (Token credential = "secret") then Ok (mkPrincipal "alice")
  else Err (Opaque "unknown token" []).
Definition example_options : list setting_option :=
  [OptMaxBodyBytes 1024; OptAuthenticator (ptr example_authenticator)].
Definition example_openai : Handler :=
  mkOpenAIHandler "/v1"
    (RestHandler.New (example_registry (answer_with 0 "{}" None))
       (mkDocument ["/v1"] [("/models", [("GET", example_operation)])]) example_routes
       (internal_config (spec_settings example_options)))
    (mkWsHandler (example_registry (answer_with 0 "{}" None)) example_sockets
       (internal_config (spec_settings example_options))).

Lemma ServeOpenAI_dispatch_witness :
  (∃ rw, ServeOpenAI example_openai (example_request "/v2/models") (1%N, true) None
       (fresh_world true None) = Return () (mkWorld rw []) ∧ rw_status rw = Some 404%Z) ∧
  ServeOpenAI example_openai (example_request "/v1/models") (1%N, true) None (fresh_world true None) =
    ServeHTTP (oa_rest example_openai) (example_request "/v1/models") (fresh_world true None).
Proof.
  split.
  - apply (proj1 (ServeOpenAI_dispatch example_openai (example_request "/v2/models") (1%N, true) None
      (fresh_world true None))); [|reflexivity..].
    intros H%below_spec. vm_compute in H. discriminate.
  - apply (proj2 (proj2 (ServeOpenAI_dispatch example_openai (example_request "/v1/models")
      (1%N, true) None (fresh_world true None)))).
    + right. by exists "models".
    + by left.
Defined.

Lemma authenticated_end_to_end_witness :
  RequestID (mkMetadata (request_id (example_request "/v1/models")) "alice" "openai"
      {[ "Accept" := ["*/*"] ]}) = request_id (example_request "/v1/models") ∧
  TrimSpace "alice" ≠ "" ∧
  ∃ token source,
    credentialFromRequest (example_request "/v1/models") = (token, source) ∧
    example_authenticator (mkCredential token source (request_id (example_request "/v1/models"))) =
      Ok (mkPrincipal "alice").
Proof.
  apply (authenticated_end_to_end example_loader example_sockets
    (example_registry (answer_with 0 "{}" None)) example_options example_openai
    (example_request "/v1/models") (1%N, true) None (fresh_world true None));
    [reflexivity|reflexivity|reflexivity|reflexivity|].
  left. exists (backend_request (request_id (example_request "/v1/models")) "alice"
    example_listModels ∅ (buffered (example_request "/v1/models")) ""). split.
  - apply (list_elem_of_lookup_2 _ 2). vm_compute. reflexivity.
  - vm_compute. reflexivity.
Defined.
