(* ===== verification/Base64.v ===== *)
(** [encoding/base64]: the standard encoding with padding. *)
From S2P Require Import Prelude GoStrings.
From Stdlib Require Import NArith.
Local Open Scope N_scope.

(** ** Decoding *)

Definition decodeMap (c : ascii) : option N :=
  if is_upper c then Some (code c - 65)
  else if is_lower c then Some (code c - 71)
  else if is_digit c then Some (code c + 4)
  else if code c =? 43 then Some 62
  else if code c =? 47 then Some 63
  else None.

Definition byte1 (a b : N) : ascii := byte_of (a * 4 + b / 16).
Definition byte2 (b c : N) : ascii := byte_of (b mod 16 * 16 + c / 4).
Definition byte3 (c d : N) : ascii := byte_of (c mod 4 * 64 + d).

Definition is_pad (c : ascii) : bool := code c =? 61.

(** [StdEncoding.DecodeString] without line ends, four bytes at a time; [None]
    is a [CorruptInputError].  The bits a padded group drops are not checked. *)
Fixpoint decode_quanta (s : string) : option string :=
  match s with
  | "" => Some ""
  | String a (String b (String c (String d rest))) =>
      x ← decodeMap a; y ← decodeMap b;
      match decodeMap c, decodeMap d with
      | Some z, Some w =>
          tail ← decode_quanta rest;
          Some (String (byte1 x y) (String (byte2 y z) (String (byte3 z w) tail)))
      | Some z, None =>
          if is_pad d && string_empty rest then Some (String (byte1 x y) (str1 (byte2 y z))) else None
      | None, _ => if is_pad c && is_pad d && string_empty rest then Some (str1 (byte1 x y)) else None
      end
  | _ => None
  end.

(** Line ends are skipped wherever they are. *)
Definition line_end (c : ascii) : bool := bool_decide (c = CR) || bool_decide (c = LF).
Definition DecodeString (s : string) : option string :=
  decode_quanta (string_filter (λ c, negb (line_end c)) s).

(** ** Encoding *)

Definition encode_digit (n : N) : ascii :=
  if n <? 26 then byte_of (65 + n)
  else if n <? 52 then byte_of (71 + n)
  else if n <? 62 then byte_of (n - 4)
  else if n =? 62 then byte_of 43 else byte_of 47.

Definition PAD : ascii := byte_of 61.

Fixpoint EncodeToString (s : string) : string :=
  match s with
  | "" => ""
  | String a "" =>
      String (encode_digit (code a / 4)) (String (encode_digit (code a mod 4 * 16)) (String PAD (str1 PAD)))
  | String a (String b "") =>
      String (encode_digit (code a / 4)) (String (encode_digit (code a mod 4 * 16 + code b / 16))
        (String (encode_digit (code b mod 16 * 4)) (str1 PAD)))
  | String a (String b (String c rest)) =>
      String (encode_digit (code a / 4)) (String (encode_digit (code a mod 4 * 16 + code b / 16))
        (String (encode_digit (code b mod 16 * 4 + code c / 64)) (String (encode_digit (code c mod 64))
          (EncodeToString rest))))
  end.

(** ** Round trip *)

Definition digits : list N := N.of_nat <$> seq 0 64.

(** A property of the 64 digits, by computation. *)
Lemma digits_spec (P : N → bool) : forallb P digits = true → ∀ n, n < 64 → P n = true.
Proof.
  rewrite forallb_forall. intros HP n Hn. apply HP, list_elem_of_In, list_elem_of_fmap.
  exists (N.to_nat n). rewrite N2Nat.id, elem_of_seq. split; [done|lia].
Qed.

Lemma decode_encode_digit n : n < 64 → decodeMap (encode_digit n) = Some n.
Proof.
  intros Hn. apply (digits_spec (λ n, bool_decide (decodeMap (encode_digit n) = Some n)) ltac:(by vm_compute)) in Hn.
  by apply bool_decide_eq_true in Hn.
Qed.

Lemma encode_digit_plain n : n < 64 → line_end (encode_digit n) = false.
Proof.
  intros Hn. apply negb_true_iff.
  by apply (digits_spec (λ n, negb (line_end (encode_digit n)))).
Qed.

Lemma byte_of_code c : byte_of (code c) = c.
Proof. apply Ascii.ascii_N_embedding. Qed.

Lemma code_bound c : code c < 256.
Proof. apply Ascii.N_ascii_bounded. Qed.

Lemma byte1_encode a n : n < 16 → byte1 (code a / 4) (code a mod 4 * 16 + n) = a.
Proof.
  intros Hn. unfold byte1. rewrite (N.div_add_l _ 16) by done.
  rewrite (N.div_small n 16) by done. rewrite N.add_0_r.
  pose proof (N.div_mod (code a) 4). rewrite <- (byte_of_code a) at 3. f_equal. lia.
Qed.

Lemma byte2_encode b m n : n < 4 → byte2 (m * 16 + code b / 16) (code b mod 16 * 4 + n) = b.
Proof.
  intros Hn. unfold byte2. pose proof (code_bound b).
  rewrite (N.div_add_l _ 4), (N.div_small n 4), N.add_0_r by done.
  rewrite (N.add_comm (m * 16)), N.Div0.mod_add, (N.mod_small (code b / 16) 16) by (apply N.Div0.div_lt_upper_bound; lia).
  pose proof (N.div_mod (code b) 16). rewrite <- (byte_of_code b) at 3. f_equal. lia.
Qed.

Lemma byte3_encode c m : byte3 (m * 4 + code c / 64) (code c mod 64) = c.
Proof.
  unfold byte3. pose proof (code_bound c).
  rewrite (N.add_comm (m * 4)), N.Div0.mod_add, (N.mod_small (code c / 64) 4) by (apply N.Div0.div_lt_upper_bound; lia).
  pose proof (N.div_mod (code c) 64). rewrite <- (byte_of_code c) at 3. f_equal. lia.
Qed.

(** The digits of three bytes are digits. *)
Lemma digit_bounds a b c :
  code a / 4 < 64 ∧ code a mod 4 * 16 + code b / 16 < 64 ∧ code b mod 16 * 4 + code c / 64 < 64 ∧
  code c mod 64 < 64 ∧ code b / 16 < 16 ∧ code c / 64 < 4.
Proof.
  pose proof (code_bound a). pose proof (code_bound b). pose proof (code_bound c).
  pose proof (N.mod_lt (code a) 4). pose proof (N.mod_lt (code b) 16). pose proof (N.mod_lt (code c) 64).
  assert (code a / 4 < 64) by (apply N.Div0.div_lt_upper_bound; lia).
  assert (code b / 16 < 16) by (apply N.Div0.div_lt_upper_bound; lia).
  assert (code c / 64 < 4) by (apply N.Div0.div_lt_upper_bound; lia).
  lia.
Qed.

(** Three bytes at a time. *)
Lemma quanta_ind (P : string → Prop) :
  P "" → (∀ a, P (str1 a)) → (∀ a b, P (String a (str1 b))) →
  (∀ a b c s, P s → P (String a (String b (String c s)))) → ∀ s, P s.
Proof.
  intros H0 H1 H2 H3 s. induction s as [s IH] using string_len_ind.
  destruct s as [|a [|b [|c s]]]; [apply H0|apply H1|apply H2|]. apply H3, IH. simpl. lia.
Qed.

Lemma decode_quanta_encode s : decode_quanta (EncodeToString s) = Some s.
Proof.
  induction s as [|a|a b|a b c s IH] using quanta_ind; [done|..].
  - pose proof (digit_bounds a "000" "000") as (H1 & H2 & _).
    change (code "000" / 16) with 0 in H2. rewrite N.add_0_r in H2. simpl.
    rewrite !decode_encode_digit by done. simpl. f_equal. unfold str1. f_equal.
    rewrite <- (N.add_0_r (code a mod 4 * 16)). by apply byte1_encode.
  - pose proof (digit_bounds a b "000") as (H1 & H2 & H3 & _ & H5 & _).
    change (code "000" / 64) with 0 in H3. rewrite N.add_0_r in H3. simpl.
    rewrite !decode_encode_digit by done. simpl. f_equal. rewrite byte1_encode by done.
    unfold str1. do 2 f_equal. rewrite <- (N.add_0_r (code b mod 16 * 4)). by apply byte2_encode.
  - pose proof (digit_bounds a b c) as (H1 & H2 & H3 & H4 & H5 & H6). simpl.
    rewrite !decode_encode_digit by done. simpl. rewrite IH. simpl.
    by rewrite byte1_encode, byte2_encode, byte3_encode.
Qed.

Lemma EncodeToString_plain s : string_forallb (λ c, negb (line_end c)) (EncodeToString s) = true.
Proof.
  induction s as [|a|a b|a b c s IH] using quanta_ind; [done|..].
  - pose proof (digit_bounds a "000" "000") as (H1 & H2 & _).
    change (code "000" / 16) with 0 in H2. rewrite N.add_0_r in H2. simpl.
    by rewrite !encode_digit_plain.
  - pose proof (digit_bounds a b "000") as (H1 & H2 & H3 & _).
    change (code "000" / 64) with 0 in H3. rewrite N.add_0_r in H3. simpl.
    by rewrite !encode_digit_plain.
  - pose proof (digit_bounds a b c) as (H1 & H2 & H3 & H4 & _). simpl.
    by rewrite !encode_digit_plain.
Qed.

Lemma string_filter_all (f : ascii → bool) s : string_forallb f s = true → string_filter f s = s.
Proof.
  induction s as [|c s IH]; [done|]. simpl. rewrite andb_true_iff. intros [-> Hs]. by rewrite IH.
Qed.

(** Whatever the bytes, their encoding decodes to them. *)
Lemma DecodeString_encode s : DecodeString (EncodeToString s) = Some s.
Proof.
  unfold DecodeString. rewrite string_filter_all by apply EncodeToString_plain.
  apply decode_quanta_encode.
Qed.

Example decode_padded : DecodeString "SGk=" = Some "Hi".
Proof. reflexivity. Qed.
Example decode_short : DecodeString "SGk" = None.
Proof. reflexivity. Qed.
