(* ===== verification/Multipart.v ===== *)
(** The multipart bodies of [mime/multipart], with the parameters of
    [mime.ParseMediaType] and the headers of [net/textproto] they need.

    A reader is modelled by the bytes it has left.  Transfer encodings other
    than the identity are left to a parameter, the limits on the size of headers
    are not modelled. *)
From S2P Require Import Prelude GoStrings GoHttp.
From Stdlib Require Import NArith.

(** ** Parameters of a media type, RFC 2231 included *)

Definition STAR : ascii := byte_of 42.

Fixpoint percentHexUnescape (s : string) : option string :=
  match s with
  | "" => Some ""
  | String c s1 =>
      if (code c =? 37)%N then
        match s1 with
        | String h (String l s3) =>
            h ← unhex h; l ← unhex l; rest ← percentHexUnescape s3;
            Some (String (byte_of (16 * h + l)) rest)
        | _ => None
        end
      else rest ← percentHexUnescape s1; Some (String c rest)
  end.

(** A value [charset'language'text]. *)
Definition decode2231Enc (v : string) : option string :=
  match Cut (byte_of 39) v with
  | (charset, v, true) =>
      match Cut (byte_of 39) v with
      | (_, text, true) =>
          let charset := ToLower charset in
          if bool_decide (charset = "us-ascii") || bool_decide (charset = "utf-8")
          then percentHexUnescape text else None
      | _ => None
      end
  | _ => None
  end.

(** The pieces [base*n], [base*n*] from the n-th on, and whether there is one. *)
Fixpoint continuation (fuel n : nat) (base : string) (pieces : gmap string string) : string * bool :=
  match fuel with
  | O => ("", false)
  | S fuel =>
      let simplePart := base +:+ "*" +:+ Itoa (Z.of_nat n) in
      let rest := (continuation fuel (S n) base pieces).1 in
      match pieces !! simplePart with
      | Some v => (v +:+ rest, true)
      | None =>
          match pieces !! (simplePart +:+ "*") with
          | None => ("", false)
          | Some v =>
              let decv := if bool_decide (n = 0) then decode2231Enc v else percentHexUnescape v in
              (default "" decv +:+ rest, true)
          end
      end
  end.

Definition stitched (pieces : gmap string string) (base : string) : option string :=
  match pieces !! (base +:+ "*") with
  | Some v => decode2231Enc v
  | None =>
      let '(text, valid) := continuation (S (size pieces)) 0 base pieces in
      if valid then Some text else None
  end.

(** The parameters under their own names. *)
Definition stitch (pieces : gmap string string) : gmap string string :=
  let starred := List.filter (λ kv, negb (free_of STAR kv.1)) (map_to_list pieces) in
  foldr (λ base m, match stitched pieces base with Some v => <[base := v]> m | None => m end)
    (list_to_map (List.filter (λ kv, free_of STAR kv.1) (map_to_list pieces)))
    (remove_dups ((λ kv, (Cut STAR kv.1).1.1) <$> starred)).

(** [mime.ParseMediaType] with the parameters it returns. *)
Definition ParseMediaTypeParams (v : string) : option (string * gmap string string) :=
  '(mediatype, pieces) ← media_type_params v; Some (mediatype, stitch pieces).

(** ** Headers *)

Definition CRLF : string := String CR (str1 LF).
Definition wsp (c : ascii) : bool := (code c =? 32)%N || (code c =? 9)%N.

Fixpoint drop_wsp (s : string) : string :=
  match s with
  | "" => ""
  | String c rest => if wsp c then drop_wsp rest else s
  end.
Definition trim_wsp (s : string) : string := String.rev (drop_wsp (String.rev (drop_wsp s))).

(** [bufio.Reader.ReadLine], line after line; [None] is [io.EOF]. *)
Definition read_line (s : string) : option (string * string) :=
  if string_empty s then None else
  let '(line, rest, found) := Cut LF s in
  Some (if found then TrimSuffix line (str1 CR) else line, rest).

(** The continuation lines behind [kv]. *)
Fixpoint continued (fuel : nat) (kv s : string) : string * string :=
  match fuel, s with
  | S fuel, String c _ =>
      if wsp c then
        match read_line (drop_wsp s) with
        | None => (kv +:+ " ", "")
        | Some (line, rest) => continued fuel (kv +:+ " " +:+ trim_wsp line) rest
        end
      else (kv, s)
  | _, _ => (kv, s)
  end.

(** [canonicalMIMEHeaderKey] *)
Definition header_key (k : string) : option string :=
  if string_empty k then None
  else if string_forallb token_byte k then Some (canonical_from true k)
  else if string_forallb (λ c, token_byte c || (code c =? 32)%N) k then Some k
  else None.

Definition header_value_byte (c : ascii) : bool :=
  in_range 32 126 c || (code c =? 9)%N || (128 <=? code c)%N.

(** How reading a part can fail: at the end of the message, or otherwise. *)
Inductive mp_error := mp_EOF | mp_Malformed.

(** The loop of [ReadMIMEHeader]; every line it reads is shorter than [fuel]. *)
Fixpoint read_fields (fuel : nat) (m : gmap string (list string)) (s : string)
    : result mp_error (gmap string (list string) * string) :=
  match fuel with
  | O => Err mp_Malformed
  | S fuel =>
      match read_line s with
      | None => Err mp_EOF
      | Some (line, rest) =>
          if string_empty line then Ok (m, rest)
          else if free_of ":"%char line then Err mp_Malformed
          else
            let '(kv, rest) := continued (String.length rest) (trim_wsp line) rest in
            let '(k, v, _) := Cut ":"%char kv in
            match header_key k with
            | None => Err mp_Malformed
            | Some key =>
                if string_forallb header_value_byte v
                then read_fields fuel (<[key := default [] (m !! key) ++ [drop_wsp v]]> m) rest
                else Err mp_Malformed
            end
      end
  end.

Definition ReadMIMEHeader (s : string) : result mp_error (gmap string (list string) * string) :=
  match s with
  | String c _ => if wsp c then Err mp_Malformed else read_fields (S (String.length s)) ∅ s
  | "" => Err mp_EOF
  end.

(** ** Parts *)

(** [bufio.Reader.ReadSlice('\n')] with a buffer of 4096 bytes. *)
Inductive slice := SliceLine (line rest : string) | SliceEOF (line : string) | SliceFull.
Definition peekBufferSize : nat := 4096.
Definition ReadSlice (s : string) : slice :=
  match Cut LF s with
  | (line, rest, true) =>
      if String.length line <? peekBufferSize then SliceLine (line +:+ str1 LF) rest else SliceFull
  | (line, _, false) => if String.length line <? peekBufferSize then SliceEOF line else SliceFull
  end.

(** [Reader]: the boundary, whether lines end in LF alone, how many parts were
    begun, and the bytes that are left. *)
Record Reader := mkReader {
  mr_boundary : string;
  mr_lf : bool;
  mr_partsRead : nat;
  mr_rest : string }.

Definition NewReader (boundary body : string) : Reader := mkReader boundary false 0 body.

Definition nl (lf : bool) : string := if lf then str1 LF else CRLF.
Definition dashBoundary (boundary : string) : string := "--" +:+ boundary.

Definition isFinalBoundary (boundary : string) (lf : bool) (line : string) : bool :=
  match CutPrefix line (dashBoundary boundary +:+ "--") with
  | None => false
  | Some rest => let rest := drop_wsp rest in string_empty rest || bool_decide (rest = nl lf)
  end.

(** [isBoundaryDelimiterLine]; before the first part it may change the line end. *)
Definition isBoundaryDelimiterLine (boundary : string) (lf : bool) (parts : nat) (line : string)
    : bool * bool :=
  match CutPrefix line (dashBoundary boundary) with
  | None => (false, lf)
  | Some rest =>
      let rest := drop_wsp rest in
      let lf := lf || (bool_decide (parts = 0) && bool_decide (rest = str1 LF)) in
      (bool_decide (rest = nl lf), lf)
  end.

(** The loop of [nextPart], up to the headers of the next part. *)
Fixpoint seek (fuel : nat) (boundary : string) (lf : bool) (parts : nat) (expectNewPart : bool) (s : string)
    : result mp_error (bool * string) :=
  match fuel with
  | O => Err mp_Malformed
  | S fuel =>
      match ReadSlice s with
      | SliceEOF line => Err (if isFinalBoundary boundary lf line then mp_EOF else mp_Malformed)
      | SliceFull => Err mp_Malformed
      | SliceLine line rest =>
          let '(found, lf) := isBoundaryDelimiterLine boundary lf parts line in
          if found then Ok (lf, rest)
          else if isFinalBoundary boundary lf line then Err mp_EOF
          else if expectNewPart then Err mp_Malformed
          else if bool_decide (parts = 0) then seek fuel boundary lf parts expectNewPart rest
          else if bool_decide (line = nl lf) then seek fuel boundary lf parts true rest
          else Err mp_Malformed
      end
  end.

(** [NextPart]: the header of the part, the reader being at its body. *)
Definition NextPart (r : Reader) : result mp_error (gmap string (list string) * Reader) :=
  '(lf, s) ← seek (S (String.length (mr_rest r))) (mr_boundary r) (mr_lf r) (mr_partsRead r) false (mr_rest r);
  '(header, s) ← ReadMIMEHeader s;
  Ok (header, mkReader (mr_boundary r) lf (S (mr_partsRead r)) s).

(** [matchAfterPrefix]: whether a boundary ends here; [None] when the message
    ends before that is decided. *)
Definition matchAfterPrefix (after : string) : option bool :=
  match after with
  | "" => None
  | String c rest =>
      if wsp c || bool_decide (c = CR) || bool_decide (c = LF) then Some true
      else if (code c =? 45)%N then
        match rest with
        | "" => None
        | String d _ => Some (code d =? 45)%N
        end
      else Some false
  end.

Definition prepend (p : string) (r : option (string * string)) : option (string * string) :=
  '(data, rest) ← r; Some (p +:+ data, rest).

(** The bytes before the next boundary, and what begins with it; [None] is
    [io.ErrUnexpectedEOF]. *)
Fixpoint scanUntilBoundary (fuel : nat) (nlDashBoundary s : string) : option (string * string) :=
  match fuel, s with
  | S fuel, String c rest =>
      match CutPrefix s nlDashBoundary with
      | None => prepend (str1 c) (scanUntilBoundary fuel nlDashBoundary rest)
      | Some after =>
          is_boundary ← matchAfterPrefix after;
          if is_boundary : bool then Some ("", s)
          else prepend nlDashBoundary (scanUntilBoundary fuel nlDashBoundary after)
      end
  | _, _ => None
  end.

Definition part_body (boundary : string) (lf : bool) (s : string) : option (string * string) :=
  let dash := dashBoundary boundary in
  let scan := scanUntilBoundary (S (String.length s)) (nl lf +:+ dash) in
  match CutPrefix s dash with
  | None => scan s
  | Some after =>
      is_boundary ← matchAfterPrefix after;
      if is_boundary : bool then Some ("", s) else prepend dash (scan after)
  end.

Section Part.
(** [quotedprintable.NewReader], read to its end. *)
Context (quoted_printable : string → option string).

(** [io.ReadAll(part)], which leaves the reader behind the body. *)
Definition ReadAll (header : gmap string (list string)) (r : Reader) : option (string * Reader) :=
  '(raw, rest) ← part_body (mr_boundary r) (mr_lf r) (mr_rest r);
  data ← (if EqualFold (header_get header "Content-Transfer-Encoding") "quoted-printable"
          then quoted_printable raw else Some raw);
  Some (data, mkReader (mr_boundary r) (mr_lf r) (mr_partsRead r) rest).
End Part.

Definition FormName (header : gmap string (list string)) : string :=
  match ParseMediaTypeParams (header_get header "Content-Disposition") with
  | Some (disposition, params) =>
      if bool_decide (disposition = "form-data") then default "" (params !! "name") else ""
  | None => ""
  end.

(** ** Writing a form *)

Record form_part := mkFormPart {
  fp_name : string;
  fp_filename : option string;
  fp_type : option string;
  fp_data : string }.

Definition quote_param (s : string) : string := String QUOTE (s +:+ str1 QUOTE).

Definition disposition (p : form_part) : string :=
  "form-data; name=" +:+ quote_param (fp_name p) +:+
  match fp_filename p with Some f => "; filename=" +:+ quote_param f | None => "" end.

Definition part_fields (p : form_part) : list (string * string) :=
  ("Content-Disposition", disposition p) ::
  match fp_type p with Some t => [("Content-Type", t)] | None => [] end.

Definition write_field (kv : string * string) : string := kv.1 +:+ ": " +:+ kv.2 +:+ CRLF.

Definition concat_str (l : list string) : string := foldr (λ s t, s +:+ t) "" l.

Definition write_part (boundary : string) (p : form_part) : string :=
  dashBoundary boundary +:+ CRLF +:+ concat_str (write_field <$> part_fields p) +:+ CRLF +:+
  fp_data p +:+ CRLF.

Definition write_form (boundary : string) (ps : list form_part) : string :=
  concat_str (write_part boundary <$> ps) +:+ dashBoundary boundary +:+ "--" +:+ CRLF.

(** ** Lemmas: what the pieces of a body start with *)

Lemma wsp_ascii : ∀ c, bool_decide (wsp c = true → space1 c = true ∧ token_byte c = false ∧
  c ≠ CR ∧ c ≠ LF) = true.
Proof. by_bytes. Qed.

Lemma drop_wsp_id c s : wsp c = false → drop_wsp (String c s) = String c s.
Proof. intros H. simpl. by rewrite H. Qed.

Lemma Cut_free_none sep s : free_of sep s = true → Cut sep s = (s, "", false).
Proof.
  unfold free_of. induction s as [|c s IH]; [done|]. simpl. rewrite andb_true_iff, negb_true_iff.
  intros [Hc Hs]. by rewrite Hc, IH.
Qed.

Lemma free_of_app b s t : free_of b (s +:+ t) = free_of b s && free_of b t.
Proof. apply string_forallb_app. Qed.

(** A line that ends in CR LF. *)
Lemma Cut_line s rest : free_of LF s = true → Cut LF (s +:+ CRLF +:+ rest) = (s +:+ str1 CR, rest, true).
Proof.
  intros Hs. unfold CRLF. change (String CR (str1 LF) +:+ rest) with (str1 CR +:+ String LF rest).
  rewrite <- app_assoc_str. apply Cut_free. by rewrite free_of_app, Hs.
Qed.

Lemma read_line_CRLF s rest : free_of LF s = true → read_line (s +:+ CRLF +:+ rest) = Some (s, rest).
Proof.
  intros Hs. unfold read_line. rewrite Cut_line by done. rewrite TrimSuffix_app.
  by destruct s.
Qed.

Lemma ReadSlice_CRLF s rest :
  free_of LF s = true → String.length s < peekBufferSize - 1 →
  ReadSlice (s +:+ CRLF +:+ rest) = SliceLine (s +:+ CRLF) rest.
Proof.
  intros Hs Hl. unfold ReadSlice. rewrite Cut_line by done.
  rewrite length_app_str. change (String.length (str1 CR)) with 1.
  replace (String.length s + 1 <? peekBufferSize) with true by (symmetry; apply Nat.ltb_lt; unfold peekBufferSize in *; lia).
  by rewrite app_assoc_str.
Qed.

(** ** Lemmas: bodies *)

Lemma app_eq_inv_str s t u v :
  s +:+ t = u +:+ v → (∃ k, u = s +:+ k ∧ t = k +:+ v) ∨ (∃ k, s = u +:+ k ∧ v = k +:+ t).
Proof.
  revert u. induction s as [|c s IH]; intros u H; [left; by exists u|].
  destruct u as [|d u]; [right; exists (String c s); by rewrite app_nil_l_str in *|].
  rewrite !app_cons_str in H. injection H as -> H. destruct (IH u H) as [(k & -> & ->)|(k & -> & ->)].
  - left. by exists k.
  - right. by exists k.
Qed.

(** A prefix without CR of a text that goes on with CR lies before it. *)
Lemma prefix_before_CR s t p r :
  free_of CR p = true → s +:+ String CR t = p +:+ r → ∃ k, s = p +:+ k.
Proof.
  intros Hp [(k & -> & Hk)|(k & -> & _)]%app_eq_inv_str; [|by exists k].
  rewrite free_of_app in Hp. apply andb_true_iff in Hp as [_ Hp].
  destruct k as [|c k]; [exists ""; by rewrite !app_nil_r_str|].
  rewrite app_cons_str in Hk. injection Hk as <- _. done.
Qed.

Lemma Contains_cons c s sub : Contains (String c s) sub = HasPrefix (String c s) sub || Contains s sub.
Proof. by destruct sub. Qed.

Lemma CutPrefix_None s p : (∀ r, s ≠ p +:+ r) → CutPrefix s p = None.
Proof.
  intros H. destruct (CutPrefix s p) as [r|] eqn:E; [|done]. apply CutPrefix_Some in E. by destruct (H r).
Qed.

Section Body.
Context (delimiter : string) (Hdelimiter : free_of CR delimiter = true).
Let sep := CRLF +:+ delimiter.

Lemma no_early_delimiter data tail r :
  data ≠ "" → HasPrefix data sep = false → data +:+ sep +:+ tail ≠ sep +:+ r.
Proof.
  intros Hd Hno H. destruct data as [|c data]; [done|]. unfold sep in *.
  change (CRLF +:+ delimiter) with (String CR (String LF delimiter)) in *.
  pose proof H as Hc. rewrite !app_cons_str in Hc. injection Hc as -> Hc.
  rewrite <- !app_cons_str in Hc. rewrite app_cons_str in Hc.
  apply (prefix_before_CR _ _ (String LF delimiter)) in Hc as [k ->]; [|exact Hdelimiter].
  apply not_true_iff_false in Hno. apply Hno, HasPrefix_spec. by exists k.
Qed.

Lemma scan_data fuel data tail :
  Contains data sep = false → matchAfterPrefix tail = Some true → String.length data < fuel →
  scanUntilBoundary fuel sep (data +:+ sep +:+ tail) = Some (data, sep +:+ tail).
Proof.
  revert fuel. induction data as [|c data IH]; intros [|fuel] Hno Ht Hl; simpl in Hl; try lia.
  - rewrite app_nil_l_str. change (sep +:+ tail) with (String CR (String LF (delimiter +:+ tail))) at 1.
    cbn [scanUntilBoundary].
    change (String CR (String LF (delimiter +:+ tail))) with (sep +:+ tail).
    rewrite CutPrefix_app. cbn [mbind option_bind]. by rewrite Ht.
  - rewrite Contains_cons in Hno. apply orb_false_iff in Hno as [Hp Hno].
    rewrite app_cons_str. cbn [scanUntilBoundary]. rewrite CutPrefix_None.
    + rewrite IH by (done || lia). done.
    + intros r. rewrite <- app_cons_str. by apply no_early_delimiter.
Qed.

End Body.

Lemma dash_free_CR boundary : free_of CR boundary = true → free_of CR (dashBoundary boundary) = true.
Proof. intros H. unfold dashBoundary. by rewrite free_of_app, H. Qed.

(** Data that a delimiter can follow: they do not contain one. *)
Definition data_ok (boundary data : string) : bool :=
  negb (HasPrefix data (dashBoundary boundary)) && negb (Contains data (CRLF +:+ dashBoundary boundary)).

Lemma part_body_data boundary data tail :
  free_of CR boundary = true → data_ok boundary data = true → matchAfterPrefix tail = Some true →
  part_body boundary false (data +:+ CRLF +:+ dashBoundary boundary +:+ tail) =
    Some (data, CRLF +:+ dashBoundary boundary +:+ tail).
Proof.
  intros HB%dash_free_CR [H1%negb_true_iff H2%negb_true_iff]%andb_true_iff Ht. unfold part_body.
  rewrite CutPrefix_None.
  - change (nl false) with CRLF. rewrite <- (app_assoc_str CRLF). apply scan_data; [done..|].
    rewrite !length_app_str. lia.
  - intros r Hr. change (CRLF +:+ ?x) with (String CR (String LF x)) in Hr.
    apply prefix_before_CR in Hr as [k ->]; [|done].
    apply not_true_iff_false in H1. apply H1, HasPrefix_spec. by exists k.
Qed.

(** ** Lemmas: headers *)

Lemma string_forallb_free f b s :
  string_forallb f s = true → f b = false → free_of b s = true.
Proof.
  intros Hf Hb. eapply string_forallb_impl; [|exact Hf]. intros c Hc.
  apply negb_true_iff, bool_decide_eq_false. by intros ->; congruence.
Qed.

(** A field as it can be written: a token, and a value without white space around it. *)
Record field_ok (kv : string * string) : Prop := {
  fk_key : string_forallb token_byte kv.1 = true;
  fk_key_nonempty : kv.1 ≠ "";
  fk_value : string_forallb header_value_byte kv.2 = true;
  fk_nonempty : kv.2 ≠ "";
  fk_left : drop_wsp kv.2 = kv.2;
  fk_right : drop_wsp (String.rev kv.2) = String.rev kv.2 }.

Lemma token_not_wsp c : token_byte c = true → wsp c = false.
Proof.
  intros Hc. apply not_true_iff_false. intros Hw. pose proof (wsp_ascii c) as H%bool_decide_eq_true.
  apply H in Hw. naive_solver congruence.
Qed.

Lemma drop_wsp_app s t : s ≠ "" → drop_wsp s = s → drop_wsp (s +:+ t) = s +:+ t.
Proof.
  destruct s as [|c s]; [done|]. intros _ Hs. rewrite app_cons_str. simpl in Hs |- *.
  destruct (wsp c); [|done]. exfalso. clear -Hs.
  assert (∀ u, String.length (drop_wsp u) ≤ String.length u) as Hlen.
  { induction u as [|d u IH]; simpl; [lia|]. destruct (wsp d); simpl; lia. }
  pose proof (Hlen s) as H. rewrite Hs in H. simpl in H. lia.
Qed.

Lemma rev_nonempty s : s ≠ "" → String.rev s ≠ "".
Proof. intros Hs H. apply Hs. by rewrite <- (rev_involutive_str s), H. Qed.

(** The line of a field, without its line end. *)
Definition field_line (kv : string * string) : string := kv.1 +:+ ": " +:+ kv.2.

Lemma trim_field kv : field_ok kv → trim_wsp (field_line kv) = field_line kv.
Proof.
  intros [H1 H2 H3 H4 H5 H6]. unfold trim_wsp, field_line.
  assert (drop_wsp (kv.1 +:+ ": " +:+ kv.2) = kv.1 +:+ ": " +:+ kv.2) as ->.
  { destruct kv.1 as [|c k]; [done|]. simpl in H1. apply andb_true_iff in H1 as [Hc _].
    rewrite app_cons_str. by apply drop_wsp_id, token_not_wsp. }
  rewrite <- app_assoc_str, rev_app_distr_str, drop_wsp_app by (by try apply rev_nonempty).
  by rewrite <- rev_app_distr_str, rev_involutive_str.
Qed.

Lemma field_line_free b kv :
  field_ok kv → token_byte b = false → header_value_byte b = false → free_of b ": " = true →
  free_of b (field_line kv) = true.
Proof.
  intros [H1 _ H3 _ _ _] Ht Hv Hsep. unfold field_line.
  by rewrite !free_of_app, (string_forallb_free _ _ _ H1 Ht), Hsep, (string_forallb_free _ _ _ H3 Hv).
Qed.

(** Nothing behind a field continues it. *)
Lemma continued_not_wsp fuel kv c s : wsp c = false → continued fuel kv (String c s) = (kv, String c s).
Proof. intros H. destruct fuel; [done|]. simpl. by rewrite H. Qed.

Definition add_field (m : gmap string (list string)) (kv : string * string) : gmap string (list string) :=
  let key := canonical_from true kv.1 in <[key := default [] (m !! key) ++ [kv.2]]> m.

Definition write_fields (kvs : list (string * string)) : string := concat_str (write_field <$> kvs).

Lemma write_fields_cons kv kvs rest :
  write_fields (kv :: kvs) +:+ rest = field_line kv +:+ CRLF +:+ (write_fields kvs +:+ rest).
Proof. unfold write_fields, write_field, field_line. simpl. by rewrite !app_assoc_str. Qed.

Lemma write_fields_head kvs rest :
  Forall field_ok kvs → ∃ c s, write_fields kvs +:+ CRLF +:+ rest = String c s ∧ wsp c = false.
Proof.
  intros [|[k v] l [H1 H2 _ _ _ _] _]; [by eexists _, _|]. simpl in *. rewrite write_fields_cons.
  destruct k as [|c k]; [done|]. simpl in H1. apply andb_true_iff in H1 as [Hc _].
  unfold field_line. cbn [fst snd]. rewrite app_cons_str, app_cons_str. eexists _, _. split; [done|].
  by apply token_not_wsp.
Qed.

Lemma field_line_cut kv : field_ok kv → Cut ":"%char (field_line kv) = (kv.1, " " +:+ kv.2, true).
Proof.
  intros [H1 _ _ _ _ _]. unfold field_line.
  change (": " +:+ kv.2) with (String ":"%char (" " +:+ kv.2)). apply Cut_free.
  by eapply string_forallb_free.
Qed.

Lemma read_fields_written fuel m kvs rest :
  Forall field_ok kvs → length kvs < fuel →
  read_fields fuel m (write_fields kvs +:+ CRLF +:+ rest) = Ok (foldl add_field m kvs, rest).
Proof.
  intros Hok. revert fuel m. induction Hok as [|kv kvs Hkv Hok IH]; intros [|fuel] m Hl; simpl in Hl;
    try lia; [done|].
  rewrite write_fields_cons. cbn [read_fields].
  pose proof Hkv as [H1 H2 H3 H4 H5 H6].
  rewrite read_line_CRLF by by apply field_line_free.
  replace (string_empty (field_line kv)) with false by (unfold field_line; by destruct kv.1).
  replace (free_of ":" (field_line kv)) with false
    by (unfold field_line; rewrite !free_of_app; simpl; by rewrite andb_false_r).
  rewrite trim_field by done. destruct (write_fields_head kvs rest Hok) as (c & s & Hs & Hc).
  rewrite Hs, continued_not_wsp, <- Hs by done. rewrite field_line_cut by done.
  unfold header_key. rewrite H1. destruct (string_empty kv.1) eqn:E; [by destruct kv.1|].
  change (string_forallb header_value_byte (" " +:+ kv.2)) with (string_forallb header_value_byte kv.2).
  rewrite H3. change (drop_wsp (" " +:+ kv.2)) with (drop_wsp kv.2). rewrite H5.
  by rewrite IH by lia.
Qed.

Lemma ReadMIMEHeader_written kvs rest :
  Forall field_ok kvs →
  ReadMIMEHeader (write_fields kvs +:+ CRLF +:+ rest) = Ok (foldl add_field ∅ kvs, rest).
Proof.
  intros Hok. destruct (write_fields_head kvs rest Hok) as (c & s & Hs & Hc).
  unfold ReadMIMEHeader. rewrite Hs, Hc, <- Hs. apply read_fields_written; [done|].
  assert (length kvs ≤ String.length (write_fields kvs)) as H.
  { clear. unfold write_fields. induction kvs as [|kv kvs IH]; simpl; [lia|].
    rewrite length_app_str. unfold write_field at 1.
    rewrite !length_app_str. change (String.length ": ") with 2. unfold concat_str, fmap in *. lia. }
  rewrite length_app_str. lia.
Qed.

(** ** Lemmas: parameters *)

(** The text of a value, quoted or a token. *)
Definition param_byte (c : ascii) : bool :=
  in_range 32 126 c && negb (bool_decide (c = QUOTE)) && negb (code c =? 92)%N.

Lemma param_byte_spec : ∀ c, bool_decide (param_byte c = true → header_value_byte c = true ∧
  c ≠ QUOTE ∧ c ≠ CR ∧ c ≠ LF ∧ (code c =? 92)%N = false) = true.
Proof. by_bytes. Qed.

Lemma consumeQuoted_plain v rest :
  string_forallb param_byte v = true → consumeQuoted (v +:+ String QUOTE rest) = Some (v, rest).
Proof.
  induction v as [|c v IH]; intros Hv; [by rewrite app_nil_l_str|].
  simpl in Hv. apply andb_true_iff in Hv as [Hc Hv]. rewrite app_cons_str. cbn [consumeQuoted].
  pose proof (param_byte_spec c) as H%bool_decide_eq_true. destruct (H Hc) as (_ & H1 & H2 & H3 & H4).
  rewrite !bool_decide_false by done. rewrite H4. simpl. rewrite IH by done.
  destruct (v +:+ String QUOTE rest); done.
Qed.

Lemma consumeToken_plain t c rest :
  string_forallb mime_token_char t = true → mime_token_char c = false →
  consumeToken (t +:+ String c rest) = (t, String c rest).
Proof.
  induction t as [|d t IH]; intros Ht Hc; [rewrite app_nil_l_str; simpl; by rewrite Hc|].
  simpl in Ht. apply andb_true_iff in Ht as [Hd Ht]. rewrite app_cons_str. simpl. by rewrite Hd, IH.
Qed.

Lemma consumeToken_all t : string_forallb mime_token_char t = true → consumeToken t = (t, "").
Proof.
  induction t as [|d t IH]; [done|]. simpl. rewrite andb_true_iff. intros [-> Ht]. by rewrite IH.
Qed.

(** A first byte that is not white space stops [TrimLeft]. *)
Definition not_space (c : ascii) : bool := (code c <? 128)%N && negb (space1 c).

Lemma trim_left_head c s : not_space c = true → trim_left (String c s) = String c s.
Proof.
  unfold not_space, trim_left. rewrite andb_true_iff, negb_true_iff. intros [Hc%N.ltb_lt Hs].
  assert (∀ n, (128 ≤ n)%N → (code c =? n)%N = false) as Hn by (intros n ?; apply N.eqb_neq; lia).
  simpl. rewrite Hs. destruct s as [|d s]; [done|]. unfold space2, space3. rewrite !Hn by lia.
  by destruct s.
Qed.

(** One parameter of a media type, as it is written. *)
Lemma consumeMediaParam_written key w v rest :
  string_forallb mime_token_char key = true → key ≠ "" → ToLower key = key →
  (∀ c s, key = String c s → not_space c = true) →
  (∃ c s, w = String c s ∧ not_space c = true) → consumeValue (w +:+ rest) = (v, rest) →
  consumeMediaParam ("; " +:+ key +:+ "=" +:+ w +:+ rest) = Some (key, v, rest).
Proof.
  intros Hk Hne Hlow Hhead (c & s & -> & Hc) Hv. unfold consumeMediaParam.
  destruct key as [|k key]; [done|]. specialize (Hhead k key eq_refl).
  change ("; " +:+ ?x) with (String ";"%char (String " "%char x)). rewrite trim_left_head by done.
  cbn [CutPrefix]. rewrite bool_decide_true by done. cbn [mbind option_bind].
  change (trim_left (String " "%char ?x)) with (trim_left x). rewrite app_cons_str, trim_left_head by done.
  rewrite <- app_cons_str. change ("=" +:+ ?x) with (String "="%char x).
  rewrite consumeToken_plain by done. cbn [string_empty].
  rewrite trim_left_head by done. cbn [CutPrefix]. rewrite bool_decide_true by done. cbn [mbind option_bind].
  rewrite app_cons_str, trim_left_head, <- app_cons_str, Hv by done.
  rewrite Hlow. rewrite (bool_decide_false (rest = _)), andb_false_r; [done|].
  intros H%(f_equal String.length). rewrite app_cons_str in H. simpl in H. rewrite length_app_str in H. lia.
Qed.

Lemma media_params_step fuel seen s key value rest :
  consumeMediaParam (String ";"%char s) = Some (key, value, rest) → seen !! key = None →
  media_params (S fuel) seen (String ";"%char s) = media_params fuel (<[key := value]> seen) rest.
Proof.
  intros H Hk. cbn [media_params]. rewrite trim_left_head by done. cbn [string_empty].
  by rewrite H, Hk.
Qed.

Lemma media_params_nil fuel seen : media_params fuel seen "" = Some seen.
Proof. by destruct fuel. Qed.

Lemma consumeValue_quoted v rest :
  string_forallb param_byte v = true → consumeValue (quote_param v +:+ rest) = (v, rest).
Proof.
  intros Hv. unfold quote_param. rewrite app_cons_str, app_assoc_str.
  change (str1 QUOTE +:+ rest) with (String QUOTE rest). unfold consumeValue.
  rewrite bool_decide_true by done. by rewrite consumeQuoted_plain.
Qed.

(** A quoted parameter with one of the names in use. *)
Lemma quoted_param_step fuel seen key v rest :
  key ∈ ["name"; "filename"] → string_forallb param_byte v = true → seen !! key = None →
  media_params (S fuel) seen ("; " +:+ key +:+ "=" +:+ quote_param v +:+ rest) =
    media_params fuel (<[key := v]> seen) rest.
Proof.
  intros Hkey Hv Hs. change ("; " +:+ ?x) with (String ";"%char (" " +:+ x)).
  apply media_params_step; [|done]. change (String ";"%char (" " +:+ ?x)) with ("; " +:+ x).
  assert (string_forallb mime_token_char key = true ∧ key ≠ "" ∧ ToLower key = key ∧
    ∀ c s, key = String c s → not_space c = true) as (H1 & H2 & H3 & H4).
  { set_unfold in Hkey. destruct Hkey as [->|[->|[]]]; (split_and!; [done..|]); by intros c s [= <- <-]. }
  apply consumeMediaParam_written; [done..| |by apply consumeValue_quoted].
  by eexists _, _.
Qed.

Lemma list_filter_none {A} (f : A → bool) l : Forall (λ x, f x = false) l → List.filter f l = [].
Proof. induction 1 as [|x l Hx _ IH]; [done|]. simpl. by rewrite Hx. Qed.
Lemma list_filter_all {A} (f : A → bool) l : Forall (λ x, f x = true) l → List.filter f l = l.
Proof. induction 1 as [|x l Hx _ IH]; [done|]. simpl. by rewrite Hx, IH. Qed.

(** Parameters without stars are taken as they are. *)
Lemma stitch_plain (m : gmap string string) :
  map_Forall (λ k _, free_of STAR k = true) m → stitch m = m.
Proof.
  intros Hm. unfold stitch.
  assert (Forall (λ kv : string * string, free_of STAR kv.1 = true) (map_to_list m)) as Hl.
  { apply Forall_forall. intros [k v] Hkv. apply elem_of_map_to_list in Hkv. by apply (Hm k v). }
  rewrite (list_filter_all _ _ Hl), list_filter_none; [by rewrite list_to_map_to_list|].
  eapply Forall_impl; [exact Hl|]. by intros kv ->.
Qed.

Lemma media_type_params_cut base rest :
  free_of ";"%char base = true → checkMediaTypeDisposition (TrimSpace (ToLower base)) = true →
  media_type_params (base +:+ String ";"%char rest) =
    (params ← media_params (S (String.length (base +:+ String ";"%char rest))) ∅ (String ";"%char rest);
     Some (TrimSpace (ToLower base), params)).
Proof.
  intros H1 H2. unfold media_type_params. rewrite Cut_free, H2 by done.
  replace (string_drop (String.length base) (base +:+ String ";"%char rest)) with (String ";"%char rest); [done|].
  clear. induction base as [|c s IH]; [by rewrite app_nil_l_str|]. by rewrite app_cons_str.
Qed.

Definition form_part_ok (p : form_part) : bool :=
  string_forallb param_byte (fp_name p) &&
  match fp_filename p with Some f => string_forallb param_byte f | None => true end &&
  match fp_type p with
  | Some t => negb (string_empty t) && string_forallb (λ c, in_range 33 126 c) t
  | None => true
  end.

Lemma disposition_params p :
  form_part_ok p = true → ∃ params, ParseMediaTypeParams (disposition p) = Some ("form-data", params) ∧
    params !! "name" = Some (fp_name p).
Proof.
  intros [[Hn Hf]%andb_true_iff _]%andb_true_iff. unfold ParseMediaTypeParams, disposition.
  change ("form-data; name=" +:+ ?x) with ("form-data" +:+ String ";"%char (" name=" +:+ x)).
  rewrite media_type_params_cut by done.
  change (String ";"%char (" name=" +:+ ?x)) with ("; " +:+ "name" +:+ "=" +:+ x).
  match goal with |- context [S (String.length ?s)] =>
    destruct (String.length s) as [|[|n]] eqn:Hlen; [by rewrite length_app_str in Hlen..|clear Hlen] end.
  rewrite quoted_param_step by (done || set_solver). destruct (fp_filename p) as [f|].
  - replace (quote_param f) with (quote_param f +:+ "") by apply app_nil_r_str.
    change ("; filename=" +:+ ?x) with ("; " +:+ "filename" +:+ "=" +:+ x).
    rewrite quoted_param_step by (done || set_solver). rewrite media_params_nil.
    eexists. split; [reflexivity|]. rewrite stitch_plain; [done|].
    apply map_Forall_insert_2; [done|]. apply map_Forall_insert_2; [done|]. apply map_Forall_empty.
  - rewrite media_params_nil. eexists. split; [reflexivity|].
    rewrite stitch_plain; [done|]. apply map_Forall_insert_2; [done|]. apply map_Forall_empty.
Qed.

Lemma disposition_end p : ∃ s, disposition p = s +:+ str1 QUOTE.
Proof.
  unfold disposition, quote_param. destruct (fp_filename p) as [f|].
  - exists ("form-data; name=" +:+ String QUOTE (fp_name p +:+ str1 QUOTE) +:+ "; filename=" +:+ String QUOTE f).
    by rewrite ?app_assoc_str, ?app_cons_str, ?app_assoc_str.
  - exists ("form-data; name=" +:+ String QUOTE (fp_name p)).
    by rewrite ?app_assoc_str, ?app_cons_str, ?app_nil_r_str.
Qed.

Lemma visible_spec : ∀ c, bool_decide (in_range 33 126 c = true → header_value_byte c = true ∧ wsp c = false) = true.
Proof. by_bytes. Qed.

(** A value of visible bytes. *)
Lemma visible_field key v :
  string_forallb token_byte key = true → key ≠ "" → v ≠ "" →
  string_forallb (λ c, in_range 33 126 c) v = true → field_ok (key, v).
Proof.
  intros Hk Hne Hv Hall.
  assert (∀ c, in_range 33 126 c = true → header_value_byte c = true ∧ wsp c = false) as Hs.
  { intros c. by pose proof (visible_spec c) as H%bool_decide_eq_true. }
  assert (∀ s, string_forallb (λ c, in_range 33 126 c) s = true → drop_wsp s = s) as Hd.
  { intros [|c s]; [done|]. cbn [string_forallb]. rewrite andb_true_iff. intros [Hc _].
    by apply drop_wsp_id, Hs. }
  split; cbn [fst snd]; [done..| |done|by apply Hd|apply Hd].
  - eapply string_forallb_impl; [|exact Hall]. intros c Hc. by apply Hs.
  - clear -Hall. induction v as [|c v IH]; [done|]. cbn [string_forallb] in Hall.
    apply andb_true_iff in Hall as [Hc Hv]. change (String c v) with (str1 c +:+ v).
    rewrite rev_app_distr_str, string_forallb_app, IH by done. cbn [str1 String.rev]. 
    unfold str1, String.rev. cbn [String.rev_app string_forallb]. by rewrite Hc.
Qed.

Lemma part_fields_ok p : form_part_ok p = true → Forall field_ok (part_fields p).
Proof.
  intros [[Hn Hf]%andb_true_iff Ht]%andb_true_iff. unfold part_fields.
  assert (∀ s, string_forallb param_byte s = true → string_forallb header_value_byte s = true) as Hv.
  { intros s. apply string_forallb_impl. intros c Hc. pose proof (param_byte_spec c) as H%bool_decide_eq_true.
    by apply H. }
  constructor.
  - split; cbn [fst snd]; [done|done| |done|done|].
    + unfold disposition, quote_param. destruct (fp_filename p) as [f|];
        repeat first [rewrite string_forallb_app | progress cbn [string_forallb]]; rewrite (Hv (fp_name p)) by done; [rewrite (Hv f) by done|]; done.
    + destruct (disposition_end p) as [s ->]. by rewrite rev_app_distr_str.
  - destruct (fp_type p) as [t|]; [|by constructor]. apply andb_true_iff in Ht as [Hne Ht].
    apply Forall_singleton, visible_field; [done..| |done]. by destruct t.
Qed.

Lemma FormName_written p :
  form_part_ok p = true → FormName (foldl add_field ∅ (part_fields p)) = fp_name p.
Proof.
  intros Hp. unfold FormName.
  assert (header_get (foldl add_field ∅ (part_fields p)) "Content-Disposition" = disposition p) as ->.
  { unfold part_fields. by destruct (fp_type p). }
  destruct (disposition_params p Hp) as (params & -> & Hn). by rewrite bool_decide_true, Hn.
Qed.

Lemma written_identity p :
  EqualFold (header_get (foldl add_field ∅ (part_fields p)) "Content-Transfer-Encoding")
    "quoted-printable" = false.
Proof. unfold part_fields. by destruct (fp_type p). Qed.

(** ** Reading a written form *)

Lemma token_char_spec : ∀ c, bool_decide (mime_token_char c = true → c ≠ QUOTE ∧ not_space c = true) = true.
Proof. by_bytes. Qed.

Definition boundary_ok (boundary : string) : bool :=
  string_forallb mime_token_char boundary && negb (string_empty boundary) &&
  (String.length boundary <? 4000).

Section Written.
Context (boundary : string) (Hboundary : boundary_ok boundary = true).

Lemma boundary_token : string_forallb mime_token_char boundary = true.
Proof. unfold boundary_ok in Hboundary. by apply andb_true_iff in Hboundary as [[? _]%andb_true_iff _]. Qed.

Lemma boundary_free b : mime_token_char b = false → free_of b boundary = true.
Proof. apply string_forallb_free, boundary_token. Qed.

Lemma boundary_short : String.length boundary < 4000.
Proof. unfold boundary_ok in Hboundary. apply andb_true_iff in Hboundary as [_ ?]. by apply Nat.ltb_lt. Qed.

(** A line that begins with the boundary. *)
Lemma boundary_slice suffix rest :
  free_of LF suffix = true → String.length suffix ≤ 2 →
  ReadSlice (dashBoundary boundary +:+ suffix +:+ CRLF +:+ rest) =
    SliceLine (dashBoundary boundary +:+ suffix +:+ CRLF) rest.
Proof.
  intros Hs Hl. pose proof boundary_short. rewrite <- (app_assoc_str _ suffix), ReadSlice_CRLF.
  - by rewrite app_assoc_str.
  - unfold dashBoundary. by rewrite !free_of_app, boundary_free, Hs.
  - unfold dashBoundary, peekBufferSize. rewrite !length_app_str. change (String.length "--") with 2. lia.
Qed.

Lemma seek_part fuel parts expect rest :
  seek (S fuel) boundary false parts expect (dashBoundary boundary +:+ CRLF +:+ rest) = Ok (false, rest).
Proof.
  cbn [seek]. pose proof (boundary_slice "" rest eq_refl ltac:(simpl; lia)) as Hs.
  rewrite !app_nil_l_str in Hs. rewrite Hs. unfold isBoundaryDelimiterLine.
  rewrite CutPrefix_app. change (drop_wsp CRLF) with CRLF.
  rewrite (bool_decide_false (CRLF = str1 LF)), andb_false_r by done. by rewrite bool_decide_true.
Qed.

Lemma seek_end fuel parts expect rest :
  seek (S fuel) boundary false parts expect (dashBoundary boundary +:+ "--" +:+ CRLF +:+ rest) = Err mp_EOF.
Proof.
  cbn [seek]. rewrite boundary_slice by (done || simpl; lia). unfold isBoundaryDelimiterLine.
  rewrite CutPrefix_app. change (drop_wsp ("--" +:+ CRLF)) with ("--" +:+ CRLF).
  rewrite (bool_decide_false ("--" +:+ CRLF = str1 LF)), andb_false_r by done.
  rewrite bool_decide_false by done. unfold isFinalBoundary.
  by rewrite <- (app_assoc_str _ "--"), CutPrefix_app.
Qed.

(** The line end behind a part's body. *)
Lemma seek_newline fuel parts s :
  parts ≠ 0 → seek (S fuel) boundary false parts false (CRLF +:+ s) = seek fuel boundary false parts true s.
Proof.
  intros Hparts. cbn [seek]. rewrite <- (app_nil_l_str CRLF), app_assoc_str, ReadSlice_CRLF by (done || (unfold peekBufferSize; simpl; lia)).
  unfold isBoundaryDelimiterLine, isFinalBoundary.
  rewrite !(CutPrefix_None ("" +:+ CRLF)) by by intros r.
  by rewrite bool_decide_false, bool_decide_true.
Qed.

(** Where the reader stands between two parts. *)
Definition at_form (n : nat) (ps : list form_part) : Reader :=
  mkReader boundary false n ((if bool_decide (n = 0) then "" else CRLF) +:+ write_form boundary ps).

Lemma seek_form fuel n s :
  (∀ fuel expect, seek (S fuel) boundary false n expect s = seek 1 boundary false n false s) →
  seek (S (S fuel)) boundary false n false ((if bool_decide (n = 0) then "" else CRLF) +:+ s) =
    seek 1 boundary false n false s.
Proof.
  intros Hs. case_bool_decide; [by rewrite app_nil_l_str|]. by rewrite seek_newline.
Qed.

Lemma write_form_cons p ps :
  write_form boundary (p :: ps) = dashBoundary boundary +:+ CRLF +:+
    (write_fields (part_fields p) +:+ CRLF +:+ (fp_data p +:+ CRLF +:+ write_form boundary ps)).
Proof. unfold write_form, write_part, write_fields. simpl. by rewrite !app_assoc_str. Qed.

Lemma write_form_dash ps : ∃ tail, write_form boundary ps = dashBoundary boundary +:+ tail ∧
  matchAfterPrefix tail = Some true.
Proof. destruct ps as [|p ps]; [by eexists|]. rewrite write_form_cons. by eexists. Qed.

Lemma length_form n ps : ∃ fuel, String.length (mr_rest (at_form n ps)) = S fuel.
Proof.
  destruct (write_form_dash ps) as (tail & H & _). unfold at_form. cbn [mr_rest]. rewrite H.
  rewrite length_app_str. unfold dashBoundary. rewrite !length_app_str. change (String.length "--") with 2.
  eexists. rewrite Nat.add_comm. simpl. reflexivity.
Qed.

Lemma NextPart_written n p ps :
  form_part_ok p = true →
  NextPart (at_form n (p :: ps)) = Ok (foldl add_field ∅ (part_fields p),
    mkReader boundary false (S n) (fp_data p +:+ CRLF +:+ write_form boundary ps)).
Proof.
  intros Hp. unfold NextPart. destruct (length_form n (p :: ps)) as [fuel ->].
  unfold at_form. cbn [mr_rest mr_boundary mr_lf mr_partsRead].
  rewrite seek_form; rewrite write_form_cons; [|intros; by rewrite !seek_part].
  rewrite seek_part. cbn [mbind result_bind].
  by rewrite ReadMIMEHeader_written by by apply part_fields_ok.
Qed.

Lemma NextPart_end n : NextPart (at_form n []) = Err mp_EOF.
Proof.
  unfold NextPart. destruct (length_form n []) as [fuel ->].
  unfold at_form. cbn [mr_rest mr_boundary mr_lf mr_partsRead].
  change (write_form boundary []) with (dashBoundary boundary +:+ "--" +:+ CRLF +:+ "").
  rewrite seek_form; [|intros; by rewrite !seek_end]. by rewrite seek_end.
Qed.

Lemma ReadAll_written quoted_printable n p ps :
  data_ok boundary (fp_data p) = true →
  ReadAll quoted_printable (foldl add_field ∅ (part_fields p))
    (mkReader boundary false (S n) (fp_data p +:+ CRLF +:+ write_form boundary ps)) =
    Some (fp_data p, at_form (S n) ps).
Proof.
  intros Hd. unfold ReadAll. cbn [mr_boundary mr_lf mr_rest mr_partsRead].
  destruct (write_form_dash ps) as (tail & Hw & Ht). rewrite Hw.
  rewrite part_body_data by (done || by apply boundary_free). cbn [mbind option_bind].
  rewrite written_identity. cbn [mbind option_bind]. unfold at_form. by rewrite Hw.
Qed.

Lemma boundary_params :
  ParseMediaTypeParams ("multipart/form-data; boundary=" +:+ boundary) =
    Some ("multipart/form-data", {[ "boundary" := boundary ]}).
Proof.
  pose proof boundary_token as Htok. unfold ParseMediaTypeParams.
  change ("multipart/form-data; boundary=" +:+ ?x) with
    ("multipart/form-data" +:+ String ";"%char (" boundary=" +:+ x)).
  rewrite media_type_params_cut, length_app_str by done.
  change (String.length "multipart/form-data") with 19.
  replace boundary with (boundary +:+ "") at 2 by apply app_nil_r_str.
  cbn [Nat.add]. rewrite (media_params_step _ _ _ "boundary" boundary ""); [| |done].
  - rewrite media_params_nil. cbn [mbind option_bind]. rewrite stitch_plain; [done|].
    apply map_Forall_insert_2; [done|]. apply map_Forall_empty.
  - change (String ";"%char (" boundary=" +:+ ?x)) with ("; " +:+ "boundary" +:+ "=" +:+ x).
    assert (∃ c s, boundary = String c s ∧ mime_token_char c = true) as (c & s & Hc & Hcc).
    { unfold boundary_ok in Hboundary. destruct boundary as [|c s]; [done|].
      apply andb_true_iff in Htok as [? _]. by eexists _, _. }
    pose proof (token_char_spec c) as Hspec%bool_decide_eq_true. destruct (Hspec Hcc) as [Hq Hn].
    apply consumeMediaParam_written; [done..| | |].
    + by intros ? ? [= <- <-].
    + by exists c, s.
    + rewrite app_nil_r_str, <- (consumeToken_all boundary), Hc by done. cbn [consumeValue].
      by rewrite bool_decide_false.
Qed.
End Written.

(** ** Every part is shorter than what was left *)

Lemma Cut_length sep s before after found :
  Cut sep s = (before, after, found) →
  String.length s = String.length before + String.length after + (if found : bool then 1 else 0).
Proof.
  revert before after found. induction s as [|c s IH]; intros before after found H; [by injection H as <- <- <-|].
  simpl in H. case_bool_decide; [injection H as <- <- <-; simpl; lia|].
  destruct (Cut sep s) as [[b a] f]. injection H as <- <- <-. simpl. by rewrite (IH _ _ _ eq_refl).
Qed.

Lemma read_line_length s line rest : read_line s = Some (line, rest) → String.length rest < String.length s.
Proof.
  unfold read_line. destruct s as [|c s]; [done|]. cbn [string_empty].
  destruct (Cut LF (String c s)) as [[b a] f] eqn:E. intros [= _ <-]. pose proof (Cut_length _ _ _ _ _ E) as H.
  destruct f; [lia|]. enough (a = "") as -> by (simpl; lia).
  clear H. revert b a E. generalize (String c s). clear. intros s. induction s as [|c s IH]; intros b a E.
  - by injection E as <- <-.
  - simpl in E. case_bool_decide; [done|]. destruct (Cut LF s) as [[b' a'] f] eqn:E'.
    injection E as <- <- ->. by eapply IH.
Qed.

Lemma drop_wsp_length s : String.length (drop_wsp s) ≤ String.length s.
Proof. induction s as [|c s IH]; [done|]. simpl. destruct (wsp c); simpl; lia. Qed.

Lemma continued_length fuel kv s : String.length (continued fuel kv s).2 ≤ String.length s.
Proof.
  revert kv s. induction fuel as [|fuel IH]; intros kv [|c s]; [done..|]. simpl.
  destruct (wsp c); [|done]. destruct (read_line (drop_wsp s)) as [[line rest]|] eqn:E; [|simpl; lia].
  apply read_line_length in E. pose proof (drop_wsp_length s). etrans; [apply IH|]. lia.
Qed.

Lemma read_fields_length fuel m s header rest :
  read_fields fuel m s = Ok (header, rest) → String.length rest < String.length s.
Proof.
  revert m s. induction fuel as [|fuel IH]; intros m s H; [done|]. cbn [read_fields] in H.
  destruct (read_line s) as [[line r]|] eqn:E; [|done]. apply read_line_length in E.
  destruct (string_empty line); [by injection H as _ <-|]. destruct (free_of _ line); [done|].
  pose proof (continued_length (String.length r) (trim_wsp line) r) as Hc.
  destruct (continued _ _ r) as [kv r']. simpl in Hc. destruct (Cut _ kv) as [[k v] ?].
  destruct (header_key k); [|done]. destruct (string_forallb _ v); [|done].
  apply IH in H. lia.
Qed.

Lemma ReadMIMEHeader_length s header rest :
  ReadMIMEHeader s = Ok (header, rest) → String.length rest < String.length s.
Proof.
  unfold ReadMIMEHeader. destruct s as [|c s]; [done|]. destruct (wsp c); [done|]. apply read_fields_length.
Qed.

Lemma seek_length fuel boundary lf parts expect s lf' rest :
  seek fuel boundary lf parts expect s = Ok (lf', rest) → String.length rest < String.length s.
Proof.
  revert lf expect s. induction fuel as [|fuel IH]; intros lf expect s H; [done|]. cbn [seek] in H.
  destruct (ReadSlice s) as [line r| |] eqn:E; [|done..].
  assert (String.length r < String.length s) as Hr.
  { unfold ReadSlice in E. destruct (Cut LF s) as [[l a] []] eqn:Hc; apply Cut_length in Hc;
      destruct (String.length l <? peekBufferSize); try done. injection E as <- <-. lia. }
  destruct (isBoundaryDelimiterLine _ _ _ _) as [[] lf2]; [by injection H as <- <-|].
  repeat case_match; try done; apply IH in H; lia.
Qed.

Lemma NextPart_length r header r' :
  NextPart r = Ok (header, r') → String.length (mr_rest r') < String.length (mr_rest r).
Proof.
  unfold NextPart. destruct (seek _ _ _ _ _ _) as [[lf s]|] eqn:Hs; [|done]. cbn [mbind result_bind].
  destruct (ReadMIMEHeader s) as [[hd s']|] eqn:Hh; [|done]. intros [= _ <-]. cbn [mr_rest].
  apply seek_length in Hs. apply ReadMIMEHeader_length in Hh. lia.
Qed.

Lemma scan_length fuel sep s data rest :
  scanUntilBoundary fuel sep s = Some (data, rest) → String.length rest ≤ String.length s.
Proof.
  revert s data. induction fuel as [|fuel IH]; intros [|c s] data H; [done..|]. cbn [scanUntilBoundary] in H.
  destruct (CutPrefix (String c s) sep) as [after|] eqn:E.
  - destruct (matchAfterPrefix after) as [[]|]; [by injection H as _ <-| |done].
    apply CutPrefix_Some in E. rewrite E, length_app_str. cbn [mbind option_bind] in H. unfold prepend in H.
    destruct (scanUntilBoundary fuel sep after) as [[d r]|] eqn:Hs; [|done]. injection H as _ <-.
    apply IH in Hs. lia.
  - unfold prepend in H. destruct (scanUntilBoundary fuel sep s) as [[d r]|] eqn:Hs; [|done].
    injection H as _ <-. apply IH in Hs. simpl. lia.
Qed.

Lemma ReadAll_length quoted_printable header r data r' :
  ReadAll quoted_printable header r = Some (data, r') → String.length (mr_rest r') ≤ String.length (mr_rest r).
Proof.
  unfold ReadAll. destruct (part_body _ _ _) as [[raw rest]|] eqn:E; [|done]. cbn [mbind option_bind].
  destruct (if EqualFold _ _ then _ else _) as [d|]; [|done]. intros [= _ <-]. cbn [mr_rest].
  unfold part_body in E. destruct (CutPrefix (mr_rest r) _) as [after|] eqn:Hc; [|by eapply scan_length].
  destruct (matchAfterPrefix after) as [[]|]; [by injection E as _ <-| |done].
  apply CutPrefix_Some in Hc. rewrite Hc, length_app_str. cbn [mbind option_bind] in E. unfold prepend in E.
  destruct (scanUntilBoundary _ _ after) as [[d2 r2]|] eqn:Hs; [|done]. injection E as _ <-.
  apply scan_length in Hs. lia.
Qed.
