(* ===== verification/Fixtures.v ===== *)
(** The fixtures of the SDK suites: [internal/testutil/fixtures.go].

    A fixture says which request a case makes and which response it gets.  The
    order in which Go visits a map is an argument. *)
From stdpp Require Import sorting.
From S2P Require Import Prelude GoStrings GoHttp JsonString Json Float64 Any Errors Backend Generator.
From S2P Require Import JsonRound DecodeSound Base64 Multipart.

Record SemanticFixture := mkSemantic {
  sf_Operation : string;
  sf_Capability : string;
  sf_RequestMedia : string;
  sf_Parameters : gmap string string;
  sf_BodyJSON : string;
  sf_BodyFields : list string;
  sf_ResponseStatus : Z;
  sf_ResponseMedia : string;
  sf_ResponseBody : string }.

(** The errors, each with what its text shows beside the operation. *)
Inductive case_error :=
| CaseReached (operation capability requested : string)
| CaseMediaType (operation got want : string)
| CaseParameters (operation : string) (got want : gmap string string)
| CaseParameter (operation name got want : string)
| CaseJSONBody (operation got want : string)
| CaseContentType (operation contentType : string)
| CaseMultipartBody (operation : string)
| CaseEmptyField (operation name : string)
| CaseMissingField (operation name : string)
| CaseEmptyBinary (operation : string)
| CaseResponseFixture (operation : string)
| CaseResponseJSON (operation : string)
| UnknownCase (name : string).

(** ** Comparing JSON *)

(** [json.Unmarshal] into an [any], and into a string, which [null] leaves
    empty. *)
Definition unmarshal_any (data : string) : option any := v ← parse data; any_of v.
Definition unmarshal_string (data : string) : option string :=
  match parse data with
  | Some (JString s) => Some s
  | Some JNull => Some ""
  | _ => None
  end.

(** [==] on float64, which does not see the sign of zero. *)
Definition float_eqb (f g : float64) : bool :=
  ((f_mant f =? 0) && (f_mant g =? 0))%Z || bool_decide (f = g).

(** [reflect.DeepEqual] on decoded documents. *)
Fixpoint DeepEqual (a b : any) : bool :=
  match a, b with
  | ANil, ANil => true
  | ABool x, ABool y => bool_decide (x = y)
  | AFloat x, AFloat y => float_eqb x y
  | AString x, AString y => bool_decide (x = y)
  | ASlice l, ASlice l' =>
      (fix go (l l' : list any) : bool :=
         match l, l' with
         | [], [] => true
         | x :: l, y :: l' => DeepEqual x y && go l l'
         | _, _ => false
         end) l l'
  | AMap m, AMap m' =>
      (length m =? length m') &&
      (fix go (m : list (string * any)) : bool :=
         match m with
         | [] => true
         | (k, x) :: m =>
             match map_get k m' with Some y => DeepEqual x y | None => false end && go m
         end) m
  | _, _ => false
  end.

(** ** The checks of a request *)

Definition firstHeader (request : Request) (name : string) : string :=
  match Extensions (req_Metadata request) !! name with Some (v :: _) => v | _ => "" end.

(** The loop of [assertParameters] over the entries in the order they are visited. *)
Fixpoint check_parameters (operation : string) (got : gmap string string)
    (wants : list (string * string)) : result case_error () :=
  match wants with
  | [] => Ok ()
  | (name, want) :: wants =>
      let value := unmarshal_string (default "" (got !! name)) in
      if bool_decide (value = Some want) then check_parameters operation got wants
      else Err (CaseParameter operation name (default "" value) want)
  end.

Definition assertParameters (visited : list (string * string)) (f : SemanticFixture) (request : Request)
    : result case_error () :=
  if bool_decide (size (req_Parameters request) ≠ size (sf_Parameters f))
  then Err (CaseParameters (sf_Operation f) (req_Parameters request) (sf_Parameters f))
  else check_parameters (sf_Operation f) (req_Parameters request) visited.

(** The name of a field without its brackets: [image[]] and [tool[type]]. *)
Definition field_name (form_name : string) : string := (Cut "["%char (TrimSuffix form_name "[]")).1.1.

Section Fixtures.
Context (quoted_printable : string → option string).

(** The loop over the parts; every part takes at least a byte, so that [fuel]
    beyond the length of the body is enough. *)
Fixpoint read_parts (fuel : nat) (operation : string) (r : Reader) (seen : list string)
    : result case_error (list string) :=
  match fuel with
  | O => Err (CaseMultipartBody operation)
  | S fuel =>
      match NextPart r with
      | Err mp_EOF => Ok seen
      | Err mp_Malformed => Err (CaseMultipartBody operation)
      | Ok (header, r) =>
          let name := field_name (FormName header) in
          match ReadAll quoted_printable header r with
          | Some (data, r) =>
              if string_empty data then Err (CaseEmptyField operation name)
              else read_parts fuel operation r (name :: seen)
          | None => Err (CaseEmptyField operation name)
          end
      end
  end.

Definition assertMultipartFields (f : SemanticFixture) (request : Request) : result case_error () :=
  let contentType := firstHeader request "Content-Type" in
  let boundary := match ParseMediaTypeParams contentType with
                  | Some (_, parameters) => default "" (parameters !! "boundary")
                  | None => ""
                  end in
  if string_empty boundary then Err (CaseContentType (sf_Operation f) contentType) else
  let body := in_Bytes (req_Input request) in
  seen ← read_parts (S (String.length body)) (sf_Operation f) (NewReader boundary body) [];
  match List.find (λ name, negb (bool_decide (name ∈ seen))) (sort_Strings (sf_BodyFields f)) with
  | Some name => Err (CaseMissingField (sf_Operation f) name)
  | None => Ok ()
  end.

Definition assertJSON (f : SemanticFixture) (request : Request) : result case_error () :=
  let got := in_Bytes (req_Input request) in
  match unmarshal_any (sf_BodyJSON f), unmarshal_any got with
  | Some want, Some value =>
      if DeepEqual want value then Ok () else Err (CaseJSONBody (sf_Operation f) got (sf_BodyJSON f))
  | _, _ => Err (CaseJSONBody (sf_Operation f) got (sf_BodyJSON f))
  end.

Definition assertRequest (visited : list (string * string)) (f : SemanticFixture) (request : Request)
    : result case_error () :=
  if negb (bool_decide (req_Operation request = sf_Operation f)) ||
     negb (bool_decide (req_Capability request = sf_Capability f))
  then Err (CaseReached (sf_Operation f) (req_Capability request) (req_Operation request)) else
  if negb (bool_decide (in_MediaType (req_Input request) = sf_RequestMedia f))
  then Err (CaseMediaType (sf_Operation f) (in_MediaType (req_Input request)) (sf_RequestMedia f)) else
  assertParameters visited f request;;
  (if string_empty (sf_BodyJSON f) then Ok () else assertJSON f request);;
  (match sf_BodyFields f with [] => Ok () | _ => assertMultipartFields f request end);;
  (if negb (string_empty (sf_RequestMedia f)) && negb (Contains (sf_RequestMedia f) "json") &&
      negb (bool_decide (sf_RequestMedia f = "multipart/form-data")) &&
      string_empty (in_Bytes (req_Input request))
   then Err (CaseEmptyBinary (sf_Operation f)) else Ok ()).
End Fixtures.

(** ** The response *)

(** [io.NopCloser(bytes.NewReader(body))] is a struct around the reader. *)
Definition body_reader (body : string) : interface string := Some (Dyn KStruct false body).

Definition fixture_response (f : SemanticFixture) : result case_error Response :=
  match DecodeString (sf_ResponseBody f) with
  | None => Err (CaseResponseFixture (sf_Operation f))
  | Some body =>
      let answer json reader :=
        mkResponse (sf_ResponseStatus f) ∅ (sf_ResponseMedia f) json reader None in
      if string_empty body then Ok (answer "" None)
      else if Contains (sf_ResponseMedia f) "json" then
        if bool_decide (is_Some (parse body)) then Ok (answer body None)
        else Err (CaseResponseJSON (sf_Operation f))
      else Ok (answer "" (body_reader body))
  end.

(** ** Lemmas: comparing JSON *)

(** Zeros without their sign. *)
Definition unsign_float (f : float64) : float64 := if (f_mant f =? 0)%Z then mkFloat false 0 0 else f.
Fixpoint unsign (a : any) : any :=
  match a with
  | AFloat f => AFloat (unsign_float f)
  | ASlice l => ASlice (List.map unsign l)
  | AMap m => AMap (List.map (λ kv, (kv.1, unsign kv.2)) m)
  | _ => a
  end.

Lemma float_eqb_spec f g : float_eqb f g = true ↔ unsign_float f = unsign_float g.
Proof.
  unfold float_eqb, unsign_float. rewrite orb_true_iff, andb_true_iff, bool_decide_eq_true.
  destruct (f_mant f =? 0)%Z eqn:Hf, (f_mant g =? 0)%Z eqn:Hg.
  - naive_solver.
  - split; [intros [[? ?]| ->]; congruence|]. intros <-. by simpl in Hg.
  - split; [intros [[? ?]| ->]; congruence|]. intros ->. by simpl in Hf.
  - naive_solver.
Qed.

Lemma DeepEqual_slice l l' :
  DeepEqual (ASlice l) (ASlice l') = true ↔ Forall2 (λ x y, DeepEqual x y = true) l l'.
Proof.
  simpl. revert l'. induction l as [|x l IH]; intros [|y l'].
  - split; [by constructor|done].
  - split; [done|]. by intros H%Forall2_nil_inv_l.
  - split; [done|]. by intros H%Forall2_nil_inv_r.
  - rewrite andb_true_iff, IH, Forall2_cons. done.
Qed.

Lemma DeepEqual_map m m' :
  DeepEqual (AMap m) (AMap m') = true ↔ length m = length m' ∧
    Forall (λ kx, ∃ y, map_get kx.1 m' = Some y ∧ DeepEqual kx.2 y = true) m.
Proof.
  simpl. rewrite andb_true_iff, Nat.eqb_eq. apply and_iff_compat_l.
  induction m as [|[k x] m IH]; [by split; [constructor|]|].
  rewrite andb_true_iff, IH, Forall_cons. apply and_iff_compat_r. simpl.
  destruct (map_get k m'); naive_solver.
Qed.

(** Sorted maps with the same entries are equal. *)
Lemma sorted_map_eq {A} (m m' : list (string * A)) :
  sorted_map m → sorted_map m' → length m = length m' → (∀ kv, kv ∈ m → kv ∈ m') → m = m'.
Proof.
  intros Hm Hm' Hl Hin.
  assert (m ≡ₚ m') as Hp.
  { apply submseteq_length_Permutation; [|lia]. apply NoDup_submseteq; [|done].
    by eapply NoDup_fmap_1, sorted_NoDup. }
  eapply StronglySorted_unique_strong; [|done..]. intros x y _ _ H1 H2. unfold key_lt in *.
  pose proof (string_ltb_asymm _ _ H1). congruence.
Qed.

(** [DeepEqual] is equality of the documents up to the sign of zeros. *)
Lemma DeepEqual_spec a b :
  well_keyed a = true → well_keyed b = true → DeepEqual a b = true ↔ unsign a = unsign b.
Proof.
  revert b. induction a as [|x|x|x|l IH|m IH] using any_nested_ind;
    intros [|y|y|y|l'|m'] Ha Hb; try (by split).
  - simpl. rewrite bool_decide_eq_true. naive_solver.
  - simpl. rewrite float_eqb_spec. split; [by intros ->|by intros [= ?]].
  - simpl. rewrite bool_decide_eq_true. naive_solver.
  - rewrite DeepEqual_slice. apply well_keyed_slice in Ha, Hb. cbn [unsign].
    transitivity (List.map unsign l = List.map unsign l'); [|split; [by intros ->|by intros [= ?]]].
    revert l' Hb. induction IH as [|x l Hx _ IHl]; intros [|y l'] Hb; simpl.
    + split; [done|by constructor].
    + split; [by intros H%Forall2_nil_inv_l|done].
    + split; [by intros H%Forall2_nil_inv_r|done].
    + apply Forall_cons in Ha as [Hxk Ha], Hb as [Hyk Hb].
      rewrite Forall2_cons, (Hx _ Hxk Hyk), (IHl Ha _ Hb). split; [by intros [-> ->]|by intros [= ? ?]].
  - rewrite DeepEqual_map. apply well_keyed_map in Ha as [Hs Ha], Hb as [Hs' Hb]. cbn [unsign].
    rewrite Forall_forall in IH, Ha, Hb. rewrite Forall_forall. split.
    + intros [Hl Hall]. f_equal. apply sorted_map_eq; [by apply sorted_map_map..|by rewrite !length_map|].
      intros kv (kx & <- & Hkx%list_elem_of_In)%list_elem_of_In%in_map_iff.
      destruct (Hall kx Hkx) as (y & Hy & Heq). apply map_get_In in Hy.
      apply list_elem_of_In, in_map_iff. exists (kx.1, y). split; [|by apply list_elem_of_In].
      simpl. f_equal. symmetry. by apply (IH kx Hkx); [apply Ha|apply (Hb (kx.1, y))|].
    + intros [= Heq]. split; [by rewrite <- (length_map (λ kv, (kv.1, unsign kv.2))), Heq, length_map|].
      intros [k x] Hkx. pose proof (map_get_map unsign k m) as H1. pose proof (map_get_map unsign k m') as H2.
      rewrite Heq, H2 in H1.
      assert (map_get k m = Some x) as Hx by (apply map_get_NoDup; [by apply sorted_NoDup|done]).
      rewrite Hx in H1. destruct (map_get k m') as [y|] eqn:Hy; [|done]. injection H1 as Hxy.
      exists y. split; [done|]. apply map_get_In in Hy.
      by apply (IH (k, x) Hkx); [apply (Ha (k, x))|apply (Hb (k, y))|].
Qed.

(** What is decoded has its maps sorted. *)
Lemma encodable_well_keyed a : encodable a = true → well_keyed a = true.
Proof.
  induction a as [|x|x|x|l IH|m IH] using any_nested_ind; intros H; [done..| |]; simpl in H |- *.
  - rewrite forallb_forall in H. apply forallb_forall. rewrite Forall_forall in IH.
    intros x Hx. apply IH; [by apply list_elem_of_In|auto].
  - apply andb_true_iff in H as [-> H]. rewrite forallb_forall in H. apply forallb_forall.
    rewrite Forall_forall in IH. intros x Hx. apply IH; [by apply list_elem_of_In|].
    specialize (H x Hx). by apply andb_true_iff in H as [_ H].
Qed.

Lemma unmarshal_any_well_keyed data a : unmarshal_any data = Some a → well_keyed a = true.
Proof. intros H. apply encodable_well_keyed. by destruct (decoded_lossless data a H). Qed.

(** ** Lemmas: reading parts *)

Section Reading.
Context (quoted_printable : string → option string).

(** More fuel than the body is long changes nothing. *)
Lemma read_parts_fuel fuel fuel' operation r seen :
  String.length (mr_rest r) < fuel → String.length (mr_rest r) < fuel' →
  read_parts quoted_printable fuel operation r seen = read_parts quoted_printable fuel' operation r seen.
Proof.
  revert fuel' r seen. induction fuel as [|fuel IH]; intros [|fuel'] r seen H1 H2; try lia. cbn [read_parts].
  destruct (NextPart r) as [[header r']|] eqn:E; [|done]. apply NextPart_length in E.
  destruct (ReadAll quoted_printable header r') as [[data r'']|] eqn:E2; [|done]. apply ReadAll_length in E2.
  destruct (string_empty data); [done|]. apply IH; lia.
Qed.

Definition form_field (p : form_part) : string := field_name (fp_name p).

(** Parts that can be written: their names and data keep within the format. *)
Definition writable (boundary : string) (p : form_part) : Prop :=
  form_part_ok p = true ∧ data_ok boundary (fp_data p) = true.

Definition no_data (p : form_part) : bool := string_empty (fp_data p).

Lemma read_parts_written boundary fuel operation n ps seen :
  boundary_ok boundary = true → Forall (writable boundary) ps → length ps < fuel →
  read_parts quoted_printable fuel operation (at_form boundary n ps) seen =
    match List.find no_data ps with
    | Some p => Err (CaseEmptyField operation (form_field p))
    | None => Ok (reverse (form_field <$> ps) ++ seen)
    end.
Proof.
  intros HB Hps. revert fuel n seen. induction Hps as [|p ps [Hp Hd] _ IH]; intros [|fuel] n seen Hl;
    simpl in Hl; try lia; cbn [read_parts]; [by rewrite NextPart_end|].
  rewrite NextPart_written, FormName_written, ReadAll_written by done. cbv beta iota zeta. cbn [List.find].
  unfold no_data at 1.
  destruct (string_empty (fp_data p)); [done|]. rewrite IH by lia.
  destruct (List.find no_data ps); [done|]. by rewrite fmap_cons, reverse_cons, <- (assoc_L (++)).
Qed.

Lemma length_written boundary ps : length ps ≤ String.length (write_form boundary ps).
Proof.
  induction ps as [|p ps IH]; [simpl; lia|]. rewrite write_form_cons.
  rewrite !length_app_str. change (String.length CRLF) with 2. simpl. lia.
Qed.
End Reading.

(** ** Lemmas: sorted names *)

Lemma sort_Strings_sorted l : StronglySorted string_le (sort_Strings l).
Proof.
  apply StronglySorted_merge_sort; unfold string_le.
  - intros a b c H1 H2. apply not_true_iff_false. intros H3.
    destruct (string_ltb_total _ _ H1) as [->|E]; [congruence|].
    by rewrite (string_ltb_trans _ _ _ H3 E) in H2.
  - intros a b. unfold string_le. destruct (string_ltb b a) eqn:E; [right|by left].
    by apply string_ltb_asymm.
Qed.

Lemma elem_of_sort_Strings x l : x ∈ sort_Strings l ↔ x ∈ l.
Proof. unfold sort_Strings. by rewrite merge_sort_Permutation. Qed.

(** Searching a sorted list finds the least name. *)
Lemma find_least (P : string → bool) l name :
  List.find P (sort_Strings l) = Some name ↔
    name ∈ l ∧ P name = true ∧ ∀ other, other ∈ l → P other = true → string_ltb other name = false.
Proof.
  setoid_rewrite <- elem_of_sort_Strings. pose proof (sort_Strings_sorted l) as Hs. revert Hs.
  generalize (sort_Strings l). clear l. intros l Hs. induction Hs as [|x l _ IH Hx].
  - split; [done|]. by intros [?%elem_of_nil _].
  - simpl. rewrite Forall_forall in Hx. destruct (P x) eqn:HP.
    + split.
      * intros [= <-]. split_and!; [by left|done|]. intros other [->|Ho]%elem_of_cons _; [apply string_ltb_irrefl|].
        by apply Hx.
      * intros (Hin & HPn & Hleast). f_equal. apply elem_of_cons in Hin as [->|Hin]; [done|].
        destruct (string_ltb_total x name) as [?|Hlt]; [|done|].
        -- apply Hleast; [by left|done].
        -- pose proof (Hx _ Hin) as H. unfold string_le in H. congruence.
    + rewrite IH. split.
      * intros (H1 & H2 & H3). split_and!; [by right|done|].
        intros other [->|Ho]%elem_of_cons HPo; [congruence|auto].
      * intros (H1 & H2 & H3). split_and!; [|done|].
        -- apply elem_of_cons in H1 as [->|H1]; [congruence|done].
        -- intros other Ho HPo. apply H3; [by right|done].
Qed.

Lemma find_None {A} (P : A → bool) l : List.find P l = None ↔ Forall (λ x, P x = false) l.
Proof.
  induction l as [|x l IH]; simpl; [by split; [constructor|]|]. rewrite Forall_cons, <- IH.
  destruct (P x); naive_solver.
Qed.

Lemma find_first {A} (P : A → bool) l x :
  List.find P l = Some x ↔ ∃ before behind, l = before ++ x :: behind ∧ P x = true ∧
    Forall (λ y, P y = false) before.
Proof.
  split.
  - induction l as [|y l IH]; [done|]. simpl. destruct (P y) eqn:E.
    + intros [= <-]. by exists [], l.
    + intros (before & behind & -> & H1 & H2)%IH. exists (y :: before), behind. split_and!; [done..|by constructor].
  - intros (before & behind & -> & H1 & H2). induction H2 as [|y l Hy _ IH]; simpl; [by rewrite H1|by rewrite Hy].
Qed.

(** ** Lemmas: parameters *)

Lemma check_parameters_Ok operation got wants :
  check_parameters operation got wants = Ok () ↔
    Forall (λ kv, unmarshal_string (default "" (got !! kv.1)) = Some kv.2) wants.
Proof.
  induction wants as [|[name want] wants IH]; simpl; [by split; [constructor|]|].
  rewrite Forall_cons. case_bool_decide as E; simpl.
  - rewrite IH. naive_solver.
  - split; [done|]. by intros [? _].
Qed.

(** Equally many parameters that all have their value are the same parameters. *)
Lemma assertParameters_Ok visited f request :
  visited ≡ₚ map_to_list (sf_Parameters f) →
  assertParameters visited f request = Ok () ↔
    unmarshal_string <$> req_Parameters request = Some <$> sf_Parameters f.
Proof.
  intros Hv. unfold assertParameters. set (got := req_Parameters request). set (want := sf_Parameters f).
  assert (Forall (λ kv : string * string, unmarshal_string (default "" (got !! kv.1)) = Some kv.2) visited ↔
    ∀ k v, want !! k = Some v → unmarshal_string <$> got !! k = Some (Some v)) as Hall.
  { rewrite Hv, Forall_forall. split.
    - intros H k v Hk. apply elem_of_map_to_list in Hk. specialize (H _ Hk). simpl in H.
      destruct (got !! k); [|done]. simpl in *. congruence.
    - intros H [k v] Hk. apply elem_of_map_to_list in Hk. specialize (H _ _ Hk). simpl.
      destruct (got !! k); [|done]. simpl in *. congruence. }
  split.
  - case_bool_decide as Hsize; [done|]. rewrite check_parameters_Ok, Hall. intros H.
    assert (dom want = dom got) as Hdom.
    { apply set_subseteq_size_eq; [|rewrite !size_dom; lia]. intros k [v Hk]%elem_of_dom.
      specialize (H _ _ Hk). apply elem_of_dom. by destruct (got !! k). }
    apply map_eq. intros k. rewrite !lookup_fmap. destruct (want !! k) as [v|] eqn:Hk; [by rewrite (H _ _ Hk)|].
    apply not_elem_of_dom in Hk. rewrite Hdom in Hk. by apply not_elem_of_dom in Hk as ->.
  - intros Heq. rewrite bool_decide_false.
    + rewrite check_parameters_Ok, Hall. intros k v Hk.
      rewrite <- (lookup_fmap unmarshal_string), Heq, lookup_fmap, Hk. done.
    + intros H. apply H. rewrite <- (map_size_fmap unmarshal_string), Heq. apply map_size_fmap.
Qed.

(** ** Properties *)

Section Properties.
Context (quoted_printable : string → option string).

(** C17. The check of a form against what was written: for a form of any parts,
    files included, between a boundary none of them contains, it succeeds exactly
    when no part is empty and every required name is the name of a part without
    its brackets; otherwise it reports the first empty part, or, if there is
    none, the least of the missing names. *)
Theorem written_form_checked f request boundary ps :
  boundary_ok boundary = true → Forall (writable boundary) ps →
  firstHeader request "Content-Type" = "multipart/form-data; boundary=" +:+ boundary →
  in_Bytes (req_Input request) = write_form boundary ps →
  let fields := form_field <$> ps in
  let empty p := fp_data p = "" in
  match assertMultipartFields quoted_printable f request with
  | Ok _ => Forall (λ p, ¬ empty p) ps ∧ ∀ name, name ∈ sf_BodyFields f → name ∈ fields
  | Err (CaseEmptyField operation name) => operation = sf_Operation f ∧
      ∃ before p behind, ps = before ++ p :: behind ∧ Forall (λ p, ¬ empty p) before ∧ empty p ∧
        name = form_field p
  | Err (CaseMissingField operation name) => operation = sf_Operation f ∧
      Forall (λ p, ¬ empty p) ps ∧ name ∈ sf_BodyFields f ∧ name ∉ fields ∧
      ∀ other, other ∈ sf_BodyFields f → other ∉ fields → string_ltb other name = false
  | Err _ => False
  end.
Proof.
  intros HB Hps Hct Hbody fields empty. unfold assertMultipartFields. rewrite Hct, boundary_params by done.
  rewrite lookup_singleton_eq, Hbody. change (default "" (Some boundary)) with boundary.
  destruct (string_empty boundary) eqn:Hne.
  { unfold boundary_ok in HB. rewrite Hne in HB. by rewrite andb_false_r in HB. }
  change (NewReader boundary (write_form boundary ps)) with (at_form boundary 0 ps).
  pose proof (length_written boundary ps) as Hlen.
  rewrite read_parts_written by (done || lia). rewrite app_nil_r.
  assert (∀ p, no_data p = false ↔ ¬ empty p) as Hno.
  { intros p. unfold no_data, empty. by destruct (fp_data p). }
  assert (∀ name, negb (bool_decide (name ∈ reverse fields)) = true ↔ name ∉ fields) as Hmem.
  { intros name. rewrite negb_true_iff, bool_decide_eq_false. by rewrite elem_of_reverse. }
  destruct (List.find no_data ps) as [p|] eqn:Hfind.
  - apply find_first in Hfind as (before & behind & -> & Hp & Hbefore). split; [done|].
    exists before, p, behind. split_and!; [done| | |done].
    + eapply Forall_impl; [exact Hbefore|]. intros q. apply Hno.
    + unfold no_data in Hp. unfold empty. by destruct (fp_data p).
  - apply find_None in Hfind. cbn [mbind result_bind].
    assert (Forall (λ p, ¬ empty p) ps) as Hall by (eapply Forall_impl; [exact Hfind|]; intros q; apply Hno).
    destruct (List.find _ (sort_Strings _)) as [name|] eqn:Hmiss.
    + apply find_least in Hmiss as (H1 & H2%Hmem & H3). split_and!; [done..|].
      intros other Ho Hof. apply H3; [done|by apply Hmem].
    + split; [done|]. intros name Hname. apply find_None in Hmiss. rewrite Forall_forall in Hmiss.
      specialize (Hmiss name ltac:(by apply elem_of_sort_Strings)).
      apply negb_false_iff, bool_decide_eq_true in Hmiss. by rewrite elem_of_reverse in Hmiss.
Qed.

(** The case a fixture describes. *)
Record request_matches (f : SemanticFixture) (request : Request) : Prop := {
  rm_operation : req_Operation request = sf_Operation f;
  rm_capability : req_Capability request = sf_Capability f;
  rm_media : in_MediaType (req_Input request) = sf_RequestMedia f;
  rm_parameters : unmarshal_string <$> req_Parameters request = Some <$> sf_Parameters f;
  rm_json : sf_BodyJSON f ≠ "" → ∃ want got, unmarshal_any (sf_BodyJSON f) = Some want ∧
    unmarshal_any (in_Bytes (req_Input request)) = Some got ∧ unsign want = unsign got;
  rm_fields : sf_BodyFields f ≠ [] → assertMultipartFields quoted_printable f request = Ok ();
  rm_binary : sf_RequestMedia f ≠ "" → Contains (sf_RequestMedia f) "json" = false →
    sf_RequestMedia f ≠ "multipart/form-data" → in_Bytes (req_Input request) ≠ "" }.

Lemma assertJSON_Ok f request :
  assertJSON f request = Ok () ↔ ∃ want got, unmarshal_any (sf_BodyJSON f) = Some want ∧
    unmarshal_any (in_Bytes (req_Input request)) = Some got ∧ unsign want = unsign got.
Proof.
  unfold assertJSON. destruct (unmarshal_any (sf_BodyJSON f)) as [want|] eqn:Hw; [|naive_solver].
  destruct (unmarshal_any (in_Bytes _)) as [got|] eqn:Hg; [|naive_solver].
  pose proof (DeepEqual_spec want got (unmarshal_any_well_keyed _ _ Hw) (unmarshal_any_well_keyed _ _ Hg)) as H.
  destruct (DeepEqual want got); [|split; [done|]].
  - split; [|done]. intros _. exists want, got. by rewrite <- H.
  - intros (w & g & [= <-] & [= <-] & Heq). by apply H in Heq.
Qed.

Lemma assertRequest_matches visited f request :
  visited ≡ₚ map_to_list (sf_Parameters f) →
  assertRequest quoted_printable visited f request = Ok () ↔ request_matches f request.
Proof.
  intros Hv. unfold assertRequest. split.
  - destruct (bool_decide (req_Operation request = _)) eqn:H1; [|done]. apply bool_decide_eq_true in H1.
    destruct (bool_decide (req_Capability request = _)) eqn:H2; [|done]. apply bool_decide_eq_true in H2. simpl.
    destruct (bool_decide (in_MediaType _ = _)) eqn:H3; [|done]. apply bool_decide_eq_true in H3. cbn [negb].
    intros ([] & Hp%assertParameters_Ok & ([] & Hj & ([] & Hf & Hb)%result_bind_Ok)%result_bind_Ok)%result_bind_Ok;
      [|done].
    split; [done..| | |].
    + intros Hne. destruct (string_empty (sf_BodyJSON f)) eqn:E; [by destruct (sf_BodyJSON f)|].
      by apply assertJSON_Ok.
    + intros Hne. by destruct (sf_BodyFields f).
    + intros Ha Hc Hm Hempty. rewrite Hc, Hempty, bool_decide_false in Hb by done.
      by destruct (sf_RequestMedia f).
  - intros [H1 H2 H3 H4 H5 H6 H7]. rewrite !bool_decide_true by done. cbn [negb orb].
    rewrite (proj2 (assertParameters_Ok _ _ _ Hv) H4). cbn [mbind result_bind].
    assert ((if string_empty (sf_BodyJSON f) then Ok () else assertJSON f request) = Ok ()) as ->.
    { destruct (string_empty (sf_BodyJSON f)) eqn:E; [done|]. apply assertJSON_Ok, H5. intros Hj. by rewrite Hj in E. }
    assert (match sf_BodyFields f with [] => Ok () | _ => assertMultipartFields quoted_printable f request end = Ok ())
      as -> by (destruct (sf_BodyFields f); [done|by apply H6]).
    cbn [mbind result_bind].
    destruct (string_empty (sf_RequestMedia f)) eqn:E1; [done|].
    destruct (Contains (sf_RequestMedia f) "json") eqn:E2; [done|]. case_bool_decide; [done|].
    destruct (string_empty (in_Bytes (req_Input request))) eqn:E3; [|done]. exfalso.
    apply H7; [by intros E; rewrite E in E1|done..|by destruct (in_Bytes _)].
Qed.

(** A request passes exactly when it is the case the fixture describes:
    its operation, capability and media type, exactly its parameters, a JSON
    body that is the same document up to the order of members, white space and
    the spelling of strings and numbers, the required form fields, and a body
    where the media type is binary; the order in which the parameters are
    visited does not matter. *)
Theorem assertRequest_spec visited f request :
  visited ≡ₚ map_to_list (sf_Parameters f) →
  assertRequest quoted_printable visited f request = Ok () ↔ request_matches f request.
Proof. apply assertRequest_matches. Qed.

End Properties.

(** The response of a fixture that was written with the bytes it stands for. *)
Lemma response_spec f body :
  sf_ResponseBody f = EncodeToString body →
  fixture_response f =
    let answer json reader := mkResponse (sf_ResponseStatus f) ∅ (sf_ResponseMedia f) json reader None in
    if string_empty body then Ok (answer "" None)
    else if negb (Contains (sf_ResponseMedia f) "json") then Ok (answer "" (body_reader body))
    else match parse body with
         | Some _ => Ok (answer body None)
         | None => Err (CaseResponseJSON (sf_Operation f))
         end.
Proof.
  intros Hb. unfold fixture_response. rewrite Hb, DecodeString_encode. destruct (string_empty body); [done|].
  destruct (Contains _ _); [|done]. destruct (parse body); [by rewrite bool_decide_true|].
  rewrite bool_decide_false; [done|]. by intros [].
Qed.

(** ** Witnesses *)

Definition example_form : list form_part :=
  [mkFormPart "image[]" (Some "cat.png") (Some "image/png") "pixels"; mkFormPart "prompt" None None "a cat"].

Definition example_edit : SemanticFixture :=
  mkSemantic "createImageEdit" "images" "multipart/form-data" ∅ "" ["prompt"; "image"] 200 "application/json" "e30=".

Definition example_upload : Request :=
  mkRequest "images" "createImageEdit"
    (mkMetadata "req" "me" "openai" {[ "Content-Type" := ["multipart/form-data; boundary=XyZ"] ]}) ∅
    (mkInput "multipart/form-data" "" (write_form "XyZ" example_form)).

Lemma written_form_checked_witness :
  match assertMultipartFields (λ _, None) example_edit example_upload with
  | Ok _ => ∀ name, name ∈ sf_BodyFields example_edit → name ∈ form_field <$> example_form
  | Err _ => False
  end.
Proof.
  pose proof (written_form_checked (λ _, None) example_edit example_upload "XyZ" example_form
    ltac:(vm_compute; reflexivity) ltac:(repeat constructor) ltac:(vm_compute; reflexivity)
    ltac:(vm_compute; reflexivity)) as H. cbv zeta in H.
  assert (assertMultipartFields (λ _, None) example_edit example_upload = Ok ()) as E by (vm_compute; reflexivity).
  rewrite E in H |- *. exact (proj2 H).
Defined.

Lemma assertRequest_spec_witness : request_matches (λ _, None) example_edit example_upload.
Proof.
  apply (assertRequest_spec (λ _, None) [] example_edit example_upload); [reflexivity|].
  vm_compute. reflexivity.
Defined.
