(* ===== verification/SpecCache.v ===== *)
(** The embedded document at run time: [SpecJSON] of
    [openai/internal/profile/profile.go], its [sync.Once], and the byte arrays
    its callers share or do not share.

    A slice is the address of its array; [append([]byte(nil), ...)] allocates
    one, and the nil slice when there is nothing to copy.  Callers may write to
    the arrays they were given. *)
From S2P Require Import Prelude GoStrings Errors Base64.
From stdpp Require Import relations.

(** [sync.Once]: nobody has called [Do], one caller is inside, or it is over. *)
Inductive once := OnceNew | OnceRunning (t : nat) | OnceDone.

(** A call of [SpecJSON]: before or inside [Do], or returned, with the bytes
    the slice had at that moment. *)
Inductive spec_call :=
| SpecCalling
| SpecReturned (slice : option nat) (bytes : string) (err : option goerror).

Record SpecState := mkSpecState {
  store : gmap nat string;
  specOnce : once;
  specJSON : option nat;
  specErr : option goerror;
  spec_calls : gmap nat spec_call }.

Definition contents (m : gmap nat string) (slice : option nat) : string :=
  match slice with Some a => default "" (m !! a) | None => "" end.

Section SpecCache.
Context (compressedSpecBase64 : string).
(** [gzip.NewReader], with what reading it to the end yields. *)
Context (gzip : string → result goerror (string * option goerror)).

(** The function passed to [Do]: the bytes, and the error. *)
Definition load_spec : string * option goerror :=
  match DecodeString compressedSpecBase64 with
  | None => ("", Some (Opaque "decode embedded OpenAPI document" [Opaque "illegal base64 data" []]))
  | Some compressed =>
      match gzip compressed with
      | Err err => ("", Some (Opaque "open embedded OpenAPI document" [err]))
      | Ok (bytes, None) => (bytes, None)
      | Ok (bytes, Some err) => (bytes, Some (Opaque "read embedded OpenAPI document" [err]))
      end
  end.

(** What a caller that looks at the error first makes of the two results. *)
Definition spec_result : result goerror string :=
  match load_spec with (bytes, None) => Ok bytes | (_, Some err) => Err err end.

Definition spec_start : SpecState := mkSpecState ∅ OnceNew None None ∅.

Definition set_call (t : nat) (c : spec_call) (s : SpecState) : SpecState :=
  mkSpecState (store s) (specOnce s) (specJSON s) (specErr s) (<[t := c]> (spec_calls s)).

(** An array of these bytes where there was none; nil when there are no bytes. *)
Definition allocates (m : gmap nat string) (bytes : string) (slice : option nat) (m' : gmap nat string) : Prop :=
  match slice with
  | None => bytes = "" ∧ m' = m
  | Some a => bytes ≠ "" ∧ m !! a = None ∧ m' = <[a := bytes]> m
  end.

Inductive spec_step : SpecState → SpecState → Prop :=
| spec_enters s t :
    spec_calls s !! t = None → spec_step s (set_call t SpecCalling s)
| spec_begins s t :
    spec_calls s !! t = Some SpecCalling → specOnce s = OnceNew →
    spec_step s (mkSpecState (store s) (OnceRunning t) (specJSON s) (specErr s) (spec_calls s))
| spec_loads s t slice m :
    specOnce s = OnceRunning t → allocates (store s) load_spec.1 slice m →
    spec_step s (mkSpecState m OnceDone slice load_spec.2 (spec_calls s))
| spec_returns s t slice m :
    spec_calls s !! t = Some SpecCalling → specOnce s = OnceDone →
    allocates (store s) (contents (store s) (specJSON s)) slice m →
    spec_step s (mkSpecState m (specOnce s) (specJSON s) (specErr s)
      (<[t := SpecReturned slice (contents m slice) (specErr s)]> (spec_calls s)))
(** A caller changes bytes of the array it was given. *)
| spec_written s t a bytes err old new :
    spec_calls s !! t = Some (SpecReturned (Some a) bytes err) →
    store s !! a = Some old → String.length new = String.length old →
    spec_step s (mkSpecState (<[a := new]> (store s)) (specOnce s) (specJSON s) (specErr s) (spec_calls s)).

Definition spec_reachable (s : SpecState) : Prop := rtc spec_step spec_start s.

(** ** Invariant *)

Record spec_invariant (s : SpecState) : Prop := {
  si_new : specOnce s ≠ OnceDone → specJSON s = None ∧
    ∀ t c, spec_calls s !! t = Some c → c = SpecCalling;
  si_running t : specOnce s = OnceRunning t → spec_calls s !! t = Some SpecCalling;
  si_done : specOnce s = OnceDone → contents (store s) (specJSON s) = load_spec.1 ∧ specErr s = load_spec.2;
  si_cached a : specJSON s = Some a → is_Some (store s !! a);
  si_returned t slice bytes err : spec_calls s !! t = Some (SpecReturned slice bytes err) →
    bytes = load_spec.1 ∧ err = load_spec.2 ∧
    ∀ a, slice = Some a → is_Some (store s !! a) ∧ specJSON s ≠ Some a;
  si_apart t t' a bytes bytes' err err' :
    spec_calls s !! t = Some (SpecReturned (Some a) bytes err) →
    spec_calls s !! t' = Some (SpecReturned (Some a) bytes' err') → t = t' }.

Lemma allocates_contents m bytes slice m' : allocates m bytes slice m' → contents m' slice = bytes.
Proof. destruct slice as [a|]; simpl; [|by intros [-> _]]. intros (_ & _ & ->). by rewrite lookup_insert_eq. Qed.

(** The arrays that were there stay as they are. *)
Lemma allocates_old m bytes slice m' a :
  allocates m bytes slice m' → is_Some (m !! a) → m' !! a = m !! a ∧ slice ≠ Some a.
Proof.
  destruct slice as [b|]; simpl; [|by intros [_ ->]]. intros (_ & Hb & ->) [x Hx].
  rewrite lookup_insert_ne by congruence. split; congruence.
Qed.

Lemma allocates_new m bytes slice m' a : allocates m bytes slice m' → slice = Some a → is_Some (m' !! a).
Proof. intros H ->. destruct H as (_ & _ & ->). rewrite lookup_insert_eq. by eexists. Qed.

Lemma contents_old m bytes slice m' cached :
  allocates m bytes slice m' → (∀ a, cached = Some a → is_Some (m !! a)) → contents m' cached = contents m cached.
Proof.
  intros Hm Hc. destruct cached as [a|]; [|done]. simpl.
  by destruct (allocates_old _ _ _ _ a Hm (Hc a eq_refl)) as [-> _].
Qed.

Lemma spec_invariant_start : spec_invariant spec_start.
Proof. split; simpl; try done; intros; by rewrite lookup_empty in *. Qed.

Lemma spec_invariant_step s s' : spec_invariant s → spec_step s s' → spec_invariant s'.
Proof.
  intros [H1 H2 H3 H4 H5 H6] Hstep.
  destruct Hstep as [s t Ht|s t Ht Ho|s t slice m Ho Hm|s t slice m Ht Ho Hm|s t a bytes err old new Ht Ha Hl].
  - split; cbn [set_call store specOnce specJSON specErr spec_calls]; auto.
    + intros Ho. destruct (H1 Ho) as [? Hc]. split; [done|]. intros t' c [[<- <-]|[_ ?]]%lookup_insert_Some; eauto.
    + intros t' Ho. apply lookup_insert_Some. specialize (H2 t' Ho). destruct (decide (t = t')); auto.
    + intros t' slice bytes err [[_ ?]|[_ ?]]%lookup_insert_Some; [done|eauto].
    + intros t1 t2 a b1 b2 e1 e2 [[_ ?]|[_ ?]]%lookup_insert_Some [[_ ?]|[_ ?]]%lookup_insert_Some; try done; eauto.
  - destruct (H1 ltac:(congruence)) as [Hn Hc].
    split; cbn [store specOnce specJSON specErr spec_calls]; auto; try done. by intros t' [= <-].
  - destruct (H1 ltac:(congruence)) as [Hn Hc].
    split; cbn [store specOnce specJSON specErr spec_calls]; auto; try done.
    + intros _. split; [by eapply allocates_contents|done].
    + intros a Ha. by eapply allocates_new.
    + intros t' sl bytes err Ht'. by specialize (Hc _ _ Ht').
  - destruct (H3 Ho) as [Hload Herr].
    assert (∀ a, is_Some (store s !! a) → m !! a = store s !! a ∧ slice ≠ Some a) as Hold
      by (intros a; by eapply allocates_old).
    assert (∀ a, slice = Some a → ∀ t' bytes err, spec_calls s !! t' ≠ Some (SpecReturned (Some a) bytes err)) as Hfresh.
    { intros a -> t' bytes err Ht'. destruct (H5 _ _ _ _ Ht') as (_ & _ & Hs). destruct (Hs a eq_refl) as [Hin _].
      by destruct (Hold a Hin). }
    split; cbn [store specOnce specJSON specErr spec_calls]; auto.
    + intros Hn. by rewrite Ho in Hn.
    + intros t' Hr. by rewrite Ho in Hr.
    + intros _. split; [|done]. by erewrite contents_old.
    + intros a Ha. destruct (Hold a (H4 a Ha)) as [-> _]. auto.
    + intros t' sl bytes err [[_ [= <- <- <-]]|[_ Ht']]%lookup_insert_Some.
      * split_and!; [by erewrite allocates_contents|done|]. intros a Ha. split; [by eapply allocates_new|].
        intros Hc. by destruct (Hold a (H4 a Hc)).
      * destruct (H5 _ _ _ _ Ht') as (? & ? & Hs). split_and!; [done..|]. intros a Ha.
        destruct (Hs a Ha) as [Hin ?]. by destruct (Hold a Hin) as [-> _].
    + intros t1 t2 a b1 b2 e1 e2 [[-> [= ? _ _]]|[_ H1t]]%lookup_insert_Some [[-> [= ? _ _]]|[_ H2t]]%lookup_insert_Some;
        [done|by destruct (Hfresh a ltac:(done) _ _ _ H2t)|by destruct (Hfresh a ltac:(done) _ _ _ H1t)|eauto].
  - destruct (H5 _ _ _ _ Ht) as (_ & _ & Hs). destruct (Hs a eq_refl) as [_ Hnot].
    assert (∀ b, is_Some (store s !! b) → is_Some (<[a := new]> (store s) !! b)) as Hkeep.
    { intros b Hb. rewrite lookup_insert. case_decide; [by eexists|done]. }
    split; cbn [store specOnce specJSON specErr spec_calls]; auto.
    + intros Ho. destruct (H3 Ho) as [<- ->]. split; [|done]. destruct (specJSON s) as [b|]; [|done].
      simpl. by rewrite lookup_insert_ne by congruence.
    + intros t' sl bytes' err' Ht'. destruct (H5 _ _ _ _ Ht') as (? & ? & Hs'). split_and!; [done..|].
      intros b Hb. destruct (Hs' b Hb). auto.
Qed.

Lemma spec_reachable_invariant s : spec_reachable s → spec_invariant s.
Proof.
  unfold spec_reachable. generalize spec_invariant_start. generalize spec_start. intros s0 Hi Hsteps.
  induction Hsteps as [|s1 s2 s3 H12 _ IH]; [done|]. apply IH. by eapply spec_invariant_step.
Qed.

(** An array nobody has. *)
Lemma can_allocate m bytes : ∃ slice m', allocates m bytes slice m'.
Proof.
  destruct bytes as [|c bytes]; [by exists None, m|].
  exists (Some (fresh (dom m))), (<[fresh (dom m) := String c bytes]> m). split_and!; [done| |done].
  apply not_elem_of_dom, is_fresh.
Qed.

(** ** Properties *)

(** C18. However calls of [SpecJSON] overlap, and whatever callers do to the
    bytes they were given, every call returns the embedded document, decoded
    once, with the error of decoding it; no two calls return the same array,
    and none returns the cached one. *)
Theorem SpecJSON_copies s t slice bytes err :
  spec_reachable s → spec_calls s !! t = Some (SpecReturned slice bytes err) →
  (bytes, err) = load_spec ∧
  ∀ a, slice = Some a → specJSON s ≠ Some a ∧
    ∀ t' bytes' err', spec_calls s !! t' = Some (SpecReturned (Some a) bytes' err') → t' = t.
Proof.
  intros [_ _ _ _ H5 H6]%spec_reachable_invariant Ht. destruct (H5 _ _ _ _ Ht) as (-> & -> & Hs).
  split; [by destruct load_spec|]. intros a ->. split; [by apply Hs|]. intros. by eapply H6.
Qed.

(** [sync.Once] never keeps a caller waiting for ever: from every state a
    call of [SpecJSON] can be brought to return. *)
Theorem SpecJSON_returns s t :
  spec_reachable s → spec_calls s !! t = Some SpecCalling →
  ∃ s' slice bytes err, rtc spec_step s s' ∧ spec_calls s' !! t = Some (SpecReturned slice bytes err).
Proof.
  intros Hr Ht.
  assert (∃ s', rtc spec_step s s' ∧ specOnce s' = OnceDone ∧ spec_calls s' !! t = Some SpecCalling)
    as (s' & Hs & Ho & Ht').
  { destruct (can_allocate (store s) load_spec.1) as (slice & m & Hm).
    destruct (specOnce s) as [|t'|] eqn:Ho.
    - eexists. split; [|split].
      + eapply rtc_l; [by apply (spec_begins s t)|]. apply rtc_once. by apply (spec_loads _ t slice m).
      + done.
      + done.
    - eexists. split; [apply rtc_once; by apply (spec_loads s t' slice m)|done].
    - exists s. split; [apply rtc_refl|done]. }
  destruct (can_allocate (store s') (contents (store s') (specJSON s'))) as (slice & m & Hm).
  eexists _, slice, (contents m slice), (specErr s'). split.
  - eapply rtc_r; [exact Hs|]. by apply (spec_returns s' t slice m).
  - cbn [spec_calls]. by rewrite lookup_insert_eq.
Qed.

End SpecCache.

(** ** Witnesses *)

Definition plain_gzip (compressed : string) : result goerror (string * option goerror) := Ok (compressed, None).

Abbreviation example_step := (spec_step "SGk=" plain_gzip).

Definition example_calling : SpecState := mkSpecState ∅ OnceNew None None {[ 7 := SpecCalling ]}.
Definition example_returned : SpecState :=
  mkSpecState {[ 0 := "Hi"; 1 := "Hi" ]} OnceDone (Some 0) None {[ 7 := SpecReturned (Some 1) "Hi" None ]}.

Lemma example_calling_reachable : spec_reachable "SGk=" plain_gzip example_calling.
Proof. apply rtc_once. by apply (spec_enters _ _ spec_start 7). Qed.

Definition example_loaded : SpecState :=
  mkSpecState {[ 0 := "Hi" ]} OnceDone (Some 0) None {[ 7 := SpecCalling ]}.

Lemma example_loads : rtc example_step example_calling example_loaded.
Proof.
  eapply rtc_l; [by apply (spec_begins _ _ example_calling 7)|]. apply rtc_once.
  match goal with |- spec_step _ _ ?s _ =>
    pose proof (spec_loads "SGk=" plain_gzip s 7 (Some 0) {[ 0 := "Hi" ]} eq_refl
      ltac:(split_and!; [by vm_compute|done|by vm_compute])) as H end.
  match type of H with spec_step _ _ _ ?s => replace example_loaded with s by (vm_compute; reflexivity) end.
  exact H.
Qed.

Lemma example_returns : example_step example_loaded example_returned.
Proof.
  assert (allocates (store example_loaded) (contents (store example_loaded) (specJSON example_loaded))
    (Some 1) {[ 0 := "Hi"; 1 := "Hi" ]}) as Ha by (split_and!; [by vm_compute|done|by vm_compute]).
  pose proof (spec_returns "SGk=" plain_gzip example_loaded 7 (Some 1) _ ltac:(vm_compute; reflexivity) eq_refl Ha) as H.
  match type of H with spec_step _ _ _ ?s => replace example_returned with s by (vm_compute; reflexivity) end.
  exact H.
Qed.

Lemma example_returned_reachable : spec_reachable "SGk=" plain_gzip example_returned.
Proof.
  unfold spec_reachable. etrans; [apply example_calling_reachable|].
  etrans; [apply example_loads|]. apply rtc_once, example_returns.
Qed.

Lemma SpecJSON_copies_witness : ("Hi", None) = load_spec "SGk=" plain_gzip ∧ specJSON example_returned ≠ Some 1.
Proof.
  pose proof (SpecJSON_copies "SGk=" plain_gzip example_returned 7 (Some 1) "Hi" None
    example_returned_reachable ltac:(vm_compute; reflexivity)) as H.
  split; [exact (proj1 H)|exact (proj1 (proj2 H 1 eq_refl))].
Defined.

Lemma SpecJSON_returns_witness :
  ∃ s' slice bytes err, rtc example_step example_calling s' ∧
    spec_calls s' !! 7 = Some (SpecReturned slice bytes err).
Proof. exact (SpecJSON_returns "SGk=" plain_gzip example_calling 7 example_calling_reachable
  ltac:(vm_compute; reflexivity)). Defined.
