(* ===== verification/FakeSession.v ===== *)
(** The session and the stream the SDK suites run against:
    [internal/testutil/fake_session.go] and [scripted_stream.go].

    A session is a system of goroutines around two buffered channels: the calls
    of [Handle] fill the queue, the goroutine of [run] moves events to the
    channel the shell receives from, and [Close] closes [done].  A [select] with
    several ready cases takes any of them. *)
From S2P Require Import Prelude GoStrings JsonString Json Errors Backend Services.
From stdpp Require Import relations.

(** ** The reply of the session to one client event *)

Definition event (eventType data : string) : Event := mkEvent eventType "" data.

(** A member of an object with the text of its value, as [json.RawMessage]
    keeps it; the text is one that parses. *)
Fixpoint raw_members (fuel : nat) (s : string) : list (string * (json * string)) :=
  match fuel with
  | O => []
  | S fuel =>
      match skip_space s with
      | String q rest =>
          match (if bool_decide (q = QUOTE) then parse_string rest else None) with
          | Some (key, rest) =>
              match skip_space rest with
              | String _ rest =>
                  let start := skip_space rest in
                  match parse_value (parse_fuel start) max_depth start with
                  | Some (v, rest) =>
                      let raw := string_take (String.length start - String.length rest) start in
                      (key, (v, raw)) ::
                        match skip_space rest with
                        | String c rest => if char_is 44 c then raw_members fuel rest else []
                        | "" => []
                        end
                  | None => []
                  end
              | "" => []
              end
          | None => []
          end
      | "" => []
      end
  end.

Record fixture := mkFixture { ServerType : string; ServerPayload : string; fixture_bad : bool }.

(** A field of the fixture takes the last member of its name, in any case. *)
Definition store_fixture (f : fixture) (member : string * (json * string)) : fixture :=
  let '(key, (v, raw)) := member in
  if EqualFold key "fixture_server_type" then
    match v with
    | JString s => mkFixture s (ServerPayload f) (fixture_bad f)
    | JNull => f
    | _ => mkFixture (ServerType f) (ServerPayload f) true
    end
  else if EqualFold key "fixture_server_payload" then mkFixture (ServerType f) raw (fixture_bad f)
  else f.

(** [json.Unmarshal(data, &fixture)]; [None] is an error. *)
Definition unmarshal_fixture (data : string) : option fixture :=
  match parse data with
  | Some JNull => Some (mkFixture "" "" false)
  | Some (JObject _) =>
      let f := foldl store_fixture (mkFixture "" "" false)
        (raw_members (String.length data) (string_drop 1 (skip_space data))) in
      if fixture_bad f then None else Some f
  | _ => None
  end.

Definition session_created : string := quoted
  "{'type':'session.created','event_id':'event_test','session':{'id':'sess_test','object':'realtime.session','type':'realtime'}}".
Definition session_updated : string := quoted
  "{'type':'session.updated','event_id':'event_updated','session':{'id':'sess_test','object':'realtime.session','type':'realtime'}}".
Definition response_done : string := quoted
  "{'type':'response.done','event_id':'event_done','response':{'id':'resp_test','object':'realtime.response','status':'completed','status_details':null,'output':[]}}".
Definition response_created : string := quoted
  "{'type':'response.created','sequence_number':0,'response':{'id':'resp_test','object':'response','status':'in_progress','output':[]}}".
Definition response_completed : string := quoted
  "{'type':'response.completed','sequence_number':1,'response':{'id':'resp_test','object':'response','status':'completed','output':[]}}".

(** The events a call of [Handle] sends, one after the other. *)
Definition replies (surface : SessionSurface) (clientEvent : Event) : list Event :=
  let scripted :=
    match unmarshal_fixture (ev_Data clientEvent) with
    | Some f => if negb (string_empty (ServerType f)) && negb (string_empty (ServerPayload f))
                then Some (event (ServerType f) (ServerPayload f)) else None
    | None => None
    end in
  match scripted with
  | Some value => [value]
  | None =>
      if bool_decide (surface = SessionRealtime) then
        if bool_decide (ev_Type clientEvent = "session.update")
        then [event "session.updated" session_updated]
        else if bool_decide (ev_Type clientEvent = "response.create")
        then [event "response.done" response_done]
        else []
      else if bool_decide (ev_Type clientEvent = "response.create")
      then [event "response.created" response_created; event "response.completed" response_completed]
      else []
  end.

(** ** The session as a system *)

Definition capacity : nat := 8.

(** Where [run] is: at its [select], holding an event it wants to pass on, or
    gone. *)
Inductive run_phase := RunSelect | RunHolding (value : Event) | RunGone.

(** A call of [Handle]: what it has still to send, or what it returned. *)
Inductive call_phase := CallSending (rest : list Event) | CallReturned (err : option goerror).

Record fakeSession := mkFakeSession {
  surface : SessionSurface;
  queue : list Event;
  events : list Event;
  events_closed : nat;  (** how often it was closed; closing twice panics *)
  done : bool;
  run : run_phase;
  calls : list call_phase;
  accepted : list Event;  (** what entered the queue, ever *)
  received : list Event;  (** what the shell received *)
  lost : list Event }.    (** what [run] held when it left *)

Definition OpenSession (s : SessionSurface) : fakeSession :=
  let first := if bool_decide (s = SessionRealtime)
               then [event "session.created" session_created] else [] in
  mkFakeSession s first [] 0 false RunSelect [] first [] [].

Inductive fs_step : fakeSession → fakeSession → Prop :=
(** A call of [Handle] begins. *)
| fs_call s clientEvent :
    fs_step s (mkFakeSession (surface s) (queue s) (events s) (events_closed s) (done s) (run s)
      (calls s ++ [CallSending (replies (surface s) clientEvent)]) (accepted s) (received s) (lost s))
(** [send]: the queue takes the event, or [done] or the context ends the call. *)
| fs_send s i value rest :
    calls s !! i = Some (CallSending (value :: rest)) → length (queue s) < capacity →
    fs_step s (mkFakeSession (surface s) (queue s ++ [value]) (events s) (events_closed s) (done s)
      (run s) (<[i := CallSending rest]> (calls s)) (accepted s ++ [value]) (received s) (lost s))
| fs_send_done s i value rest :
    calls s !! i = Some (CallSending (value :: rest)) → done s = true →
    fs_step s (mkFakeSession (surface s) (queue s) (events s) (events_closed s) (done s) (run s)
      (<[i := CallReturned (Some (Sentinel "context.Canceled"))]> (calls s)) (accepted s) (received s) (lost s))
| fs_send_ctx s i value rest err :
    calls s !! i = Some (CallSending (value :: rest)) →
    fs_step s (mkFakeSession (surface s) (queue s) (events s) (events_closed s) (done s) (run s)
      (<[i := CallReturned (Some err)]> (calls s)) (accepted s) (received s) (lost s))
| fs_return s i :
    calls s !! i = Some (CallSending []) →
    fs_step s (mkFakeSession (surface s) (queue s) (events s) (events_closed s) (done s) (run s)
      (<[i := CallReturned None]> (calls s)) (accepted s) (received s) (lost s))
(** [run]. *)
| fs_take s value rest :
    run s = RunSelect → queue s = value :: rest →
    fs_step s (mkFakeSession (surface s) rest (events s) (events_closed s) (done s) (RunHolding value)
      (calls s) (accepted s) (received s) (lost s))
| fs_put s value :
    run s = RunHolding value → length (events s) < capacity →
    fs_step s (mkFakeSession (surface s) (queue s) (events s ++ [value]) (events_closed s) (done s)
      RunSelect (calls s) (accepted s) (received s) (lost s))
| fs_leave s :
    run s = RunSelect → done s = true →
    fs_step s (mkFakeSession (surface s) (queue s) (events s) (S (events_closed s)) (done s) RunGone
      (calls s) (accepted s) (received s) (lost s))
| fs_leave_holding s value :
    run s = RunHolding value → done s = true →
    fs_step s (mkFakeSession (surface s) (queue s) (events s) (S (events_closed s)) (done s) RunGone
      (calls s) (accepted s) (received s) (lost s ++ [value]))
(** The shell receives from [Events()]. *)
| fs_receive s value rest :
    events s = value :: rest →
    fs_step s (mkFakeSession (surface s) (queue s) rest (events_closed s) (done s) (run s) (calls s)
      (accepted s) (received s ++ [value]) (lost s))
(** [Close]: the first closes [done], the others do nothing. *)
| fs_close s :
    fs_step s (mkFakeSession (surface s) (queue s) (events s) (events_closed s) true (run s) (calls s)
      (accepted s) (received s) (lost s)).

Abbreviation fs_steps := (rtc fs_step).
Definition fs_reachable (s : fakeSession) : Prop := ∃ surface, fs_steps (OpenSession surface) s.

(** ** The scripted stream *)

(** What a receiver sees of the channel [NewScriptedStream] fills and closes. *)
Definition NewScriptedStream (events : list Event) : list selection := (SelEvent <$> events) ++ [SelClosed].

(** ** Invariant *)

Definition held (r : run_phase) : list Event := match r with RunHolding value => [value] | _ => [] end.

Record fs_invariant (s : fakeSession) : Prop := {
  inv_order : accepted s = received s ++ events s ++ held (run s) ++ lost s ++ queue s;
  inv_queue : length (queue s) ≤ capacity;
  inv_events : length (events s) ≤ capacity;
  inv_lost : length (lost s) ≤ 1;
  inv_gone : match run s with
             | RunGone => events_closed s = 1 ∧ done s = true
             | _ => events_closed s = 0 ∧ lost s = []
             end }.

Lemma fs_invariant_open surface : fs_invariant (OpenSession surface).
Proof.
  unfold OpenSession. case_bool_decide; split; simpl; unfold capacity; by try lia.
Qed.

Lemma fs_invariant_step s s' : fs_invariant s → fs_step s s' → fs_invariant s'.
Proof.
  intros [Ho Hq He Hl Hg] Hs.
  destruct Hs as [s ev|s i v rest Hi Hlen|s i v rest Hi Hd|s i v rest err Hi|s i Hi|s v rest Hr Hqu
    |s v Hr Hlen|s Hr Hd|s v Hr Hd|s v rest Hev|s]; split; simpl; try done.
  all: try rewrite Hr in Ho, Hg; try rewrite Hqu in Ho, Hq; try rewrite Hev in Ho, He.
  all: try (destruct Hg as [Hc Hlost]; rewrite Hlost in Ho |- * ).
  all: simpl in *; rewrite ?length_app; simpl; try lia; try done.
  all: try (rewrite Ho; simpl; by rewrite <- ?(assoc_L (++))).
  all: try (split; [lia|done]).
  destruct (run s); naive_solver.
Qed.

Lemma fs_reachable_invariant s : fs_reachable s → fs_invariant s.
Proof.
  intros (sf & Hs). apply (rtc_ind_r (R:=fs_step) fs_invariant (OpenSession sf)); [apply fs_invariant_open| |done].
  intros s1 s2 _ Hstep Hi. by eapply fs_invariant_step.
Qed.

(** ** Properties *)

(** A realtime session whose client asked for a response: the goroutine holds
    the first event, the queue has the second. *)
Definition asked : Event := mkEvent "response.create" "" (quoted "{'type':'response.create'}").

Definition busy_session : fakeSession :=
  mkFakeSession SessionRealtime [event "response.done" response_done] [] 0 false
    (RunHolding (event "session.created" session_created)) [CallSending []]
    [event "session.created" session_created; event "response.done" response_done] [] [].

Lemma busy_session_reachable : fs_reachable busy_session.
Proof.
  assert (replies SessionRealtime asked = [event "response.done" response_done]) as Hr by by vm_compute.
  exists SessionRealtime. pose proof (fs_call (OpenSession SessionRealtime) asked) as H1.
  simpl in H1. rewrite Hr in H1. eapply rtc_l; [exact H1|].
  eapply rtc_l; [by apply (fs_take _ (event "session.created" session_created) [])|].
  apply rtc_once. refine (fs_send _ 0 (event "response.done" response_done) [] _ _); [done|].
  simpl. unfold capacity. lia.
Qed.

(** The session keeps its events in order and loses none before it is
    closed: the shell has received a prefix of what the queue took, the rest is
    in the channels (at most 17 events), and only the event [run] held when it
    left can be lost.  The channel of events is closed at most once. *)
Theorem session_keeps_order s :
  fs_reachable s →
  accepted s = received s ++ events s ++ held (run s) ++ lost s ++ queue s ∧
  length (accepted s) ≤ length (received s) + 2 * capacity + 1 ∧
  events_closed s ≤ 1 ∧ (done s = false → lost s = [] ∧ events_closed s = 0).
Proof.
  intros [Ho Hq He Hl Hg]%fs_reachable_invariant. split; [done|]. split.
  - rewrite Ho, !length_app. unfold capacity in *. destruct (run s); simpl in *; [lia|destruct Hg as [_ ->]; simpl; lia|lia].
  - destruct (run s); destruct Hg as [Hg1 Hg2]; (split; [lia|]); intros Hd; try done. congruence.
Qed.

Lemma session_keeps_order_witness :
  length (accepted busy_session) ≤ length (received busy_session) + 2 * capacity + 1.
Proof. apply (session_keeps_order busy_session busy_session_reachable). Defined.

(** [run] and the shell bring what is accepted to the shell. *)
Lemma drain_events s :
  ∃ s', fs_steps s s' ∧ events s' = [] ∧ received s' = received s ++ events s ∧ queue s' = queue s ∧
    run s' = run s ∧ done s' = done s ∧ accepted s' = accepted s ∧ lost s' = lost s ∧ calls s' = calls s.
Proof.
  remember (events s) as l eqn:Hl. revert s Hl. induction l as [|v l IH]; intros s Hl.
  - exists s. split; [apply rtc_refl|]. by rewrite app_nil_r.
  - pose proof (fs_receive s v l (eq_sym Hl)) as Hstep.
    destruct (IH _ (eq_refl _ : l = events (mkFakeSession (surface s) (queue s) l (events_closed s) (done s)
      (run s) (calls s) (accepted s) (received s ++ [v]) (lost s)))) as (s' & Hs & H1 & H2 & H).
    exists s'. split; [by eapply rtc_l|]. split; [done|]. split; [|exact H].
    rewrite H2. simpl. by rewrite <- (assoc_L (++)).
Qed.

Lemma pass_held s :
  ∃ s', fs_steps s s' ∧ events s' = [] ∧ queue s' = queue s ∧ accepted s' = accepted s ∧
    done s' = done s ∧ calls s' = calls s ∧ (run s ≠ RunGone → run s' = RunSelect).
Proof.
  destruct (drain_events s) as (s1 & Hs1 & He & _ & Hq & Hr & Hd & Ha & _ & Hc).
  destruct (run s) as [|v|] eqn:Hrun; [by exists s1; split_and!; congruence| |by exists s1; split_and!; congruence].
  pose proof (fs_put s1 v ltac:(congruence) ltac:(rewrite He; simpl; unfold capacity; lia)) as Hput.
  match type of Hput with fs_step _ ?s2 => destruct (drain_events s2) as (s3 & Hs3 & He3 & _ & Hq3 & Hr3 & Hd3 & Ha3 & _ & Hc3) end.
  exists s3. split; [etransitivity; [exact Hs1|by eapply rtc_l]|]. simpl in *.
  split_and!; congruence.
Qed.

(** As long as the session is open, a shell that keeps receiving gets
    everything: from every state the session can be in, its goroutine and the
    receives of the shell alone lead to one where all accepted events have
    arrived, without closing the session. *)
Theorem session_delivers s :
  fs_reachable s → run s ≠ RunGone →
  ∃ s', fs_steps s s' ∧ received s' = accepted s ∧ accepted s' = accepted s ∧
    calls s' = calls s ∧ done s' = done s.
Proof.
  intros Hreach. destruct Hreach as [sf Hreach]. remember (queue s) as q eqn:Hq. revert s Hreach Hq.
  induction q as [|v q IH]; intros s Hreach Hq Hr.
  - destruct (pass_held s) as (s1 & Hs1 & He & Hq1 & Ha & Hd & Hc & Hr1). specialize (Hr1 Hr).
    assert (fs_invariant s1) as [Ho _ _ _ Hg]
      by (apply fs_reachable_invariant; exists sf; by etransitivity).
    rewrite Hr1 in Hg. destruct Hg as [_ Hl]. exists s1. split_and!; [done| |done|done|done].
    rewrite <- Ha, Ho, He, Hr1, Hl, Hq1, <- Hq. simpl. by rewrite app_nil_r.
  - destruct (pass_held s) as (s1 & Hs1 & He & Hq1 & Ha & Hd & Hc & Hr1). specialize (Hr1 Hr).
    pose proof (fs_take s1 v q Hr1 ltac:(congruence)) as Htake.
    match type of Htake with fs_step _ ?s2 =>
      destruct (IH s2) as (s' & Hs' & H1 & H2 & H3 & H4); [|done|done|] end.
    + etransitivity; [exact Hreach|]. eapply rtc_r; [exact Hs1|exact Htake].
    + simpl in *. exists s'. split; [etransitivity; [exact Hs1|by eapply rtc_l]|].
      split_and!; congruence.
Qed.

Lemma session_delivers_witness :
  ∃ s', fs_steps busy_session s' ∧
    received s' = [event "session.created" session_created; event "response.done" response_done].
Proof.
  destruct (session_delivers busy_session busy_session_reachable ltac:(discriminate)) as (s' & H1 & H2 & _).
  by exists s'.
Defined.

(** [Close] frees everyone: once the session is closed, the goroutine can
    leave and close the channel of events with one step, and every pending call
    of [Handle] can return with one; nothing opens the session again. *)
Theorem session_close_frees s :
  fs_reachable s → done s = true →
  (∃ s', rtc fs_step s s' ∧ run s' = RunGone ∧ events_closed s' = 1 ∧ events s' = events s ∧ calls s' = calls s) ∧
  (∀ i rest, calls s !! i = Some (CallSending rest) →
     ∃ s' err, fs_step s s' ∧ calls s' !! i = Some (CallReturned err)) ∧
  (∀ s', fs_step s s' → done s' = true).
Proof.
  intros Hreach Hd. pose proof (inv_gone _ (fs_reachable_invariant _ Hreach)) as Hg. split_and!.
  - destruct (run s) as [|v|] eqn:Hr.
    + eexists. split; [apply rtc_once, fs_leave; done|]. simpl. destruct Hg as [-> _]. done.
    + eexists. split; [eapply rtc_once, fs_leave_holding; done|]. simpl. destruct Hg as [-> _]. done.
    + exists s. split; [apply rtc_refl|]. destruct Hg as [-> _]. done.
  - intros i [|v rest] Hi.
    + eexists _, None. split; [by apply fs_return|]. simpl. apply list_lookup_insert_eq. by eapply lookup_lt_Some.
    + eexists _, _. split; [by eapply fs_send_done|]. simpl. apply list_lookup_insert_eq. by eapply lookup_lt_Some.
  - intros s' Hs. by destruct Hs.
Qed.

Lemma session_close_frees_witness :
  ∃ s, done s = true ∧ fs_reachable s ∧ calls s = [CallSending []] ∧
    ∃ s', fs_steps s s' ∧ run s' = RunGone ∧ events_closed s' = 1.
Proof.
  pose proof (fs_close busy_session) as Hc. destruct busy_session_reachable as [sf Hs].
  eexists. split; [|split; [exists sf; eapply rtc_r; [exact Hs|exact Hc]|]]; [done|]. split; [done|].
  destruct (session_close_frees _ (ex_intro _ sf (rtc_r _ _ _ Hs Hc)) eq_refl) as ((s' & H1 & H2 & H3 & _) & _).
  by exists s'.
Defined.
