(* ===== verification/FakeBackend.v ===== *)
(** The backend of the SDK suites: [internal/testutil/fake_backend.go].

    [Handle] records the request, answers it from the installed fixtures, and
    records its error.  The two records are critical sections, between which
    other calls go on. *)
From S2P Require Import Prelude GoStrings GoHttp JsonString Json Errors Backend FakeSession Base64 Multipart.
From S2P Require Import Fixtures.
From stdpp Require Import relations.

Record FakeBackend := mkFake {
  requests : list Request;
  fixtures : gmap string SemanticFixture;
  errors : list case_error }.

(** The loop of [NewFakeBackend]; the error names the operation. *)
Fixpoint install (installed : gmap string SemanticFixture) (l : list SemanticFixture)
    : result string (gmap string SemanticFixture) :=
  match l with
  | [] => Ok installed
  | fixture :: l =>
      let known := match installed !! sf_Operation fixture with
                   | Some other => sf_Operation other
                   | None => ""
                   end in
      if string_empty (sf_Operation fixture) || negb (string_empty known)
      then Err (sf_Operation fixture)
      else install (<[sf_Operation fixture := fixture]> installed) l
  end.

Definition NewFakeBackend (l : list SemanticFixture) : result string FakeBackend :=
  installed ← install ∅ l; Ok (mkFake [] installed []).

Definition caseHeader : string := "X-Ai-Shell-Case".
Definition streamHeader : string := "X-Ai-Shell-Stream-Case".

Definition stream_created : Event := event "response.created" (quoted
  "{'type':'response.created','sequence_number':0,'response':{'id':'resp_stream','object':'response','status':'in_progress','output':[]}}").
Definition stream_delta : Event := event "response.output_text.delta" (quoted
  "{'type':'response.output_text.delta','sequence_number':1,'response_id':'resp_stream','item_id':'item_stream','output_index':0,'content_index':0,'delta':'hello'}").
Definition stream_completed : Event := event "response.completed" (quoted
  "{'type':'response.completed','sequence_number':2,'response':{'id':'resp_stream','object':'response','status':'completed','output':[]}}").

Definition stream_response : Response :=
  mkResponse 200 ∅ "" "" None (ptr (NewScriptedStream [stream_created; stream_delta; stream_completed])).

Definition wants_stream (request : Request) : bool :=
  bool_decide (firstHeader request streamHeader = "responses.basic") &&
  bool_decide (req_Operation request = "createResponse").

Definition record_request (request : Request) (f : FakeBackend) : FakeBackend :=
  mkFake (requests f ++ [request]) (fixtures f) (errors f).

Definition recordError (err : case_error) (f : FakeBackend) : FakeBackend :=
  mkFake (requests f) (fixtures f) (errors f ++ [err]).

(** The copies [Requests] and [Errors] return. *)
Definition Requests (f : FakeBackend) : list Request := requests f.
Definition Errors (f : FakeBackend) : list case_error := errors f.

(** The order in which a call visits the parameters of a fixture. *)
Definition visiting := gmap string string → list (string * string).
Definition fair (visit : visiting) : Prop := ∀ m, visit m ≡ₚ map_to_list m.

(** ** Construction *)

Lemma install_spec installed l :
  (∀ k f, installed !! k = Some f → sf_Operation f = k ∧ k ≠ "") →
  match install installed l with
  | Ok all => NoDup (sf_Operation <$> l) ∧ (∀ f, f ∈ l → sf_Operation f ≠ "" ∧ installed !! sf_Operation f = None) ∧
      (∀ k f, all !! k = Some f ↔ installed !! k = Some f ∨ f ∈ l ∧ sf_Operation f = k)
  | Err operation => ∃ before f behind, l = before ++ f :: behind ∧ sf_Operation f = operation ∧
      (operation = "" ∨ is_Some (installed !! operation) ∨ operation ∈ sf_Operation <$> before)
  end.
Proof.
  revert installed. induction l as [|f l IH]; intros installed Hin; cbn [install].
  { split_and!; [constructor|by intros f ?%elem_of_nil|]. intros k f. split; [by left|].
    by intros [?|[?%elem_of_nil _]]. }
  destruct (string_empty (sf_Operation f)) eqn:He; cbn [orb].
  { exists [], f, l. split_and!; [done..|]. left. by destruct (sf_Operation f). }
  assert (sf_Operation f ≠ "") as Hne by (intros H; by rewrite H in He).
  destruct (installed !! sf_Operation f) as [g|] eqn:Hg.
  { destruct (Hin _ _ Hg) as [-> _]. rewrite He. exists [], f, l. split_and!; [done..|]. right. left. by rewrite Hg. }
  cbn [string_empty negb].
  assert (∀ k g, <[sf_Operation f := f]> installed !! k = Some g → sf_Operation g = k ∧ k ≠ "") as Hin'.
  { intros k g. rewrite lookup_insert_Some. intros [[<- <-]|[_ Hk]]; [done|by apply Hin]. }
  specialize (IH _ Hin'). destruct (install _ l) as [all|operation].
  - destruct IH as (Hnd & Hl & Hall). split_and!.
    + rewrite fmap_cons, NoDup_cons. split; [|done]. intros (g & Hgf & Hgl)%list_elem_of_fmap.
      destruct (Hl g Hgl) as [_ H]. rewrite <- Hgf, lookup_insert_eq in H. done.
    + intros g [->|Hgl]%elem_of_cons; [done|]. destruct (Hl g Hgl) as [H1 H2]. split; [done|].
      by apply lookup_insert_None in H2 as [? _].
    + intros k g. rewrite Hall, lookup_insert_Some, elem_of_cons. split.
      * intros [[[<- <-]|[_ ?]]|[? ?]]; auto.
      * intros [Hk|[[->|Hgl] <-]]; [|by left; left|by right].
        left. right. split; [|done]. intros <-. congruence.
  - destruct IH as (before & g & behind & -> & Ho & Hcase). exists (f :: before), g, behind.
    split_and!; [done..|]. rewrite fmap_cons, elem_of_cons.
    destruct Hcase as [?|[[h Hh]|?]]; [by left| |by right; right; right].
    apply lookup_insert_Some in Hh as [[<- _]|[_ Hh]]; [by right; right; left|]. right. left. by exists h.
Qed.

Lemma NewFakeBackend_fixtures l start :
  NewFakeBackend l = Ok start → requests start = [] ∧ errors start = [] ∧
    ∀ name fixture, fixtures start !! name = Some fixture ↔ fixture ∈ l ∧ sf_Operation fixture = name.
Proof.
  unfold NewFakeBackend. pose proof (install_spec ∅ l ltac:(by intros ? ?)) as H.
  destruct (install ∅ l) as [all|operation]; [|done]. intros [= <-]. split_and!; [done..|].
  intros name fixture. cbn [fixtures]. destruct H as (_ & _ & ->). rewrite lookup_empty. naive_solver.
Qed.

(** A fake backend is built exactly when every fixture names an operation
    and no two name the same, and then each case finds its fixture; otherwise
    the error names the first operation that is missing or comes again. *)
Theorem NewFakeBackend_spec l :
  match NewFakeBackend l with
  | Ok f => NoDup (sf_Operation <$> l) ∧ "" ∉ sf_Operation <$> l ∧ Requests f = [] ∧ Errors f = [] ∧
      ∀ name fixture, fixtures f !! name = Some fixture ↔ fixture ∈ l ∧ sf_Operation fixture = name
  | Err operation => ∃ before f behind, l = before ++ f :: behind ∧ sf_Operation f = operation ∧
      (operation = "" ∨ operation ∈ sf_Operation <$> before)
  end.
Proof.
  unfold NewFakeBackend. pose proof (install_spec ∅ l ltac:(by intros ? ?)) as H.
  destruct (install ∅ l) as [all|operation]; cbn [mbind result_bind].
  - destruct H as (H1 & H2 & H3). split_and!; [done| |done..|].
    + intros (f & Hf & Hin)%list_elem_of_fmap. by destruct (H2 f Hin).
    + intros name fixture. cbn [fixtures]. rewrite H3, lookup_empty. naive_solver.
  - destruct H as (before & f & behind & H1 & H2 & [?|[[? H]|?]]); [..|by rewrite lookup_empty in H|];
      exists before, f, behind; auto.
Qed.

Section FakeBackend.
Context (quoted_printable : string → option string).

(** What a call answers, which depends on nothing but the fixtures. *)
Definition answer (installed : gmap string SemanticFixture) (visit : visiting) (request : Request)
    : result case_error Response :=
  if wants_stream request then Ok stream_response else
  let caseName := firstHeader request caseHeader in
  match installed !! caseName with
  | None => Err (UnknownCase caseName)
  | Some fixture =>
      assertRequest quoted_printable (visit (sf_Parameters fixture)) fixture request;;
      fixture_response fixture
  end.

(** [Handle], when nothing comes in between. *)
Definition Handle (visit : visiting) (request : Request) (f : FakeBackend)
    : result case_error Response * FakeBackend :=
  let f := record_request request f in
  match answer (fixtures f) visit request with
  | Ok response => (Ok response, f)
  | Err err => (Err err, recordError err f)
  end.

(** ** Calls at the same time *)

Inductive call :=
| Answering (request : Request) (visit : visiting)
| Failing (request : Request) (err : case_error)
| Returned (request : Request) (r : result case_error Response).

Definition call_request (c : call) : Request :=
  match c with Answering request _ | Failing request _ | Returned request _ => request end.

Definition returned_error (c : call) : option case_error :=
  match c with Returned _ (Err err) => Some err | _ => None end.

Inductive fb_step : FakeBackend * list call → FakeBackend * list call → Prop :=
| call_starts f calls request visit :
    fair visit →
    fb_step (f, calls) (record_request request f, calls ++ [Answering request visit])
| call_answers f calls t request visit r :
    calls !! t = Some (Answering request visit) → answer (fixtures f) visit request = Ok r →
    fb_step (f, calls) (f, <[t := Returned request (Ok r)]> calls)
| call_fails f calls t request visit err :
    calls !! t = Some (Answering request visit) → answer (fixtures f) visit request = Err err →
    fb_step (f, calls) (f, <[t := Failing request err]> calls)
| call_records f calls t request err :
    calls !! t = Some (Failing request err) →
    fb_step (f, calls) (recordError err f, <[t := Returned request (Err err)]> calls).

(** ** Lemmas *)

(** A call that nothing interrupts does what [Handle] says. *)
Lemma Handle_steps visit request f calls :
  fair visit → let '(r, f') := Handle visit request f in
  rtc fb_step (f, calls) (f', calls ++ [Returned request r]).
Proof.
  intros Hfair. unfold Handle.
  assert (∀ c, (calls ++ [c]) !! length calls = Some c) as Hlast.
  { intros c. by rewrite lookup_app_r, Nat.sub_diag by lia. }
  assert (∀ c c', <[length calls := c']> (calls ++ [c]) = calls ++ [c']) as Hset.
  { intros c c'. by rewrite insert_app_r_alt, Nat.sub_diag by lia. }
  destruct (answer (fixtures (record_request request f)) visit request) as [r|err] eqn:E;
    (eapply rtc_l; [by apply (call_starts f calls request visit)|]).
  - apply rtc_once. rewrite <- (Hset (Answering request visit) (Returned request (Ok r))). eapply call_answers; [apply Hlast|done].
  - eapply rtc_l; [eapply call_fails; [apply Hlast|exact E]|]. rewrite Hset. apply rtc_once.
    rewrite <- (Hset (Failing request err) (Returned request (Err err))). eapply call_records, Hlast.
Qed.

(** What a call answers, case by case. *)
Lemma answer_spec installed visit request :
  fair visit → wants_stream request = false →
  let caseName := firstHeader request caseHeader in
  match answer installed visit request with
  | Ok r => ∃ fixture, installed !! caseName = Some fixture ∧
      request_matches quoted_printable fixture request ∧ fixture_response fixture = Ok r
  | Err err =>
      (installed !! caseName = None ∧ err = UnknownCase caseName) ∨
      ∃ fixture, installed !! caseName = Some fixture ∧
        (¬ request_matches quoted_printable fixture request ∨ fixture_response fixture = Err err)
  end.
Proof.
  intros Hfair Hs caseName. unfold answer. rewrite Hs. fold caseName.
  destruct (installed !! caseName) as [fixture|]; [|by left].
  pose proof (assertRequest_matches quoted_printable (visit (sf_Parameters fixture)) fixture request (Hfair _)) as Hm.
  destruct (assertRequest _ _ fixture request) as [[]|err]; cbn [mbind result_bind].
  - destruct (fixture_response fixture) as [r|err] eqn:Hr.
    + exists fixture. split_and!; [done|by apply Hm|done].
    + right. exists fixture. by split; [|right].
  - right. exists fixture. split; [done|]. left. intros H%Hm. done.
Qed.

Record fb_invariant (start : FakeBackend) (s : FakeBackend * list call) : Prop := {
  fbi_fixtures : fixtures s.1 = fixtures start;
  fbi_requests : requests s.1 = requests start ++ (call_request <$> s.2);
  fbi_errors : errors s.1 ≡ₚ errors start ++ omap returned_error s.2;
  fbi_calls : Forall (λ c, match c with
    | Answering _ visit => fair visit
    | Failing request err => ∃ visit, fair visit ∧ answer (fixtures start) visit request = Err err
    | Returned request r => ∃ visit, fair visit ∧ answer (fixtures start) visit request = r
    end) s.2 }.

Lemma fmap_insert_same {A B} (f : A → B) (l : list A) i x y :
  l !! i = Some x → f y = f x → f <$> <[i := y]> l = f <$> l.
Proof.
  intros Hx Hf. rewrite list_fmap_insert, Hf. apply list_insert_id. by rewrite list_lookup_fmap, Hx.
Qed.

(** A call that goes on: its error appears when it returns. *)
Lemma omap_insert (l : list call) t c c' :
  l !! t = Some c → returned_error c = None →
  omap returned_error (<[t := c']> l) ≡ₚ omap returned_error l ++ option_list (returned_error c').
Proof.
  intros Hc Hn. rewrite insert_take_drop by by eapply lookup_lt_Some.
  rewrite <- (take_drop_middle l t c Hc) at 3. rewrite !omap_app. cbn [omap list_omap]. rewrite Hn.
  rewrite <- (assoc_L (++)). apply Permutation_app_head.
  destruct (returned_error c'); simpl; [by rewrite (comm (++))|by rewrite app_nil_r].
Qed.

Lemma fb_invariant_step start s s' : fb_invariant start s → fb_step s s' → fb_invariant start s'.
Proof.
  intros [H1 H2 H3 H4] Hstep. rewrite Forall_forall in H4.
  destruct Hstep as [f calls request visit Hv|f calls t request visit r Ht Ha|f calls t request visit err Ht Ha
    |f calls t request err Ht]; cbn [fst snd] in *;
    try (pose proof (H4 _ (list_elem_of_lookup_2 _ _ _ Ht)) as Hc; cbn in Hc).
  - split; cbn [fst snd record_request requests fixtures errors]; [done|..].
    + by rewrite H2, fmap_app, <- (assoc_L (++)).
    + by rewrite H3, omap_app, app_nil_r.
    + apply Forall_app. split; [by apply Forall_forall|by repeat constructor].
  - rewrite H1 in Ha. split; cbn [fst snd]; [done|..].
    + by erewrite fmap_insert_same.
    + rewrite (omap_insert _ _ _ (Returned request (Ok r)) Ht) by done. by rewrite app_nil_r.
    + apply Forall_insert; [by apply Forall_forall|]. by exists visit.
  - rewrite H1 in Ha. split; cbn [fst snd]; [done|..].
    + by erewrite fmap_insert_same.
    + rewrite (omap_insert _ _ _ (Failing request err) Ht) by done. by rewrite app_nil_r.
    + apply Forall_insert; [by apply Forall_forall|]. by exists visit.
  - split; cbn [fst snd recordError requests fixtures errors]; [done|..].
    + by erewrite fmap_insert_same.
    + rewrite (omap_insert _ _ _ (Returned request (Err err)) Ht) by done. cbn. by rewrite H3, (assoc_L (++)).
    + apply Forall_insert; [by apply Forall_forall|]. done.
Qed.

(** ** Properties *)

(** The fixture a call finds, in terms of the list the fake was built from. *)
Lemma returned_answer l start f calls request r :
  NewFakeBackend l = Ok start → fb_invariant start (f, calls) → Returned request r ∈ calls →
  let is_case fixture := fixture ∈ l ∧ sf_Operation fixture = firstHeader request caseHeader in
  if wants_stream request then r = Ok stream_response else
  match r with
  | Ok response => ∃ fixture, is_case fixture ∧
      request_matches quoted_printable fixture request ∧ fixture_response fixture = Ok response
  | Err err =>
      (∀ fixture, ¬ is_case fixture) ∧ err = UnknownCase (firstHeader request caseHeader) ∨
      ∃ fixture, is_case fixture ∧
        (¬ request_matches quoted_printable fixture request ∨ fixture_response fixture = Err err)
  end.
Proof.
  intros Hnew [_ _ _ H4] Hin is_case. destruct (NewFakeBackend_fixtures _ _ Hnew) as (_ & _ & Hf).
  rewrite Forall_forall in H4. destruct (H4 _ Hin) as (visit & Hv & Ha).
  destruct (wants_stream request) eqn:Hs.
  { unfold answer in Ha. rewrite Hs in Ha. congruence. }
  pose proof (answer_spec (fixtures start) visit request Hv Hs) as Hspec. rewrite Ha in Hspec.
  destruct r as [r|err].
  - destruct Hspec as (fixture & ?%Hf & ? & ?). by exists fixture.
  - destruct Hspec as [[Hnone ->]|(fixture & ?%Hf & ?)]; [left|right; by exists fixture].
    split; [|done]. intros fixture Hc%Hf. congruence.
Qed.

(** C19. In every interleaving of calls, the recorded requests are those of
    the calls in the order they came in, and the recorded errors are those the
    calls have returned, each as often.  A request for the stream gets the
    scripted stream; any other succeeds exactly when it matches the fixture its
    header names and the response of the fixture can be made, and then answers
    that response: whether a call succeeds, and with what, depends on its
    request and the fixtures alone (which of several mismatches a failing call
    reports depends on the order it visits the parameters in). *)
Theorem calls_recorded l start f calls :
  NewFakeBackend l = Ok start → rtc fb_step (start, []) (f, calls) →
  Requests f = call_request <$> calls ∧
  Errors f ≡ₚ omap returned_error calls ∧
  (∀ request r, Returned request r ∈ calls →
    let is_case fixture := fixture ∈ l ∧ sf_Operation fixture = firstHeader request caseHeader in
    if wants_stream request then r = Ok stream_response else
    match r with
    | Ok response => ∃ fixture, is_case fixture ∧
        request_matches quoted_printable fixture request ∧ fixture_response fixture = Ok response
    | Err err => err ∈ Errors f ∧
        ((∀ fixture, ¬ is_case fixture) ∧ err = UnknownCase (firstHeader request caseHeader) ∨
         ∃ fixture, is_case fixture ∧
           (¬ request_matches quoted_printable fixture request ∨ fixture_response fixture = Err err))
    end) ∧
  (∀ request r r', Returned request r ∈ calls → Returned request r' ∈ calls →
    match r, r' with
    | Ok response, Ok response' => response = response'
    | Err _, Err _ => True
    | _, _ => False
    end).
Proof.
  intros Hnew Hsteps. destruct (NewFakeBackend_fixtures _ _ Hnew) as (Hr & He & Hfix).
  assert (fb_invariant start (f, calls)) as Hinv.
  { remember (start, []) as s eqn:Hs. remember (f, calls) as s' eqn:Hs'. clear Hs'.
    assert (fb_invariant start s) as Hi by (subst s; split; cbn; [done|by rewrite app_nil_r..|constructor]).
    clear Hs. induction Hsteps as [|s1 s2 s3 H12 _ IH]; [done|]. apply IH. by eapply fb_invariant_step. }
  pose proof (λ request r, returned_answer l start f calls request r Hnew Hinv) as Hans.
  destruct Hinv as [_ H2 H3 _]. cbn [fst snd] in *. rewrite Hr, He in *.
  assert (∀ request g g', g ∈ l ∧ sf_Operation g = firstHeader request caseHeader →
    g' ∈ l ∧ sf_Operation g' = firstHeader request caseHeader → g = g') as Hone.
  { intros request g g' Hg%Hfix Hg'%Hfix. congruence. }
  split_and!; [done|done| |].
  - intros request r Hin. pose proof (Hans request r Hin) as Hr1. cbv zeta in Hr1 |- *.
    destruct (wants_stream request); [done|]. destruct r as [r|err]; [done|]. split; [|done].
    unfold Errors. rewrite H3. apply list_elem_of_omap. by exists (Returned request (Err err)).
  - intros request r r' Hin%Hans Hin'%Hans. cbv zeta in Hin, Hin'.
    destruct (wants_stream request); [by subst|].
    destruct r as [r|err], r' as [r'|err']; try done.
    + destruct Hin as (g & Hg & _ & H), Hin' as (g' & Hg' & _ & H').
      rewrite (Hone request g g' Hg Hg') in H. congruence.
    + destruct Hin as (g & Hg & Hm & H), Hin' as [[Hno _]|(g' & Hg' & Hor)]; [by destruct (Hno g)|].
      rewrite (Hone request g g' Hg Hg') in *. destruct Hor; [done|congruence].
    + destruct Hin' as (g & Hg & Hm & H), Hin as [[Hno _]|(g' & Hg' & Hor)]; [by destruct (Hno g)|].
      rewrite (Hone request g g' Hg Hg') in *. destruct Hor; [done|congruence].
Qed.

End FakeBackend.

(** ** Witness *)

Definition example_fake : FakeBackend := mkFake [] {[ "createImageEdit" := example_edit ]} [].

(** A request that names a case nobody installed. *)
Definition example_unknown : Request :=
  mkRequest "models" "listModels" (mkMetadata "req" "me" "openai" {[ caseHeader := ["listModels"] ]}) ∅
    (mkInput "" "" "").

Lemma calls_recorded_witness :
  Errors (recordError (UnknownCase "listModels") (record_request example_unknown example_fake)) ≡ₚ
    [UnknownCase "listModels"].
Proof.
  pose proof (Handle_steps (λ _, None) map_to_list example_unknown example_fake [] (λ m, reflexivity _)) as Hsteps.
  pose proof (calls_recorded (λ _, None) [example_edit] example_fake
    (recordError (UnknownCase "listModels") (record_request example_unknown example_fake))
    [Returned example_unknown (Err (UnknownCase "listModels"))] ltac:(reflexivity) Hsteps) as H.
  exact (proj1 (proj2 H)).
Defined.
