(* ===== verification/Process.v ===== *)
(** The OpenAI handler at run time: any number of requests and [Shutdown] calls
    at once.

    [OpenAI.ServeOpenAI] tells what one request does, [WsRegistry.step] how the
    registry answers concurrent callers.  Here the two meet: every request is a
    goroutine that performs the actions of [ServeOpenAI] one by one, the
    registry decides which sessions start, and [Shutdown] waits for them.  A call
    of a collaborator is one action, which ends; [drain] keeps to the steps that
    no client, backend or clock has to bring about. *)
From S2P Require Import Prelude GoStrings GoHttp Errors Services Backend World.
From S2P Require Import RestErrors RestStream RestHandler RestAnswer WsRegistry WsHandler Options OpenAI.
From stdpp Require Import relations.

(** ** One request *)

Definition is_cancel (a : action) : bool := match a with ActCancel => true | _ => false end.

(** The goroutine of a request: what it was called with, what it has done and
    what it has still to do.  [c_first] is what the first loop to end returned,
    once one has. *)
Record connection := mkConnection {
  c_request : HttpRequest;
  c_world : World;
  c_registered : N * bool;
  c_first : option (option goerror);
  c_done : list action;
  c_todo : list action }.

Record Process := mkProcess { p_system : System; p_connections : gmap nat connection }.

Definition idle : Process := mkProcess initial ∅.

(** The requests [ServeOpenAI] passes to the WebSocket handler. *)
Definition wants_session (h : Handler) (request : HttpRequest) : bool :=
  isWebSocket request &&
  (bool_decide (r_Path request = oa_basePath h +:+ "/realtime") ||
   bool_decide (r_Path request = oa_basePath h +:+ "/responses")).

Definition fresh (w : World) : Prop := rw_status (w_rw w) = None ∧ w_trace w = [].

Section Process.
Context (h : Handler).

(** Everything a request does, given what the registry and the loops answer. *)
Definition script (request : HttpRequest) (registered : N * bool) (first : option (option goerror))
    (w : World) : list action :=
  w_trace (world_of (ServeOpenAI h request registered first w)).

Definition set_connection (t : nat) (c : connection) (p : Process) : Process :=
  mkProcess (p_system p) (<[t := c]> (p_connections p)).

Definition advance (c : connection) (a : action) (rest : list action) : connection :=
  mkConnection (c_request c) (c_world c) (c_registered c) (c_first c) (c_done c ++ [a]) rest.

(** [first] arrives: the goroutine goes on where it waited. *)
Definition resume (c : connection) (err : option goerror) : connection :=
  mkConnection (c_request c) (c_world c) (c_registered c) (Some err) (c_done c)
    (drop (length (c_done c)) (script (c_request c) (c_registered c) (Some err) (c_world c))).

(** A goroutine performs its next action. *)
Inductive runs : Process → Process → Prop :=
| p_act p t c a rest :
    p_connections p !! t = Some c → c_todo c = a :: rest →
    is_cancel a = false → is_unregister a = false →
    runs p (set_connection t (advance c a rest) p)
| p_cancel p t c rest :
    p_connections p !! t = Some c → c_todo c = ActCancel :: rest →
    let s := p_system p in
    runs p (set_connection t (advance c ActCancel rest)
      (mkProcess (mkSystem (registry s) (handlers s) ({[t]} ∪ cancelled s) (shutdowns s) (panicked s))
        (p_connections p)))
| p_unregister p t c id rest r :
    p_connections p !! t = Some c → c_todo c = ActUnregister id :: rest →
    unregister id (registry (p_system p)) = Some r →
    let s := p_system p in
    runs p (set_connection t (advance c (ActUnregister id) rest)
      (mkProcess (mkSystem r (<[t := Finished]> (handlers s)) (cancelled s) (shutdowns s) (panicked s))
        (p_connections p)))
| p_unregister_panic p t c id rest :
    p_connections p !! t = Some c → c_todo c = ActUnregister id :: rest →
    unregister id (registry (p_system p)) = None →
    let s := p_system p in
    runs p (mkProcess (mkSystem (registry s) (handlers s) (cancelled s) (shutdowns s) true)
      (p_connections p)).

(** The goroutine of a session that waits for the first of its loops to end. *)
Definition waits_for_loops (c : connection) : Prop :=
  wants_session h (c_request c) = true ∧ c_todo c = [] ∧ c_first c = None ∧
  (c_registered c).2 = true ∧ ActUnregister (c_registered c).1 ∉ c_done c.

Inductive pstep : Process → Process → Prop :=
(** A request arrives for the REST handler, or for nobody. *)
| p_plain p t request w :
    p_connections p !! t = None → wants_session h request = false → fresh w →
    pstep p (set_connection t
      (mkConnection request w (0%N, false) None [] (script request (0%N, false) None w)) p)
(** A request arrives for the WebSocket handler and asks the registry. *)
| p_open p t request w id ok r :
    p_connections p !! t = None → wants_session h request = true → fresh w →
    register t (registry (p_system p)) = (id, ok, r) →
    let s := p_system p in
    pstep p (set_connection t
      (mkConnection request w (id, ok) None [] (script request (id, ok) None w))
      (mkProcess (mkSystem r (<[t := if ok then Active id else Rejected]> (handlers s))
                    (cancelled s) (shutdowns s) (panicked s)) (p_connections p)))
| p_runs p p' : runs p p' → pstep p p'
(** The first loop of a session ends: the peer closed or broke the protocol,
    the backend is done, or the context was cancelled. *)
| p_loop_ends p t c err :
    p_connections p !! t = Some c → waits_for_loops c →
    pstep p (set_connection t (resume c err) p)
(** A [Shutdown] call goes on, or a client goes away. *)
| p_other p s :
    step (p_system p) s → handlers s = handlers (p_system p) →
    pstep p (mkProcess s (p_connections p)).

(** The steps a [Shutdown] call can count on.  No request arrives, no client
    goes away and sends nothing more, no backend ends its session, no further
    [Shutdown] call begins and no deadline passes: the goroutines go on, the
    [Shutdown] calls under way go on, and the loops of a session end once its
    context is cancelled, and not before. *)
Inductive drain : Process → Process → Prop :=
| d_runs p p' : runs p p' → drain p p'
| d_loop_ends p t c err :
    p_connections p !! t = Some c → waits_for_loops c → t ∈ cancelled (p_system p) →
    drain p (set_connection t (resume c err) p)
| d_cancels p k t ts :
    shutdowns (p_system p) !! k = Some (Cancelling (t :: ts)) →
    let s := p_system p in
    drain p (mkProcess (mkSystem (registry s) (handlers s) ({[t]} ∪ cancelled s)
      (<[k := Cancelling ts]> (shutdowns s)) (panicked s)) (p_connections p))
| d_returns p k :
    shutdowns (p_system p) !! k = Some (Cancelling []) →
    shutdownDone (registry (p_system p)) = true →
    let s := p_system p in
    drain p (mkProcess (mkSystem (registry s) (handlers s) (cancelled s)
      (<[k := ReturnedNil]> (shutdowns s)) (panicked s)) (p_connections p)).

Abbreviation psteps := (rtc pstep).
Definition preachable (p : Process) : Prop := psteps idle p.

(** ** Scripts *)

Lemma script_session request registered first w :
  wants_session h request = true →
  script request registered first w =
    w_trace (world_of (ServeWebSocket (oa_websocket h) request registered first w)).
Proof.
  unfold wants_session, script. intros [Hws Hp]%andb_true_iff.
  rewrite (proj1 (proj2 (ServeOpenAI_dispatch h request registered first w))); [done..|].
  apply orb_true_iff in Hp as [?%bool_decide_eq_true|?%bool_decide_eq_true]; auto.
Qed.

Lemma script_plain request registered first w :
  wants_session h request = false → w_trace w = [] →
  Forall (λ a, is_cancel a || is_unregister a = false) (script request registered first w).
Proof.
  unfold wants_session, script, ServeOpenAI. intros Hws Hw. rewrite Hws.
  assert (emits (λ a, is_cancel a || is_unregister a = false)
    (if negb (HasPrefix (r_Path request) (oa_basePath h +:+ "/")) &&
        negb (bool_decide (r_Path request = oa_basePath h))
     then NotFound else ServeHTTP (oa_rest h) request)) as He.
  { unfold NotFound, ServeHTTP, writeError, writeBackendError, writeError, respond, closeResponse,
      writeSSE, copy_body. structural. by apply emits_sse_loop. }
  destruct (He w) as (l & Hl & Hf). by rewrite Hl, Hw.
Qed.

Lemma script_rejected request id first w :
  wants_session h request = true → fresh w → script request (id, false) first w = [ActCancel].
Proof.
  intros Hws [Hst Hw]. rewrite script_session by done. unfold ServeWebSocket.
  erewrite M_bind_Return by reflexivity.
  rewrite writeHTTPError_spec by (done || lia). cbn [world_of w_trace]. by rewrite Hw.
Qed.

(** A mark that occurs once, at the end of a list. *)
Lemma marked_last {A} (f : A → bool) before x l y rest :
  length (List.filter f before) = 0 → f y = true →
  l ++ y :: rest = before ++ [x] → l = before ∧ y = x ∧ rest = [].
Proof.
  revert l. induction before as [|b before IH]; intros l Hf Hy Heq.
  - destruct l as [|z l]; [by injection Heq|]. destruct l; done.
  - simpl in Hf. destruct (f b) eqn:Hb; [done|]. destruct l as [|z l]; simpl in Heq.
    + injection Heq as -> _. congruence.
    + injection Heq as -> Heq. destruct (IH l Hf Hy Heq) as (-> & -> & ->). done.
Qed.

Context `{!LookupsUsable (ws_services (oa_websocket h))}.

(** The script of an accepted session ends with leaving the registry, or it
    stops where the session waits for its loops, and goes on from there. *)
Lemma script_accepted request id first w :
  wants_session h request = true → fresh w →
  (first = None ∧ count is_unregister (script request (id, true) first w) = 0 ∧
   ∀ err, script request (id, true) first w `prefix_of` script request (id, true) (Some err) w) ∨
  ∃ before, script request (id, true) first w = before ++ [ActCancel; ActUnregister id] ∧
    count is_unregister before = 0 ∧
    count is_close_session before = opened_sessions (oa_websocket h) request ∧
    (upgraded (oa_websocket h) request → count is_close_connection before = 1).
Proof.
  intros Hws [Hst Hw].
  pose proof (ws_script (oa_websocket h) request id first w Hst Hw) as Hs. cbv zeta in Hs.
  destruct (is_blocked _).
  - left. destruct Hs as (-> & _ & _ & Hu & Hp). split; [done|].
    rewrite script_session by done. split; [done|]. intros err. rewrite script_session by done. apply Hp.
  - right. rewrite script_session by done. destruct Hs as (b & ? & ? & _ & ? & ?). by exists b.
Qed.

(** ** Invariant *)

Record connection_ok (s : System) (t : nat) (c : connection) : Prop := {
  ok_fresh : fresh (c_world c);
  ok_script : c_done c ++ c_todo c = script (c_request c) (c_registered c) (c_first c) (c_world c);
  ok_phase : wants_session h (c_request c) = true →
    match handlers s !! t with
    | Some (Active id) => c_registered c = (id, true) ∧ count is_unregister (c_done c) = 0
    | Some Finished => (c_registered c).2 = true ∧ c_todo c = [] ∧
        ActUnregister (c_registered c).1 ∈ c_done c
    | Some Rejected => (c_registered c).2 = false
    | None => False
    end }.

Definition process_ok (p : Process) : Prop :=
  reachable (p_system p) ∧
  (∀ t c, p_connections p !! t = Some c → connection_ok (p_system p) t c) ∧
  (∀ t, is_Some (handlers (p_system p) !! t) →
     ∃ c, p_connections p !! t = Some c ∧ wants_session h (c_request c) = true).

Lemma process_ok_idle : process_ok idle.
Proof. split_and!; [apply rtc_refl|done|]. intros t [? Ht]. cbn [p_system idle initial handlers] in Ht. by rewrite lookup_empty in Ht. Qed.

(** A step that changes one connection, and its handler at most. *)
Lemma process_ok_set p t c s :
  process_ok p → reachable s → connection_ok s t c →
  (∀ t', t' ≠ t → handlers s !! t' = handlers (p_system p) !! t') →
  (is_Some (handlers s !! t) → wants_session h (c_request c) = true) →
  process_ok (set_connection t c (mkProcess s (p_connections p))).
Proof.
  intros (_ & Hc & Hd) Hs Hok Hh Hw. split_and!; [done|..]; simpl.
  - intros t' c'. rewrite lookup_insert. case_decide as E; [by intros [= <-]; subst|].
    intros Ht'. destruct (Hc t' c' Ht') as [H1 H2 H3]. split; [done..|]. rewrite Hh by done. done.
  - intros t' Ht'. destruct (decide (t' = t)) as [->|E].
    + exists c. split; [by rewrite lookup_insert_eq|auto].
    + rewrite lookup_insert_ne by done. apply Hd. by rewrite <- Hh.
Qed.

Lemma advance_script c a rest :
  c_todo c = a :: rest →
  c_done (advance c a rest) ++ c_todo (advance c a rest) = c_done c ++ c_todo c.
Proof. intros ->. simpl. by rewrite <- (assoc_L (++)). Qed.

(** A session only cancels and leaves once it is registered. *)
Lemma todo_cancel p t c rest :
  process_ok p → p_connections p !! t = Some c → c_todo c = ActCancel :: rest →
  wants_session h (c_request c) = true ∧ is_Some (handlers (p_system p) !! t).
Proof.
  intros (_ & Hc & _) Ht Htodo. destruct (Hc t c Ht) as [Hf Hs Hp].
  destruct (wants_session h (c_request c)) eqn:Hw.
  - split; [done|]. specialize (Hp eq_refl). by destruct (handlers (p_system p) !! t).
  - pose proof (script_plain _ (c_registered c) (c_first c) (c_world c) Hw (proj2 Hf)) as Hpl.
    rewrite <- Hs, Htodo in Hpl. apply Forall_app in Hpl as [_ [? _]%Forall_cons]. done.
Qed.

Lemma todo_unregister p t c id rest :
  process_ok p → p_connections p !! t = Some c → c_todo c = ActUnregister id :: rest →
  wants_session h (c_request c) = true ∧ rest = [] ∧ c_registered c = (id, true) ∧
  handlers (p_system p) !! t = Some (Active id).
Proof.
  intros (_ & Hc & _) Ht Htodo. destruct (Hc t c Ht) as [Hf Hs Hp].
  destruct (wants_session h (c_request c)) eqn:Hw.
  2:{ pose proof (script_plain _ (c_registered c) (c_first c) (c_world c) Hw (proj2 Hf)) as Hpl.
      rewrite <- Hs, Htodo in Hpl. apply Forall_app in Hpl as [_ [? _]%Forall_cons]. done. }
  specialize (Hp eq_refl).
  destruct (handlers (p_system p) !! t) as [[id'| |]|] eqn:Hh; try done.
  - destruct Hp as [Hr Hn]. rewrite Hr in Hs.
    destruct (script_accepted (c_request c) id' (c_first c) (c_world c) Hw Hf)
      as [(_ & Hu & _)|(before & Hb & Hu & _)].
    + rewrite <- Hs, Htodo in Hu. unfold count in Hu. rewrite List.filter_app in Hu.
      rewrite length_app in Hu. simpl in Hu. lia.
    + rewrite <- Hs, Htodo in Hb.
      replace (before ++ [ActCancel; ActUnregister id'])
        with ((before ++ [ActCancel]) ++ [ActUnregister id']) in Hb by by rewrite <- (assoc_L (++)).
      apply (marked_last is_unregister) in Hb as (_ & [= ->] & ->); [done| |done].
      fold (count is_unregister (before ++ [ActCancel])). rewrite count_app, Hu. done.
  - destruct (c_registered c) as [id' ok]. simpl in Hp. subst ok.
    rewrite script_rejected in Hs by done. rewrite Htodo in Hs.
    destruct (c_done c) as [|? [|? ?]]; done.
  - destruct Hp as (_ & Hn & _). congruence.
Qed.

Lemma process_ok_same p s :
  process_ok p → step (p_system p) s → handlers s = handlers (p_system p) →
  process_ok (mkProcess s (p_connections p)).
Proof.
  intros (Hr & Hc & Hd) Hs Hh. split_and!; [by eapply rtc_r| |simpl; by rewrite Hh].
  intros t c Ht. simpl in Ht. destruct (Hc t c Ht) as [H1 H2 H3]. split; [done..|]. simpl. by rewrite Hh.
Qed.

Lemma unstarted p t :
  process_ok p → p_connections p !! t = None → handlers (p_system p) !! t = None.
Proof.
  intros (_ & _ & Hd) Ht. apply eq_None_not_Some. intros (c & Hc & _)%Hd. congruence.
Qed.

(** The next action of a session that is not leaving. *)
Lemma advance_ok s s' t c a rest :
  connection_ok s t c → c_todo c = a :: rest → is_unregister a = false →
  handlers s' = handlers s → connection_ok s' t (advance c a rest).
Proof.
  intros [H1 H2 H3] Htodo Ha Hh. split; [done|by rewrite (advance_script c a rest Htodo)|].
  intros Hw. specialize (H3 Hw). rewrite Hh. simpl.
  destruct (handlers s !! t) as [[id| |]|]; try done.
  - destruct H3 as [-> Hn]. rewrite count_app, Hn. split; [done|]. unfold count. simpl. by rewrite Ha.
  - destruct H3 as (_ & Hn & _). congruence.
Qed.

(** A session whose loops run waits for them and for nothing else. *)
Lemma resume_ok s t c err :
  connection_ok s t c → waits_for_loops c → connection_ok s t (resume c err).
Proof.
  intros [H1 H2 H3] (Hw & Htodo & Hfirst & Hreg & Hnot). specialize (H3 Hw).
  rewrite Htodo, Hfirst, app_nil_r in H2.
  destruct (handlers s !! t) as [[id| |]|] eqn:Hh; [|congruence|by destruct H3 as (_ & _ & ?)|done].
  destruct H3 as [Hr Hn]. rewrite Hr in H2, Hnot.
  destruct (script_accepted (c_request c) id None (c_world c) Hw H1)
    as [(_ & _ & Hp)|(before & Hb & _)].
  2:{ exfalso. apply Hnot. rewrite H2, Hb. set_solver. }
  split; [done| |intros _; simpl; by rewrite Hh].
  simpl. rewrite Hr. destruct (Hp err) as [rest Hrest]. rewrite Hrest, <- H2. by rewrite drop_app_length.
Qed.

Lemma process_ok_runs p p' : process_ok p → runs p p' → process_ok p'.
Proof.
  intros Hok Hstep. pose proof Hok as (Hr & Hc & Hd).
  destruct Hstep as [[s cs] t c a rest Ht Htodo Ha1 Ha2|[s cs] t c rest Ht Htodo
    |[s cs] t c id rest r Ht Htodo Hu|[s cs] t c id rest Ht Htodo Hu]; simpl in *.
  - apply (process_ok_set (mkProcess s cs)); [done|done| |done|].
    + eapply advance_ok; eauto.
    + intros (c' & Hc' & Hw)%Hd. simplify_eq. done.
  - destruct (todo_cancel _ _ _ _ Hok Ht Htodo) as [Hw Hsome].
    apply (process_ok_set (mkProcess s cs)); [done|..|done|done].
    + eapply rtc_r; [done|]. by apply step_cancelled.
    + eapply advance_ok; eauto.
  - destruct (todo_unregister _ _ _ _ _ Hok Ht Htodo) as (Hw & -> & Hreg & Hh). simpl in Hh.
    apply (process_ok_set (mkProcess s cs)); [done|..|done].
    + eapply rtc_r; [done|]. by eapply step_unregister.
    + destruct (Hc t c Ht) as [H1 H2 H3]. split; [done|by rewrite (advance_script c _ _ Htodo)|].
      intros _. simpl. rewrite lookup_insert_eq, Hreg. split_and!; [done..|]. set_solver.
    + intros t' E. simpl. by rewrite lookup_insert_ne.
  - destruct (todo_unregister _ _ _ _ _ Hok Ht Htodo) as (Hw & -> & Hreg & Hh). simpl in Hh.
    apply (process_ok_same (mkProcess s cs)); [done| |done]. by eapply step_unregister_panic.
Qed.

Lemma process_ok_step p p' : process_ok p → pstep p p' → process_ok p'.
Proof.
  intros Hok Hstep. pose proof Hok as (Hr & Hc & Hd).
  destruct Hstep as [[s cs] t request w Ht Hw Hf|[s cs] t request w id ok r Ht Hw Hf Hreg
    |p p' Hrun|[s cs] t c err Ht Hwait|p s' Hs Hh]; simpl in *.
  - apply (process_ok_set (mkProcess s cs)); [done..| |done|].
    + split; [done|done|]. simpl. congruence.
    + pose proof (unstarted _ t Hok Ht) as Hnone. simpl in Hnone. rewrite Hnone. by intros [? ?].
  - pose proof (unstarted _ t Hok Ht) as Hnone. simpl in Hnone.
    apply (process_ok_set (mkProcess s cs)); [done|..].
    + eapply rtc_r; [done|]. destruct ok; [by eapply step_register|by eapply step_reject].
    + split; [done|done|]. intros _. simpl. rewrite lookup_insert_eq. by destruct ok.
    + intros t' E. simpl. by rewrite lookup_insert_ne.
    + done.
  - by eapply process_ok_runs.
  - apply (process_ok_set (mkProcess s cs)); [done|done| |done|].
    + by apply resume_ok; [apply Hc|].
    + intros _. apply Hwait.
  - by apply process_ok_same.
Qed.

Lemma process_ok_steps p p' : process_ok p → psteps p p' → process_ok p'.
Proof. intros Hok Hs. induction Hs as [|p1 p2 p3 H12 _ IH]; [done|]. apply IH. by eapply process_ok_step. Qed.

Lemma preachable_ok p : preachable p → process_ok p.
Proof. apply process_ok_steps, process_ok_idle. Qed.

(** ** What a [Shutdown] call can count on *)

Lemma drain_pstep p p' : drain p p' → pstep p p'.
Proof.
  destruct 1 as [p p' Hr|p t c err Ht Hw _|p k t ts Hk|p k Hk Hd].
  - by apply p_runs.
  - by apply p_loop_ends.
  - exact (p_other p _ (step_cancel _ _ _ _ Hk) eq_refl).
  - exact (p_other p _ (step_return_nil _ _ Hk Hd) eq_refl).
Qed.

(** How many steps a goroutine, or a [Shutdown] call, has still to make: a
    session does at most nine things, see [script_length]. *)
Definition connection_work (c : connection) : nat :=
  length (c_todo c) + match c_first c with None => 10 | Some _ => 0 end.
Definition shutdown_work (phase : shutdown_phase) : nat :=
  match phase with Cancelling ts => S (length ts) | _ => 0 end.
Definition total {A} (f : A → nat) (m : gmap nat A) : nat := map_fold (λ _ x n, f x + n) 0 m.
Definition remaining (p : Process) : nat :=
  total connection_work (p_connections p) + total shutdown_work (shutdowns (p_system p)).

Lemma total_insert {A} (f : A → nat) m i x :
  m !! i = None → total f (<[i := x]> m) = f x + total f m.
Proof. intros. unfold total. rewrite map_fold_insert_L; [done|lia|done]. Qed.

Lemma total_update {A} (f : A → nat) m i x y :
  m !! i = Some x → f y < f x → total f (<[i := y]> m) < total f m.
Proof.
  intros Hi Hlt. rewrite <- (insert_delete_id m i x Hi) at 2.
  rewrite <- insert_delete_eq, !total_insert by apply lookup_delete_eq. lia.
Qed.

Lemma script_length request id first w :
  wants_session h request = true → fresh w → length (script request (id, true) first w) ≤ 9.
Proof.
  intros Hws [Hst Hw]. rewrite script_session by done.
  destruct (ws_cases (oa_websocket h) request) as [(s & et & m & Href)|(c & sb & session & Ha & Hs & Ho & Hn)].
  - destruct (ws_run_refused _ request id first w s et m Hst Href) as (mid & -> & Hmid).
    cbn [world_of w_trace]. rewrite Hw.
    by destruct Hmid as [[-> _]|(o & [[-> _]|[-> _]])]; simpl; lia.
  - rewrite (ws_run_opened _ request id first w c sb session Ha Hs Ho Hn), Hw. cbv zeta.
    destruct (Accept _ _ _ _); [simpl; lia|]. destruct first as [err|]; [|simpl; lia].
    destruct (closeReason _ err) as [[]|]; simpl; lia.
Qed.

(** A session with nothing to do waits for its loops. *)
Lemma waiting_session p t c id :
  process_ok p → p_connections p !! t = Some c →
  handlers (p_system p) !! t = Some (Active id) → c_todo c = [] → waits_for_loops c.
Proof.
  intros (_ & Hc & Hd) Ht Hh Htodo.
  destruct (Hd t (mk_is_Some _ _ Hh)) as (c' & Ht' & Hw). rewrite Ht in Ht'. injection Ht' as <-.
  destruct (Hc t c Ht) as [H1 H2 H3]. specialize (H3 Hw). rewrite Hh in H3. destruct H3 as [Hr Hu].
  rewrite Hr, Htodo, app_nil_r in H2.
  assert (ActUnregister id ∉ c_done c) as Hnot.
  { intros Hin. apply list_elem_of_split in Hin as (l1 & l2 & Hl). rewrite Hl, count_app in Hu.
    unfold count in Hu. simpl in Hu. lia. }
  unfold waits_for_loops. rewrite Hr. split_and!; [done..| |done|done].
  destruct (script_accepted (c_request c) id (c_first c) (c_world c) Hw H1) as [(? & _)|(b & Hb & _)];
    [done|]. exfalso. apply Hnot. rewrite H2, Hb. set_solver.
Qed.

Lemma advance_work c a rest : c_todo c = a :: rest → connection_work (advance c a rest) < connection_work c.
Proof. unfold connection_work. intros ->. simpl. lia. Qed.

Lemma resume_work s t c err :
  connection_ok s t c → waits_for_loops c → connection_work (resume c err) < connection_work c.
Proof.
  intros [H1 H2 H3] (Hw & Htodo & Hfirst & Hreg & _). unfold connection_work, resume.
  rewrite Htodo, Hfirst. cbn [c_todo c_first length]. rewrite length_drop.
  destruct (c_registered c) as [id ok]. simpl in Hreg. subst ok.
  pose proof (script_length (c_request c) id (Some err) (c_world c) Hw H1). lia.
Qed.

(** The registry does not panic on the way. *)
Lemma drain_unregister p t c id rest :
  process_ok p → bounded (p_system p) → p_connections p !! t = Some c →
  c_todo c = ActUnregister id :: rest → is_Some (unregister id (registry (p_system p))).
Proof.
  intros Hok Hb _ _. pose proof (invariant_reachable _ (proj1 Hok) Hb) as Hi.
  rewrite unregister_spec by apply (inv_once _ Hi). by eexists.
Qed.

Lemma drain_work p p' :
  process_ok p → bounded (p_system p) → drain p p' → remaining p' < remaining p.
Proof.
  intros Hok Hb Hd. unfold remaining.
  destruct Hd as [? ? [p t c a rest Ht Htodo _ _|p t c rest Ht Htodo|p t c id rest r Ht Htodo _
      |p t c id rest Ht Htodo Hu]|p t c err Ht Hw _|p k t ts Hk|p k Hk _];
    try subst s; cbn [set_connection p_connections p_system shutdowns].
  1-3: pose proof (total_update connection_work _ t c _ Ht (advance_work c _ rest Htodo)); lia.
  - destruct (drain_unregister p t c id rest Hok Hb Ht Htodo) as [? ?]. congruence.
  - pose proof (total_update connection_work _ t c _ Ht
      (resume_work _ t c err (proj1 (proj2 Hok) t c Ht) Hw)). lia.
  - assert (shutdown_work (Cancelling ts) < shutdown_work (Cancelling (t :: ts))) as Hlt by (simpl; lia).
    pose proof (total_update shutdown_work _ k _ _ Hk Hlt). lia.
  - assert (shutdown_work ReturnedNil < shutdown_work (Cancelling [])) as Hlt by (simpl; lia).
    pose proof (total_update shutdown_work _ k _ _ Hk Hlt). lia.
Qed.

Lemma drain_bounded p p' :
  process_ok p → bounded (p_system p) → drain p p' → bounded (p_system p').
Proof.
  unfold bounded. intros Hok Hb Hd.
  destruct Hd as [? ? [| |p t c id rest r Ht Htodo _|]| | |]; try subst s; simpl in *; try done.
  destruct (todo_unregister p t c id rest Hok Ht Htodo) as (_ & _ & _ & Hh).
  by rewrite map_size_insert_Some by (by rewrite Hh).
Qed.

(** A [Shutdown] call under way. *)
Definition under_way (k : nat) (p : Process) : Prop :=
  shutdowns (p_system p) !! k = Some ReturnedNil ∨
  ∃ ts, shutdowns (p_system p) !! k = Some (Cancelling ts).

Lemma drain_under_way k p p' : drain p p' → under_way k p → under_way k p'.
Proof.
  unfold under_way.
  destruct 1 as [? ? []|p t c err Ht Hw _|p k' t ts Hk|p k' Hk _]; simpl; try done;
    (destruct (decide (k' = k)) as [->|E];
     [rewrite lookup_insert_eq; eauto|by rewrite lookup_insert_ne]).
Qed.

(** Some session is still served: one that the call has cancelled can go on. *)
Lemma drain_session k p t id :
  process_ok p → bounded (p_system p) → shutdowns (p_system p) !! k = Some (Cancelling []) →
  handlers (p_system p) !! t = Some (Active id) → ∃ p', drain p p'.
Proof.
  intros Hok Hb Hk Hh. pose proof (invariant_reachable _ (proj1 Hok) Hb) as Hi.
  destruct (inv_cancelling _ Hi k [] Hk t id Hh) as [Hcan|?]; [|set_solver].
  destruct (proj2 (proj2 Hok) t (mk_is_Some _ _ Hh)) as (c & Ht & _).
  destruct (c_todo c) as [|a rest] eqn:Htodo.
  { eexists. apply (d_loop_ends p t c None); [done| |done]. by eapply waiting_session. }
  destruct (is_unregister a) eqn:Hu; [|destruct (is_cancel a) eqn:Hc].
  - destruct a; try done. destruct (drain_unregister p t c _ rest Hok Hb Ht Htodo) as [r Hr].
    eexists. eapply d_runs, p_unregister; done.
  - destruct a; try done. eexists. eapply d_runs, p_cancel; done.
  - eexists. eapply d_runs, p_act; done.
Qed.

Lemma drain_progress k p :
  process_ok p → bounded (p_system p) → under_way k p →
  shutdowns (p_system p) !! k = Some ReturnedNil ∨ ∃ p', drain p p'.
Proof.
  intros Hok Hb [?|[[|t ts] Hk]]; [by left|right..].
  2:{ eexists. by eapply d_cancels. }
  pose proof (invariant_reachable _ (proj1 Hok) Hb) as Hi.
  destruct (decide (active (registry (p_system p)) = ∅)) as [He|(id & t & Ha)%map_choose].
  - eexists. apply (d_returns p k); [done|]. apply (inv_done _ Hi). split; [|done].
    by apply (inv_shutdown _ Hi k).
  - apply (inv_active _ Hi) in Ha. by eapply drain_session.
Qed.

(** ** Properties *)

(** C38. The registry's transition system is a faithful abstraction of the
    whole handler: every step of every goroutine is a step of [WsRegistry.step]
    or leaves the registry alone, so that each reachable process has a reachable
    registry; and in every state the handlers the registry counts as served are
    exactly the goroutines of accepted sessions that have not left it. *)
Theorem process_refines p p' :
  preachable p → pstep p p' →
  reachable (p_system p') ∧
  (p_system p' = p_system p ∨ step (p_system p) (p_system p')) ∧
  ∀ t, serving (p_system p') t ↔
    ∃ c, p_connections p' !! t = Some c ∧ wants_session h (c_request c) = true ∧
      (c_registered c).2 = true ∧ ActUnregister (c_registered c).1 ∉ c_done c.
Proof.
  intros Hp Hstep. pose proof (preachable_ok p Hp) as Hok.
  pose proof (process_ok_step _ _ Hok Hstep) as Hok'. split; [apply Hok'|]. split.
  - destruct Hstep as [p t request w Ht Hw Hf|p t request w id ok r Ht Hw Hf Hreg
      |? ? [p t c a rest Ht Htodo Ha1 Ha2|p t c rest Ht Htodo|p t c id rest r Ht Htodo Hu
            |p t c id rest Ht Htodo Hu]|p t c err Ht Hwait|p s' Hs Hh]; simpl; auto; right.
    + pose proof (unstarted p t Hok Ht). destruct ok; [by eapply step_register|by eapply step_reject].
    + apply step_cancelled. by eapply todo_cancel.
    + eapply step_unregister; [|done]. by eapply todo_unregister.
    + eapply step_unregister_panic; [|done]. by eapply todo_unregister.
  - destruct Hok' as (_ & Hc & Hd). intros t. split.
    + intros [id Hh]. destruct (Hd t (mk_is_Some _ _ Hh)) as (c & Ht & Hw). exists c.
      destruct (Hc t c Ht) as [_ _ H3]. specialize (H3 Hw). rewrite Hh in H3. destruct H3 as [-> Hu].
      split_and!; [done..|]. intros Hin. apply list_elem_of_split in Hin as (l1 & l2 & Hl).
      rewrite Hl, count_app in Hu. unfold count in Hu. simpl in Hu. lia.
    + intros (c & Ht & Hw & Hr & Hn). destruct (Hc t c Ht) as [_ _ H3]. specialize (H3 Hw).
      destruct (handlers (p_system p') !! t) as [[id| |]|] eqn:Hh; [by exists id|congruence| |done].
      by destruct H3 as (_ & _ & ?).
Qed.

(** C8. When [Shutdown] returns nil every session is over: the registry holds
    nobody and no channel has been closed twice; the goroutine of each request
    that was accepted as a session has run to its end, with the session it
    opened closed exactly once, and its connection closed exactly once if it was
    upgraded; and one that was turned away has nothing to do but to cancel its
    context: it reaches no authenticator, no backend and no handshake. *)
Theorem shutdown_closes_sessions p k :
  preachable p → bounded (p_system p) → shutdowns (p_system p) !! k = Some ReturnedNil →
  active (registry (p_system p)) = ∅ ∧ panicked (p_system p) = false ∧
  ∀ t c, p_connections p !! t = Some c → wants_session h (c_request c) = true →
  if (c_registered c).2 then
    c_todo c = [] ∧
    count is_close_session (c_done c) = opened_sessions (oa_websocket h) (c_request c) ∧
    (upgraded (oa_websocket h) (c_request c) → count is_close_connection (c_done c) = 1)
  else c_done c ++ c_todo c = [ActCancel].
Proof.
  intros Hp Hb Hk. pose proof (preachable_ok p Hp) as (Hr & Hc & Hd).
  pose proof (invariant_reachable _ Hr Hb) as Hi.
  pose proof (inv_nil _ Hi k Hk) as [_ He]%(inv_done _ Hi).
  split_and!; [done|apply (inv_panic _ Hi)|]. intros t c Ht Hw.
  destruct (Hc t c Ht) as [Hf Hs Hph]. specialize (Hph Hw).
  destruct (handlers (p_system p) !! t) as [[id| |]|] eqn:Hh; [|..|done].
  - apply (inv_active _ Hi) in Hh. by rewrite He, lookup_empty in Hh.
  - rewrite Hph. destruct (c_registered c) as [id ok]. simpl in Hph. subst ok.
    by rewrite script_rejected in Hs.
  - destruct Hph as (Hok & Htodo & Hin). rewrite Hok. split; [done|].
    destruct (c_registered c) as [id ok]. simpl in Hok, Hin. subst ok.
    rewrite Htodo, app_nil_r in Hs.
    destruct (script_accepted (c_request c) id (c_first c) (c_world c) Hw Hf)
      as [(_ & Hu & _)|(before & Hb' & Hu & Hcs & Hcc)].
    + rewrite <- Hs in Hu. apply list_elem_of_split in Hin as (l1 & l2 & Hl).
      rewrite Hl, count_app in Hu. unfold count in Hu. simpl in Hu. lia.
    + rewrite Hs, Hb', !count_app, Hcs. split; [unfold count; simpl; lia|].
      intros Hup. rewrite (Hcc Hup). unfold count. simpl. lia.
Qed.

(** C37. [Shutdown] is live.  From every state in which a call is under way,
    whatever has happened before, the goroutines and the [Shutdown] calls that
    are already there need nobody else: no run of [drain] is longer than
    [remaining], and one that cannot be continued has returned nil.  The loops
    of a session end in it only once its context is cancelled, so a [Shutdown]
    that left out a session would wait for ever. *)
Theorem shutdown_returns p k ts :
  preachable p → bounded (p_system p) → shutdowns (p_system p) !! k = Some (Cancelling ts) →
  ∀ n p', nsteps drain n p p' →
    n ≤ remaining p ∧
    (shutdowns (p_system p') !! k = Some ReturnedNil ∨ ∃ p'', drain p' p'').
Proof.
  intros Hp Hb Hk n p' Hn. pose proof (preachable_ok p Hp) as Hok.
  assert (under_way k p) as Hway by (right; by exists ts). clear Hk ts Hp.
  induction Hn as [p|n p1 p2 p3 H12 _ IH].
  - split; [lia|]. by apply drain_progress.
  - destruct IH as [Hle Hend].
    + by eapply drain_bounded.
    + by eapply process_ok_step, drain_pstep.
    + by eapply drain_under_way.
    + pose proof (drain_work _ _ Hok Hb H12). split; [lia|done].
Qed.

End Process.

(** ** Witnesses *)

(** One realtime session is opened, runs, and is shut down. *)
Definition example_sessions : Handler := mkOpenAIHandler "/v1" (oa_rest example_openai) (example_ws true).

Definition example_socket : HttpRequest :=
  mkHttpRequest "GET" "/v1/realtime" "model=test"
    (header_set "Connection" "Upgrade" (header_set "Upgrade" "websocket" ∅)) "" false
    (Some "abcdefghijkl").

Definition example_actions : list action :=
  [ActAuthenticate;
   ActOpenSession (session_request (example_ws true) example_socket (request_id example_socket) "caller");
   ActAccept ["realtime"] []; ActSetReadLimit 1024;
   ActCancel; ActCloseSession; ActCloseConnection 1000 "OK"; ActCancel; ActUnregister 1].

Definition example_process (s : System) (first : option (option goerror)) (done todo : list action)
    : Process :=
  mkProcess s {[ 7 := mkConnection example_socket (fresh_world true None) (1%N, true) first done todo ]}.

(** While the loops run, a [Shutdown] begins. *)
Definition example_running : Process :=
  example_process (mkSystem (mkRegistry true 1 {[ 1%N := 7 ]} false false) {[ 7 := Active 1 ]} ∅
    {[ 0 := Cancelling [7] ]} false) None (take 4 example_actions) [].
Definition example_closed : Process :=
  example_process (mkSystem (mkRegistry true 1 ∅ true true) {[ 7 := Finished ]} {[ 7 ]}
    {[ 0 := ReturnedNil ]} false) (Some None) example_actions [].

Lemma set_example c c' s :
  set_connection 7 c' (mkProcess s {[ 7 := c ]}) = mkProcess s {[ 7 := c' ]}.
Proof. unfold set_connection. simpl. by rewrite insert_singleton_eq. Qed.

Lemma example_act s first done a todo :
  is_cancel a = false → is_unregister a = false →
  pstep example_sessions (example_process s first done (a :: todo))
    (example_process s first (done ++ [a]) todo).
Proof.
  intros H1 H2. apply p_runs.
  pose proof (p_act (example_process s first done (a :: todo)) 7 _ a todo
    (lookup_singleton_eq _ _) eq_refl H1 H2) as Hs.
  unfold example_process in *. by rewrite set_example in Hs.
Qed.

Lemma example_cancel r hs cs ks first done todo :
  pstep example_sessions (example_process (mkSystem r hs cs ks false) first done (ActCancel :: todo))
    (example_process (mkSystem r hs ({[7]} ∪ cs) ks false) first (done ++ [ActCancel]) todo).
Proof.
  apply p_runs. pose proof (p_cancel (example_process (mkSystem r hs cs ks false) first done
    (ActCancel :: todo)) 7 _ todo (lookup_singleton_eq _ _) eq_refl) as Hs.
  unfold example_process in *. cbv zeta in Hs.
  cbn [p_system p_connections registry handlers cancelled shutdowns panicked] in Hs.
  by rewrite set_example in Hs.
Qed.

Lemma example_start r : register 7 new_registry = (1%N, true, r) →
  pstep example_sessions idle
    (example_process (mkSystem r {[ 7 := Active 1 ]} ∅ ∅ false) None [] (take 4 example_actions)).
Proof.
  intros Hr. pose proof (p_open example_sessions idle 7 example_socket (fresh_world true None) 1 true r
    eq_refl ltac:(vm_compute; reflexivity) (conj eq_refl eq_refl) Hr) as Hs.
  cbv zeta in Hs. unfold set_connection in Hs. cbn [p_system p_connections idle initial handlers cancelled
    shutdowns panicked] in Hs.
  replace (script example_sessions example_socket (1%N, true) None (fresh_world true None))
    with (take 4 example_actions) in Hs by (vm_compute; reflexivity).
  exact Hs.
Qed.

Lemma example_running_reachable : preachable example_sessions example_running.
Proof.
  eapply rtc_l; [by apply example_start|]. cbn [take example_actions].
  do 4 (eapply rtc_l; [by apply example_act|]).
  apply rtc_once.
  exact (p_other _ (example_process _ _ _ _) _
    (step_lock (mkSystem (mkRegistry false 1 {[ 1%N := 7 ]} false false) {[ 7 := Active 1 ]} ∅ ∅ false)
       0 [7] [7] _ eq_refl eq_refl (Permutation_refl _)) eq_refl).
Qed.

(** Its loops run: the goroutine has nothing to do but to wait. *)
Lemma example_waits s c :
  p_connections (example_process s None (take 4 example_actions) []) !! 7 = Some c →
  waits_for_loops example_sessions c.
Proof.
  simpl. rewrite lookup_singleton_eq. intros [= <-].
  split_and!; [vm_compute; reflexivity|done..|]. cbn [c_registered c_done fst take example_actions].
  set_solver.
Qed.

Lemma example_resume s :
  pstep example_sessions (example_process s None (take 4 example_actions) [])
    (example_process s (Some None) (take 4 example_actions) (drop 4 example_actions)).
Proof.
  pose proof (p_loop_ends example_sessions (example_process s None (take 4 example_actions) []) 7 _ None
    (lookup_singleton_eq _ _) (example_waits s _ (lookup_singleton_eq _ _))) as Hs.
  unfold example_process in *. rewrite set_example in Hs. unfold resume in Hs.
  cbn [c_request c_world c_registered c_done] in Hs.
  replace (script example_sessions example_socket (1%N, true) (Some None) (fresh_world true None))
    with example_actions in Hs by (vm_compute; reflexivity).
  exact Hs.
Qed.

Lemma example_unregister r r' hs cs ks first done :
  unregister 1 r = Some r' →
  pstep example_sessions (example_process (mkSystem r hs cs ks false) first done [ActUnregister 1])
    (example_process (mkSystem r' (<[7 := Finished]> hs) cs ks false) first (done ++ [ActUnregister 1]) []).
Proof.
  intros Hr. apply p_runs. pose proof (p_unregister (example_process (mkSystem r hs cs ks false) first
    done [ActUnregister 1]) 7 _ 1 [] r' (lookup_singleton_eq _ _) eq_refl Hr) as Hs.
  unfold example_process in *. cbv zeta in Hs.
  cbn [p_system p_connections registry handlers cancelled shutdowns panicked] in Hs.
  by rewrite set_example in Hs.
Qed.

Lemma example_running_closed : rtc (pstep example_sessions) example_running example_closed.
Proof.
  eapply rtc_l.
  { exact (p_other _ example_running _ (step_cancel (p_system example_running) 0 7 [] eq_refl) eq_refl). }
  eapply rtc_l; [apply example_resume|]. cbn [drop example_actions].
  eapply rtc_l; [apply example_cancel|]. do 2 (eapply rtc_l; [by apply example_act|]).
  eapply rtc_l; [apply example_cancel|].
  eapply rtc_l; [by apply example_unregister|]. apply rtc_once.
  exact (p_other _ (example_process _ _ _ _) _
    (step_return_nil (mkSystem (mkRegistry true 1 ∅ true true) {[ 7 := Finished ]} {[ 7 ]}
       {[ 0 := Cancelling [] ]} false) 0 eq_refl eq_refl) eq_refl).
Qed.

#[export] Instance example_sessions_usable : LookupsUsable (ws_services (oa_websocket example_sessions)) :=
  example_ws_usable true.

Lemma process_refines_witness :
  ∃ p', pstep example_sessions example_running p' ∧ reachable (p_system p').
Proof.
  pose proof (example_resume (p_system example_running)) as Hs.
  eexists. split; [exact Hs|]. apply (process_refines _ _ _ example_running_reachable Hs).
Defined.

Lemma shutdown_closes_sessions_witness :
  active (registry (p_system example_closed)) = ∅ ∧
  count is_close_session example_actions = opened_sessions (example_ws true) example_socket.
Proof.
  destruct (shutdown_closes_sessions example_sessions example_closed 0
    (transitivity (R:=rtc (pstep example_sessions)) example_running_reachable example_running_closed)
    ltac:(vm_compute; reflexivity) ltac:(vm_compute; reflexivity)) as (He & _ & Hall).
  split; [exact He|]. exact (proj1 (proj2 (Hall 7 _ (lookup_singleton_eq _ _) ltac:(vm_compute; reflexivity)))).
Defined.

(** The first step of the drain is to cancel the session; seven follow. *)
Definition example_cancelled : Process :=
  example_process (mkSystem (mkRegistry true 1 {[ 1%N := 7 ]} false false) {[ 7 := Active 1 ]} {[ 7 ]}
    {[ 0 := Cancelling [] ]} false) None (take 4 example_actions) [].

Lemma shutdown_returns_witness :
  nsteps (drain example_sessions) 1 example_running example_cancelled ∧
  1 ≤ remaining example_running ∧
  (shutdowns (p_system example_cancelled) !! 0 = Some ReturnedNil ∨
   ∃ p', drain example_sessions example_cancelled p').
Proof.
  assert (nsteps (drain example_sessions) 1 example_running example_cancelled) as Hn.
  { apply nsteps_once. exact (d_cancels example_sessions example_running 0 7 [] eq_refl). }
  split; [exact Hn|].
  exact (shutdown_returns example_sessions example_running 0 [7] example_running_reachable
    ltac:(vm_compute; reflexivity) ltac:(vm_compute; reflexivity) 1 _ Hn).
Defined.
