(* ===== verification/Examples.v ===== *)
(** The example programs: [examples/minimal/main.go] and
    [examples/aggregate/main.go].

    They put all components together: a registry, an OpenAI handler over it, and
    an aggregate server in front.  The listener and the process around them are
    outside. *)
From S2P Require Import Prelude GoStrings GoHttp Errors Services Backend JsonString Json World.
From S2P Require Import RestErrors RestStream ProfileData Profile RestHandler RestAnswer RestGate.
From S2P Require Import WsHandler Options OpenAI ServeMux Server.

(** What [log.Fatal] is called with. *)
Inductive main_error :=
| FatalServices (e : services_error)
| FatalHandler (e : handler_error)
| FatalServer (e : server_error).

(** ** minimal *)

Definition empty_models : string := quoted "{'object':'list','data':[]}".

(** [Handle] of [*app]. *)
Definition app_Handle : HandleFunc := λ request,
  if bool_decide (req_Operation request = "listModels")
  then Ok (mkResponse 0 ∅ "" empty_models None None)
  else Err (BackendErr (Some (simple_error ErrorUnsupported "operation is not implemented"))).

Definition minimal_main (loader : Loader) (ws : WsCollaborators) : result main_error Handler :=
  services ← map_err FatalServices (NewServices [WithModels (ptr app_Handle)]);
  map_err FatalHandler (NewHandler loader ws services []).

(** ** aggregate *)

(** [shutdown] is what the handler's [Shutdown] answers. *)
Definition aggregate_main (unicode_name : string → bool) (loader : Loader) (ws : WsCollaborators)
    (shutdown : option goerror) : result main_error (Handler * Server) :=
  services ← map_err FatalServices (NewServices []);
  openAIHandler ← map_err FatalHandler (NewHandler loader ws services []);
  shell ← map_err FatalServer (Server.New unicode_name
    [Server.WithHandler unicode_name "/v1/" (ptr (mkHttpHandler "openai" (Some shutdown)))]);
  Ok (openAIHandler, shell).

(** ** Lemmas *)

Definition minimal_services : Services HandleFunc SessionBackend :=
  mkServices None {[ CapabilityModels := ptr app_Handle ]} ∅.

Lemma minimal_NewServices : NewServices [WithModels (ptr app_Handle)] = Ok minimal_services.
Proof. reflexivity. Qed.

#[export] Instance minimal_usable : LookupsUsable minimal_services.
Proof.
  constructor; [|by intros x b [=]]. intros c h. unfold HandlerFor, minimal_services. simpl.
  rewrite lookup_singleton. case_decide; [by intros [= <-]|by intros [=]].
Qed.

(** The handler both examples construct. *)
Definition default_config : Config := internal_config default_settings.

Lemma NewHandler_default loader ws services h :
  NewHandler loader ws services [] = Ok h →
  oa_basePath h = "/v1" ∧ h_services (oa_rest h) = services ∧ h_config (oa_rest h) = default_config.
Proof.
  intros (s & doc & router & Hs & _ & _ & ->)%NewHandler_Ok. simpl in Hs. by injection Hs as <-.
Qed.

Lemma default_limit h : h_config h = default_config → sane_limit h.
Proof. unfold sane_limit. intros ->. by split; [apply Z.leb_le|apply Z.ltb_lt]. Qed.

(** The one operation the minimal application implements. *)
Lemma listModels_unique request route operation :
  resolve request route = Some operation → op_ID operation = "listModels" →
  op_SuccessStatus operation = 200%Z ∧ op_Capability operation = CapabilityModels.
Proof.
  intros Hop%resolve_In Hid.
  assert (forallb (λ o, negb (bool_decide (op_ID o = "listModels")) ||
    bool_decide (op_SuccessStatus o = 200%Z ∧ op_Capability o = CapabilityModels)) Operations = true) as Hall
    by by vm_compute.
  rewrite forallb_forall in Hall. apply list_elem_of_In, Hall in Hop.
  rewrite bool_decide_true in Hop by done. by apply bool_decide_eq_true in Hop.
Qed.

Lemma capability_cases (c : Capability) :
  HandlerFor minimal_services c =
    if bool_decide (c = CapabilityModels) then (ptr app_Handle, true) else (None, false).
Proof.
  unfold HandlerFor, minimal_services. simpl. rewrite lookup_singleton.
  destruct (decide (CapabilityModels = c)) as [<-|E].
  - by rewrite bool_decide_true.
  - by rewrite bool_decide_false by congruence.
Qed.

Definition answers_with (o : outcome ()) (requestID : string) (status : Z) (body : string) : Prop :=
  ∃ w, o = Return () w ∧ rw_status (w_rw w) = Some status ∧ rw_body (w_rw w) = body ∧
    header_get (rw_sent (w_rw w)) "X-Request-Id" = requestID.

Lemma error_answers requestID status e rw l :
  (400 ≤ status ≤ 599)%Z → takes_all rw → rw_body rw = "" →
  answers_with (Return () (mkWorld (error_rw requestID status e rw) l)) requestID status (error_body e).
Proof.
  intros Hs Hc Hb. eexists. split; [reflexivity|]. cbn [w_rw].
  destruct (error_rw_spec requestID status e rw) as (H1 & H2 & _ & H3).
  rewrite H1, H2, error_header_id, H3, Hb; [done| |done].
  unfold bodyAllowed. rewrite !andb_true_iff, !negb_true_iff, !Z.eqb_neq, andb_false_iff, !Z.leb_gt. lia.
Qed.

Lemma sent_answers requestID status data rw l :
  (200 ≤ status ≤ 599)%Z → bodyAllowed status = true ∨ data = "" → takes_all rw → rw_body rw = "" →
  identified requestID (rw_header rw) →
  answers_with (Return () (mkWorld (sent_rw status data rw) l)) requestID status data.
Proof.
  intros Hs Ha [Hc Hd] Hb Hid. eexists. split; [reflexivity|]. cbn [w_rw].
  destruct (sent_rw_final status data rw Hs) as (-> & -> & _).
  split_and!; [done| |by apply identified_get].
  destruct Ha as [Ha| ->]; [by rewrite sent_rw_within, Hd|].
  unfold sent_rw. cbn [string_empty]. by destruct (informational status).
Qed.

(** A JSON answer without metadata: validated when the response is, replaced
    by an internal error when it is found invalid. *)
Definition profile_error : backend_error :=
  internal_error "Backend returned a response outside the active compatibility profile.".

Lemma json_answers h requestID operation vi result w :
  rw_status (w_rw w) = None → takes_all (w_rw w) → rw_body (w_rw w) = "" →
  identified requestID (rw_header (w_rw w)) →
  resp_Metadata result = ∅ → non_nil (resp_Stream result) = None → non_nil (resp_Body result) = None →
  let status := response_status operation result in
  (200 ≤ status ≤ 599)%Z → bodyAllowed status = true ∨ resp_JSON result = "" →
  match (if validates_response h result
         then ValidateResponse (h_collaborators h) vi status
                (header_set "Content-Type" (json_media result) (rw_header (w_rw w))) (resp_JSON result)
         else None) with
  | None => answers_with (respond h requestID operation vi result w) requestID status (resp_JSON result)
  | Some _ => answers_with (respond h requestID operation vi result w) requestID 500 (error_body profile_error)
  end.
Proof.
  intros Hst Ht Hempty Hid Hmeta Hs Hb status Hr Ha.
  assert (unambiguous result) as Hu.
  { unfold unambiguous, responseModeCount. rewrite <- !non_nil_spec, Hs, Hb. cbn.
    destruct (string_empty _); lia. }
  rewrite respond_json; [|done|done|unfold valid_status; lia|done|done]. cbv zeta. fold status.
  unfold response_verdict.
  assert (rw_header (json_rw result (w_rw w)) =
    header_set "Content-Type" (json_media result) (rw_header (w_rw w))) as Hh.
  { unfold json_rw, metadata_rw, with_header. cbn [rw_header]. rewrite Hmeta.
    unfold copySafeHeaders. by rewrite map_to_list_empty. }
  rewrite Hh.
  assert (takes_all (json_rw result (w_rw w))) as Ht'.
  { split; [apply Ht|]. rewrite Hh. by eapply takes_all_set. }
  assert (∀ l, answers_with (Return () (mkWorld (sent_rw status (resp_JSON result)
    (json_rw result (w_rw w))) l)) requestID status (resp_JSON result)) as Hsent.
  { intros l. apply sent_answers; [done..|]. rewrite Hh. by apply identified_set. }
  destruct (validates_response h result); [|apply Hsent].
  destruct (ValidateResponse _ _ _ _ _); [|apply Hsent]. apply error_answers; [lia|done..].
Qed.

Lemma refused_answers h request status e w :
  sane_limit h → rw_status (w_rw w) = None → takes_all (w_rw w) → rw_body (w_rw w) = "" →
  refused h request status e →
  answers_with (ServeHTTP h request w) (request_id request) status (error_body e).
Proof.
  intros Hm Hst Hc Hb Href. destruct (ServeHTTP_refused h request status e w Hm Hst Href) as (l & -> & _).
  apply error_answers; [|by apply takes_all_start|done]. pose proof (refused_range _ _ _ _ Href). lia.
Qed.

Lemma aggregate_built unicode_name loader ws shutdown h s :
  aggregate_main unicode_name loader ws shutdown = Ok (h, s) →
  let openai := ptr (mkHttpHandler "openai" (Some shutdown)) in
  NewHandler loader ws (mkServices None ∅ ∅) [] = Ok h ∧
  Server.New unicode_name (denote_mount unicode_name <$> [Some (mkMounted "/v1/" openai)]) = Ok s.
Proof.
  unfold aggregate_main. change (NewServices []) with
    (Ok (mkServices None ∅ ∅) : result services_error (Services HandleFunc SessionBackend)).
  cbn [map_err mbind result_bind].
  destruct (NewHandler loader ws _ []) as [h'|]; [|done]. cbn [map_err mbind result_bind].
  cbn [denote_mount fmap list_fmap option_bind m_pattern m_handler].
  destruct (Server.New unicode_name _) as [s'|]; [|done]. cbn [map_err mbind result_bind].
  by intros [= -> ->].
Qed.

Definition v1_pattern : pattern := mkPattern "/v1/" "" "" [Lit "v1"; Multi ""].

Lemma v1_parses unicode_name : parsePattern unicode_name "/v1/" = Ok v1_pattern.
Proof. reflexivity. Qed.

(** The paths below [/v1/], as the mux cuts them. *)
Definition inside_v1 (path : string) : bool :=
  match path_segments path with first :: _ :: _ => bool_decide (first = "v1") | _ => false end.

Lemma v1_applies host method path :
  applies host method (path_segments path) v1_pattern = inside_v1 path.
Proof.
  unfold inside_v1, applies. simpl. destruct (path_segments path) as [|x [|y l]]; simpl.
  - done.
  - by rewrite andb_false_r.
  - rewrite andb_true_r. apply bool_decide_ext. split; congruence.
Qed.

(** A mux whose patterns name no method never refuses one. *)
Lemma no_method_not_allowed {H} r (m : mux H) allow :
  Forall (λ e, p_method e.1 = "") m → mux_ServeHTTP r m ≠ MethodNotAllowed allow.
Proof.
  intros Hm.
  assert (∀ f : string → bool, List.filter (λ method, negb (string_empty method) && f method)
    ((λ e : pattern * H, p_method e.1) <$> m) = []) as Hf.
  { intros f. induction Hm as [|e m He _ IH]; csimpl; [done|]. rewrite He. exact IH. }
  assert (∀ host path, matchingMethodsPath host path m = ∅) as Hnone.
  { intros host path. unfold matchingMethodsPath. by rewrite Hf. }
  assert (∀ host path, matchingMethods host path m = ∅) as Hall.
  { intros host path. unfold matchingMethods, tree_matchingMethods. rewrite !Hnone.
    assert ((if string_empty host then ∅ else ∅ : gset string) = ∅) as -> by by destruct (string_empty host).
    rewrite bool_decide_false by set_solver. destruct (HasSuffix path "/"); set_solver. }
  unfold mux_ServeHTTP, findHandler. rewrite !Hall, !(bool_decide_true ((∅ : gset string) = ∅)) by done.
  by repeat case_match.
Qed.

(** ** Properties *)

(** C15. The minimal program, from its options to the bytes on the wire: a
    request for the OpenAI handler that the router and the validator accept is
    answered with the empty list of models if it asks for that and the response
    validator has no objection to this answer to this request (an internal
    error if it has), is told that the operation is not implemented if it is
    another operation on models, and that the capability is not configured if
    it is anything else. *)
Theorem minimal_answers loader ws h request registered first w route pathParams operation :
  minimal_main loader ws = Ok h →
  rw_status (w_rw w) = None → takes_all (w_rw w) → rw_body (w_rw w) = "" →
  below "/v1" (r_Path request) → isWebSocket request = false →
  accepted (oa_rest h) request "anonymous" route pathParams operation →
  let o := ServeOpenAI h request registered first w in
  let header := header_set "Content-Type" "application/json"
    (header_set "X-Request-Id" (request_id request) (rw_header (w_rw w))) in
  if bool_decide (op_ID operation = "listModels")
  then match ValidateResponse (h_collaborators (oa_rest h))
               (validation_input (oa_rest h) (buffered request) route pathParams operation)
               200 header (quoted "{'object':'list','data':[]}") with
       | None => answers_with o (request_id request) 200 (quoted "{'object':'list','data':[]}")
       | Some _ => answers_with o (request_id request) 500 (error_body profile_error)
       end
  else answers_with o (request_id request) 501 (error_body
    (if bool_decide (op_Capability operation = CapabilityModels)
     then simple_error ErrorUnsupported "operation is not implemented"
     else not_configured operation)).
Proof.
  intros Hmain Hst Ht Hbody Hbelow Hws Hacc. cbv zeta.
  unfold minimal_main in Hmain. rewrite minimal_NewServices in Hmain. cbn [map_err mbind result_bind] in Hmain.
  destruct (NewHandler loader ws minimal_services []) as [h'|] eqn:Hnew; [|done].
  injection Hmain as ->. destruct (NewHandler_default _ _ _ _ Hnew) as (Hbase & Hsv & Hcfg).
  pose proof (default_limit _ Hcfg) as Hm.
  rewrite (proj2 (proj2 (ServeOpenAI_dispatch h request registered first w))); [|by rewrite Hbase|by left].
  pose proof (capability_cases (op_Capability operation)) as Hh. rewrite <- Hsv in Hh.
  pose proof Hacc as [[_ Hop] _].
  case_bool_decide as Hmodels.
  2:{ rewrite bool_decide_false.
      2:{ intros Hid. by destruct (listModels_unique _ _ _ Hop Hid). }
      apply refused_answers; [done..|]. by eapply refused_capability. }
  erewrite ServeHTTP_admitted by (first [done|by split]). cbv zeta. cbn [dyn_val ptr].
  set (w1 := traced _ _).
  assert (takes_all (w_rw w1)) as Ht1 by by apply takes_all_start.
  unfold app_Handle. cbn [req_Operation backend_request]. case_bool_decide as Hid.
  - destruct (listModels_unique _ _ _ Hop Hid) as [Hs _].
    pose proof (json_answers (oa_rest h) (request_id request) operation
      (validation_input (oa_rest h) (buffered request) route pathParams operation)
      (mkResponse 0 ∅ "" empty_models None None) w1 Hst Ht1 Hbody (identified_start request w)
      eq_refl eq_refl eq_refl) as Hans. cbv zeta in Hans.
    unfold response_status in Hans. cbn [StatusCode] in Hans. rewrite Z.eqb_refl, Hs in Hans.
    unfold validates_response in Hans. rewrite Hcfg in Hans.
    apply Hans; [lia|by left].
  - rewrite writeBackendError_disclosed by done. cbn [disclosed as_backend].
    by apply error_answers.
Qed.

(** The aggregate program: its server sends to the OpenAI handler exactly
    the clean paths below [/v1/] (and redirects [/v1] there), and finds nothing
    else; since no backend is registered, a request that is accepted is told
    that its capability is not configured; and a shutdown asks the handler. *)
Theorem aggregate_serves unicode_name loader ws shutdown h s :
  aggregate_main unicode_name loader ws shutdown = Ok (h, s) →
  let openai := ptr (mkHttpHandler "openai" (Some shutdown)) in
  (∀ r, RequestURI r ≠ "*" → mr_Method r ≠ "CONNECT" →
     let path := URL_EscapedPath r in
     match ServeMounted s r with
     | Serve e => e.2 = openai ∧ inside_v1 path = true ∧ path = cleanPath path
     | MovedPermanently _ _ => path ≠ cleanPath path ∨ inside_v1 (path +:+ "/") = true
     | MuxNotFound => inside_v1 path = false ∧ path = cleanPath path
     | _ => False
     end) ∧
  (∀ request registered first w route pathParams operation,
     rw_status (w_rw w) = None → takes_all (w_rw w) → rw_body (w_rw w) = "" →
     below "/v1" (r_Path request) → isWebSocket request = false →
     accepted (oa_rest h) request "anonymous" route pathParams operation →
     answers_with (ServeOpenAI h request registered first w) (request_id request) 501
       (error_body (not_configured operation))) ∧
  Server.Shutdown s = ([mkHttpHandler "openai" (Some shutdown)], (λ e, [e]) <$> shutdown).
Proof.
  intros Hmain. pose proof (aggregate_built _ _ _ _ _ _ Hmain) as Hab. cbv zeta in *.
  destruct Hab as [Hnew Hserver].
  destruct (NewHandler_default _ _ _ _ Hnew) as (Hbase & Hsv & Hcfg).
  pose proof (New_built _ _ _ Hserver) as Hb. split_and!.
  - intros r Hstar Hconnect.
    set (openai := ptr (mkHttpHandler "openai" (Some shutdown))) in *.
    assert (∀ pat x, mounted unicode_name [Some (mkMounted "/v1/" openai)] pat x ↔
      pat = v1_pattern ∧ x = openai) as Hm.
    { intros pat x. unfold mounted, parses. split.
      - intros (m & [= ->]%list_elem_of_singleton & Hp & ->). cbn [m_pattern] in Hp.
        rewrite v1_parses in Hp. by injection Hp as <-.
      - intros [-> ->]. eexists. split; [by apply list_elem_of_singleton|]. done. }
    pose proof (ServeMounted_built _ _ _ r Hb) as Hd.
    specialize (Hd ltac:(by intros m [= ->]%list_elem_of_singleton) Hconnect).
    cbv beta zeta in Hd |- *.
    assert (∀ allow, ServeMounted s r ≠ MethodNotAllowed allow) as Hallow.
    { intros allow. apply no_method_not_allowed, Forall_forall. intros e.
      rewrite (built_In _ _ _ Hb). fold (mounted unicode_name [Some (mkMounted "/v1/" openai)] e.1 e.2).
      rewrite Hm. by intros [-> _]. }
    destruct (ServeMounted s r) as [[pat x]|p q|allow| |] eqn:E.
    + destruct Hd as (Hc & _ & [-> ->]%Hm & Ha & _). rewrite v1_applies in Ha. done.
    + destruct (decide (URL_EscapedPath r = cleanPath (URL_EscapedPath r))) as [Hc|Hc]; [right|by left].
      destruct Hd as [_ [[(_ & (pat & x & ([-> ->]%Hm & Ha & _) & _) & _) _]|(_ & ? & _)]]; [|done].
      rewrite v1_applies in Ha. by rewrite Hc.
    + by destruct (Hallow allow).
    + destruct Hd as (Hc & _ & Hno). split; [|done]. apply not_true_iff_false. intros Hin.
      apply (Hno v1_pattern openai ""); [by apply Hm|]. left. by rewrite v1_applies.
    + done.
  - intros request registered first w route pathParams operation Hst Hcap Hbody Hbelow Hws Hacc.
    rewrite (proj2 (proj2 (ServeOpenAI_dispatch h request registered first w))); [|by rewrite Hbase|by left].
    apply refused_answers; [by apply default_limit|done..|].
    eapply refused_capability; [done|]. by rewrite Hsv.
  - unfold Server.Shutdown. rewrite (built_handlers _ _ _ Hb). simpl. by destruct shutdown.
Qed.

(** ** Witnesses *)

Definition example_minimal : Handler :=
  match minimal_main example_loader example_sockets with Ok h => h | Err _ => example_openai end.

Lemma example_minimal_accepted :
  accepted (oa_rest example_minimal) (example_request "/v1/models") "anonymous" example_route ∅
    example_listModels.
Proof.
  split; [|done]. split; [|vm_compute; reflexivity]. split; [|reflexivity].
  split_and!; [reflexivity|by apply Z.leb_le|reflexivity].
Qed.

Lemma minimal_answers_witness :
  answers_with (ServeOpenAI example_minimal (example_request "/v1/models") (1%N, true) None
    (fresh_world true None)) (request_id (example_request "/v1/models")) 200
    (quoted "{'object':'list','data':[]}").
Proof.
  apply (minimal_answers example_loader example_sockets example_minimal (example_request "/v1/models")
    (1%N, true) None (fresh_world true None) example_route ∅ example_listModels);
    [reflexivity|reflexivity|by split|reflexivity| |reflexivity|exact example_minimal_accepted].
  right. by exists "models".
Defined.

Lemma aggregate_serves_witness :
  ∃ h s, aggregate_main ascii_names example_loader example_sockets None = Ok (h, s) ∧
    Server.Shutdown s = ([mkHttpHandler "openai" (Some None)], None).
Proof.
  eexists _, _. split; [reflexivity|].
  apply (aggregate_serves ascii_names example_loader example_sockets None _ _ eq_refl).
Defined.
