(* ===== verification/FakeRest.v ===== *)
(** The server of the SDK suites: the fake backend behind the OpenAI handler. *)
From S2P Require Import Prelude GoStrings GoHttp Errors Services Backend JsonString Json World.
From S2P Require Import FakeSession Base64 Multipart Fixtures FakeBackend.
From S2P Require Import RestErrors RestStream ProfileData Profile RestHandler RestAnswer RestGate.
From S2P Require Import WsHandler Options OpenAI Examples.

Section FakeRest.
Context (quoted_printable : string → option string).
(** The texts [fmt.Errorf] makes, and those of the errors it wraps. *)
Context (error_text cause_text : case_error → string).

Definition case_goerror (err : case_error) : goerror :=
  Opaque (error_text err)
    match err with
    | CaseMultipartBody _ | CaseResponseFixture _ => [Opaque (cause_text err) []]
    | _ => []
    end.

(** The fake as the [backend.Handler] it is registered as. *)
Definition fake_Handle (f : FakeBackend) (visit : visiting) : HandleFunc := λ request,
  match (Handle quoted_printable visit request f).1 with
  | Ok response => Ok response
  | Err err => Err (case_goerror err)
  end.

Definition suite_server (f : FakeBackend) (visit : visiting) (loader : Loader) (ws : WsCollaborators)
    : result main_error OpenAI.Handler :=
  services ← map_err FatalServices (NewServices [WithHandler (ptr (fake_Handle f visit))]);
  map_err FatalHandler (NewHandler loader ws services []).

(** ** Lemmas *)

Lemma suite_built f visit loader ws h :
  suite_server f visit loader ws = Ok h →
  oa_basePath h = "/v1" ∧ h_config (oa_rest h) = default_config ∧
  h_services (oa_rest h) = mkServices (ptr (fake_Handle f visit)) ∅ ∅.
Proof.
  unfold suite_server.
  change (NewServices [WithHandler (ptr (fake_Handle f visit))]) with
    (Ok (mkServices (ptr (fake_Handle f visit)) ∅ ∅) : result services_error (Services HandleFunc SessionBackend)).
  cbn [map_err mbind result_bind].
  destruct (NewHandler loader ws _ []) as [h'|] eqn:Hnew; [|done]. cbn [map_err]. intros [= <-].
  destruct (NewHandler_default _ _ _ _ Hnew) as (? & ? & ?). done.
Qed.

(** A request that is accepted reaches the fake. *)
Lemma suite_calls f visit loader ws h request registered first w route pathParams operation :
  suite_server f visit loader ws = Ok h →
  below "/v1" (r_Path request) → isWebSocket request = false →
  accepted (oa_rest h) request "anonymous" route pathParams operation →
  let call := backend_request (request_id request) "anonymous" operation pathParams
    (buffered request) (r_Body request) in
  ServeOpenAI h request registered first w =
    match answer quoted_printable (fixtures f) visit call with
    | Err err => writeBackendError (request_id request) (case_goerror err)
    | Ok result => respond (oa_rest h) (request_id request) operation
        (validation_input (oa_rest h) (buffered request) route pathParams operation) result
    end (traced (checks (oa_rest h) ++ [ActHandle call]) (start_world request w)).
Proof.
  intros Hh Hbelow Hws Hacc call. destruct (suite_built _ _ _ _ _ Hh) as (Hbase & Hcfg & Hsv).
  rewrite (proj2 (proj2 (ServeOpenAI_dispatch h request registered first w))); [|by rewrite Hbase|by left].
  erewrite ServeHTTP_admitted; [|by apply default_limit|].
  2:{ split; [exact Hacc|]. rewrite Hsv. reflexivity. }
  cbv zeta. cbn [dyn_val ptr]. unfold fake_Handle, Handle. fold call.
  by destruct (answer _ _ _ _).
Qed.

(** What the client gets when the fake answers with bytes. *)
Lemma respond_bytes h requestID operation vi fixture body result w :
  rw_status (w_rw w) = None → takes_all (w_rw w) → rw_body (w_rw w) = "" →
  identified requestID (rw_header (w_rw w)) → Validate (h_config h) = true →
  sf_ResponseBody fixture = EncodeToString body → fixture_response fixture = Ok result →
  (200 ≤ sf_ResponseStatus fixture ≤ 599)%Z →
  bodyAllowed (sf_ResponseStatus fixture) = true ∨ body = "" →
  let o := respond h requestID operation vi result w in
  match (if Contains (sf_ResponseMedia fixture) "json" && negb (string_empty body)
         then ValidateResponse (h_collaborators h) vi (sf_ResponseStatus fixture)
                (header_set "Content-Type" (sf_ResponseMedia fixture) (rw_header (w_rw w))) body
         else None) with
  | None => answers_with o requestID (sf_ResponseStatus fixture) body
  | Some _ => answers_with o requestID 500 (error_body profile_error)
  end.
Proof.
  intros Hst Ht Hempty Hid Hval Hb Hr Hs Hallowed. rewrite (response_spec _ _ Hb) in Hr. cbv zeta in Hr |- *.
  set (media := sf_ResponseMedia fixture) in *. set (status := sf_ResponseStatus fixture) in *.
  assert (∀ j b, response_status operation (mkResponse status ∅ media j b None) = status) as Hstatus.
  { intros j b. unfold response_status. cbn [StatusCode]. by destruct (Z.eqb_spec status 0); [lia|]. }
  pose proof (λ j, json_answers h requestID operation vi (mkResponse status ∅ media j None None)
    w Hst Ht Hempty Hid eq_refl eq_refl eq_refl) as Hans. cbv zeta in Hans.
  destruct body as [|c body]; cbn [string_empty negb] in *; [|destruct (Contains media "json") eqn:Hjson].
  - rewrite andb_false_r. injection Hr as <-. specialize (Hans ""). rewrite Hstatus in Hans.
    unfold validates_response in Hans. cbn [resp_JSON string_empty negb] in Hans.
    rewrite andb_false_r in Hans. by apply Hans.
  - cbn [andb negb] in *. destruct (parse _); [|done]. injection Hr as <-.
    specialize (Hans (String c body)). rewrite Hstatus in Hans.
    assert (∀ j, json_media (mkResponse status ∅ media j None None) = media) as Hmedia.
    { intros ?. unfold json_media. cbn [resp_MediaType]. by destruct media. }
    unfold validates_response in Hans. cbn [resp_JSON string_empty negb] in Hans.
    rewrite Hval, Hmedia, Hjson in Hans. by apply Hans.
  - cbn [andb negb] in *. injection Hr as <-.
    erewrite respond_body; [|done| |rewrite Hstatus; unfold valid_status; lia|done|done];
      [|unfold unambiguous; by vm_compute].
    rewrite Hstatus. unfold typed_rw, metadata_rw. cbn [resp_Metadata resp_MediaType].
    unfold copySafeHeaders. rewrite map_to_list_empty. cbn [copy_entries foldl].
    destruct (string_empty _); apply sent_answers; try done.
    + split; [apply Ht|]. by eapply takes_all_set.
    + by apply identified_set.
Qed.

(** ** Properties *)

(** C16. The suites' server, from the fixtures to the bytes on the wire, for
    every case but the streamed one: a request that the router and the request
    validator accept, and that is the case its header names, is answered with
    the status of the fixture and exactly the bytes its response stands for, be
    they JSON, text or binary, unless the fixture calls bytes JSON that are not
    (an internal error), or the response validator rejects this JSON answer to
    this request (an internal error too); when it is not that case, or there is
    no such case, the client gets an internal error that tells nothing. *)
Theorem suite_answers l f visit loader ws h request registered first w route pathParams operation :
  NewFakeBackend l = Ok f → fair visit → suite_server f visit loader ws = Ok h →
  rw_status (w_rw w) = None → takes_all (w_rw w) → rw_body (w_rw w) = "" →
  below "/v1" (r_Path request) → isWebSocket request = false →
  accepted (oa_rest h) request "anonymous" route pathParams operation →
  let call := backend_request (request_id request) "anonymous" operation pathParams
    (buffered request) (r_Body request) in
  let is_case fixture := fixture ∈ l ∧ sf_Operation fixture = firstHeader call caseHeader in
  let o := ServeOpenAI h request registered first w in
  let silent := answers_with o (request_id request) 500
    (error_body (simple_error ErrorInternal "The server encountered an internal error.")) in
  wants_stream call = false →
  (∀ fixture body, is_case fixture → request_matches quoted_printable fixture call →
     sf_ResponseBody fixture = EncodeToString body →
     (200 ≤ sf_ResponseStatus fixture ≤ 599)%Z →
     bodyAllowed (sf_ResponseStatus fixture) = true ∨ body = "" →
     let json := Contains (sf_ResponseMedia fixture) "json" && negb (string_empty body) in
     if json && bool_decide (parse body = None) then silent
     else match (if json
                 then ValidateResponse (h_collaborators (oa_rest h))
                        (validation_input (oa_rest h) (buffered request) route pathParams operation)
                        (sf_ResponseStatus fixture)
                        (header_set "Content-Type" (sf_ResponseMedia fixture)
                          (header_set "X-Request-Id" (request_id request) (rw_header (w_rw w)))) body
                 else None) with
          | None => answers_with o (request_id request) (sf_ResponseStatus fixture) body
          | Some _ => answers_with o (request_id request) 500 (error_body profile_error)
          end) ∧
  ((∀ fixture, is_case fixture → ¬ request_matches quoted_printable fixture call) → silent).
Proof.
  intros Hnew Hfair Hh Hst Ht Hempty Hbelow Hws Hacc call is_case o silent Hstream.
  destruct (NewFakeBackend_fixtures _ _ Hnew) as (_ & _ & Hfix).
  pose proof (answer_spec quoted_printable (fixtures f) visit call Hfair Hstream) as Hspec. cbv zeta in Hspec.
  pose proof (suite_calls f visit loader ws h request registered first w route pathParams operation
    Hh Hbelow Hws Hacc) as Ho. cbv zeta in Ho. fold call in Ho. fold o in Ho.
  destruct (suite_built _ _ _ _ _ Hh) as (_ & Hcfg & _).
  assert (takes_all (w_rw (start_world request w))) as Ht1 by by apply takes_all_start.
  assert (∀ err, answer quoted_printable (fixtures f) visit call = Err err → silent) as Hsilent.
  { intros err He. unfold silent. rewrite Ho, He, writeBackendError_disclosed by done.
    assert (disclosed (case_goerror err) = Some (public_of
      (simple_error ErrorInternal "The server encountered an internal error."))) as ->.
    { unfold disclosed, case_goerror. by destruct err. }
    apply error_answers; [|done..]. vm_compute. by split. }
  split.
  - intros fixture body [Hl Hn] Hm Hb Hs Hallowed json.
    assert (fixtures f !! firstHeader call caseHeader = Some fixture) as Hsome by by apply Hfix.
    pose proof (response_spec _ _ Hb) as Hr. cbv zeta in Hr.
    destruct (answer _ _ _ call) as [result|err].
    + destruct Hspec as (g & Hg & _ & Hres). rewrite Hsome in Hg. injection Hg as <-.
      assert (json && bool_decide (parse body = None) = false) as ->.
      { rewrite Hres in Hr. unfold json. destruct (string_empty body);
          [cbn [negb]; by rewrite andb_false_r|].
        destruct (Contains _ _); [|done]. cbn [negb] in Hr. destruct (parse body); [|done].
        by rewrite bool_decide_false. }
      rewrite Ho. apply (respond_bytes (oa_rest h) (request_id request) operation
        (validation_input (oa_rest h) (buffered request) route pathParams operation) fixture body result
        (traced (checks (oa_rest h) ++ [ActHandle call]) (start_world request w)));
        [done|exact Ht1|done|apply identified_start|by rewrite Hcfg|done..].
    + destruct Hspec as [[Hnone _]|(g & Hg & Hor)]; [congruence|].
      rewrite Hsome in Hg. injection Hg as <-. destruct Hor as [?|Herr]; [done|].
      rewrite Hr in Herr. unfold json. destruct (string_empty body); [done|].
      destruct (Contains _ _); [|done]. cbn [negb andb] in *. destruct (parse body); [done|].
      rewrite bool_decide_true by done. by apply (Hsilent err).
  - intros Hno. destruct (answer _ _ _ call) as [result|err]; [|by apply (Hsilent err)].
    destruct Hspec as (g & Hg & Hm & _). apply Hfix in Hg. by destruct (Hno g Hg).
Qed.

End FakeRest.

(** ** Witness *)

Definition example_models_case : SemanticFixture :=
  mkSemantic "listModels" "models" "" ∅ "" [] 200 "application/json" (EncodeToString empty_models).

Definition example_suite : FakeBackend := mkFake [] {[ "listModels" := example_models_case ]} [].

Definition example_suite_server : OpenAI.Handler :=
  match suite_server (λ _, None) (λ _, "") (λ _, "") example_suite map_to_list example_loader example_sockets with
  | Ok h => h
  | Err _ => example_openai
  end.

Definition example_case_request : HttpRequest :=
  mkHttpRequest "GET" "/v1/models" "" {[ caseHeader := ["listModels"] ]} "" false (Some "abcdefghijkl").

Lemma example_case_accepted :
  accepted (oa_rest example_suite_server) example_case_request "anonymous" example_route ∅ example_listModels.
Proof.
  split; [|done]. split; [|vm_compute; reflexivity]. split; [|reflexivity].
  split_and!; [reflexivity|by apply Z.leb_le|reflexivity].
Qed.

Lemma example_case_matches :
  request_matches (λ _, None) example_models_case
    (backend_request (request_id example_case_request) "anonymous" example_listModels ∅
      (buffered example_case_request) (r_Body example_case_request)).
Proof.
  apply (assertRequest_matches (λ _, None) [] example_models_case); [reflexivity|]. vm_compute. reflexivity.
Qed.

Lemma suite_answers_witness :
  answers_with (ServeOpenAI example_suite_server example_case_request (1%N, true) None (fresh_world true None))
    (request_id example_case_request) 200 empty_models.
Proof.
  refine (proj1 (suite_answers (λ _, None) (λ _, "") (λ _, "") [example_models_case] example_suite map_to_list
    example_loader example_sockets example_suite_server example_case_request (1%N, true) None
    (fresh_world true None) example_route ∅ example_listModels eq_refl (λ m, reflexivity _) eq_refl eq_refl
    (conj eq_refl eq_refl)
    eq_refl (or_intror (ex_intro _ "models" eq_refl)) eq_refl example_case_accepted eq_refl)
    example_models_case empty_models (conj _ eq_refl) example_case_matches eq_refl _ (or_introl eq_refl)).
  - by left.
  - cbn. lia.
Defined.
